(** * Lzlib: a shallow embedding of [Sources/lzlib/lzlib.c]

    The C code is embedded function by function.  Unsigned machine integers
    are values of [Z] with the wrap-around of their width written out
    ([u8], [u32], [u64]); [int] values are plain [Z] (signed overflow is
    undefined in C, and the ranges met here stay far from it).  A C array or
    a heap block is a total function from indices to cells; a struct is a
    record, a pointer to a struct member is the member itself, passed in and
    handed back.  A block obtained from [malloc] is an argument of the
    function that allocates it: [None] is the null pointer, [Some a] a block
    with arbitrary contents [a]. *)

From Stdlib Require Import ZArith List Bool Lia.
Import ListNotations.
Local Open Scope Z_scope.

(** ** Machine integers *)

Definition u8 (x : Z) : Z := x mod 2 ^ 8.
Definition u32 (x : Z) : Z := x mod 2 ^ 32.
Definition u64 (x : Z) : Z := x mod 2 ^ 64.

Definition b2z (b : bool) : Z := if b then 1 else 0.

(** ** Arrays and heap blocks *)

Definition array := Z -> Z.

Definition aset (a : array) (i v : Z) : array :=
  fun j => if j =? i then v else a j.

(** [aread a off n] is [a[off .. off+n-1]]. *)
Definition aread (a : array) (off : Z) (n : nat) : list Z :=
  map (fun k => a (off + Z.of_nat k)) (seq 0 n).

(** [awrite a off l] stores the cells of [l] at [a[off ..]]: the effect of
    [memcpy( a + off, l, length l )] from a block that does not overlap. *)
Definition awrite (a : array) (off : Z) (l : list Z) : array :=
  fun j => if (off <=? j) && (j <? off + Z.of_nat (length l))
           then nth (Z.to_nat (j - off)) l 0 else a j.

(** [memcpy( a + dst, a + src, n )] inside one block, the two areas disjoint. *)
Definition amemcpy (a : array) (dst src : Z) (n : Z) : array :=
  fun j => if (dst <=? j) && (j <? dst + n) then a (src + (j - dst)) else a j.

(** [for( i = 0; i < size; ++i ) a[off+i] = v;] *)
Definition afill (a : array) (off size v : Z) : array :=
  fun j => if (off <=? j) && (j <? off + size) then v else a j.

(** ** Error codes *)

Inductive LZ_Errno :=
  | LZ_ok | LZ_bad_argument | LZ_mem_error | LZ_sequence_error
  | LZ_header_error | LZ_unexpected_eof | LZ_data_error | LZ_library_error.

(** ** Coder states *)

Definition State := Z.
Definition states : Z := 12.

Definition St_is_char (st : State) : bool := st <? 7.

Definition St_set_char (st : State) : State :=
  nth (Z.to_nat st) [0; 0; 0; 0; 1; 2; 3; 4; 5; 6; 4; 5] 0.

Definition St_set_char_rep : State := 8.
Definition St_set_match (st : State) : State := if st <? 7 then 7 else 10.
Definition St_set_rep (st : State) : State := if st <? 7 then 8 else 11.
Definition St_set_short_rep (st : State) : State := if st <? 7 then 9 else 11.

(** ** Constants *)

Definition min_dictionary_bits : Z := 12.
Definition min_dictionary_size : Z := Z.shiftl 1 min_dictionary_bits.
Definition max_dictionary_bits : Z := 29.
Definition max_dictionary_size : Z := Z.shiftl 1 max_dictionary_bits.
Definition literal_context_bits : Z := 3.
Definition literal_pos_state_bits : Z := 0.
Definition pos_state_bits : Z := 2.
Definition pos_states : Z := Z.shiftl 1 pos_state_bits.
Definition pos_state_mask : Z := pos_states - 1.

Definition len_states : Z := 4.
Definition dis_slot_bits : Z := 6.
Definition start_dis_model : Z := 4.
Definition end_dis_model : Z := 14.
Definition modeled_distances : Z := Z.shiftl 1 (end_dis_model / 2).
Definition dis_align_bits : Z := 4.
Definition dis_align_size : Z := Z.shiftl 1 dis_align_bits.

Definition len_low_bits : Z := 3.
Definition len_mid_bits : Z := 3.
Definition len_high_bits : Z := 8.
Definition len_low_symbols : Z := Z.shiftl 1 len_low_bits.
Definition len_mid_symbols : Z := Z.shiftl 1 len_mid_bits.
Definition len_high_symbols : Z := Z.shiftl 1 len_high_bits.
Definition max_len_symbols : Z :=
  len_low_symbols + len_mid_symbols + len_high_symbols.

Definition min_match_len : Z := 2.
Definition max_match_len : Z := min_match_len + max_len_symbols - 1.
Definition min_match_len_limit : Z := 5.

Definition get_len_state (len : Z) : Z :=
  if len - min_match_len <=? len_states - 1
  then len - min_match_len else len_states - 1.

(** The argument is a [uint8_t]. *)
Definition get_lit_state (prev_byte : Z) : Z :=
  Z.shiftr (u8 prev_byte) (8 - literal_context_bits).

(** ** Bit models *)

Definition bit_model_move_bits : Z := 5.
Definition bit_model_total_bits : Z := 11.
Definition bit_model_total : Z := Z.shiftl 1 bit_model_total_bits.

Definition Bit_model := Z.

Definition Bm_init : Bit_model := bit_model_total / 2.

(** [Bm_array_init( bm + off, size )]. *)
Definition Bm_array_init (bm : array) (off size : Z) : array :=
  afill bm off size Bm_init.

Record Len_model := mkLen_model {
  lm_choice1 : Bit_model;
  lm_choice2 : Bit_model;
  lm_bm_low : array;    (* [pos_states][len_low_symbols] *)
  lm_bm_mid : array;    (* [pos_states][len_mid_symbols] *)
  lm_bm_high : array    (* [len_high_symbols] *)
}.

Definition Lm_init (lm : Len_model) : Len_model :=
  mkLen_model Bm_init Bm_init
    (Bm_array_init (lm_bm_low lm) 0 (pos_states * len_low_symbols))
    (Bm_array_init (lm_bm_mid lm) 0 (pos_states * len_mid_symbols))
    (Bm_array_init (lm_bm_high lm) 0 len_high_symbols).

(** ** CRC32 *)

Definition crc32 : list Z :=
  [
    0x00000000; 0x77073096; 0xEE0E612C; 0x990951BA;
    0x076DC419; 0x706AF48F; 0xE963A535; 0x9E6495A3;
    0x0EDB8832; 0x79DCB8A4; 0xE0D5E91E; 0x97D2D988;
    0x09B64C2B; 0x7EB17CBD; 0xE7B82D07; 0x90BF1D91;
    0x1DB71064; 0x6AB020F2; 0xF3B97148; 0x84BE41DE;
    0x1ADAD47D; 0x6DDDE4EB; 0xF4D4B551; 0x83D385C7;
    0x136C9856; 0x646BA8C0; 0xFD62F97A; 0x8A65C9EC;
    0x14015C4F; 0x63066CD9; 0xFA0F3D63; 0x8D080DF5;
    0x3B6E20C8; 0x4C69105E; 0xD56041E4; 0xA2677172;
    0x3C03E4D1; 0x4B04D447; 0xD20D85FD; 0xA50AB56B;
    0x35B5A8FA; 0x42B2986C; 0xDBBBC9D6; 0xACBCF940;
    0x32D86CE3; 0x45DF5C75; 0xDCD60DCF; 0xABD13D59;
    0x26D930AC; 0x51DE003A; 0xC8D75180; 0xBFD06116;
    0x21B4F4B5; 0x56B3C423; 0xCFBA9599; 0xB8BDA50F;
    0x2802B89E; 0x5F058808; 0xC60CD9B2; 0xB10BE924;
    0x2F6F7C87; 0x58684C11; 0xC1611DAB; 0xB6662D3D;
    0x76DC4190; 0x01DB7106; 0x98D220BC; 0xEFD5102A;
    0x71B18589; 0x06B6B51F; 0x9FBFE4A5; 0xE8B8D433;
    0x7807C9A2; 0x0F00F934; 0x9609A88E; 0xE10E9818;
    0x7F6A0DBB; 0x086D3D2D; 0x91646C97; 0xE6635C01;
    0x6B6B51F4; 0x1C6C6162; 0x856530D8; 0xF262004E;
    0x6C0695ED; 0x1B01A57B; 0x8208F4C1; 0xF50FC457;
    0x65B0D9C6; 0x12B7E950; 0x8BBEB8EA; 0xFCB9887C;
    0x62DD1DDF; 0x15DA2D49; 0x8CD37CF3; 0xFBD44C65;
    0x4DB26158; 0x3AB551CE; 0xA3BC0074; 0xD4BB30E2;
    0x4ADFA541; 0x3DD895D7; 0xA4D1C46D; 0xD3D6F4FB;
    0x4369E96A; 0x346ED9FC; 0xAD678846; 0xDA60B8D0;
    0x44042D73; 0x33031DE5; 0xAA0A4C5F; 0xDD0D7CC9;
    0x5005713C; 0x270241AA; 0xBE0B1010; 0xC90C2086;
    0x5768B525; 0x206F85B3; 0xB966D409; 0xCE61E49F;
    0x5EDEF90E; 0x29D9C998; 0xB0D09822; 0xC7D7A8B4;
    0x59B33D17; 0x2EB40D81; 0xB7BD5C3B; 0xC0BA6CAD;
    0xEDB88320; 0x9ABFB3B6; 0x03B6E20C; 0x74B1D29A;
    0xEAD54739; 0x9DD277AF; 0x04DB2615; 0x73DC1683;
    0xE3630B12; 0x94643B84; 0x0D6D6A3E; 0x7A6A5AA8;
    0xE40ECF0B; 0x9309FF9D; 0x0A00AE27; 0x7D079EB1;
    0xF00F9344; 0x8708A3D2; 0x1E01F268; 0x6906C2FE;
    0xF762575D; 0x806567CB; 0x196C3671; 0x6E6B06E7;
    0xFED41B76; 0x89D32BE0; 0x10DA7A5A; 0x67DD4ACC;
    0xF9B9DF6F; 0x8EBEEFF9; 0x17B7BE43; 0x60B08ED5;
    0xD6D6A3E8; 0xA1D1937E; 0x38D8C2C4; 0x4FDFF252;
    0xD1BB67F1; 0xA6BC5767; 0x3FB506DD; 0x48B2364B;
    0xD80D2BDA; 0xAF0A1B4C; 0x36034AF6; 0x41047A60;
    0xDF60EFC3; 0xA867DF55; 0x316E8EEF; 0x4669BE79;
    0xCB61B38C; 0xBC66831A; 0x256FD2A0; 0x5268E236;
    0xCC0C7795; 0xBB0B4703; 0x220216B9; 0x5505262F;
    0xC5BA3BBE; 0xB2BD0B28; 0x2BB45A92; 0x5CB36A04;
    0xC2D7FFA7; 0xB5D0CF31; 0x2CD99E8B; 0x5BDEAE1D;
    0x9B64C2B0; 0xEC63F226; 0x756AA39C; 0x026D930A;
    0x9C0906A9; 0xEB0E363F; 0x72076785; 0x05005713;
    0x95BF4A82; 0xE2B87A14; 0x7BB12BAE; 0x0CB61B38;
    0x92D28E9B; 0xE5D5BE0D; 0x7CDCEFB7; 0x0BDBDF21;
    0x86D3D2D4; 0xF1D4E242; 0x68DDB3F8; 0x1FDA836E;
    0x81BE16CD; 0xF6B9265B; 0x6FB077E1; 0x18B74777;
    0x88085AE6; 0xFF0F6A70; 0x66063BCA; 0x11010B5C;
    0x8F659EFF; 0xF862AE69; 0x616BFFD3; 0x166CCF45;
    0xA00AE278; 0xD70DD2EE; 0x4E048354; 0x3903B3C2;
    0xA7672661; 0xD06016F7; 0x4969474D; 0x3E6E77DB;
    0xAED16A4A; 0xD9D65ADC; 0x40DF0B66; 0x37D83BF0;
    0xA9BCAE53; 0xDEBB9EC5; 0x47B2CF7F; 0x30B5FFE9;
    0xBDBDF21C; 0xCABAC28A; 0x53B39330; 0x24B4A3A6;
    0xBAD03605; 0xCDD70693; 0x54DE5729; 0x23D967BF;
    0xB3667A2E; 0xC4614AB8; 0x5D681B02; 0x2A6F2B94;
    0xB40BBE37; 0xC30C8EA1; 0x5A05DF1B; 0x2D02EF8D
  ].

Definition crc32_at (i : Z) : Z := nth (Z.to_nat i) crc32 0.

Definition CRC32_update_byte (crc byte : Z) : Z :=
  Z.lxor (crc32_at (Z.land (Z.lxor crc (u8 byte)) 0xFF)) (Z.shiftr crc 8).

(** [CRC32_update_buf( &crc, buffer + off, size )]. *)
Fixpoint CRC32_update_buf_loop (n : nat) (c : Z) (buffer : array) (i : Z) : Z :=
  match n with
  | O => c
  | S n' =>
      CRC32_update_buf_loop n'
        (Z.lxor (crc32_at (Z.land (Z.lxor c (buffer i)) 0xFF)) (Z.shiftr c 8))
        buffer (i + 1)
  end.

Definition CRC32_update_buf (crc : Z) (buffer : array) (off size : Z) : Z :=
  CRC32_update_buf_loop (Z.to_nat size) crc buffer off.

(** ** Member header *)

Definition isvalid_ds (dictionary_size : Z) : bool :=
  (min_dictionary_size <=? dictionary_size) &&
  (dictionary_size <=? max_dictionary_size).

(** [while( value > 0 ) { value >>= 1; ++bits; }]: an [unsigned] is exhausted
    after 32 shifts. *)
Fixpoint real_bits_loop (fuel : nat) (value bits : Z) : Z :=
  match fuel with
  | O => bits
  | S fuel' =>
      if 0 <? value then real_bits_loop fuel' (Z.shiftr value 1) (bits + 1)
      else bits
  end.

Definition real_bits (value : Z) : Z := real_bits_loop 32 value 0.

Definition lzip_magic : list Z := [0x4C; 0x5A; 0x49; 0x50].

(** [typedef uint8_t Lzip_header[6]]. *)
Definition Lzip_header := array.
Definition Lh_size : Z := 6.

Definition Lh_set_magic (data : Lzip_header) : Lzip_header :=
  aset (awrite data 0 lzip_magic) 4 1.

Definition Lh_verify_magic (data : Lzip_header) : bool :=
  forallb (fun i => data (Z.of_nat i) =? nth i lzip_magic 0) (seq 0 4).

Fixpoint Lh_verify_prefix_loop (n : nat) (data : Lzip_header) (sz i : Z) : bool :=
  match n with
  | O => 0 <? sz
  | S n' =>
      if (i <? sz) && (i <? 4) then
        if negb (data i =? nth (Z.to_nat i) lzip_magic 0) then false
        else Lh_verify_prefix_loop n' data sz (i + 1)
      else 0 <? sz
  end.

Definition Lh_verify_prefix (data : Lzip_header) (sz : Z) : bool :=
  Lh_verify_prefix_loop 5 data sz 0.

Definition Lh_verify_corrupt (data : Lzip_header) : bool :=
  let matches :=
    fold_left
      (fun m i => if data (Z.of_nat i) =? nth i lzip_magic 0 then m + 1 else m)
      (seq 0 4) 0 in
  (1 <? matches) && (matches <? 4).

Definition Lh_version (data : Lzip_header) : Z := data 4.

Definition Lh_verify_version (data : Lzip_header) : bool := data 4 =? 1.

Definition Lh_get_dictionary_size (data : Lzip_header) : Z :=
  let sz := u32 (Z.shiftl 1 (Z.land (data 5) 0x1F)) in
  if min_dictionary_size <? sz
  then u32 (sz - (sz / 16) * Z.land (Z.shiftr (data 5) 5) 7)
  else sz.

(** [for( i = 7; i >= 1; --i ) if( base_size - ( i * fraction ) >= sz )
    { data[5] |= ( i << 5 ); break; }], [n] the iterations left. *)
Fixpoint Lh_set_dictionary_size_loop (n : nat) (i : Z) (base_size fraction sz : Z)
    (data : Lzip_header) : Lzip_header :=
  match n with
  | O => data
  | S n' =>
      if sz <=? u32 (base_size - i * fraction)
      then aset data 5 (u8 (Z.lor (data 5) (Z.shiftl i 5)))
      else Lh_set_dictionary_size_loop n' (i - 1) base_size fraction sz data
  end.

Definition Lh_set_dictionary_size (data : Lzip_header) (sz : Z)
    : bool * Lzip_header :=
  if negb (isvalid_ds sz) then (false, data) else
  let data := aset data 5 (u8 (real_bits (u32 (sz - 1)))) in
  if min_dictionary_size <? sz then
    let base_size := u32 (Z.shiftl 1 (data 5)) in
    let fraction := base_size / 16 in
    (true, Lh_set_dictionary_size_loop 7 7 base_size fraction sz data)
  else (true, data).

Definition Lh_verify (data : Lzip_header) : bool :=
  Lh_verify_magic data && Lh_verify_version data &&
  isvalid_ds (Lh_get_dictionary_size data).

(** ** Member trailer *)

(** [typedef uint8_t Lzip_trailer[20]]. *)
Definition Lzip_trailer := array.
Definition Lt_size : Z := 20.

(** [for( i = hi; i >= lo; --i ) { tmp <<= 8; tmp += data[i]; }] for a [tmp]
    that wraps as [wrap] says; [n] counts the iterations left. *)
Fixpoint Lt_get_loop (wrap : Z -> Z) (n : nat) (data : Lzip_trailer) (i tmp : Z) : Z :=
  match n with
  | O => tmp
  | S n' => Lt_get_loop wrap n' data (i - 1) (wrap (wrap (Z.shiftl tmp 8) + data i))
  end.

Definition Lt_get_data_crc (data : Lzip_trailer) : Z := Lt_get_loop u32 4 data 3 0.
Definition Lt_get_data_size (data : Lzip_trailer) : Z := Lt_get_loop u64 8 data 11 0.
Definition Lt_get_member_size (data : Lzip_trailer) : Z := Lt_get_loop u64 8 data 19 0.

(** [for( i = lo; i <= hi; ++i ) { data[i] = (uint8_t)v; v >>= 8; }]. *)
Fixpoint Lt_set_loop (n : nat) (data : Lzip_trailer) (i v : Z) : Lzip_trailer :=
  match n with
  | O => data
  | S n' => Lt_set_loop n' (aset data i (u8 v)) (i + 1) (Z.shiftr v 8)
  end.

Definition Lt_set_data_crc (data : Lzip_trailer) (crc : Z) : Lzip_trailer :=
  Lt_set_loop 4 data 0 crc.
Definition Lt_set_data_size (data : Lzip_trailer) (sz : Z) : Lzip_trailer :=
  Lt_set_loop 8 data 4 sz.
Definition Lt_set_member_size (data : Lzip_trailer) (sz : Z) : Lzip_trailer :=
  Lt_set_loop 8 data 12 sz.

(** ** Circular buffer *)

Record Circular_buffer := mkCb {
  cb_buffer : array;
  cb_buffer_size : Z;
  cb_get : Z;
  cb_put : Z
}.

Definition cb_with_buffer (cb : Circular_buffer) (b : array) :=
  mkCb b (cb_buffer_size cb) (cb_get cb) (cb_put cb).
Definition cb_with_get (cb : Circular_buffer) (g : Z) :=
  mkCb (cb_buffer cb) (cb_buffer_size cb) g (cb_put cb).
Definition cb_with_put (cb : Circular_buffer) (p : Z) :=
  mkCb (cb_buffer cb) (cb_buffer_size cb) (cb_get cb) p.

(** [block] is what [malloc( cb->buffer_size )] returns. *)
Definition Cb_init (block : option array) (buf_size : Z) : option Circular_buffer :=
  let buffer_size := u32 (buf_size + 1) in
  match (if 1 <? buffer_size then block else None) with
  | Some buffer => Some (mkCb buffer buffer_size 0 0)
  | None => None
  end.

Definition Cb_reset (cb : Circular_buffer) : Circular_buffer :=
  cb_with_put (cb_with_get cb 0) 0.

Definition Cb_empty (cb : Circular_buffer) : bool := cb_get cb =? cb_put cb.

Definition Cb_used_bytes (cb : Circular_buffer) : Z :=
  u32 ((if cb_get cb <=? cb_put cb then 0 else cb_buffer_size cb)
       + cb_put cb - cb_get cb).

Definition Cb_free_bytes (cb : Circular_buffer) : Z :=
  u32 ((if cb_get cb <=? cb_put cb then cb_buffer_size cb else 0)
       - cb_put cb + cb_get cb - 1).

Definition Cb_get_byte (cb : Circular_buffer) : Z * Circular_buffer :=
  let b := cb_buffer cb (cb_get cb) in
  let get := u32 (cb_get cb + 1) in
  (b, cb_with_get cb (if cb_buffer_size cb <=? get then 0 else get)).

Definition Cb_put_byte (cb : Circular_buffer) (b : Z) : Circular_buffer :=
  let cb := cb_with_buffer cb (aset (cb_buffer cb) (cb_put cb) (u8 b)) in
  let put := u32 (cb_put cb + 1) in
  cb_with_put cb (if cb_buffer_size cb <=? put then 0 else put).

Definition Cb_unread_data (cb : Circular_buffer) (size : Z)
    : bool * Circular_buffer :=
  if Cb_free_bytes cb <? size then (false, cb) else
  if size <=? cb_get cb then (true, cb_with_get cb (u32 (cb_get cb - size)))
  else (true, cb_with_get cb (u32 (cb_buffer_size cb - size + cb_get cb))).

(** The bytes copied to [out_buffer] are returned next to their count. *)
Definition Cb_read_data (cb : Circular_buffer) (out_size : Z)
    : Z * list Z * Circular_buffer :=
  if out_size =? 0 then (0, [], cb) else
  let '(size, out, cb) :=
    if cb_put cb <? cb_get cb then
      let size := Z.min (u32 (cb_buffer_size cb - cb_get cb)) out_size in
      if 0 <? size then
        let out := aread (cb_buffer cb) (cb_get cb) (Z.to_nat size) in
        let get := u32 (cb_get cb + size) in
        (size, out, cb_with_get cb (if cb_buffer_size cb <=? get then 0 else get))
      else (size, [], cb)
    else (0, [], cb) in
  if cb_get cb <? cb_put cb then
    let size2 := Z.min (u32 (cb_put cb - cb_get cb)) (u32 (out_size - size)) in
    if 0 <? size2 then
      (u32 (size + size2),
       out ++ aread (cb_buffer cb) (cb_get cb) (Z.to_nat size2),
       cb_with_get cb (u32 (cb_get cb + size2)))
    else (size, out, cb)
  else (size, out, cb).

Definition Cb_write_data (cb : Circular_buffer) (in_buffer : list Z) (in_size : Z)
    : Z * Circular_buffer :=
  if in_size =? 0 then (0, cb) else
  let '(size, cb) :=
    if cb_get cb <=? cb_put cb then
      let size :=
        Z.min (u32 (cb_buffer_size cb - cb_put cb - b2z (cb_get cb =? 0))) in_size in
      if 0 <? size then
        let buffer :=
          awrite (cb_buffer cb) (cb_put cb) (firstn (Z.to_nat size) in_buffer) in
        let put := u32 (cb_put cb + size) in
        (size, cb_with_put (cb_with_buffer cb buffer)
                 (if cb_buffer_size cb <=? put then 0 else put))
      else (size, cb)
    else (0, cb) in
  if cb_put cb <? cb_get cb then
    let size2 := Z.min (u32 (cb_get cb - cb_put cb - 1)) (u32 (in_size - size)) in
    if 0 <? size2 then
      let buffer :=
        awrite (cb_buffer cb) (cb_put cb)
               (firstn (Z.to_nat size2) (skipn (Z.to_nat size) in_buffer)) in
      (u32 (size + size2),
       cb_with_put (cb_with_buffer cb buffer) (u32 (cb_put cb + size2)))
    else (size, cb)
  else (size, cb).

(** ** Range decoder *)

Definition rd_min_available_bytes : Z := 10.

Record Range_decoder := mkRd {
  rd_cb : Circular_buffer;
  rd_member_position : Z;      (* unsigned long long *)
  rd_code : Z;                 (* uint32_t *)
  rd_range : Z;                (* uint32_t *)
  rd_at_stream_end : bool;
  rd_reload_pending : bool
}.

Definition rd_with_cb (r : Range_decoder) (cb : Circular_buffer) :=
  mkRd cb (rd_member_position r) (rd_code r) (rd_range r)
       (rd_at_stream_end r) (rd_reload_pending r).
Definition rd_with_member_position (r : Range_decoder) (p : Z) :=
  mkRd (rd_cb r) p (rd_code r) (rd_range r)
       (rd_at_stream_end r) (rd_reload_pending r).
Definition rd_with_code (r : Range_decoder) (c : Z) :=
  mkRd (rd_cb r) (rd_member_position r) c (rd_range r)
       (rd_at_stream_end r) (rd_reload_pending r).
Definition rd_with_range (r : Range_decoder) (g : Z) :=
  mkRd (rd_cb r) (rd_member_position r) (rd_code r) g
       (rd_at_stream_end r) (rd_reload_pending r).
Definition rd_with_at_stream_end (r : Range_decoder) (b : bool) :=
  mkRd (rd_cb r) (rd_member_position r) (rd_code r) (rd_range r)
       b (rd_reload_pending r).
Definition rd_with_reload_pending (r : Range_decoder) (b : bool) :=
  mkRd (rd_cb r) (rd_member_position r) (rd_code r) (rd_range r)
       (rd_at_stream_end r) b.

Definition Rd_init (block : option array) : option Range_decoder :=
  match Cb_init block (65536 + rd_min_available_bytes) with
  | None => None
  | Some cb => Some (mkRd cb 0 0 0xFFFFFFFF false false)
  end.

Definition Rd_finished (rdec : Range_decoder) : bool :=
  rd_at_stream_end rdec && Cb_empty (rd_cb rdec).

Definition Rd_finish (rdec : Range_decoder) : Range_decoder :=
  rd_with_at_stream_end rdec true.

Definition Rd_enough_available_bytes (rdec : Range_decoder) : bool :=
  rd_min_available_bytes <=? Cb_used_bytes (rd_cb rdec).

Definition Rd_available_bytes (rdec : Range_decoder) : Z :=
  Cb_used_bytes (rd_cb rdec).

Definition Rd_free_bytes (rdec : Range_decoder) : Z :=
  if rd_at_stream_end rdec then 0 else Cb_free_bytes (rd_cb rdec).

Definition Rd_purge (rdec : Range_decoder) : Z * Range_decoder :=
  let size := u64 (rd_member_position rdec + Cb_used_bytes (rd_cb rdec)) in
  let rdec := rd_with_cb rdec (Cb_reset (rd_cb rdec)) in
  (size, rd_with_at_stream_end (rd_with_member_position rdec 0) true).

Definition Rd_reset (rdec : Range_decoder) : Range_decoder :=
  let rdec := rd_with_cb rdec (Cb_reset (rd_cb rdec)) in
  rd_with_at_stream_end (rd_with_member_position rdec 0) false.

(** The inner [for] of [Rd_find_header]: copies up to [Lh_size] bytes from
    [get] on; [None] when [put] is met first. *)
Fixpoint Rd_find_header_peek (n : nat) (cb : Circular_buffer) (get i : Z)
    (header : Lzip_header) : option Lzip_header :=
  match n with
  | O => Some header
  | S n' =>
      if get =? cb_put cb then None else
      let header := aset header i (cb_buffer cb get) in
      let get := u32 (get + 1) in
      Rd_find_header_peek n' cb (if cb_buffer_size cb <=? get then 0 else get)
                          (i + 1) header
  end.

(** [while( rdec->cb.get != rdec->cb.put )]: every round that does not return
    consumes one byte, so [fuel] above the bytes in the buffer is enough. *)
Fixpoint Rd_find_header_loop (fuel : nat) (rdec : Range_decoder) (skipped : Z)
    : bool * Z * Range_decoder :=
  match fuel with
  | O => (false, skipped, rdec)
  | S fuel' =>
      let cb := rd_cb rdec in
      if cb_get cb =? cb_put cb then (false, skipped, rdec) else
      let found :=
        if cb_buffer cb (cb_get cb) =? nth 0 lzip_magic 0 then
          match Rd_find_header_peek 6 cb (cb_get cb) 0 (fun _ => 0) with
          | None => Some false
          | Some header => if Lh_verify header then Some true else None
          end
        else None in
      match found with
      | Some b => (b, skipped, rdec)
      | None =>
          let get := u32 (cb_get cb + 1) in
          Rd_find_header_loop fuel'
            (rd_with_cb rdec
               (cb_with_get cb (if cb_buffer_size cb <=? get then 0 else get)))
            (u32 (skipped + 1))
      end
  end.

Definition Rd_find_header (rdec : Range_decoder) : bool * Z * Range_decoder :=
  Rd_find_header_loop (S (Z.to_nat (cb_buffer_size (rd_cb rdec)))) rdec 0.

Definition Rd_write_data (rdec : Range_decoder) (inbuf : list Z) (size : Z)
    : Z * Range_decoder :=
  if rd_at_stream_end rdec || (size <=? 0) then (0, rdec) else
  let '(n, cb) := Cb_write_data (rd_cb rdec) inbuf (u32 size) in
  (n, rd_with_cb rdec cb).

Definition Rd_get_byte (rdec : Range_decoder) : Z * Range_decoder :=
  if Rd_finished rdec then (0xFF, rdec) else
  let rdec := rd_with_member_position rdec (u64 (rd_member_position rdec + 1)) in
  let '(b, cb) := Cb_get_byte (rd_cb rdec) in
  (b, rd_with_cb rdec cb).

Definition Rd_read_data (rdec : Range_decoder) (size : Z)
    : Z * list Z * Range_decoder :=
  let '(sz, out, cb) := Cb_read_data (rd_cb rdec) (u32 size) in
  let rdec := rd_with_cb rdec cb in
  if 0 <? sz
  then (sz, out, rd_with_member_position rdec (u64 (rd_member_position rdec + sz)))
  else (sz, out, rdec).

Definition Rd_unread_data (rdec : Range_decoder) (size : Z)
    : bool * Range_decoder :=
  if rd_member_position rdec <? size then (false, rdec) else
  let '(ok, cb) := Cb_unread_data (rd_cb rdec) size in
  if negb ok then (false, rd_with_cb rdec cb) else
  let rdec := rd_with_cb rdec cb in
  (true, rd_with_member_position rdec (u64 (rd_member_position rdec - size))).

(** [for( i = 0; i < 5; ++i ) rdec->code = (rdec->code << 8) | Rd_get_byte( rdec );] *)
Fixpoint Rd_try_reload_loop (n : nat) (rdec : Range_decoder) : Range_decoder :=
  match n with
  | O => rdec
  | S n' =>
      let '(b, rdec) := Rd_get_byte rdec in
      Rd_try_reload_loop n'
        (rd_with_code rdec (Z.lor (u32 (Z.shiftl (rd_code rdec) 8)) b))
  end.

Definition Rd_try_reload (rdec : Range_decoder) : bool * Range_decoder :=
  let rdec :=
    if rd_reload_pending rdec && (5 <=? Rd_available_bytes rdec) then
      let rdec := rd_with_reload_pending rdec false in
      let rdec := rd_with_code rdec 0 in
      let rdec := Rd_try_reload_loop 5 rdec in
      let rdec := rd_with_range rdec 0xFFFFFFFF in
      rd_with_code rdec (Z.land (rd_code rdec) (rd_range rdec))
    else rdec in
  (negb (rd_reload_pending rdec), rdec).

Definition Rd_normalize (rdec : Range_decoder) : Range_decoder :=
  if rd_range rdec <=? 0x00FFFFFF then
    let rdec := rd_with_range rdec (u32 (Z.shiftl (rd_range rdec) 8)) in
    let '(b, rdec) := Rd_get_byte rdec in
    rd_with_code rdec (Z.lor (u32 (Z.shiftl (rd_code rdec) 8)) b)
  else rdec.

(** One round of the loop of [Rd_decode]. *)
Definition Rd_decode_round (rdec : Range_decoder) (symbol : Z)
    : Z * Range_decoder :=
  let rdec := Rd_normalize rdec in
  let rdec := rd_with_range rdec (Z.shiftr (rd_range rdec) 1) in
  let bit := b2z (rd_range rdec <=? rd_code rdec) in
  let symbol := u32 (u32 (Z.shiftl symbol 1) + bit) in
  (symbol,
   rd_with_code rdec
     (u32 (rd_code rdec - Z.land (rd_range rdec) (u32 (0 - bit))))).

Fixpoint Rd_decode_loop (n : nat) (rdec : Range_decoder) (symbol : Z)
    : Z * Range_decoder :=
  match n with
  | O => (symbol, rdec)
  | S n' =>
      let '(symbol, rdec) := Rd_decode_round rdec symbol in
      Rd_decode_loop n' rdec symbol
  end.

Definition Rd_decode (rdec : Range_decoder) (num_bits : Z) : Z * Range_decoder :=
  Rd_decode_loop (Z.to_nat num_bits) rdec 0.

(** [Rd_decode_bit( rdec, &probability )]: the bit, the decoder and the
    probability left in the model. *)
Definition Rd_decode_bit (rdec : Range_decoder) (probability : Bit_model)
    : Z * Range_decoder * Bit_model :=
  let rdec := Rd_normalize rdec in
  let bound := u32 (Z.shiftr (rd_range rdec) bit_model_total_bits * probability) in
  if rd_code rdec <? bound then
    let probability :=
      probability + Z.shiftr (bit_model_total - probability) bit_model_move_bits in
    (0, rd_with_range rdec bound, probability)
  else
    let probability := probability - Z.shiftr probability bit_model_move_bits in
    let rdec := rd_with_code rdec (u32 (rd_code rdec - bound)) in
    (1, rd_with_range rdec (u32 (rd_range rdec - bound)), probability).

(** [Rd_decode_bit( rdec, &bm[i] )]. *)
Definition Rd_decode_bit_at (rdec : Range_decoder) (bm : array) (i : Z)
    : Z * Range_decoder * array :=
  let '(bit, rdec, p) := Rd_decode_bit rdec (bm i) in
  (bit, rdec, aset bm i p).

(** In the tree decoders [bm] is the array and [off] the index of the cell
    the C pointer [bm] points to. *)
Definition Rd_decode_tree3 (rdec : Range_decoder) (bm : array) (off : Z)
    : Z * Range_decoder * array :=
  let '(bit, rdec, bm) := Rd_decode_bit_at rdec bm (off + 1) in
  let symbol := Z.lor 2 bit in
  let '(bit, rdec, bm) := Rd_decode_bit_at rdec bm (off + symbol) in
  let symbol := Z.lor (u32 (Z.shiftl symbol 1)) bit in
  let '(bit, rdec, bm) := Rd_decode_bit_at rdec bm (off + symbol) in
  let symbol := Z.lor (u32 (Z.shiftl symbol 1)) bit in
  (Z.land symbol 7, rdec, bm).

Definition Rd_decode_tree6 (rdec : Range_decoder) (bm : array) (off : Z)
    : Z * Range_decoder * array :=
  let '(bit, rdec, bm) := Rd_decode_bit_at rdec bm (off + 1) in
  let symbol := Z.lor 2 bit in
  let '(bit, rdec, bm) := Rd_decode_bit_at rdec bm (off + symbol) in
  let symbol := Z.lor (u32 (Z.shiftl symbol 1)) bit in
  let '(bit, rdec, bm) := Rd_decode_bit_at rdec bm (off + symbol) in
  let symbol := Z.lor (u32 (Z.shiftl symbol 1)) bit in
  let '(bit, rdec, bm) := Rd_decode_bit_at rdec bm (off + symbol) in
  let symbol := Z.lor (u32 (Z.shiftl symbol 1)) bit in
  let '(bit, rdec, bm) := Rd_decode_bit_at rdec bm (off + symbol) in
  let symbol := Z.lor (u32 (Z.shiftl symbol 1)) bit in
  let '(bit, rdec, bm) := Rd_decode_bit_at rdec bm (off + symbol) in
  let symbol := Z.lor (u32 (Z.shiftl symbol 1)) bit in
  (Z.land symbol 0x3F, rdec, bm).

Fixpoint Rd_decode_tree8_loop (n : nat) (rdec : Range_decoder) (bm : array)
    (off symbol : Z) : Z * Range_decoder * array :=
  match n with
  | O => (symbol, rdec, bm)
  | S n' =>
      let '(bit, rdec, bm) := Rd_decode_bit_at rdec bm (off + symbol) in
      Rd_decode_tree8_loop n' rdec bm off (Z.lor (u32 (Z.shiftl symbol 1)) bit)
  end.

Definition Rd_decode_tree8 (rdec : Range_decoder) (bm : array) (off : Z)
    : Z * Range_decoder * array :=
  let '(symbol, rdec, bm) := Rd_decode_tree8_loop 8 rdec bm off 1 in
  (Z.land symbol 0xFF, rdec, bm).

(** [for( i = 0; i < num_bits; ++i )], [n] the rounds left. *)
Fixpoint Rd_decode_tree_reversed_loop (n : nat) (rdec : Range_decoder)
    (bm : array) (off model symbol i : Z) : Z * Range_decoder * array :=
  match n with
  | O => (symbol, rdec, bm)
  | S n' =>
      let '(bit, rdec, bm) := Rd_decode_bit_at rdec bm (off + model) in
      let model := u32 (u32 (Z.shiftl model 1) + bit) in
      let symbol := Z.lor symbol (u32 (Z.shiftl bit i)) in
      Rd_decode_tree_reversed_loop n' rdec bm off model symbol (i + 1)
  end.

Definition Rd_decode_tree_reversed (rdec : Range_decoder) (bm : array)
    (off num_bits : Z) : Z * Range_decoder * array :=
  Rd_decode_tree_reversed_loop (Z.to_nat num_bits) rdec bm off 1 0 0.

Definition Rd_decode_tree_reversed4 (rdec : Range_decoder) (bm : array) (off : Z)
    : Z * Range_decoder * array :=
  let '(bit, rdec, bm) := Rd_decode_bit_at rdec bm (off + 1) in
  let symbol := bit in
  let '(bit, rdec, bm) := Rd_decode_bit_at rdec bm (off + (2 + symbol)) in
  let symbol := u32 (symbol + u32 (Z.shiftl bit 1)) in
  let '(bit, rdec, bm) := Rd_decode_bit_at rdec bm (off + (4 + symbol)) in
  let symbol := u32 (symbol + u32 (Z.shiftl bit 2)) in
  let '(bit, rdec, bm) := Rd_decode_bit_at rdec bm (off + (8 + symbol)) in
  let symbol := u32 (symbol + u32 (Z.shiftl bit 3)) in
  (symbol, rdec, bm).

(** [while( 1 )] of [Rd_decode_matched]: [symbol] starts at 1 and doubles
    every round, so the eighth round returns; the fuel is 8. *)
Fixpoint Rd_decode_matched_loop (fuel : nat) (rdec : Range_decoder) (bm : array)
    (off match_byte symbol mask : Z) : Z * Range_decoder * array :=
  match fuel with
  | O => (Z.land symbol 0xFF, rdec, bm)
  | S fuel' =>
      let match_byte := u32 (Z.shiftl match_byte 1) in
      let match_bit := Z.land match_byte mask in
      let '(bit, rdec, bm) :=
        Rd_decode_bit_at rdec bm (off + u32 (symbol + match_bit + mask)) in
      let symbol := u32 (u32 (Z.shiftl symbol 1) + bit) in
      if 0xFF <? symbol then (Z.land symbol 0xFF, rdec, bm) else
      let mask :=
        Z.land mask (u32 (Z.lnot (Z.lxor match_bit (u32 (Z.shiftl bit 8))))) in
      Rd_decode_matched_loop fuel' rdec bm off match_byte symbol mask
  end.

Definition Rd_decode_matched (rdec : Range_decoder) (bm : array)
    (off match_byte : Z) : Z * Range_decoder * array :=
  Rd_decode_matched_loop 8 rdec bm off match_byte 1 0x100.

Definition Rd_decode_len (rdec : Range_decoder) (lm : Len_model) (pos_state : Z)
    : Z * Range_decoder * Len_model :=
  let '(bit, rdec, c1) := Rd_decode_bit rdec (lm_choice1 lm) in
  let lm := mkLen_model c1 (lm_choice2 lm) (lm_bm_low lm) (lm_bm_mid lm)
                        (lm_bm_high lm) in
  if bit =? 0 then
    let '(s, rdec, a) :=
      Rd_decode_tree3 rdec (lm_bm_low lm) (pos_state * len_low_symbols) in
    (s, rdec, mkLen_model (lm_choice1 lm) (lm_choice2 lm) a (lm_bm_mid lm)
                          (lm_bm_high lm))
  else
  let '(bit, rdec, c2) := Rd_decode_bit rdec (lm_choice2 lm) in
  let lm := mkLen_model (lm_choice1 lm) c2 (lm_bm_low lm) (lm_bm_mid lm)
                        (lm_bm_high lm) in
  if bit =? 0 then
    let '(s, rdec, a) :=
      Rd_decode_tree3 rdec (lm_bm_mid lm) (pos_state * len_mid_symbols) in
    (u32 (len_low_symbols + s), rdec,
     mkLen_model (lm_choice1 lm) (lm_choice2 lm) (lm_bm_low lm) a (lm_bm_high lm))
  else
    let '(s, rdec, a) := Rd_decode_tree8 rdec (lm_bm_high lm) 0 in
    (u32 (len_low_symbols + len_mid_symbols + s), rdec,
     mkLen_model (lm_choice1 lm) (lm_choice2 lm) (lm_bm_low lm) (lm_bm_mid lm) a).

(** ** LZ decoder

    [struct LZ_decoder] keeps a pointer [rdec] to the range decoder owned by
    the [LZ_Decoder] handle; the functions below take that one range decoder
    next to the LZ decoder and hand both back, so there is a single copy. *)

Definition lzd_min_free_bytes : Z := max_match_len.

Record LZ_decoder := mkLZd {
  lzd_cb : Circular_buffer;
  lzd_partial_data_pos : Z;   (* unsigned long long *)
  lzd_dictionary_size : Z;   (* unsigned *)
  lzd_crc : Z;   (* uint32_t *)
  lzd_member_finished : bool;
  lzd_verify_trailer_pending : bool;
  lzd_pos_wrapped : bool;
  lzd_rep0 : Z;   (* unsigned *)
  lzd_rep1 : Z;
  lzd_rep2 : Z;
  lzd_rep3 : Z;
  lzd_state : State;
  lzd_bm_literal : array;   (* [1<<literal_context_bits][0x300] *)
  lzd_bm_match : array;   (* [states][pos_states] *)
  lzd_bm_rep : array;   (* [states] *)
  lzd_bm_rep0 : array;   (* [states] *)
  lzd_bm_rep1 : array;   (* [states] *)
  lzd_bm_rep2 : array;   (* [states] *)
  lzd_bm_len : array;   (* [states][pos_states] *)
  lzd_bm_dis_slot : array;   (* [len_states][1<<dis_slot_bits] *)
  lzd_bm_dis : array;   (* [modeled_distances-end_dis_model+1] *)
  lzd_bm_align : array;   (* [dis_align_size] *)
  lzd_match_len_model : Len_model;
  lzd_rep_len_model : Len_model
}.

Definition lzd_with_cb (d : LZ_decoder) (v : Circular_buffer) : LZ_decoder :=
  mkLZd v (lzd_partial_data_pos d) (lzd_dictionary_size d) (lzd_crc d)
    (lzd_member_finished d) (lzd_verify_trailer_pending d) (lzd_pos_wrapped d)
    (lzd_rep0 d) (lzd_rep1 d) (lzd_rep2 d) (lzd_rep3 d) (lzd_state d)
    (lzd_bm_literal d) (lzd_bm_match d) (lzd_bm_rep d) (lzd_bm_rep0 d)
    (lzd_bm_rep1 d) (lzd_bm_rep2 d) (lzd_bm_len d) (lzd_bm_dis_slot d)
    (lzd_bm_dis d) (lzd_bm_align d) (lzd_match_len_model d)
    (lzd_rep_len_model d).
Definition lzd_with_partial_data_pos (d : LZ_decoder) (v : Z) : LZ_decoder :=
  mkLZd (lzd_cb d) v (lzd_dictionary_size d) (lzd_crc d)
    (lzd_member_finished d) (lzd_verify_trailer_pending d) (lzd_pos_wrapped d)
    (lzd_rep0 d) (lzd_rep1 d) (lzd_rep2 d) (lzd_rep3 d) (lzd_state d)
    (lzd_bm_literal d) (lzd_bm_match d) (lzd_bm_rep d) (lzd_bm_rep0 d)
    (lzd_bm_rep1 d) (lzd_bm_rep2 d) (lzd_bm_len d) (lzd_bm_dis_slot d)
    (lzd_bm_dis d) (lzd_bm_align d) (lzd_match_len_model d)
    (lzd_rep_len_model d).
Definition lzd_with_dictionary_size (d : LZ_decoder) (v : Z) : LZ_decoder :=
  mkLZd (lzd_cb d) (lzd_partial_data_pos d) v (lzd_crc d)
    (lzd_member_finished d) (lzd_verify_trailer_pending d) (lzd_pos_wrapped d)
    (lzd_rep0 d) (lzd_rep1 d) (lzd_rep2 d) (lzd_rep3 d) (lzd_state d)
    (lzd_bm_literal d) (lzd_bm_match d) (lzd_bm_rep d) (lzd_bm_rep0 d)
    (lzd_bm_rep1 d) (lzd_bm_rep2 d) (lzd_bm_len d) (lzd_bm_dis_slot d)
    (lzd_bm_dis d) (lzd_bm_align d) (lzd_match_len_model d)
    (lzd_rep_len_model d).
Definition lzd_with_crc (d : LZ_decoder) (v : Z) : LZ_decoder :=
  mkLZd (lzd_cb d) (lzd_partial_data_pos d) (lzd_dictionary_size d) v
    (lzd_member_finished d) (lzd_verify_trailer_pending d) (lzd_pos_wrapped d)
    (lzd_rep0 d) (lzd_rep1 d) (lzd_rep2 d) (lzd_rep3 d) (lzd_state d)
    (lzd_bm_literal d) (lzd_bm_match d) (lzd_bm_rep d) (lzd_bm_rep0 d)
    (lzd_bm_rep1 d) (lzd_bm_rep2 d) (lzd_bm_len d) (lzd_bm_dis_slot d)
    (lzd_bm_dis d) (lzd_bm_align d) (lzd_match_len_model d)
    (lzd_rep_len_model d).
Definition lzd_with_member_finished (d : LZ_decoder) (v : bool) : LZ_decoder :=
  mkLZd (lzd_cb d) (lzd_partial_data_pos d) (lzd_dictionary_size d)
    (lzd_crc d) v (lzd_verify_trailer_pending d) (lzd_pos_wrapped d)
    (lzd_rep0 d) (lzd_rep1 d) (lzd_rep2 d) (lzd_rep3 d) (lzd_state d)
    (lzd_bm_literal d) (lzd_bm_match d) (lzd_bm_rep d) (lzd_bm_rep0 d)
    (lzd_bm_rep1 d) (lzd_bm_rep2 d) (lzd_bm_len d) (lzd_bm_dis_slot d)
    (lzd_bm_dis d) (lzd_bm_align d) (lzd_match_len_model d)
    (lzd_rep_len_model d).
Definition lzd_with_verify_trailer_pending (d : LZ_decoder) (v : bool) : LZ_decoder :=
  mkLZd (lzd_cb d) (lzd_partial_data_pos d) (lzd_dictionary_size d)
    (lzd_crc d) (lzd_member_finished d) v (lzd_pos_wrapped d) (lzd_rep0 d)
    (lzd_rep1 d) (lzd_rep2 d) (lzd_rep3 d) (lzd_state d) (lzd_bm_literal d)
    (lzd_bm_match d) (lzd_bm_rep d) (lzd_bm_rep0 d) (lzd_bm_rep1 d)
    (lzd_bm_rep2 d) (lzd_bm_len d) (lzd_bm_dis_slot d) (lzd_bm_dis d)
    (lzd_bm_align d) (lzd_match_len_model d) (lzd_rep_len_model d).
Definition lzd_with_pos_wrapped (d : LZ_decoder) (v : bool) : LZ_decoder :=
  mkLZd (lzd_cb d) (lzd_partial_data_pos d) (lzd_dictionary_size d)
    (lzd_crc d) (lzd_member_finished d) (lzd_verify_trailer_pending d) v
    (lzd_rep0 d) (lzd_rep1 d) (lzd_rep2 d) (lzd_rep3 d) (lzd_state d)
    (lzd_bm_literal d) (lzd_bm_match d) (lzd_bm_rep d) (lzd_bm_rep0 d)
    (lzd_bm_rep1 d) (lzd_bm_rep2 d) (lzd_bm_len d) (lzd_bm_dis_slot d)
    (lzd_bm_dis d) (lzd_bm_align d) (lzd_match_len_model d)
    (lzd_rep_len_model d).
Definition lzd_with_rep0 (d : LZ_decoder) (v : Z) : LZ_decoder :=
  mkLZd (lzd_cb d) (lzd_partial_data_pos d) (lzd_dictionary_size d)
    (lzd_crc d) (lzd_member_finished d) (lzd_verify_trailer_pending d)
    (lzd_pos_wrapped d) v (lzd_rep1 d) (lzd_rep2 d) (lzd_rep3 d) (lzd_state d)
    (lzd_bm_literal d) (lzd_bm_match d) (lzd_bm_rep d) (lzd_bm_rep0 d)
    (lzd_bm_rep1 d) (lzd_bm_rep2 d) (lzd_bm_len d) (lzd_bm_dis_slot d)
    (lzd_bm_dis d) (lzd_bm_align d) (lzd_match_len_model d)
    (lzd_rep_len_model d).
Definition lzd_with_rep1 (d : LZ_decoder) (v : Z) : LZ_decoder :=
  mkLZd (lzd_cb d) (lzd_partial_data_pos d) (lzd_dictionary_size d)
    (lzd_crc d) (lzd_member_finished d) (lzd_verify_trailer_pending d)
    (lzd_pos_wrapped d) (lzd_rep0 d) v (lzd_rep2 d) (lzd_rep3 d) (lzd_state d)
    (lzd_bm_literal d) (lzd_bm_match d) (lzd_bm_rep d) (lzd_bm_rep0 d)
    (lzd_bm_rep1 d) (lzd_bm_rep2 d) (lzd_bm_len d) (lzd_bm_dis_slot d)
    (lzd_bm_dis d) (lzd_bm_align d) (lzd_match_len_model d)
    (lzd_rep_len_model d).
Definition lzd_with_rep2 (d : LZ_decoder) (v : Z) : LZ_decoder :=
  mkLZd (lzd_cb d) (lzd_partial_data_pos d) (lzd_dictionary_size d)
    (lzd_crc d) (lzd_member_finished d) (lzd_verify_trailer_pending d)
    (lzd_pos_wrapped d) (lzd_rep0 d) (lzd_rep1 d) v (lzd_rep3 d) (lzd_state d)
    (lzd_bm_literal d) (lzd_bm_match d) (lzd_bm_rep d) (lzd_bm_rep0 d)
    (lzd_bm_rep1 d) (lzd_bm_rep2 d) (lzd_bm_len d) (lzd_bm_dis_slot d)
    (lzd_bm_dis d) (lzd_bm_align d) (lzd_match_len_model d)
    (lzd_rep_len_model d).
Definition lzd_with_rep3 (d : LZ_decoder) (v : Z) : LZ_decoder :=
  mkLZd (lzd_cb d) (lzd_partial_data_pos d) (lzd_dictionary_size d)
    (lzd_crc d) (lzd_member_finished d) (lzd_verify_trailer_pending d)
    (lzd_pos_wrapped d) (lzd_rep0 d) (lzd_rep1 d) (lzd_rep2 d) v (lzd_state d)
    (lzd_bm_literal d) (lzd_bm_match d) (lzd_bm_rep d) (lzd_bm_rep0 d)
    (lzd_bm_rep1 d) (lzd_bm_rep2 d) (lzd_bm_len d) (lzd_bm_dis_slot d)
    (lzd_bm_dis d) (lzd_bm_align d) (lzd_match_len_model d)
    (lzd_rep_len_model d).
Definition lzd_with_state (d : LZ_decoder) (v : State) : LZ_decoder :=
  mkLZd (lzd_cb d) (lzd_partial_data_pos d) (lzd_dictionary_size d)
    (lzd_crc d) (lzd_member_finished d) (lzd_verify_trailer_pending d)
    (lzd_pos_wrapped d) (lzd_rep0 d) (lzd_rep1 d) (lzd_rep2 d) (lzd_rep3 d) v
    (lzd_bm_literal d) (lzd_bm_match d) (lzd_bm_rep d) (lzd_bm_rep0 d)
    (lzd_bm_rep1 d) (lzd_bm_rep2 d) (lzd_bm_len d) (lzd_bm_dis_slot d)
    (lzd_bm_dis d) (lzd_bm_align d) (lzd_match_len_model d)
    (lzd_rep_len_model d).
Definition lzd_with_bm_literal (d : LZ_decoder) (v : array) : LZ_decoder :=
  mkLZd (lzd_cb d) (lzd_partial_data_pos d) (lzd_dictionary_size d)
    (lzd_crc d) (lzd_member_finished d) (lzd_verify_trailer_pending d)
    (lzd_pos_wrapped d) (lzd_rep0 d) (lzd_rep1 d) (lzd_rep2 d) (lzd_rep3 d)
    (lzd_state d) v (lzd_bm_match d) (lzd_bm_rep d) (lzd_bm_rep0 d)
    (lzd_bm_rep1 d) (lzd_bm_rep2 d) (lzd_bm_len d) (lzd_bm_dis_slot d)
    (lzd_bm_dis d) (lzd_bm_align d) (lzd_match_len_model d)
    (lzd_rep_len_model d).
Definition lzd_with_bm_match (d : LZ_decoder) (v : array) : LZ_decoder :=
  mkLZd (lzd_cb d) (lzd_partial_data_pos d) (lzd_dictionary_size d)
    (lzd_crc d) (lzd_member_finished d) (lzd_verify_trailer_pending d)
    (lzd_pos_wrapped d) (lzd_rep0 d) (lzd_rep1 d) (lzd_rep2 d) (lzd_rep3 d)
    (lzd_state d) (lzd_bm_literal d) v (lzd_bm_rep d) (lzd_bm_rep0 d)
    (lzd_bm_rep1 d) (lzd_bm_rep2 d) (lzd_bm_len d) (lzd_bm_dis_slot d)
    (lzd_bm_dis d) (lzd_bm_align d) (lzd_match_len_model d)
    (lzd_rep_len_model d).
Definition lzd_with_bm_rep (d : LZ_decoder) (v : array) : LZ_decoder :=
  mkLZd (lzd_cb d) (lzd_partial_data_pos d) (lzd_dictionary_size d)
    (lzd_crc d) (lzd_member_finished d) (lzd_verify_trailer_pending d)
    (lzd_pos_wrapped d) (lzd_rep0 d) (lzd_rep1 d) (lzd_rep2 d) (lzd_rep3 d)
    (lzd_state d) (lzd_bm_literal d) (lzd_bm_match d) v (lzd_bm_rep0 d)
    (lzd_bm_rep1 d) (lzd_bm_rep2 d) (lzd_bm_len d) (lzd_bm_dis_slot d)
    (lzd_bm_dis d) (lzd_bm_align d) (lzd_match_len_model d)
    (lzd_rep_len_model d).
Definition lzd_with_bm_rep0 (d : LZ_decoder) (v : array) : LZ_decoder :=
  mkLZd (lzd_cb d) (lzd_partial_data_pos d) (lzd_dictionary_size d)
    (lzd_crc d) (lzd_member_finished d) (lzd_verify_trailer_pending d)
    (lzd_pos_wrapped d) (lzd_rep0 d) (lzd_rep1 d) (lzd_rep2 d) (lzd_rep3 d)
    (lzd_state d) (lzd_bm_literal d) (lzd_bm_match d) (lzd_bm_rep d) v
    (lzd_bm_rep1 d) (lzd_bm_rep2 d) (lzd_bm_len d) (lzd_bm_dis_slot d)
    (lzd_bm_dis d) (lzd_bm_align d) (lzd_match_len_model d)
    (lzd_rep_len_model d).
Definition lzd_with_bm_rep1 (d : LZ_decoder) (v : array) : LZ_decoder :=
  mkLZd (lzd_cb d) (lzd_partial_data_pos d) (lzd_dictionary_size d)
    (lzd_crc d) (lzd_member_finished d) (lzd_verify_trailer_pending d)
    (lzd_pos_wrapped d) (lzd_rep0 d) (lzd_rep1 d) (lzd_rep2 d) (lzd_rep3 d)
    (lzd_state d) (lzd_bm_literal d) (lzd_bm_match d) (lzd_bm_rep d)
    (lzd_bm_rep0 d) v (lzd_bm_rep2 d) (lzd_bm_len d) (lzd_bm_dis_slot d)
    (lzd_bm_dis d) (lzd_bm_align d) (lzd_match_len_model d)
    (lzd_rep_len_model d).
Definition lzd_with_bm_rep2 (d : LZ_decoder) (v : array) : LZ_decoder :=
  mkLZd (lzd_cb d) (lzd_partial_data_pos d) (lzd_dictionary_size d)
    (lzd_crc d) (lzd_member_finished d) (lzd_verify_trailer_pending d)
    (lzd_pos_wrapped d) (lzd_rep0 d) (lzd_rep1 d) (lzd_rep2 d) (lzd_rep3 d)
    (lzd_state d) (lzd_bm_literal d) (lzd_bm_match d) (lzd_bm_rep d)
    (lzd_bm_rep0 d) (lzd_bm_rep1 d) v (lzd_bm_len d) (lzd_bm_dis_slot d)
    (lzd_bm_dis d) (lzd_bm_align d) (lzd_match_len_model d)
    (lzd_rep_len_model d).
Definition lzd_with_bm_len (d : LZ_decoder) (v : array) : LZ_decoder :=
  mkLZd (lzd_cb d) (lzd_partial_data_pos d) (lzd_dictionary_size d)
    (lzd_crc d) (lzd_member_finished d) (lzd_verify_trailer_pending d)
    (lzd_pos_wrapped d) (lzd_rep0 d) (lzd_rep1 d) (lzd_rep2 d) (lzd_rep3 d)
    (lzd_state d) (lzd_bm_literal d) (lzd_bm_match d) (lzd_bm_rep d)
    (lzd_bm_rep0 d) (lzd_bm_rep1 d) (lzd_bm_rep2 d) v (lzd_bm_dis_slot d)
    (lzd_bm_dis d) (lzd_bm_align d) (lzd_match_len_model d)
    (lzd_rep_len_model d).
Definition lzd_with_bm_dis_slot (d : LZ_decoder) (v : array) : LZ_decoder :=
  mkLZd (lzd_cb d) (lzd_partial_data_pos d) (lzd_dictionary_size d)
    (lzd_crc d) (lzd_member_finished d) (lzd_verify_trailer_pending d)
    (lzd_pos_wrapped d) (lzd_rep0 d) (lzd_rep1 d) (lzd_rep2 d) (lzd_rep3 d)
    (lzd_state d) (lzd_bm_literal d) (lzd_bm_match d) (lzd_bm_rep d)
    (lzd_bm_rep0 d) (lzd_bm_rep1 d) (lzd_bm_rep2 d) (lzd_bm_len d) v
    (lzd_bm_dis d) (lzd_bm_align d) (lzd_match_len_model d)
    (lzd_rep_len_model d).
Definition lzd_with_bm_dis (d : LZ_decoder) (v : array) : LZ_decoder :=
  mkLZd (lzd_cb d) (lzd_partial_data_pos d) (lzd_dictionary_size d)
    (lzd_crc d) (lzd_member_finished d) (lzd_verify_trailer_pending d)
    (lzd_pos_wrapped d) (lzd_rep0 d) (lzd_rep1 d) (lzd_rep2 d) (lzd_rep3 d)
    (lzd_state d) (lzd_bm_literal d) (lzd_bm_match d) (lzd_bm_rep d)
    (lzd_bm_rep0 d) (lzd_bm_rep1 d) (lzd_bm_rep2 d) (lzd_bm_len d)
    (lzd_bm_dis_slot d) v (lzd_bm_align d) (lzd_match_len_model d)
    (lzd_rep_len_model d).
Definition lzd_with_bm_align (d : LZ_decoder) (v : array) : LZ_decoder :=
  mkLZd (lzd_cb d) (lzd_partial_data_pos d) (lzd_dictionary_size d)
    (lzd_crc d) (lzd_member_finished d) (lzd_verify_trailer_pending d)
    (lzd_pos_wrapped d) (lzd_rep0 d) (lzd_rep1 d) (lzd_rep2 d) (lzd_rep3 d)
    (lzd_state d) (lzd_bm_literal d) (lzd_bm_match d) (lzd_bm_rep d)
    (lzd_bm_rep0 d) (lzd_bm_rep1 d) (lzd_bm_rep2 d) (lzd_bm_len d)
    (lzd_bm_dis_slot d) (lzd_bm_dis d) v (lzd_match_len_model d)
    (lzd_rep_len_model d).
Definition lzd_with_match_len_model (d : LZ_decoder) (v : Len_model) : LZ_decoder :=
  mkLZd (lzd_cb d) (lzd_partial_data_pos d) (lzd_dictionary_size d)
    (lzd_crc d) (lzd_member_finished d) (lzd_verify_trailer_pending d)
    (lzd_pos_wrapped d) (lzd_rep0 d) (lzd_rep1 d) (lzd_rep2 d) (lzd_rep3 d)
    (lzd_state d) (lzd_bm_literal d) (lzd_bm_match d) (lzd_bm_rep d)
    (lzd_bm_rep0 d) (lzd_bm_rep1 d) (lzd_bm_rep2 d) (lzd_bm_len d)
    (lzd_bm_dis_slot d) (lzd_bm_dis d) (lzd_bm_align d) v
    (lzd_rep_len_model d).
Definition lzd_with_rep_len_model (d : LZ_decoder) (v : Len_model) : LZ_decoder :=
  mkLZd (lzd_cb d) (lzd_partial_data_pos d) (lzd_dictionary_size d)
    (lzd_crc d) (lzd_member_finished d) (lzd_verify_trailer_pending d)
    (lzd_pos_wrapped d) (lzd_rep0 d) (lzd_rep1 d) (lzd_rep2 d) (lzd_rep3 d)
    (lzd_state d) (lzd_bm_literal d) (lzd_bm_match d) (lzd_bm_rep d)
    (lzd_bm_rep0 d) (lzd_bm_rep1 d) (lzd_bm_rep2 d) (lzd_bm_len d)
    (lzd_bm_dis_slot d) (lzd_bm_dis d) (lzd_bm_align d)
    (lzd_match_len_model d) v.

Definition LZd_enough_free_bytes (d : LZ_decoder) : bool :=
  lzd_min_free_bytes <=? Cb_free_bytes (lzd_cb d).

Definition LZd_peek_prev (d : LZ_decoder) : Z :=
  let cb := lzd_cb d in
  cb_buffer cb (u32 ((if 0 <? cb_put cb then cb_put cb else cb_buffer_size cb) - 1)).

Definition LZd_peek (d : LZ_decoder) (distance : Z) : Z :=
  let cb := lzd_cb d in
  let i := u32 ((if distance <? cb_put cb then 0 else cb_buffer_size cb)
                + cb_put cb - distance - 1) in
  cb_buffer cb i.

Definition LZd_put_byte (d : LZ_decoder) (b : Z) : LZ_decoder :=
  let d := lzd_with_crc d (CRC32_update_byte (lzd_crc d) b) in
  let cb := lzd_cb d in
  let cb := cb_with_buffer cb (aset (cb_buffer cb) (cb_put cb) (u8 b)) in
  let cb := cb_with_put cb (u32 (cb_put cb + 1)) in
  let d := lzd_with_cb d cb in
  if cb_buffer_size cb <=? cb_put cb then
    let d := lzd_with_partial_data_pos d (u64 (lzd_partial_data_pos d + cb_put cb)) in
    let d := lzd_with_cb d (cb_with_put cb 0) in
    lzd_with_pos_wrapped d true
  else d.

(** [for( ; len > 0; --len ) d->cb.buffer[lpos++] = d->cb.buffer[i++];] *)
Fixpoint LZd_copy_bytewise (n : nat) (buffer : array) (lpos i : Z) : array :=
  match n with
  | O => buffer
  | S n' => LZd_copy_bytewise n' (aset buffer lpos (buffer i)) (u32 (lpos + 1)) (u32 (i + 1))
  end.

(** [for( ; len > 0; --len ) { LZd_put_byte( d, d->cb.buffer[i] );
    if( ++i >= d->cb.buffer_size ) i = 0; }] *)
Fixpoint LZd_copy_wrapping (n : nat) (d : LZ_decoder) (i : Z) : LZ_decoder :=
  match n with
  | O => d
  | S n' =>
      let d := LZd_put_byte d (cb_buffer (lzd_cb d) i) in
      let i := u32 (i + 1) in
      LZd_copy_wrapping n' d (if cb_buffer_size (lzd_cb d) <=? i then 0 else i)
  end.

Definition LZd_copy_block (d : LZ_decoder) (distance len : Z) : LZ_decoder :=
  let cb := lzd_cb d in
  let lpos := cb_put cb in
  let i := u32 (lpos - distance - 1) in
  let '(i, fast, fast2) :=
    if distance <? lpos then
      let fast := len <? u32 (cb_buffer_size cb - lpos) in
      (i, fast, fast && (len <=? u32 (lpos - i)))
    else
      let i := u32 (i + cb_buffer_size cb) in
      let fast := len <? u32 (cb_buffer_size cb - i) in
      (i, fast, fast && (len <=? u32 (i - lpos))) in
  if fast then
    let tlen := len in
    let buffer :=
      if fast2 then amemcpy (cb_buffer cb) lpos i len
      else LZd_copy_bytewise (Z.to_nat len) (cb_buffer cb) lpos i in
    let d := lzd_with_cb d (cb_with_buffer cb buffer) in
    let d := lzd_with_crc d (CRC32_update_buf (lzd_crc d) buffer (cb_put cb) tlen) in
    lzd_with_cb d (cb_with_put (lzd_cb d) (u32 (cb_put cb + tlen)))
  else LZd_copy_wrapping (Z.to_nat len) d i.

(** [block] is the buffer [Cb_init] obtains from [malloc]; the struct itself
    has just been allocated, so every array starts from unwritten cells (read
    as 0 here) and is then filled by [Bm_array_init]. *)
Definition LZd_init (block : option array) (dict_size : Z) : option LZ_decoder :=
  match Cb_init block (Z.max 65536 dict_size + lzd_min_free_bytes) with
  | None => None
  | Some cb =>
      let cb := cb_with_buffer cb (aset (cb_buffer cb) (cb_buffer_size cb - 1) 0) in
      let raw : array := fun _ => 0 in
      let rawlm := mkLen_model 0 0 raw raw raw in
      Some (mkLZd cb 0 dict_size 0xFFFFFFFF false false false 0 0 0 0 0
        (Bm_array_init raw 0 (Z.shiftl 1 literal_context_bits * 0x300))
        (Bm_array_init raw 0 (states * pos_states))
        (Bm_array_init raw 0 states)
        (Bm_array_init raw 0 states)
        (Bm_array_init raw 0 states)
        (Bm_array_init raw 0 states)
        (Bm_array_init raw 0 (states * pos_states))
        (Bm_array_init raw 0 (len_states * Z.shiftl 1 dis_slot_bits))
        (Bm_array_init raw 0 (modeled_distances - end_dis_model + 1))
        (Bm_array_init raw 0 dis_align_size)
        (Lm_init rawlm) (Lm_init rawlm))
  end.

Definition LZd_member_finished (d : LZ_decoder) : bool :=
  lzd_member_finished d && Cb_empty (lzd_cb d).

Definition LZd_crc (d : LZ_decoder) : Z := Z.lxor (lzd_crc d) 0xFFFFFFFF.

Definition LZd_data_position (d : LZ_decoder) : Z :=
  u64 (lzd_partial_data_pos d + cb_put (lzd_cb d)).

Definition LZd_try_verify_trailer (rdec : Range_decoder) (d : LZ_decoder)
    : Z * Range_decoder * LZ_decoder :=
  if Rd_available_bytes rdec <? Lt_size then
    (if negb (rd_at_stream_end rdec) then 0 else 2, rdec, d)
  else
  let d := lzd_with_verify_trailer_pending d false in
  let d := lzd_with_member_finished d true in
  let '(n, out, rdec) := Rd_read_data rdec Lt_size in
  let trailer : Lzip_trailer := awrite (fun _ => 0) 0 out in
  if (n =? Lt_size) &&
     (Lt_get_data_crc trailer =? LZd_crc d) &&
     (Lt_get_data_size trailer =? LZd_data_position d) &&
     (Lt_get_member_size trailer =? rd_member_position rdec)
  then (0, rdec, d) else (3, rdec, d).

(** *** [LZd_decode_member]

    One round of the [while] loop ends in [continue], in [break] or in a
    [return]; the blocks of the loop body are given names of their own. *)

Inductive LZd_flow :=
  | LZd_continue
  | LZd_break
  | LZd_return (code : Z).

(** The literal branch: [Rd_decode_bit( rdec, &d->bm_match[...] ) == 0]. *)
Definition LZd_decode_literal (rdec : Range_decoder) (d : LZ_decoder)
    : Range_decoder * LZ_decoder :=
  let bm := get_lit_state (LZd_peek_prev d) * 0x300 in
  let state := lzd_state d in
  if St_is_char state then
    let d := lzd_with_state d (state - (if state <? 4 then state else 3)) in
    let '(s, rdec, a) := Rd_decode_tree8 rdec (lzd_bm_literal d) bm in
    (rdec, LZd_put_byte (lzd_with_bm_literal d a) s)
  else
    let d := lzd_with_state d (state - (if state <? 10 then 3 else 6)) in
    let '(s, rdec, a) :=
      Rd_decode_matched rdec (lzd_bm_literal d) bm (LZd_peek d (lzd_rep0 d)) in
    (rdec, LZd_put_byte (lzd_with_bm_literal d a) s).

(** The repeated-match branch, [Rd_decode_bit( rdec, &d->bm_rep[*state] ) != 0]:
    [None] is the short repetition, which has put its byte and continues;
    [Some len] leaves the block to be copied. *)
Definition LZd_decode_rep (rdec : Range_decoder) (d : LZ_decoder) (pos_state : Z)
    : option Z * Range_decoder * LZ_decoder :=
  let state := lzd_state d in
  let '(bit, rdec, a) := Rd_decode_bit_at rdec (lzd_bm_rep0 d) state in
  let d := lzd_with_bm_rep0 d a in
  let '(short, rdec, d) :=
    if bit =? 0 then
      let '(bit, rdec, a) :=
        Rd_decode_bit_at rdec (lzd_bm_len d) (state * pos_states + pos_state) in
      let d := lzd_with_bm_len d a in
      if bit =? 0 then
        let d := lzd_with_state d (St_set_short_rep state) in
        (true, rdec, LZd_put_byte d (LZd_peek d (lzd_rep0 d)))
      else (false, rdec, d)
    else
      let '(bit, rdec, a) := Rd_decode_bit_at rdec (lzd_bm_rep1 d) state in
      let d := lzd_with_bm_rep1 d a in
      let '(distance, rdec, d) :=
        if bit =? 0 then (lzd_rep1 d, rdec, d)
        else
          let '(bit, rdec, a) := Rd_decode_bit_at rdec (lzd_bm_rep2 d) state in
          let d := lzd_with_bm_rep2 d a in
          let '(distance, d) :=
            if bit =? 0 then (lzd_rep2 d, d)
            else (lzd_rep3 d, lzd_with_rep3 d (lzd_rep2 d)) in
          (distance, rdec, lzd_with_rep2 d (lzd_rep1 d)) in
      let d := lzd_with_rep1 d (lzd_rep0 d) in
      (false, rdec, lzd_with_rep0 d distance) in
  if short then (None, rdec, d) else
  let d := lzd_with_state d (St_set_rep state) in
  let '(s, rdec, lm) := Rd_decode_len rdec (lzd_rep_len_model d) pos_state in
  (Some (u32 (min_match_len + s)), rdec, lzd_with_rep_len_model d lm).

(** What the normal-match branch has decoded when it reaches the line
    [d->rep3 = d->rep2; ...]: a pair; or else it has met the test
    [distance == 0xFFFFFFFFU], which sits in the branch of the distance slots
    from [end_dis_model] on. *)
Inductive LZd_match :=
  | LZd_pair (len distance : Z)
  | LZd_marker (len : Z).

Definition LZd_decode_match (rdec : Range_decoder) (d : LZ_decoder) (pos_state : Z)
    : LZd_match * Range_decoder * LZ_decoder :=
  let '(s, rdec, lm) := Rd_decode_len rdec (lzd_match_len_model d) pos_state in
  let d := lzd_with_match_len_model d lm in
  let len := u32 (min_match_len + s) in
  let '(distance, rdec, a) :=
    Rd_decode_tree6 rdec (lzd_bm_dis_slot d)
                    (get_len_state len * Z.shiftl 1 dis_slot_bits) in
  let d := lzd_with_bm_dis_slot d a in
  if start_dis_model <=? distance then
    let dis_slot := distance in
    let direct_bits := Z.shiftr dis_slot 1 - 1 in
    let distance := u32 (Z.shiftl (Z.lor 2 (Z.land dis_slot 1)) direct_bits) in
    if dis_slot <? end_dis_model then
      let '(s, rdec, a) :=
        Rd_decode_tree_reversed rdec (lzd_bm_dis d) (u32 (distance - dis_slot))
                                direct_bits in
      (LZd_pair len (u32 (distance + s)), rdec, lzd_with_bm_dis d a)
    else
      let '(s, rdec) := Rd_decode rdec (direct_bits - dis_align_bits) in
      let distance := u32 (distance + u32 (Z.shiftl s dis_align_bits)) in
      let '(s, rdec, a) := Rd_decode_tree_reversed4 rdec (lzd_bm_align d) 0 in
      let d := lzd_with_bm_align d a in
      let distance := u32 (distance + s) in
      if distance =? 0xFFFFFFFF then (LZd_marker len, rdec, d)
      else (LZd_pair len distance, rdec, d)
  else (LZd_pair len distance, rdec, d).

(** The block guarded by [distance == 0xFFFFFFFFU]. *)
Definition LZd_decode_marker (rdec : Range_decoder) (d : LZ_decoder) (len : Z)
    : LZd_flow * Range_decoder * LZ_decoder :=
  let rdec := Rd_normalize rdec in
  if len =? min_match_len then
    let d := lzd_with_verify_trailer_pending d true in
    let '(code, rdec, d) := LZd_try_verify_trailer rdec d in
    (LZd_return code, rdec, d)
  else if len =? min_match_len + 1 then
    let rdec := rd_with_reload_pending rdec true in
    let '(ok, rdec) := Rd_try_reload rdec in
    if ok then (LZd_continue, rdec, d)
    else if negb (rd_at_stream_end rdec) then (LZd_return 0, rdec, d)
    else (LZd_break, rdec, d)
  else (LZd_return 4, rdec, d).

(** The body of [while( !Rd_finished( rdec ) )]. *)
Definition LZd_decode_round (rdec : Range_decoder) (d : LZ_decoder)
    : LZd_flow * Range_decoder * LZ_decoder :=
  let pos_state := Z.land (LZd_data_position d) pos_state_mask in
  let enough := Rd_enough_available_bytes rdec in
  if negb enough && negb (rd_at_stream_end rdec) then (LZd_return 0, rdec, d) else
  if negb enough && Cb_empty (rd_cb rdec) then (LZd_break, rdec, d) else
  if negb (LZd_enough_free_bytes d) then (LZd_return 0, rdec, d) else
  let state := lzd_state d in
  let '(bit, rdec, a) :=
    Rd_decode_bit_at rdec (lzd_bm_match d) (state * pos_states + pos_state) in
  let d := lzd_with_bm_match d a in
  if bit =? 0 then
    let '(rdec, d) := LZd_decode_literal rdec d in (LZd_continue, rdec, d)
  else
  let '(bit, rdec, a) := Rd_decode_bit_at rdec (lzd_bm_rep d) state in
  let d := lzd_with_bm_rep d a in
  if negb (bit =? 0) then
    let '(len, rdec, d) := LZd_decode_rep rdec d pos_state in
    match len with
    | None => (LZd_continue, rdec, d)
    | Some len => (LZd_continue, rdec, LZd_copy_block d (lzd_rep0 d) len)
    end
  else
    let '(m, rdec, d) := LZd_decode_match rdec d pos_state in
    match m with
    | LZd_marker len => LZd_decode_marker rdec d len
    | LZd_pair len distance =>
        let d := lzd_with_rep3 d (lzd_rep2 d) in
        let d := lzd_with_rep2 d (lzd_rep1 d) in
        let d := lzd_with_rep1 d (lzd_rep0 d) in
        let d := lzd_with_rep0 d distance in
        let d := lzd_with_state d (St_set_match state) in
        if (lzd_dictionary_size d <=? lzd_rep0 d) ||
           ((cb_put (lzd_cb d) <=? lzd_rep0 d) && negb (lzd_pos_wrapped d))
        then (LZd_return 1, rdec, d)
        else (LZd_continue, rdec, LZd_copy_block d (lzd_rep0 d) len)
    end.

(** The loop; [None] when the fuel runs out before the loop ends. *)
Fixpoint LZd_decode_loop (fuel : nat) (rdec : Range_decoder) (d : LZ_decoder)
    : option (Z * Range_decoder * LZ_decoder) :=
  match fuel with
  | O => None
  | S fuel' =>
      if Rd_finished rdec then Some (2, rdec, d) else
      match LZd_decode_round rdec d with
      | (LZd_continue, rdec, d) => LZd_decode_loop fuel' rdec d
      | (LZd_break, rdec, d) => Some (2, rdec, d)
      | (LZd_return code, rdec, d) => Some (code, rdec, d)
      end
  end.

Definition LZd_decode_member (fuel : nat) (rdec : Range_decoder) (d : LZ_decoder)
    : option (Z * Range_decoder * LZ_decoder) :=
  if lzd_member_finished d then Some (0, rdec, d) else
  let '(ok, rdec) := Rd_try_reload rdec in
  if negb ok then
    Some (if negb (rd_at_stream_end rdec) then 0 else 2, rdec, d)
  else
  if lzd_verify_trailer_pending d then Some (LZd_try_verify_trailer rdec d)
  else LZd_decode_loop fuel rdec d.

(** ** The decoder handle

    A handle is taken to be non-null; [ld_rdec] and [ld_lz_decoder] are the
    two owned pointers, [None] when null. *)

Record LZ_Decoder := mkLZ_Decoder {
  ld_partial_in_size : Z;   (* unsigned long long *)
  ld_partial_out_size : Z;   (* unsigned long long *)
  ld_rdec : option Range_decoder;   (* struct Range_decoder * *)
  ld_lz_decoder : option LZ_decoder;   (* struct LZ_decoder * *)
  ld_lz_errno : LZ_Errno;
  ld_member_header : Lzip_header;
  ld_fatal : bool;
  ld_first_header : bool;
  ld_seeking : bool
}.

Definition ld_with_partial_in_size (d : LZ_Decoder) (v : Z) : LZ_Decoder :=
  mkLZ_Decoder v (ld_partial_out_size d) (ld_rdec d) (ld_lz_decoder d)
    (ld_lz_errno d) (ld_member_header d) (ld_fatal d) (ld_first_header d)
    (ld_seeking d).
Definition ld_with_partial_out_size (d : LZ_Decoder) (v : Z) : LZ_Decoder :=
  mkLZ_Decoder (ld_partial_in_size d) v (ld_rdec d) (ld_lz_decoder d)
    (ld_lz_errno d) (ld_member_header d) (ld_fatal d) (ld_first_header d)
    (ld_seeking d).
Definition ld_with_rdec (d : LZ_Decoder) (v : option Range_decoder) : LZ_Decoder :=
  mkLZ_Decoder (ld_partial_in_size d) (ld_partial_out_size d) v
    (ld_lz_decoder d) (ld_lz_errno d) (ld_member_header d) (ld_fatal d)
    (ld_first_header d) (ld_seeking d).
Definition ld_with_lz_decoder (d : LZ_Decoder) (v : option LZ_decoder) : LZ_Decoder :=
  mkLZ_Decoder (ld_partial_in_size d) (ld_partial_out_size d) (ld_rdec d) v
    (ld_lz_errno d) (ld_member_header d) (ld_fatal d) (ld_first_header d)
    (ld_seeking d).
Definition ld_with_lz_errno (d : LZ_Decoder) (v : LZ_Errno) : LZ_Decoder :=
  mkLZ_Decoder (ld_partial_in_size d) (ld_partial_out_size d) (ld_rdec d)
    (ld_lz_decoder d) v (ld_member_header d) (ld_fatal d) (ld_first_header d)
    (ld_seeking d).
Definition ld_with_member_header (d : LZ_Decoder) (v : Lzip_header) : LZ_Decoder :=
  mkLZ_Decoder (ld_partial_in_size d) (ld_partial_out_size d) (ld_rdec d)
    (ld_lz_decoder d) (ld_lz_errno d) v (ld_fatal d) (ld_first_header d)
    (ld_seeking d).
Definition ld_with_fatal (d : LZ_Decoder) (v : bool) : LZ_Decoder :=
  mkLZ_Decoder (ld_partial_in_size d) (ld_partial_out_size d) (ld_rdec d)
    (ld_lz_decoder d) (ld_lz_errno d) (ld_member_header d) v
    (ld_first_header d) (ld_seeking d).
Definition ld_with_first_header (d : LZ_Decoder) (v : bool) : LZ_Decoder :=
  mkLZ_Decoder (ld_partial_in_size d) (ld_partial_out_size d) (ld_rdec d)
    (ld_lz_decoder d) (ld_lz_errno d) (ld_member_header d) (ld_fatal d) v
    (ld_seeking d).
Definition ld_with_seeking (d : LZ_Decoder) (v : bool) : LZ_Decoder :=
  mkLZ_Decoder (ld_partial_in_size d) (ld_partial_out_size d) (ld_rdec d)
    (ld_lz_decoder d) (ld_lz_errno d) (ld_member_header d) (ld_fatal d)
    (ld_first_header d) v.

Definition LZ_Decoder_init : LZ_Decoder :=
  mkLZ_Decoder 0 0 None None LZ_ok (afill (fun _ => 0) 0 Lh_size 0)
               false true false.

(** [verify_decoder] for a non-null handle. *)
Definition verify_decoder (d : LZ_Decoder) : bool * LZ_Decoder :=
  match ld_rdec d with
  | None => (false, ld_with_lz_errno d LZ_bad_argument)
  | Some _ => (true, d)
  end.

(** [struct_ok] tells whether [malloc] returned the two structs, [block] is
    the buffer of the range decoder. *)
Definition LZ_decompress_open (handle_ok struct_ok : bool) (block : option array)
    : option LZ_Decoder :=
  if negb handle_ok then None else
  let d := LZ_Decoder_init in
  match (if struct_ok then Rd_init block else None) with
  | Some rdec => Some (ld_with_rdec d (Some rdec))
  | None => Some (ld_with_fatal (ld_with_lz_errno d LZ_mem_error) true)
  end.

Definition LZ_decompress_finish (d : LZ_Decoder) : Z * LZ_Decoder :=
  let '(ok, d) := verify_decoder d in
  match ld_rdec d with
  | None => (-1, d)
  | Some rdec =>
      if negb ok || ld_fatal d then (-1, d) else
      if ld_seeking d then
        let d := ld_with_seeking d false in
        let '(n, rdec) := Rd_purge rdec in
        let d := ld_with_rdec d (Some rdec) in
        (0, ld_with_partial_in_size d (u64 (ld_partial_in_size d + n)))
      else (0, ld_with_rdec d (Some (Rd_finish rdec)))
  end.

(** [while( d->seeking )] of [LZ_decompress_write]: a round that does not
    leave the loop has written at least one byte more. *)
Fixpoint LZ_decompress_write_loop (fuel : nat) (d : LZ_Decoder)
    (rdec : Range_decoder) (buffer : list Z) (size result : Z)
    : Z * LZ_Decoder * Range_decoder :=
  match fuel with
  | O => (result, d, rdec)
  | S fuel' =>
      if negb (ld_seeking d) then (result, d, rdec) else
      let '(found, skipped, rdec) := Rd_find_header rdec in
      let d := if found then ld_with_seeking d false else d in
      let d := ld_with_partial_in_size d (u64 (ld_partial_in_size d + skipped)) in
      if size <=? result then (result, d, rdec) else
      let '(size2, rdec) :=
        Rd_write_data rdec (skipn (Z.to_nat result) buffer) (size - result) in
      if 0 <? size2
      then LZ_decompress_write_loop fuel' d rdec buffer size (result + size2)
      else (result, d, rdec)
  end.

Definition LZ_decompress_write (d : LZ_Decoder) (buffer : list Z) (size : Z)
    : Z * LZ_Decoder :=
  let '(ok, d) := verify_decoder d in
  match ld_rdec d with
  | None => (-1, d)
  | Some rdec =>
      if negb ok || ld_fatal d then (-1, d) else
      if size <? 0 then (0, d) else
      let '(result, rdec) := Rd_write_data rdec buffer size in
      let '(result, d, rdec) :=
        LZ_decompress_write_loop (S (Z.to_nat size)) d rdec buffer size result in
      (result, ld_with_rdec d (Some rdec))
  end.

(** The label [get_data:] of [LZ_decompress_read]. *)
Definition LZ_decompress_get_data (d : LZ_Decoder) (lzd : LZ_decoder) (size : Z)
    : Z * list Z * LZ_Decoder :=
  let '(n, out, cb) := Cb_read_data (lzd_cb lzd) (u32 size) in
  (n, out, ld_with_lz_decoder d (Some (lzd_with_cb lzd cb))).

(** The block [if( !d->lz_decoder ) { ... }] of [LZ_decompress_read]: either
    it returns ([inl]) or it leaves a fresh LZ decoder ([inr]).  [struct_ok]
    and [block] are the results of the two allocations. *)
Definition LZ_decompress_read_header (struct_ok : bool) (block : option array)
    (d : LZ_Decoder) (rdec : Range_decoder)
    : (Z * LZ_Decoder) + (LZ_Decoder * Range_decoder * LZ_decoder) :=
  let d := ld_with_partial_in_size d
             (u64 (ld_partial_in_size d + rd_member_position rdec)) in
  let rdec := rd_with_member_position rdec 0 in
  let leave (ret : Z) (d : LZ_Decoder) (rdec : Range_decoder) :=
    inl (ret, ld_with_rdec d (Some rdec)) in
  if (Rd_available_bytes rdec <? Lh_size + 5) && negb (rd_at_stream_end rdec)
  then leave 0 d rdec else
  if Rd_finished rdec && negb (ld_first_header d) then leave 0 d rdec else
  let '(rd, out, rdec) := Rd_read_data rdec Lh_size in
  let d := ld_with_member_header d (awrite (ld_member_header d) 0 out) in
  let header := ld_member_header d in
  if (rd <? Lh_size) || Rd_finished rdec then
    let d :=
      if (rd <=? 0) || Lh_verify_prefix header rd
      then ld_with_lz_errno d LZ_unexpected_eof
      else ld_with_lz_errno d LZ_header_error in
    leave (-1) (ld_with_fatal d true) rdec
  else
  if negb (Lh_verify_magic header) then
    let '(ok, rdec) := Rd_unread_data rdec rd in
    let d :=
      if ok then
        if ld_first_header d || negb (Lh_verify_corrupt header)
        then ld_with_lz_errno d LZ_header_error
        else ld_with_lz_errno d LZ_data_error
      else ld_with_lz_errno d LZ_library_error in
    leave (-1) (ld_with_fatal d true) rdec
  else
  if negb (Lh_verify_version header) ||
     negb (isvalid_ds (Lh_get_dictionary_size header)) then
    let '(ok, rdec) :=
      Rd_unread_data rdec (1 + b2z (negb (Lh_verify_version header))) in
    let d :=
      if ok then ld_with_lz_errno d LZ_data_error
      else ld_with_lz_errno d LZ_library_error in
    leave (-1) (ld_with_fatal d true) rdec
  else
  let d := ld_with_first_header d false in
  if Rd_available_bytes rdec <? 5 then
    let rdec := rd_with_member_position rdec
                  (u64 (rd_member_position rdec + Cb_used_bytes (rd_cb rdec))) in
    let rdec := rd_with_cb rdec (Cb_reset (rd_cb rdec)) in
    let d := ld_with_lz_errno d LZ_unexpected_eof in
    leave (-1) (ld_with_fatal d true) rdec
  else
  match (if struct_ok then LZd_init block (Lh_get_dictionary_size header)
         else None) with
  | None =>
      let d := ld_with_lz_decoder d None in
      let d := ld_with_lz_errno d LZ_mem_error in
      leave (-1) (ld_with_fatal d true) rdec
  | Some lzd => inr (d, rd_with_reload_pending rdec true, lzd)
  end.

(** From [result = LZd_decode_member( d->lz_decoder )] to the end. *)
Definition LZ_decompress_read_member (fuel : nat) (d : LZ_Decoder)
    (rdec : Range_decoder) (lzd : LZ_decoder) (size : Z)
    : option (Z * list Z * LZ_Decoder) :=
  match LZd_decode_member fuel rdec lzd with
  | None => None
  | Some (result, rdec, lzd) =>
      let d := ld_with_lz_decoder d (Some lzd) in
      if negb (result =? 0) then
        let '(rdec, d) :=
          if result =? 2 then
            let rdec :=
              rd_with_member_position rdec
                (u64 (rd_member_position rdec + Cb_used_bytes (rd_cb rdec))) in
            (rd_with_cb rdec (Cb_reset (rd_cb rdec)),
             ld_with_lz_errno d LZ_unexpected_eof)
          else if result =? 5 then (rdec, ld_with_lz_errno d LZ_library_error)
          else (rdec, ld_with_lz_errno d LZ_data_error) in
        let d := ld_with_fatal (ld_with_rdec d (Some rdec)) true in
        if Cb_empty (lzd_cb lzd) then Some (-1, [], d)
        else Some (LZ_decompress_get_data d lzd size)
      else Some (LZ_decompress_get_data (ld_with_rdec d (Some rdec)) lzd size)
  end.

(** [fuel] bounds the rounds of the decoding loop; the result is [None] only
    when it runs out.  The bytes copied to [buffer] are returned. *)
Definition LZ_decompress_read (fuel : nat) (struct_ok : bool)
    (block : option array) (d : LZ_Decoder) (size : Z)
    : option (Z * list Z * LZ_Decoder) :=
  let '(ok, d) := verify_decoder d in
  match ld_rdec d with
  | None => Some (-1, [], d)
  | Some rdec =>
      if negb ok then Some (-1, [], d) else
      if size <? 0 then Some (0, [], d) else
      if ld_fatal d then
        match ld_lz_decoder d with
        | Some lzd =>
            if negb (Cb_empty (lzd_cb lzd))
            then Some (LZ_decompress_get_data d lzd size)
            else Some (-1, [], d)
        | None => Some (-1, [], d)
        end
      else
      if ld_seeking d then Some (0, [], d) else
      let d :=
        match ld_lz_decoder d with
        | Some lzd =>
            if LZd_member_finished lzd then
              let d := ld_with_partial_out_size d
                         (u64 (ld_partial_out_size d + LZd_data_position lzd)) in
              ld_with_lz_decoder d None
            else d
        | None => d
        end in
      match ld_lz_decoder d with
      | Some lzd => LZ_decompress_read_member fuel d rdec lzd size
      | None =>
          match LZ_decompress_read_header struct_ok block d rdec with
          | inl (ret, d) => Some (ret, [], d)
          | inr (d, rdec, lzd) => LZ_decompress_read_member fuel d rdec lzd size
          end
      end
  end.

Definition LZ_decompress_errno (d : LZ_Decoder) : LZ_Errno := ld_lz_errno d.

(** ** Distance slots and prices *)

Definition price_shift_bits : Z := 6.
Definition price_step_bits : Z := 2.

Definition dis_slots : list Z :=
  [
    0; 1; 2; 3; 4; 4; 5; 5; 6; 6; 6; 6; 7; 7; 7; 7;
    8; 8; 8; 8; 8; 8; 8; 8; 9; 9; 9; 9; 9; 9; 9; 9;
    10; 10; 10; 10; 10; 10; 10; 10; 10; 10; 10; 10; 10; 10; 10; 10;
    11; 11; 11; 11; 11; 11; 11; 11; 11; 11; 11; 11; 11; 11; 11; 11;
    12; 12; 12; 12; 12; 12; 12; 12; 12; 12; 12; 12; 12; 12; 12; 12;
    12; 12; 12; 12; 12; 12; 12; 12; 12; 12; 12; 12; 12; 12; 12; 12;
    13; 13; 13; 13; 13; 13; 13; 13; 13; 13; 13; 13; 13; 13; 13; 13;
    13; 13; 13; 13; 13; 13; 13; 13; 13; 13; 13; 13; 13; 13; 13; 13;
    14; 14; 14; 14; 14; 14; 14; 14; 14; 14; 14; 14; 14; 14; 14; 14;
    14; 14; 14; 14; 14; 14; 14; 14; 14; 14; 14; 14; 14; 14; 14; 14;
    14; 14; 14; 14; 14; 14; 14; 14; 14; 14; 14; 14; 14; 14; 14; 14;
    14; 14; 14; 14; 14; 14; 14; 14; 14; 14; 14; 14; 14; 14; 14; 14;
    15; 15; 15; 15; 15; 15; 15; 15; 15; 15; 15; 15; 15; 15; 15; 15;
    15; 15; 15; 15; 15; 15; 15; 15; 15; 15; 15; 15; 15; 15; 15; 15;
    15; 15; 15; 15; 15; 15; 15; 15; 15; 15; 15; 15; 15; 15; 15; 15;
    15; 15; 15; 15; 15; 15; 15; 15; 15; 15; 15; 15; 15; 15; 15; 15;
    16; 16; 16; 16; 16; 16; 16; 16; 16; 16; 16; 16; 16; 16; 16; 16;
    16; 16; 16; 16; 16; 16; 16; 16; 16; 16; 16; 16; 16; 16; 16; 16;
    16; 16; 16; 16; 16; 16; 16; 16; 16; 16; 16; 16; 16; 16; 16; 16;
    16; 16; 16; 16; 16; 16; 16; 16; 16; 16; 16; 16; 16; 16; 16; 16;
    16; 16; 16; 16; 16; 16; 16; 16; 16; 16; 16; 16; 16; 16; 16; 16;
    16; 16; 16; 16; 16; 16; 16; 16; 16; 16; 16; 16; 16; 16; 16; 16;
    16; 16; 16; 16; 16; 16; 16; 16; 16; 16; 16; 16; 16; 16; 16; 16;
    16; 16; 16; 16; 16; 16; 16; 16; 16; 16; 16; 16; 16; 16; 16; 16;
    17; 17; 17; 17; 17; 17; 17; 17; 17; 17; 17; 17; 17; 17; 17; 17;
    17; 17; 17; 17; 17; 17; 17; 17; 17; 17; 17; 17; 17; 17; 17; 17;
    17; 17; 17; 17; 17; 17; 17; 17; 17; 17; 17; 17; 17; 17; 17; 17;
    17; 17; 17; 17; 17; 17; 17; 17; 17; 17; 17; 17; 17; 17; 17; 17;
    17; 17; 17; 17; 17; 17; 17; 17; 17; 17; 17; 17; 17; 17; 17; 17;
    17; 17; 17; 17; 17; 17; 17; 17; 17; 17; 17; 17; 17; 17; 17; 17;
    17; 17; 17; 17; 17; 17; 17; 17; 17; 17; 17; 17; 17; 17; 17; 17;
    17; 17; 17; 17; 17; 17; 17; 17; 17; 17; 17; 17; 17; 17; 17; 17;
    18; 18; 18; 18; 18; 18; 18; 18; 18; 18; 18; 18; 18; 18; 18; 18;
    18; 18; 18; 18; 18; 18; 18; 18; 18; 18; 18; 18; 18; 18; 18; 18;
    18; 18; 18; 18; 18; 18; 18; 18; 18; 18; 18; 18; 18; 18; 18; 18;
    18; 18; 18; 18; 18; 18; 18; 18; 18; 18; 18; 18; 18; 18; 18; 18;
    18; 18; 18; 18; 18; 18; 18; 18; 18; 18; 18; 18; 18; 18; 18; 18;
    18; 18; 18; 18; 18; 18; 18; 18; 18; 18; 18; 18; 18; 18; 18; 18;
    18; 18; 18; 18; 18; 18; 18; 18; 18; 18; 18; 18; 18; 18; 18; 18;
    18; 18; 18; 18; 18; 18; 18; 18; 18; 18; 18; 18; 18; 18; 18; 18;
    18; 18; 18; 18; 18; 18; 18; 18; 18; 18; 18; 18; 18; 18; 18; 18;
    18; 18; 18; 18; 18; 18; 18; 18; 18; 18; 18; 18; 18; 18; 18; 18;
    18; 18; 18; 18; 18; 18; 18; 18; 18; 18; 18; 18; 18; 18; 18; 18;
    18; 18; 18; 18; 18; 18; 18; 18; 18; 18; 18; 18; 18; 18; 18; 18;
    18; 18; 18; 18; 18; 18; 18; 18; 18; 18; 18; 18; 18; 18; 18; 18;
    18; 18; 18; 18; 18; 18; 18; 18; 18; 18; 18; 18; 18; 18; 18; 18;
    18; 18; 18; 18; 18; 18; 18; 18; 18; 18; 18; 18; 18; 18; 18; 18;
    18; 18; 18; 18; 18; 18; 18; 18; 18; 18; 18; 18; 18; 18; 18; 18;
    19; 19; 19; 19; 19; 19; 19; 19; 19; 19; 19; 19; 19; 19; 19; 19;
    19; 19; 19; 19; 19; 19; 19; 19; 19; 19; 19; 19; 19; 19; 19; 19;
    19; 19; 19; 19; 19; 19; 19; 19; 19; 19; 19; 19; 19; 19; 19; 19;
    19; 19; 19; 19; 19; 19; 19; 19; 19; 19; 19; 19; 19; 19; 19; 19;
    19; 19; 19; 19; 19; 19; 19; 19; 19; 19; 19; 19; 19; 19; 19; 19;
    19; 19; 19; 19; 19; 19; 19; 19; 19; 19; 19; 19; 19; 19; 19; 19;
    19; 19; 19; 19; 19; 19; 19; 19; 19; 19; 19; 19; 19; 19; 19; 19;
    19; 19; 19; 19; 19; 19; 19; 19; 19; 19; 19; 19; 19; 19; 19; 19;
    19; 19; 19; 19; 19; 19; 19; 19; 19; 19; 19; 19; 19; 19; 19; 19;
    19; 19; 19; 19; 19; 19; 19; 19; 19; 19; 19; 19; 19; 19; 19; 19;
    19; 19; 19; 19; 19; 19; 19; 19; 19; 19; 19; 19; 19; 19; 19; 19;
    19; 19; 19; 19; 19; 19; 19; 19; 19; 19; 19; 19; 19; 19; 19; 19;
    19; 19; 19; 19; 19; 19; 19; 19; 19; 19; 19; 19; 19; 19; 19; 19;
    19; 19; 19; 19; 19; 19; 19; 19; 19; 19; 19; 19; 19; 19; 19; 19;
    19; 19; 19; 19; 19; 19; 19; 19; 19; 19; 19; 19; 19; 19; 19; 19;
    19; 19; 19; 19; 19; 19; 19; 19; 19; 19; 19; 19; 19; 19; 19; 19
  ].

Definition dis_slots_at (i : Z) : Z := nth (Z.to_nat i) dis_slots 0.

(** The result is a [uint8_t]. *)
Definition get_slot (dis : Z) : Z :=
  if dis <? Z.shiftl 1 10 then dis_slots_at dis
  else if dis <? Z.shiftl 1 19 then u8 (dis_slots_at (Z.shiftr dis 9) + 18)
  else if dis <? Z.shiftl 1 28 then u8 (dis_slots_at (Z.shiftr dis 18) + 36)
  else u8 (dis_slots_at (Z.shiftr dis 27) + 54).

(** ** Range encoder *)

(** Conversion to [_Bool]. *)
Definition to_Bool (x : Z) : bool := negb (x =? 0).

Record Range_encoder := mkRe {
  re_cb : Circular_buffer;
  re_min_free_bytes : Z;   (* unsigned *)
  re_low : Z;   (* uint64_t *)
  re_partial_member_pos : Z;   (* unsigned long long *)
  re_range : Z;   (* uint32_t *)
  re_ff_count : Z;   (* unsigned *)
  re_cache : Z;   (* uint8_t *)
  re_header : Lzip_header
}.

Definition re_with_cb (r : Range_encoder) (v : Circular_buffer) : Range_encoder :=
  mkRe v (re_min_free_bytes r) (re_low r) (re_partial_member_pos r)
    (re_range r) (re_ff_count r) (re_cache r) (re_header r).
Definition re_with_min_free_bytes (r : Range_encoder) (v : Z) : Range_encoder :=
  mkRe (re_cb r) v (re_low r) (re_partial_member_pos r) (re_range r)
    (re_ff_count r) (re_cache r) (re_header r).
Definition re_with_low (r : Range_encoder) (v : Z) : Range_encoder :=
  mkRe (re_cb r) (re_min_free_bytes r) v (re_partial_member_pos r)
    (re_range r) (re_ff_count r) (re_cache r) (re_header r).
Definition re_with_partial_member_pos (r : Range_encoder) (v : Z) : Range_encoder :=
  mkRe (re_cb r) (re_min_free_bytes r) (re_low r) v (re_range r)
    (re_ff_count r) (re_cache r) (re_header r).
Definition re_with_range (r : Range_encoder) (v : Z) : Range_encoder :=
  mkRe (re_cb r) (re_min_free_bytes r) (re_low r) (re_partial_member_pos r) v
    (re_ff_count r) (re_cache r) (re_header r).
Definition re_with_ff_count (r : Range_encoder) (v : Z) : Range_encoder :=
  mkRe (re_cb r) (re_min_free_bytes r) (re_low r) (re_partial_member_pos r)
    (re_range r) v (re_cache r) (re_header r).
Definition re_with_cache (r : Range_encoder) (v : Z) : Range_encoder :=
  mkRe (re_cb r) (re_min_free_bytes r) (re_low r) (re_partial_member_pos r)
    (re_range r) (re_ff_count r) v (re_header r).
Definition re_with_header (r : Range_encoder) (v : Lzip_header) : Range_encoder :=
  mkRe (re_cb r) (re_min_free_bytes r) (re_low r) (re_partial_member_pos r)
    (re_range r) (re_ff_count r) (re_cache r) v.

(** [for( ; renc->ff_count > 0; --renc->ff_count )
    Cb_put_byte( &renc->cb, 0xFF + carry );] *)
Fixpoint Re_shift_low_ff (n : nat) (cb : Circular_buffer) (carry : Z)
    : Circular_buffer :=
  match n with
  | O => cb
  | S n' => Re_shift_low_ff n' (Cb_put_byte cb (0xFF + carry)) carry
  end.

Definition Re_shift_low (renc : Range_encoder) : Range_encoder :=
  let renc :=
    if negb (Z.shiftr (re_low renc) 24 =? 0xFF) then
      let carry := b2z (0xFFFFFFFF <? re_low renc) in
      let cb := Cb_put_byte (re_cb renc) (re_cache renc + carry) in
      let cb := Re_shift_low_ff (Z.to_nat (re_ff_count renc)) cb carry in
      let renc := re_with_ff_count (re_with_cb renc cb) 0 in
      re_with_cache renc (u8 (Z.shiftr (re_low renc) 24))
    else re_with_ff_count renc (u32 (re_ff_count renc + 1)) in
  re_with_low renc (u64 (Z.shiftl (Z.land (re_low renc) 0x00FFFFFF) 8)).

(** [for( i = 0; i < Lh_size; ++i ) Cb_put_byte( &renc->cb, renc->header[i] );] *)
Definition Re_put_header (cb : Circular_buffer) (header : Lzip_header)
    : Circular_buffer :=
  fold_left (fun cb i => Cb_put_byte cb (header (Z.of_nat i)))
            (seq 0 (Z.to_nat Lh_size)) cb.

Definition Re_reset (renc : Range_encoder) (dictionary_size : Z) : Range_encoder :=
  let renc := re_with_cb renc (Cb_reset (re_cb renc)) in
  let renc := re_with_low renc 0 in
  let renc := re_with_partial_member_pos renc 0 in
  let renc := re_with_range renc 0xFFFFFFFF in
  let renc := re_with_ff_count renc 0 in
  let renc := re_with_cache renc 0 in
  let renc :=
    re_with_header renc (snd (Lh_set_dictionary_size (re_header renc) dictionary_size)) in
  re_with_cb renc (Re_put_header (re_cb renc) (re_header renc)).

(** [block] is the buffer [Cb_init] asks for; the other fields of the fresh
    struct are unwritten (read as 0) until [Re_reset] sets them. *)
Definition Re_init (block : option array) (dictionary_size min_free_bytes : Z)
    : option Range_encoder :=
  match Cb_init block (65536 + min_free_bytes) with
  | None => None
  | Some cb =>
      let renc := mkRe cb min_free_bytes 0 0 0 0 0 (Lh_set_magic (fun _ => 0)) in
      Some (Re_reset renc dictionary_size)
  end.

Definition Re_member_position (renc : Range_encoder) : Z :=
  u64 (re_partial_member_pos renc + Cb_used_bytes (re_cb renc) + re_ff_count renc).

Definition Re_enough_free_bytes (renc : Range_encoder) : bool :=
  u32 (re_min_free_bytes renc + re_ff_count renc) <=? Cb_free_bytes (re_cb renc).

Definition Re_read_data (renc : Range_encoder) (out_size : Z)
    : Z * list Z * Range_encoder :=
  let '(size, out, cb) := Cb_read_data (re_cb renc) (u32 out_size) in
  let renc := re_with_cb renc cb in
  if 0 <? size
  then (size, out,
        re_with_partial_member_pos renc (u64 (re_partial_member_pos renc + size)))
  else (size, out, renc).

Definition Re_flush (renc : Range_encoder) : Range_encoder :=
  let renc := Re_shift_low (Re_shift_low (Re_shift_low (Re_shift_low
                (Re_shift_low renc)))) in
  let renc := re_with_low renc 0 in
  let renc := re_with_range renc 0xFFFFFFFF in
  let renc := re_with_ff_count renc 0 in
  re_with_cache renc 0.

(** One round of the loop of [Re_encode]. *)
Definition Re_encode_round (renc : Range_encoder) (symbol mask : Z)
    : Range_encoder :=
  let renc := re_with_range renc (Z.shiftr (re_range renc) 1) in
  let renc :=
    if to_Bool (Z.land symbol mask)
    then re_with_low renc (u64 (re_low renc + re_range renc)) else renc in
  if re_range renc <=? 0x00FFFFFF
  then Re_shift_low (re_with_range renc (u32 (Z.shiftl (re_range renc) 8)))
  else renc.

(** [for( mask = 1 << ( num_bits - 1 ); mask > 0; mask >>= 1 )]: an
    [unsigned] mask is 0 after 32 shifts. *)
Fixpoint Re_encode_loop (fuel : nat) (renc : Range_encoder) (symbol mask : Z)
    : Range_encoder :=
  match fuel with
  | O => renc
  | S fuel' =>
      if 0 <? mask
      then Re_encode_loop fuel' (Re_encode_round renc symbol mask) symbol
                          (Z.shiftr mask 1)
      else renc
  end.

Definition Re_encode (renc : Range_encoder) (symbol num_bits : Z) : Range_encoder :=
  Re_encode_loop 32 renc symbol (u32 (Z.shiftl 1 (num_bits - 1))).

(** [Re_encode_bit( renc, &probability, bit )]: the encoder and the
    probability left in the model. *)
Definition Re_encode_bit (renc : Range_encoder) (probability : Bit_model)
    (bit : bool) : Range_encoder * Bit_model :=
  let bound := u32 (Z.shiftr (re_range renc) bit_model_total_bits * probability) in
  let '(renc, probability) :=
    if negb bit then
      (re_with_range renc bound,
       probability + Z.shiftr (bit_model_total - probability) bit_model_move_bits)
    else
      let renc := re_with_low renc (u64 (re_low renc + bound)) in
      (re_with_range renc (u32 (re_range renc - bound)),
       probability - Z.shiftr probability bit_model_move_bits) in
  if re_range renc <=? 0x00FFFFFF
  then (Re_shift_low (re_with_range renc (u32 (Z.shiftl (re_range renc) 8))),
        probability)
  else (renc, probability).

(** [Re_encode_bit( renc, &bm[i], bit )]. *)
Definition Re_encode_bit_at (renc : Range_encoder) (bm : array) (i : Z)
    (bit : bool) : Range_encoder * array :=
  let '(renc, p) := Re_encode_bit renc (bm i) bit in
  (renc, aset bm i p).

Definition Re_encode_tree3 (renc : Range_encoder) (bm : array) (off symbol : Z)
    : Range_encoder * array :=
  let bit := to_Bool (Z.land (Z.shiftr symbol 2) 1) in
  let '(renc, bm) := Re_encode_bit_at renc bm (off + 1) bit in
  let model := Z.lor 2 (b2z bit) in
  let bit := to_Bool (Z.land (Z.shiftr symbol 1) 1) in
  let '(renc, bm) := Re_encode_bit_at renc bm (off + model) bit in
  let model := Z.lor (Z.shiftl model 1) (b2z bit) in
  Re_encode_bit_at renc bm (off + model) (to_Bool (Z.land symbol 1)).

Definition Re_encode_tree6 (renc : Range_encoder) (bm : array) (off symbol : Z)
    : Range_encoder * array :=
  let bit := to_Bool (Z.land (Z.shiftr symbol 5) 1) in
  let '(renc, bm) := Re_encode_bit_at renc bm (off + 1) bit in
  let model := Z.lor 2 (b2z bit) in
  let bit := to_Bool (Z.land (Z.shiftr symbol 4) 1) in
  let '(renc, bm) := Re_encode_bit_at renc bm (off + model) bit in
  let model := Z.lor (Z.shiftl model 1) (b2z bit) in
  let bit := to_Bool (Z.land (Z.shiftr symbol 3) 1) in
  let '(renc, bm) := Re_encode_bit_at renc bm (off + model) bit in
  let model := Z.lor (Z.shiftl model 1) (b2z bit) in
  let bit := to_Bool (Z.land (Z.shiftr symbol 2) 1) in
  let '(renc, bm) := Re_encode_bit_at renc bm (off + model) bit in
  let model := Z.lor (Z.shiftl model 1) (b2z bit) in
  let bit := to_Bool (Z.land (Z.shiftr symbol 1) 1) in
  let '(renc, bm) := Re_encode_bit_at renc bm (off + model) bit in
  let model := Z.lor (Z.shiftl model 1) (b2z bit) in
  Re_encode_bit_at renc bm (off + model) (to_Bool (Z.land symbol 1)).

(** [for( i = 7; i >= 0; --i )], [n] the rounds left and [i = n - 1]. *)
Fixpoint Re_encode_tree8_loop (n : nat) (renc : Range_encoder) (bm : array)
    (off symbol model : Z) : Range_encoder * array :=
  match n with
  | O => (renc, bm)
  | S n' =>
      let bit := to_Bool (Z.land (Z.shiftr symbol (Z.of_nat n')) 1) in
      let '(renc, bm) := Re_encode_bit_at renc bm (off + model) bit in
      Re_encode_tree8_loop n' renc bm off symbol
                           (Z.lor (Z.shiftl model 1) (b2z bit))
  end.

Definition Re_encode_tree8 (renc : Range_encoder) (bm : array) (off symbol : Z)
    : Range_encoder * array :=
  Re_encode_tree8_loop 8 renc bm off symbol 1.

(** [for( i = num_bits; i > 0; --i )]. *)
Fixpoint Re_encode_tree_reversed_loop (n : nat) (renc : Range_encoder)
    (bm : array) (off symbol model : Z) : Range_encoder * array :=
  match n with
  | O => (renc, bm)
  | S n' =>
      let bit := to_Bool (Z.land symbol 1) in
      let symbol := Z.shiftr symbol 1 in
      let '(renc, bm) := Re_encode_bit_at renc bm (off + model) bit in
      Re_encode_tree_reversed_loop n' renc bm off symbol
                                   (Z.lor (Z.shiftl model 1) (b2z bit))
  end.

Definition Re_encode_tree_reversed (renc : Range_encoder) (bm : array)
    (off symbol num_bits : Z) : Range_encoder * array :=
  Re_encode_tree_reversed_loop (Z.to_nat num_bits) renc bm off symbol 1.

(** [while( 1 )] of [Re_encode_matched]: [symbol] carries the bit [0x100]
    and is shifted every round, so the eighth round breaks; the fuel is 8. *)
Fixpoint Re_encode_matched_loop (fuel : nat) (renc : Range_encoder) (bm : array)
    (off symbol match_byte mask : Z) : Range_encoder * array :=
  match fuel with
  | O => (renc, bm)
  | S fuel' =>
      let match_byte := u32 (Z.shiftl match_byte 1) in
      let match_bit := Z.land match_byte mask in
      let symbol := u32 (Z.shiftl symbol 1) in
      let bit := to_Bool (Z.land symbol 0x100) in
      let '(renc, bm) :=
        Re_encode_bit_at renc bm
          (off + u32 (Z.shiftr symbol 9 + match_bit + mask)) bit in
      if 0x10000 <=? symbol then (renc, bm) else
      let mask := Z.land mask (u32 (Z.lnot (Z.lxor match_bit symbol))) in
      Re_encode_matched_loop fuel' renc bm off symbol match_byte mask
  end.

Definition Re_encode_matched (renc : Range_encoder) (bm : array)
    (off symbol match_byte : Z) : Range_encoder * array :=
  Re_encode_matched_loop 8 renc bm off (Z.lor symbol 0x100) match_byte 0x100.

Definition Re_encode_len (renc : Range_encoder) (lm : Len_model)
    (symbol pos_state : Z) : Range_encoder * Len_model :=
  let symbol := symbol - min_match_len in
  let bit := len_low_symbols <=? symbol in
  let '(renc, c1) := Re_encode_bit renc (lm_choice1 lm) bit in
  let lm := mkLen_model c1 (lm_choice2 lm) (lm_bm_low lm) (lm_bm_mid lm)
                        (lm_bm_high lm) in
  if negb bit then
    let '(renc, a) :=
      Re_encode_tree3 renc (lm_bm_low lm) (pos_state * len_low_symbols) symbol in
    (renc, mkLen_model (lm_choice1 lm) (lm_choice2 lm) a (lm_bm_mid lm)
                       (lm_bm_high lm))
  else
    let symbol := symbol - len_low_symbols in
    let bit := len_mid_symbols <=? symbol in
    let '(renc, c2) := Re_encode_bit renc (lm_choice2 lm) bit in
    let lm := mkLen_model (lm_choice1 lm) c2 (lm_bm_low lm) (lm_bm_mid lm)
                          (lm_bm_high lm) in
    if negb bit then
      let '(renc, a) :=
        Re_encode_tree3 renc (lm_bm_mid lm) (pos_state * len_mid_symbols) symbol in
      (renc, mkLen_model (lm_choice1 lm) (lm_choice2 lm) (lm_bm_low lm) a
                         (lm_bm_high lm))
    else
      let '(renc, a) :=
        Re_encode_tree8 renc (lm_bm_high lm) 0 (symbol - len_mid_symbols) in
      (renc, mkLen_model (lm_choice1 lm) (lm_choice2 lm) (lm_bm_low lm)
                         (lm_bm_mid lm) a).

(** ** Match finder base

    [prev_positions] and [pos_array] are one block: [pos_array] is the
    pointer [prev_positions + num_prev_positions], kept here as that index. *)

Record Matchfinder_base := mkMb {
  mb_partial_data_pos : Z;   (* unsigned long long *)
  mb_buffer : array;   (* uint8_t * *)
  mb_prev_positions : array;   (* int32_t *; pos_array points into this block *)
  mb_pos_array : Z;   (* the index in prev_positions where pos_array starts *)
  mb_before_size : Z;
  mb_after_size : Z;
  mb_buffer_size : Z;
  mb_dictionary_size : Z;
  mb_pos : Z;
  mb_cyclic_pos : Z;
  mb_stream_pos : Z;
  mb_pos_limit : Z;
  mb_key4_mask : Z;
  mb_num_prev_positions23 : Z;
  mb_num_prev_positions : Z;
  mb_pos_array_size : Z;
  mb_saved_dictionary_size : Z;
  mb_at_stream_end : bool;
  mb_sync_flush_pending : bool
}.

Definition mb_with_partial_data_pos (m : Matchfinder_base) (v : Z) : Matchfinder_base :=
  mkMb v (mb_buffer m) (mb_prev_positions m) (mb_pos_array m)
    (mb_before_size m) (mb_after_size m) (mb_buffer_size m)
    (mb_dictionary_size m) (mb_pos m) (mb_cyclic_pos m) (mb_stream_pos m)
    (mb_pos_limit m) (mb_key4_mask m) (mb_num_prev_positions23 m)
    (mb_num_prev_positions m) (mb_pos_array_size m)
    (mb_saved_dictionary_size m) (mb_at_stream_end m)
    (mb_sync_flush_pending m).
Definition mb_with_buffer (m : Matchfinder_base) (v : array) : Matchfinder_base :=
  mkMb (mb_partial_data_pos m) v (mb_prev_positions m) (mb_pos_array m)
    (mb_before_size m) (mb_after_size m) (mb_buffer_size m)
    (mb_dictionary_size m) (mb_pos m) (mb_cyclic_pos m) (mb_stream_pos m)
    (mb_pos_limit m) (mb_key4_mask m) (mb_num_prev_positions23 m)
    (mb_num_prev_positions m) (mb_pos_array_size m)
    (mb_saved_dictionary_size m) (mb_at_stream_end m)
    (mb_sync_flush_pending m).
Definition mb_with_prev_positions (m : Matchfinder_base) (v : array) : Matchfinder_base :=
  mkMb (mb_partial_data_pos m) (mb_buffer m) v (mb_pos_array m)
    (mb_before_size m) (mb_after_size m) (mb_buffer_size m)
    (mb_dictionary_size m) (mb_pos m) (mb_cyclic_pos m) (mb_stream_pos m)
    (mb_pos_limit m) (mb_key4_mask m) (mb_num_prev_positions23 m)
    (mb_num_prev_positions m) (mb_pos_array_size m)
    (mb_saved_dictionary_size m) (mb_at_stream_end m)
    (mb_sync_flush_pending m).
Definition mb_with_pos_array (m : Matchfinder_base) (v : Z) : Matchfinder_base :=
  mkMb (mb_partial_data_pos m) (mb_buffer m) (mb_prev_positions m) v
    (mb_before_size m) (mb_after_size m) (mb_buffer_size m)
    (mb_dictionary_size m) (mb_pos m) (mb_cyclic_pos m) (mb_stream_pos m)
    (mb_pos_limit m) (mb_key4_mask m) (mb_num_prev_positions23 m)
    (mb_num_prev_positions m) (mb_pos_array_size m)
    (mb_saved_dictionary_size m) (mb_at_stream_end m)
    (mb_sync_flush_pending m).
Definition mb_with_before_size (m : Matchfinder_base) (v : Z) : Matchfinder_base :=
  mkMb (mb_partial_data_pos m) (mb_buffer m) (mb_prev_positions m)
    (mb_pos_array m) v (mb_after_size m) (mb_buffer_size m)
    (mb_dictionary_size m) (mb_pos m) (mb_cyclic_pos m) (mb_stream_pos m)
    (mb_pos_limit m) (mb_key4_mask m) (mb_num_prev_positions23 m)
    (mb_num_prev_positions m) (mb_pos_array_size m)
    (mb_saved_dictionary_size m) (mb_at_stream_end m)
    (mb_sync_flush_pending m).
Definition mb_with_after_size (m : Matchfinder_base) (v : Z) : Matchfinder_base :=
  mkMb (mb_partial_data_pos m) (mb_buffer m) (mb_prev_positions m)
    (mb_pos_array m) (mb_before_size m) v (mb_buffer_size m)
    (mb_dictionary_size m) (mb_pos m) (mb_cyclic_pos m) (mb_stream_pos m)
    (mb_pos_limit m) (mb_key4_mask m) (mb_num_prev_positions23 m)
    (mb_num_prev_positions m) (mb_pos_array_size m)
    (mb_saved_dictionary_size m) (mb_at_stream_end m)
    (mb_sync_flush_pending m).
Definition mb_with_buffer_size (m : Matchfinder_base) (v : Z) : Matchfinder_base :=
  mkMb (mb_partial_data_pos m) (mb_buffer m) (mb_prev_positions m)
    (mb_pos_array m) (mb_before_size m) (mb_after_size m) v
    (mb_dictionary_size m) (mb_pos m) (mb_cyclic_pos m) (mb_stream_pos m)
    (mb_pos_limit m) (mb_key4_mask m) (mb_num_prev_positions23 m)
    (mb_num_prev_positions m) (mb_pos_array_size m)
    (mb_saved_dictionary_size m) (mb_at_stream_end m)
    (mb_sync_flush_pending m).
Definition mb_with_dictionary_size (m : Matchfinder_base) (v : Z) : Matchfinder_base :=
  mkMb (mb_partial_data_pos m) (mb_buffer m) (mb_prev_positions m)
    (mb_pos_array m) (mb_before_size m) (mb_after_size m) (mb_buffer_size m) v
    (mb_pos m) (mb_cyclic_pos m) (mb_stream_pos m) (mb_pos_limit m)
    (mb_key4_mask m) (mb_num_prev_positions23 m) (mb_num_prev_positions m)
    (mb_pos_array_size m) (mb_saved_dictionary_size m) (mb_at_stream_end m)
    (mb_sync_flush_pending m).
Definition mb_with_pos (m : Matchfinder_base) (v : Z) : Matchfinder_base :=
  mkMb (mb_partial_data_pos m) (mb_buffer m) (mb_prev_positions m)
    (mb_pos_array m) (mb_before_size m) (mb_after_size m) (mb_buffer_size m)
    (mb_dictionary_size m) v (mb_cyclic_pos m) (mb_stream_pos m)
    (mb_pos_limit m) (mb_key4_mask m) (mb_num_prev_positions23 m)
    (mb_num_prev_positions m) (mb_pos_array_size m)
    (mb_saved_dictionary_size m) (mb_at_stream_end m)
    (mb_sync_flush_pending m).
Definition mb_with_cyclic_pos (m : Matchfinder_base) (v : Z) : Matchfinder_base :=
  mkMb (mb_partial_data_pos m) (mb_buffer m) (mb_prev_positions m)
    (mb_pos_array m) (mb_before_size m) (mb_after_size m) (mb_buffer_size m)
    (mb_dictionary_size m) (mb_pos m) v (mb_stream_pos m) (mb_pos_limit m)
    (mb_key4_mask m) (mb_num_prev_positions23 m) (mb_num_prev_positions m)
    (mb_pos_array_size m) (mb_saved_dictionary_size m) (mb_at_stream_end m)
    (mb_sync_flush_pending m).
Definition mb_with_stream_pos (m : Matchfinder_base) (v : Z) : Matchfinder_base :=
  mkMb (mb_partial_data_pos m) (mb_buffer m) (mb_prev_positions m)
    (mb_pos_array m) (mb_before_size m) (mb_after_size m) (mb_buffer_size m)
    (mb_dictionary_size m) (mb_pos m) (mb_cyclic_pos m) v (mb_pos_limit m)
    (mb_key4_mask m) (mb_num_prev_positions23 m) (mb_num_prev_positions m)
    (mb_pos_array_size m) (mb_saved_dictionary_size m) (mb_at_stream_end m)
    (mb_sync_flush_pending m).
Definition mb_with_pos_limit (m : Matchfinder_base) (v : Z) : Matchfinder_base :=
  mkMb (mb_partial_data_pos m) (mb_buffer m) (mb_prev_positions m)
    (mb_pos_array m) (mb_before_size m) (mb_after_size m) (mb_buffer_size m)
    (mb_dictionary_size m) (mb_pos m) (mb_cyclic_pos m) (mb_stream_pos m) v
    (mb_key4_mask m) (mb_num_prev_positions23 m) (mb_num_prev_positions m)
    (mb_pos_array_size m) (mb_saved_dictionary_size m) (mb_at_stream_end m)
    (mb_sync_flush_pending m).
Definition mb_with_key4_mask (m : Matchfinder_base) (v : Z) : Matchfinder_base :=
  mkMb (mb_partial_data_pos m) (mb_buffer m) (mb_prev_positions m)
    (mb_pos_array m) (mb_before_size m) (mb_after_size m) (mb_buffer_size m)
    (mb_dictionary_size m) (mb_pos m) (mb_cyclic_pos m) (mb_stream_pos m)
    (mb_pos_limit m) v (mb_num_prev_positions23 m) (mb_num_prev_positions m)
    (mb_pos_array_size m) (mb_saved_dictionary_size m) (mb_at_stream_end m)
    (mb_sync_flush_pending m).
Definition mb_with_num_prev_positions23 (m : Matchfinder_base) (v : Z) : Matchfinder_base :=
  mkMb (mb_partial_data_pos m) (mb_buffer m) (mb_prev_positions m)
    (mb_pos_array m) (mb_before_size m) (mb_after_size m) (mb_buffer_size m)
    (mb_dictionary_size m) (mb_pos m) (mb_cyclic_pos m) (mb_stream_pos m)
    (mb_pos_limit m) (mb_key4_mask m) v (mb_num_prev_positions m)
    (mb_pos_array_size m) (mb_saved_dictionary_size m) (mb_at_stream_end m)
    (mb_sync_flush_pending m).
Definition mb_with_num_prev_positions (m : Matchfinder_base) (v : Z) : Matchfinder_base :=
  mkMb (mb_partial_data_pos m) (mb_buffer m) (mb_prev_positions m)
    (mb_pos_array m) (mb_before_size m) (mb_after_size m) (mb_buffer_size m)
    (mb_dictionary_size m) (mb_pos m) (mb_cyclic_pos m) (mb_stream_pos m)
    (mb_pos_limit m) (mb_key4_mask m) (mb_num_prev_positions23 m) v
    (mb_pos_array_size m) (mb_saved_dictionary_size m) (mb_at_stream_end m)
    (mb_sync_flush_pending m).
Definition mb_with_pos_array_size (m : Matchfinder_base) (v : Z) : Matchfinder_base :=
  mkMb (mb_partial_data_pos m) (mb_buffer m) (mb_prev_positions m)
    (mb_pos_array m) (mb_before_size m) (mb_after_size m) (mb_buffer_size m)
    (mb_dictionary_size m) (mb_pos m) (mb_cyclic_pos m) (mb_stream_pos m)
    (mb_pos_limit m) (mb_key4_mask m) (mb_num_prev_positions23 m)
    (mb_num_prev_positions m) v (mb_saved_dictionary_size m)
    (mb_at_stream_end m) (mb_sync_flush_pending m).
Definition mb_with_saved_dictionary_size (m : Matchfinder_base) (v : Z) : Matchfinder_base :=
  mkMb (mb_partial_data_pos m) (mb_buffer m) (mb_prev_positions m)
    (mb_pos_array m) (mb_before_size m) (mb_after_size m) (mb_buffer_size m)
    (mb_dictionary_size m) (mb_pos m) (mb_cyclic_pos m) (mb_stream_pos m)
    (mb_pos_limit m) (mb_key4_mask m) (mb_num_prev_positions23 m)
    (mb_num_prev_positions m) (mb_pos_array_size m) v (mb_at_stream_end m)
    (mb_sync_flush_pending m).
Definition mb_with_at_stream_end (m : Matchfinder_base) (v : bool) : Matchfinder_base :=
  mkMb (mb_partial_data_pos m) (mb_buffer m) (mb_prev_positions m)
    (mb_pos_array m) (mb_before_size m) (mb_after_size m) (mb_buffer_size m)
    (mb_dictionary_size m) (mb_pos m) (mb_cyclic_pos m) (mb_stream_pos m)
    (mb_pos_limit m) (mb_key4_mask m) (mb_num_prev_positions23 m)
    (mb_num_prev_positions m) (mb_pos_array_size m)
    (mb_saved_dictionary_size m) v (mb_sync_flush_pending m).
Definition mb_with_sync_flush_pending (m : Matchfinder_base) (v : bool) : Matchfinder_base :=
  mkMb (mb_partial_data_pos m) (mb_buffer m) (mb_prev_positions m)
    (mb_pos_array m) (mb_before_size m) (mb_after_size m) (mb_buffer_size m)
    (mb_dictionary_size m) (mb_pos m) (mb_cyclic_pos m) (mb_stream_pos m)
    (mb_pos_limit m) (mb_key4_mask m) (mb_num_prev_positions23 m)
    (mb_num_prev_positions m) (mb_pos_array_size m)
    (mb_saved_dictionary_size m) (mb_at_stream_end m) v.

Definition Mb_peek (mb : Matchfinder_base) (distance : Z) : Z :=
  mb_buffer mb (mb_pos mb - distance).

Definition Mb_available_bytes (mb : Matchfinder_base) : Z :=
  mb_stream_pos mb - mb_pos mb.

Definition Mb_data_position (mb : Matchfinder_base) : Z :=
  u64 (mb_partial_data_pos mb + mb_pos mb).

Definition Mb_finish (mb : Matchfinder_base) : Matchfinder_base :=
  mb_with_sync_flush_pending (mb_with_at_stream_end mb true) false.

Definition Mb_data_finished (mb : Matchfinder_base) : bool :=
  mb_at_stream_end mb && (mb_stream_pos mb <=? mb_pos mb).

Definition Mb_flushing_or_end (mb : Matchfinder_base) : bool :=
  mb_at_stream_end mb || mb_sync_flush_pending mb.

Definition Mb_free_bytes (mb : Matchfinder_base) : Z :=
  if Mb_flushing_or_end mb then 0 else mb_buffer_size mb - mb_stream_pos mb.

Definition Mb_enough_available_bytes (mb : Matchfinder_base) : bool :=
  (mb_pos mb + mb_after_size mb <=? mb_stream_pos mb) ||
  (Mb_flushing_or_end mb && (mb_pos mb <? mb_stream_pos mb)).

Definition Mb_write_data (mb : Matchfinder_base) (inbuf : list Z) (size : Z)
    : Z * Matchfinder_base :=
  let sz := Z.min (mb_buffer_size mb - mb_stream_pos mb) size in
  if Mb_flushing_or_end mb || (sz <=? 0) then (0, mb) else
  let mb := mb_with_buffer mb
              (awrite (mb_buffer mb) (mb_stream_pos mb)
                      (firstn (Z.to_nat sz) inbuf)) in
  (sz, mb_with_stream_pos mb (mb_stream_pos mb + sz)).

(** The size of the hash table of 4-byte keys, an [unsigned] in [Mb_init]
    and an [int] in [Mb_adjust_array]. *)
Definition Mb_key4_size (dictionary_size : Z) : Z :=
  let size := Z.shiftl 1 (Z.max 16 (real_bits (u32 (dictionary_size - 1)) - 2)) in
  if Z.shiftl 1 26 <? dictionary_size then Z.shiftr size 1 else size.

(** [buffer_block] and [prev_block] are the results of the two calls of
    [malloc]. *)
Definition Mb_init (buffer_block prev_block : option array)
    (before_size dict_size after_size dict_factor num_prev_positions23
     pos_array_factor : Z) : option Matchfinder_base :=
  let buffer_size_limit := dict_factor * dict_size + before_size + after_size in
  let buffer_size := Z.max 65536 buffer_size_limit in
  match buffer_block with
  | None => None
  | Some buffer =>
      let pos_limit := buffer_size - after_size in
      let size := u32 (Mb_key4_size dict_size) in
      let key4_mask := size - 1 in
      let size := u32 (size + num_prev_positions23) in
      let num_prev_positions := size in
      let pos_array_size := pos_array_factor * (dict_size + 1) in
      let size := u32 (size + pos_array_size) in
      match (if u64 (size * 4) <=? size then None else prev_block) with
      | None => None
      | Some prev_positions =>
          Some (mkMb 0 buffer (afill prev_positions 0 num_prev_positions 0)
                     num_prev_positions before_size after_size buffer_size
                     dict_size 0 0 0 pos_limit key4_mask num_prev_positions23
                     num_prev_positions pos_array_size dict_size false false)
      end
  end.

Definition Mb_adjust_array (mb : Matchfinder_base) : Matchfinder_base :=
  let size := Mb_key4_size (mb_dictionary_size mb) in
  let mb := mb_with_key4_mask mb (size - 1) in
  let size := size + mb_num_prev_positions23 mb in
  let mb := mb_with_num_prev_positions mb size in
  mb_with_pos_array mb (mb_num_prev_positions mb).

Definition Mb_adjust_dictionary_size (mb : Matchfinder_base) : Matchfinder_base :=
  if mb_stream_pos mb <? mb_dictionary_size mb then
    let mb := mb_with_dictionary_size mb
                (Z.max min_dictionary_size (mb_stream_pos mb)) in
    let mb := Mb_adjust_array mb in
    mb_with_pos_limit mb (mb_buffer_size mb)
  else mb.

Definition Mb_reset (mb : Matchfinder_base) : Matchfinder_base :=
  let mb :=
    if mb_pos mb <? mb_stream_pos mb then
      let old := mb_buffer mb in
      mb_with_buffer mb
        (fun j => if (0 <=? j) && (j <? mb_stream_pos mb - mb_pos mb)
                  then old (mb_pos mb + j) else old j)
    else mb in
  let mb := mb_with_partial_data_pos mb 0 in
  let mb := mb_with_stream_pos mb (mb_stream_pos mb - mb_pos mb) in
  let mb := mb_with_pos mb 0 in
  let mb := mb_with_cyclic_pos mb 0 in
  let mb := mb_with_at_stream_end mb false in
  let mb := mb_with_sync_flush_pending mb false in
  let mb := mb_with_dictionary_size mb (mb_saved_dictionary_size mb) in
  let mb := Mb_adjust_array mb in
  let mb := mb_with_pos_limit mb (mb_buffer_size mb - mb_after_size mb) in
  mb_with_prev_positions mb
    (afill (mb_prev_positions mb) 0 (mb_num_prev_positions mb) 0).

(** ** LZ encoder base *)

Definition max_marker_size : Z := 16.
Definition num_rep_distances : Z := 4.

Record LZ_encoder_base := mkEb {
  eb_mb : Matchfinder_base;
  eb_member_size_limit : Z;   (* unsigned long long *)
  eb_crc : Z;   (* uint32_t *)
  eb_bm_literal : array;   (* [1<<literal_context_bits][0x300] *)
  eb_bm_match : array;   (* [states][pos_states] *)
  eb_bm_rep : array;   (* [states] *)
  eb_bm_rep0 : array;   (* [states] *)
  eb_bm_rep1 : array;   (* [states] *)
  eb_bm_rep2 : array;   (* [states] *)
  eb_bm_len : array;   (* [states][pos_states] *)
  eb_bm_dis_slot : array;   (* [len_states][1<<dis_slot_bits] *)
  eb_bm_dis : array;   (* [modeled_distances-end_dis_model+1] *)
  eb_bm_align : array;   (* [dis_align_size] *)
  eb_match_len_model : Len_model;
  eb_rep_len_model : Len_model;
  eb_renc : Range_encoder;
  eb_reps : array;   (* int [num_rep_distances] *)
  eb_state : State;
  eb_member_finished : bool
}.

Definition eb_with_mb (e : LZ_encoder_base) (v : Matchfinder_base) : LZ_encoder_base :=
  mkEb v (eb_member_size_limit e) (eb_crc e) (eb_bm_literal e) (eb_bm_match e)
    (eb_bm_rep e) (eb_bm_rep0 e) (eb_bm_rep1 e) (eb_bm_rep2 e) (eb_bm_len e)
    (eb_bm_dis_slot e) (eb_bm_dis e) (eb_bm_align e) (eb_match_len_model e)
    (eb_rep_len_model e) (eb_renc e) (eb_reps e) (eb_state e)
    (eb_member_finished e).
Definition eb_with_member_size_limit (e : LZ_encoder_base) (v : Z) : LZ_encoder_base :=
  mkEb (eb_mb e) v (eb_crc e) (eb_bm_literal e) (eb_bm_match e) (eb_bm_rep e)
    (eb_bm_rep0 e) (eb_bm_rep1 e) (eb_bm_rep2 e) (eb_bm_len e)
    (eb_bm_dis_slot e) (eb_bm_dis e) (eb_bm_align e) (eb_match_len_model e)
    (eb_rep_len_model e) (eb_renc e) (eb_reps e) (eb_state e)
    (eb_member_finished e).
Definition eb_with_crc (e : LZ_encoder_base) (v : Z) : LZ_encoder_base :=
  mkEb (eb_mb e) (eb_member_size_limit e) v (eb_bm_literal e) (eb_bm_match e)
    (eb_bm_rep e) (eb_bm_rep0 e) (eb_bm_rep1 e) (eb_bm_rep2 e) (eb_bm_len e)
    (eb_bm_dis_slot e) (eb_bm_dis e) (eb_bm_align e) (eb_match_len_model e)
    (eb_rep_len_model e) (eb_renc e) (eb_reps e) (eb_state e)
    (eb_member_finished e).
Definition eb_with_bm_literal (e : LZ_encoder_base) (v : array) : LZ_encoder_base :=
  mkEb (eb_mb e) (eb_member_size_limit e) (eb_crc e) v (eb_bm_match e)
    (eb_bm_rep e) (eb_bm_rep0 e) (eb_bm_rep1 e) (eb_bm_rep2 e) (eb_bm_len e)
    (eb_bm_dis_slot e) (eb_bm_dis e) (eb_bm_align e) (eb_match_len_model e)
    (eb_rep_len_model e) (eb_renc e) (eb_reps e) (eb_state e)
    (eb_member_finished e).
Definition eb_with_bm_match (e : LZ_encoder_base) (v : array) : LZ_encoder_base :=
  mkEb (eb_mb e) (eb_member_size_limit e) (eb_crc e) (eb_bm_literal e) v
    (eb_bm_rep e) (eb_bm_rep0 e) (eb_bm_rep1 e) (eb_bm_rep2 e) (eb_bm_len e)
    (eb_bm_dis_slot e) (eb_bm_dis e) (eb_bm_align e) (eb_match_len_model e)
    (eb_rep_len_model e) (eb_renc e) (eb_reps e) (eb_state e)
    (eb_member_finished e).
Definition eb_with_bm_rep (e : LZ_encoder_base) (v : array) : LZ_encoder_base :=
  mkEb (eb_mb e) (eb_member_size_limit e) (eb_crc e) (eb_bm_literal e)
    (eb_bm_match e) v (eb_bm_rep0 e) (eb_bm_rep1 e) (eb_bm_rep2 e)
    (eb_bm_len e) (eb_bm_dis_slot e) (eb_bm_dis e) (eb_bm_align e)
    (eb_match_len_model e) (eb_rep_len_model e) (eb_renc e) (eb_reps e)
    (eb_state e) (eb_member_finished e).
Definition eb_with_bm_rep0 (e : LZ_encoder_base) (v : array) : LZ_encoder_base :=
  mkEb (eb_mb e) (eb_member_size_limit e) (eb_crc e) (eb_bm_literal e)
    (eb_bm_match e) (eb_bm_rep e) v (eb_bm_rep1 e) (eb_bm_rep2 e)
    (eb_bm_len e) (eb_bm_dis_slot e) (eb_bm_dis e) (eb_bm_align e)
    (eb_match_len_model e) (eb_rep_len_model e) (eb_renc e) (eb_reps e)
    (eb_state e) (eb_member_finished e).
Definition eb_with_bm_rep1 (e : LZ_encoder_base) (v : array) : LZ_encoder_base :=
  mkEb (eb_mb e) (eb_member_size_limit e) (eb_crc e) (eb_bm_literal e)
    (eb_bm_match e) (eb_bm_rep e) (eb_bm_rep0 e) v (eb_bm_rep2 e)
    (eb_bm_len e) (eb_bm_dis_slot e) (eb_bm_dis e) (eb_bm_align e)
    (eb_match_len_model e) (eb_rep_len_model e) (eb_renc e) (eb_reps e)
    (eb_state e) (eb_member_finished e).
Definition eb_with_bm_rep2 (e : LZ_encoder_base) (v : array) : LZ_encoder_base :=
  mkEb (eb_mb e) (eb_member_size_limit e) (eb_crc e) (eb_bm_literal e)
    (eb_bm_match e) (eb_bm_rep e) (eb_bm_rep0 e) (eb_bm_rep1 e) v
    (eb_bm_len e) (eb_bm_dis_slot e) (eb_bm_dis e) (eb_bm_align e)
    (eb_match_len_model e) (eb_rep_len_model e) (eb_renc e) (eb_reps e)
    (eb_state e) (eb_member_finished e).
Definition eb_with_bm_len (e : LZ_encoder_base) (v : array) : LZ_encoder_base :=
  mkEb (eb_mb e) (eb_member_size_limit e) (eb_crc e) (eb_bm_literal e)
    (eb_bm_match e) (eb_bm_rep e) (eb_bm_rep0 e) (eb_bm_rep1 e) (eb_bm_rep2 e)
    v (eb_bm_dis_slot e) (eb_bm_dis e) (eb_bm_align e) (eb_match_len_model e)
    (eb_rep_len_model e) (eb_renc e) (eb_reps e) (eb_state e)
    (eb_member_finished e).
Definition eb_with_bm_dis_slot (e : LZ_encoder_base) (v : array) : LZ_encoder_base :=
  mkEb (eb_mb e) (eb_member_size_limit e) (eb_crc e) (eb_bm_literal e)
    (eb_bm_match e) (eb_bm_rep e) (eb_bm_rep0 e) (eb_bm_rep1 e) (eb_bm_rep2 e)
    (eb_bm_len e) v (eb_bm_dis e) (eb_bm_align e) (eb_match_len_model e)
    (eb_rep_len_model e) (eb_renc e) (eb_reps e) (eb_state e)
    (eb_member_finished e).
Definition eb_with_bm_dis (e : LZ_encoder_base) (v : array) : LZ_encoder_base :=
  mkEb (eb_mb e) (eb_member_size_limit e) (eb_crc e) (eb_bm_literal e)
    (eb_bm_match e) (eb_bm_rep e) (eb_bm_rep0 e) (eb_bm_rep1 e) (eb_bm_rep2 e)
    (eb_bm_len e) (eb_bm_dis_slot e) v (eb_bm_align e) (eb_match_len_model e)
    (eb_rep_len_model e) (eb_renc e) (eb_reps e) (eb_state e)
    (eb_member_finished e).
Definition eb_with_bm_align (e : LZ_encoder_base) (v : array) : LZ_encoder_base :=
  mkEb (eb_mb e) (eb_member_size_limit e) (eb_crc e) (eb_bm_literal e)
    (eb_bm_match e) (eb_bm_rep e) (eb_bm_rep0 e) (eb_bm_rep1 e) (eb_bm_rep2 e)
    (eb_bm_len e) (eb_bm_dis_slot e) (eb_bm_dis e) v (eb_match_len_model e)
    (eb_rep_len_model e) (eb_renc e) (eb_reps e) (eb_state e)
    (eb_member_finished e).
Definition eb_with_match_len_model (e : LZ_encoder_base) (v : Len_model) : LZ_encoder_base :=
  mkEb (eb_mb e) (eb_member_size_limit e) (eb_crc e) (eb_bm_literal e)
    (eb_bm_match e) (eb_bm_rep e) (eb_bm_rep0 e) (eb_bm_rep1 e) (eb_bm_rep2 e)
    (eb_bm_len e) (eb_bm_dis_slot e) (eb_bm_dis e) (eb_bm_align e) v
    (eb_rep_len_model e) (eb_renc e) (eb_reps e) (eb_state e)
    (eb_member_finished e).
Definition eb_with_rep_len_model (e : LZ_encoder_base) (v : Len_model) : LZ_encoder_base :=
  mkEb (eb_mb e) (eb_member_size_limit e) (eb_crc e) (eb_bm_literal e)
    (eb_bm_match e) (eb_bm_rep e) (eb_bm_rep0 e) (eb_bm_rep1 e) (eb_bm_rep2 e)
    (eb_bm_len e) (eb_bm_dis_slot e) (eb_bm_dis e) (eb_bm_align e)
    (eb_match_len_model e) v (eb_renc e) (eb_reps e) (eb_state e)
    (eb_member_finished e).
Definition eb_with_renc (e : LZ_encoder_base) (v : Range_encoder) : LZ_encoder_base :=
  mkEb (eb_mb e) (eb_member_size_limit e) (eb_crc e) (eb_bm_literal e)
    (eb_bm_match e) (eb_bm_rep e) (eb_bm_rep0 e) (eb_bm_rep1 e) (eb_bm_rep2 e)
    (eb_bm_len e) (eb_bm_dis_slot e) (eb_bm_dis e) (eb_bm_align e)
    (eb_match_len_model e) (eb_rep_len_model e) v (eb_reps e) (eb_state e)
    (eb_member_finished e).
Definition eb_with_reps (e : LZ_encoder_base) (v : array) : LZ_encoder_base :=
  mkEb (eb_mb e) (eb_member_size_limit e) (eb_crc e) (eb_bm_literal e)
    (eb_bm_match e) (eb_bm_rep e) (eb_bm_rep0 e) (eb_bm_rep1 e) (eb_bm_rep2 e)
    (eb_bm_len e) (eb_bm_dis_slot e) (eb_bm_dis e) (eb_bm_align e)
    (eb_match_len_model e) (eb_rep_len_model e) (eb_renc e) v (eb_state e)
    (eb_member_finished e).
Definition eb_with_state (e : LZ_encoder_base) (v : State) : LZ_encoder_base :=
  mkEb (eb_mb e) (eb_member_size_limit e) (eb_crc e) (eb_bm_literal e)
    (eb_bm_match e) (eb_bm_rep e) (eb_bm_rep0 e) (eb_bm_rep1 e) (eb_bm_rep2 e)
    (eb_bm_len e) (eb_bm_dis_slot e) (eb_bm_dis e) (eb_bm_align e)
    (eb_match_len_model e) (eb_rep_len_model e) (eb_renc e) (eb_reps e) v
    (eb_member_finished e).
Definition eb_with_member_finished (e : LZ_encoder_base) (v : bool) : LZ_encoder_base :=
  mkEb (eb_mb e) (eb_member_size_limit e) (eb_crc e) (eb_bm_literal e)
    (eb_bm_match e) (eb_bm_rep e) (eb_bm_rep0 e) (eb_bm_rep1 e) (eb_bm_rep2 e)
    (eb_bm_len e) (eb_bm_dis_slot e) (eb_bm_dis e) (eb_bm_align e)
    (eb_match_len_model e) (eb_rep_len_model e) (eb_renc e) (eb_reps e)
    (eb_state e) v.

Definition LZeb_member_finished (eb : LZ_encoder_base) : bool :=
  eb_member_finished eb && Cb_empty (re_cb (eb_renc eb)).

Definition LZeb_crc (eb : LZ_encoder_base) : Z := Z.lxor (eb_crc eb) 0xFFFFFFFF.

Definition LZeb_encode_pair (eb : LZ_encoder_base) (dis len pos_state : Z)
    : LZ_encoder_base :=
  let dis_slot := get_slot dis in
  let '(renc, lm) :=
    Re_encode_len (eb_renc eb) (eb_match_len_model eb) len pos_state in
  let eb := eb_with_match_len_model (eb_with_renc eb renc) lm in
  let '(renc, a) :=
    Re_encode_tree6 (eb_renc eb) (eb_bm_dis_slot eb)
                    (get_len_state len * Z.shiftl 1 dis_slot_bits) dis_slot in
  let eb := eb_with_bm_dis_slot (eb_with_renc eb renc) a in
  if start_dis_model <=? dis_slot then
    let direct_bits := Z.shiftr dis_slot 1 - 1 in
    let base := u32 (Z.shiftl (Z.lor 2 (Z.land dis_slot 1)) direct_bits) in
    let direct_dis := u32 (dis - base) in
    if dis_slot <? end_dis_model then
      let '(renc, a) :=
        Re_encode_tree_reversed (eb_renc eb) (eb_bm_dis eb) (u32 (base - dis_slot))
                                direct_dis direct_bits in
      eb_with_bm_dis (eb_with_renc eb renc) a
    else
      let renc := Re_encode (eb_renc eb) (Z.shiftr direct_dis dis_align_bits)
                            (direct_bits - dis_align_bits) in
      let '(renc, a) :=
        Re_encode_tree_reversed renc (eb_bm_align eb) 0 direct_dis dis_align_bits in
      eb_with_bm_align (eb_with_renc eb renc) a
  else eb.

(** [for( i = 0; i < Lt_size; ++i ) Cb_put_byte( &eb->renc.cb, trailer[i] );] *)
Definition LZeb_put_trailer (cb : Circular_buffer) (trailer : Lzip_trailer)
    : Circular_buffer :=
  fold_left (fun cb i => Cb_put_byte cb (trailer (Z.of_nat i)))
            (seq 0 (Z.to_nat Lt_size)) cb.

Definition LZeb_try_full_flush (eb : LZ_encoder_base) : LZ_encoder_base :=
  let pos_state := Z.land (Mb_data_position (eb_mb eb)) pos_state_mask in
  let state := eb_state eb in
  if eb_member_finished eb ||
     (Cb_free_bytes (re_cb (eb_renc eb)) <?
      u32 (max_marker_size + re_ff_count (eb_renc eb) + Lt_size))
  then eb else
  let eb := eb_with_member_finished eb true in
  let '(renc, a) :=
    Re_encode_bit_at (eb_renc eb) (eb_bm_match eb)
                     (state * pos_states + pos_state) true in
  let eb := eb_with_bm_match (eb_with_renc eb renc) a in
  let '(renc, a) := Re_encode_bit_at (eb_renc eb) (eb_bm_rep eb) state false in
  let eb := eb_with_bm_rep (eb_with_renc eb renc) a in
  let eb := LZeb_encode_pair eb 0xFFFFFFFF min_match_len pos_state in
  let eb := eb_with_renc eb (Re_flush (eb_renc eb)) in
  let trailer : Lzip_trailer := fun _ => 0 in
  let trailer := Lt_set_data_crc trailer (LZeb_crc eb) in
  let trailer := Lt_set_data_size trailer (Mb_data_position (eb_mb eb)) in
  let trailer :=
    Lt_set_member_size trailer (u64 (Re_member_position (eb_renc eb) + Lt_size)) in
  let renc := eb_renc eb in
  eb_with_renc eb (re_with_cb renc (LZeb_put_trailer (re_cb renc) trailer)).

(** [do { ... } while( Re_member_position( &eb->renc ) - old_mpos < min_size );]
    every round moves the member position forward. *)
Fixpoint LZeb_try_sync_flush_loop (fuel : nat) (eb : LZ_encoder_base)
    (state pos_state old_mpos min_size : Z) : LZ_encoder_base :=
  match fuel with
  | O => eb
  | S fuel' =>
      let '(renc, a) :=
        Re_encode_bit_at (eb_renc eb) (eb_bm_match eb)
                         (state * pos_states + pos_state) true in
      let eb := eb_with_bm_match (eb_with_renc eb renc) a in
      let '(renc, a) := Re_encode_bit_at (eb_renc eb) (eb_bm_rep eb) state false in
      let eb := eb_with_bm_rep (eb_with_renc eb renc) a in
      let eb := LZeb_encode_pair eb 0xFFFFFFFF (min_match_len + 1) pos_state in
      let eb := eb_with_renc eb (Re_flush (eb_renc eb)) in
      if u64 (Re_member_position (eb_renc eb) - old_mpos) <? min_size
      then LZeb_try_sync_flush_loop fuel' eb state pos_state old_mpos min_size
      else eb
  end.

Definition LZeb_try_sync_flush (eb : LZ_encoder_base) : LZ_encoder_base :=
  let pos_state := Z.land (Mb_data_position (eb_mb eb)) pos_state_mask in
  let state := eb_state eb in
  let min_size := u32 (re_ff_count (eb_renc eb) + max_marker_size) in
  if eb_member_finished eb ||
     (Cb_free_bytes (re_cb (eb_renc eb)) <? u32 (min_size + max_marker_size))
  then eb else
  let eb := eb_with_mb eb (mb_with_sync_flush_pending (eb_mb eb) false) in
  let old_mpos := Re_member_position (eb_renc eb) in
  LZeb_try_sync_flush_loop (S (Z.to_nat min_size)) eb state pos_state old_mpos
                           min_size.

Definition LZeb_reset (eb : LZ_encoder_base) (member_size : Z) : LZ_encoder_base :=
  let min_member_size := min_dictionary_size in
  let max_member_size := 0x0008000000000000 in
  let eb := eb_with_mb eb (Mb_reset (eb_mb eb)) in
  let eb := eb_with_member_size_limit eb
              (u64 (Z.min (Z.max min_member_size member_size) max_member_size
                    - Lt_size - max_marker_size)) in
  let eb := eb_with_crc eb 0xFFFFFFFF in
  let eb := eb_with_bm_literal eb
    (Bm_array_init (eb_bm_literal eb) 0 (Z.shiftl 1 literal_context_bits * 0x300)) in
  let eb := eb_with_bm_match eb
    (Bm_array_init (eb_bm_match eb) 0 (states * pos_states)) in
  let eb := eb_with_bm_rep eb (Bm_array_init (eb_bm_rep eb) 0 states) in
  let eb := eb_with_bm_rep0 eb (Bm_array_init (eb_bm_rep0 eb) 0 states) in
  let eb := eb_with_bm_rep1 eb (Bm_array_init (eb_bm_rep1 eb) 0 states) in
  let eb := eb_with_bm_rep2 eb (Bm_array_init (eb_bm_rep2 eb) 0 states) in
  let eb := eb_with_bm_len eb
    (Bm_array_init (eb_bm_len eb) 0 (states * pos_states)) in
  let eb := eb_with_bm_dis_slot eb
    (Bm_array_init (eb_bm_dis_slot eb) 0 (len_states * Z.shiftl 1 dis_slot_bits)) in
  let eb := eb_with_bm_dis eb
    (Bm_array_init (eb_bm_dis eb) 0 (modeled_distances - end_dis_model + 1)) in
  let eb := eb_with_bm_align eb
    (Bm_array_init (eb_bm_align eb) 0 dis_align_size) in
  let eb := eb_with_match_len_model eb (Lm_init (eb_match_len_model eb)) in
  let eb := eb_with_rep_len_model eb (Lm_init (eb_rep_len_model eb)) in
  let eb := eb_with_renc eb
    (Re_reset (eb_renc eb) (u32 (mb_dictionary_size (eb_mb eb)))) in
  let eb := eb_with_reps eb (afill (eb_reps eb) 0 num_rep_distances 0) in
  let eb := eb_with_state eb 0 in
  eb_with_member_finished eb false.

(** [buffer_block], [prev_block] and [cb_block] are the three blocks the
    function obtains from [malloc]; the fields of the fresh struct that
    [LZeb_reset] reads before writing are unwritten cells, read as 0. *)
Definition LZeb_init (buffer_block prev_block cb_block : option array)
    (before_size dict_size after_size dict_factor num_prev_positions23
     pos_array_factor min_free_bytes member_size : Z) : option LZ_encoder_base :=
  match Mb_init buffer_block prev_block before_size dict_size after_size
                dict_factor num_prev_positions23 pos_array_factor with
  | None => None
  | Some mb =>
      match Re_init cb_block (u32 (mb_dictionary_size mb)) min_free_bytes with
      | None => None
      | Some renc =>
          let raw : array := fun _ => 0 in
          let rawlm := mkLen_model 0 0 raw raw raw in
          let eb := mkEb mb 0 0 raw raw raw raw raw raw raw raw raw raw
                         rawlm rawlm renc raw 0 false in
          Some (LZeb_reset eb member_size)
      end
  end.

(** ** The two encoders

    Of [struct Len_prices] and [struct LZ_encoder] the fields are kept that
    [Lp_init], [LZe_init] and [LZe_reset] write; the price tables, the pairs
    and the rest of the trials belong to the sequence optimizer. *)

Definition max_num_trials : Z := Z.shiftl 1 13.
Definition single_step_trial : Z := -2.
Definition dual_step_trial : Z := -1.

(** Where the pointer [lm] of a [struct Len_prices] points. *)
Inductive Len_model_ptr := to_match_len_model | to_rep_len_model.

Record Len_prices := mkLen_prices {
  lp_lm : Len_model_ptr;
  lp_len_symbols : Z;
  lp_count : Z;
  lp_counters : array          (* [pos_states] *)
}.

Definition Lp_reset (lp : Len_prices) : Len_prices :=
  mkLen_prices (lp_lm lp) (lp_len_symbols lp) (lp_count lp)
               (afill (lp_counters lp) 0 pos_states 0).

Definition Lp_init (lm : Len_model_ptr) (match_len_limit : Z) : Len_prices :=
  let len_symbols := match_len_limit + 1 - min_match_len in
  Lp_reset (mkLen_prices lm len_symbols
              (if 12 <? match_len_limit then 1 else len_symbols) (fun _ => 0)).

Record LZ_encoder := mkLZe {
  lze_eb : LZ_encoder_base;
  lze_cycles : Z;
  lze_match_len_limit : Z;
  lze_match_len_prices : Len_prices;
  lze_rep_len_prices : Len_prices;
  lze_pending_num_pairs : Z;
  lze_trials_prev_index : array;     (* trials[i].prev_index *)
  lze_trials_prev_index2 : array;    (* trials[i].prev_index2 *)
  lze_num_dis_slots : Z;
  lze_price_counter : Z;
  lze_dis_price_counter : Z;
  lze_align_price_counter : Z;
  lze_been_flushed : bool
}.

Definition lze_with_eb (e : LZ_encoder) (eb : LZ_encoder_base) : LZ_encoder :=
  mkLZe eb (lze_cycles e) (lze_match_len_limit e) (lze_match_len_prices e)
    (lze_rep_len_prices e) (lze_pending_num_pairs e) (lze_trials_prev_index e)
    (lze_trials_prev_index2 e) (lze_num_dis_slots e) (lze_price_counter e)
    (lze_dis_price_counter e) (lze_align_price_counter e) (lze_been_flushed e).

Definition num_prev_positions3 : Z := Z.shiftl 1 16.
Definition num_prev_positions2 : Z := Z.shiftl 1 10.

Definition LZe_init (buffer_block prev_block cb_block : option array)
    (dict_size len_limit member_size : Z) : option LZ_encoder :=
  let before_size := max_num_trials in
  let after_size := max_num_trials + 2 * max_match_len + 1 in
  let dict_factor := 2 in
  let num_prev_positions23 := num_prev_positions2 + num_prev_positions3 in
  let pos_array_factor := 2 in
  let min_free_bytes := 2 * max_num_trials in
  match LZeb_init buffer_block prev_block cb_block before_size dict_size
                  after_size dict_factor num_prev_positions23 pos_array_factor
                  min_free_bytes member_size with
  | None => None
  | Some eb =>
      Some (mkLZe eb
        (if len_limit <? max_match_len then 16 + len_limit / 2 else 256)
        len_limit
        (Lp_init to_match_len_model len_limit)
        (Lp_init to_rep_len_model len_limit)
        0
        (aset (fun _ => 0) 1 0)
        (aset (fun _ => 0) 1 single_step_trial)
        (2 * real_bits (u32 (mb_dictionary_size (eb_mb eb) - 1)))
        0 0 0 false)
  end.

Definition LZe_reset (e : LZ_encoder) (member_size : Z) : LZ_encoder :=
  mkLZe (LZeb_reset (lze_eb e) member_size) (lze_cycles e)
    (lze_match_len_limit e) (Lp_reset (lze_match_len_prices e))
    (Lp_reset (lze_rep_len_prices e)) 0 (lze_trials_prev_index e)
    (lze_trials_prev_index2 e) (lze_num_dis_slots e) 0 0 0 false.

Record FLZ_encoder := mkFLZe {
  flze_eb : LZ_encoder_base;
  flze_key4 : Z
}.

Definition flze_with_eb (fe : FLZ_encoder) (eb : LZ_encoder_base) : FLZ_encoder :=
  mkFLZe eb (flze_key4 fe).

Definition FLZe_init (buffer_block prev_block cb_block : option array)
    (member_size : Z) : option FLZ_encoder :=
  let before_size := 0 in
  let dict_size := 65536 in
  let after_size := max_match_len in
  let dict_factor := 16 in
  let min_free_bytes := max_marker_size in
  let num_prev_positions23 := 0 in
  let pos_array_factor := 1 in
  match LZeb_init buffer_block prev_block cb_block before_size dict_size
                  after_size dict_factor num_prev_positions23 pos_array_factor
                  min_free_bytes member_size with
  | None => None
  | Some eb => Some (mkFLZe eb 0)
  end.

Definition FLZe_reset (fe : FLZ_encoder) (member_size : Z) : FLZ_encoder :=
  flze_with_eb fe (LZeb_reset (flze_eb fe) member_size).

(** ** The encoder handle

    [lz_encoder_base] points into whichever of the two encoders exists; it is
    kept as the name of that encoder, and [le_eb] follows it. *)

Inductive Encoder_base_ptr := in_lz_encoder | in_flz_encoder.

Record LZ_Encoder := mkLZ_Encoder {
  le_partial_in_size : Z;
  le_partial_out_size : Z;
  le_lz_encoder_base : option Encoder_base_ptr;
  le_lz_encoder : option LZ_encoder;
  le_flz_encoder : option FLZ_encoder;
  le_lz_errno : LZ_Errno;
  le_fatal : bool
}.

Definition le_with_lz_errno (e : LZ_Encoder) (v : LZ_Errno) : LZ_Encoder :=
  mkLZ_Encoder (le_partial_in_size e) (le_partial_out_size e)
    (le_lz_encoder_base e) (le_lz_encoder e) (le_flz_encoder e) v (le_fatal e).
Definition le_with_fatal (e : LZ_Encoder) (v : bool) : LZ_Encoder :=
  mkLZ_Encoder (le_partial_in_size e) (le_partial_out_size e)
    (le_lz_encoder_base e) (le_lz_encoder e) (le_flz_encoder e)
    (le_lz_errno e) v.

(** [*e->lz_encoder_base]. *)
Definition le_eb (e : LZ_Encoder) : option LZ_encoder_base :=
  match le_lz_encoder_base e with
  | Some in_lz_encoder => option_map lze_eb (le_lz_encoder e)
  | Some in_flz_encoder => option_map flze_eb (le_flz_encoder e)
  | None => None
  end.

(** A store through [e->lz_encoder_base]. *)
Definition le_with_eb (e : LZ_Encoder) (eb : LZ_encoder_base) : LZ_Encoder :=
  match le_lz_encoder_base e with
  | Some in_lz_encoder =>
      mkLZ_Encoder (le_partial_in_size e) (le_partial_out_size e)
        (le_lz_encoder_base e)
        (option_map (fun x => lze_with_eb x eb) (le_lz_encoder e))
        (le_flz_encoder e) (le_lz_errno e) (le_fatal e)
  | Some in_flz_encoder =>
      mkLZ_Encoder (le_partial_in_size e) (le_partial_out_size e)
        (le_lz_encoder_base e) (le_lz_encoder e)
        (option_map (fun x => flze_with_eb x eb) (le_flz_encoder e))
        (le_lz_errno e) (le_fatal e)
  | None => e
  end.

Definition LZ_Encoder_init : LZ_Encoder :=
  mkLZ_Encoder 0 0 None None None LZ_ok false.

(** [verify_encoder] for a non-null handle. *)
Definition verify_encoder (e : LZ_Encoder) : bool * LZ_Encoder :=
  let null {A} (o : option A) := match o with None => true | Some _ => false end in
  if null (le_lz_encoder_base e) ||
     (null (le_lz_encoder e) && null (le_flz_encoder e)) ||
     (negb (null (le_lz_encoder e)) && negb (null (le_flz_encoder e)))
  then (false, le_with_lz_errno e LZ_bad_argument)
  else (true, e).

(** [dictionary_size] and [match_len_limit] are [int], [member_size] is an
    [unsigned long long].  [handle_ok] and [struct_ok] tell whether [malloc]
    returned the handle and the encoder struct; the three blocks are those of
    [LZeb_init]. *)
Definition LZ_compress_open (handle_ok struct_ok : bool)
    (buffer_block prev_block cb_block : option array)
    (dictionary_size match_len_limit member_size : Z) : option LZ_Encoder :=
  if negb handle_ok then None else
  let e := LZ_Encoder_init in
  let '(ok, header) := Lh_set_dictionary_size (fun _ => 0) (u32 dictionary_size) in
  if negb ok ||
     (match_len_limit <? min_match_len_limit) ||
     (max_match_len <? match_len_limit) ||
     (member_size <? min_dictionary_size)
  then Some (le_with_fatal (le_with_lz_errno e LZ_bad_argument) true)
  else
    let failed := Some (le_with_fatal (le_with_lz_errno e LZ_mem_error) true) in
    if (dictionary_size =? 65535) && (match_len_limit =? 16) then
      match (if struct_ok
             then FLZe_init buffer_block prev_block cb_block member_size
             else None) with
      | Some fe =>
          Some (mkLZ_Encoder 0 0 (Some in_flz_encoder) None (Some fe) LZ_ok false)
      | None => failed
      end
    else
      match (if struct_ok
             then LZe_init buffer_block prev_block cb_block
                           (Lh_get_dictionary_size header) match_len_limit
                           member_size
             else None) with
      | Some le =>
          Some (mkLZ_Encoder 0 0 (Some in_lz_encoder) (Some le) None LZ_ok false)
      | None => failed
      end.

Definition LZ_compress_finish (e : LZ_Encoder) : Z * LZ_Encoder :=
  let '(ok, e) := verify_encoder e in
  match le_eb e with
  | None => (-1, e)
  | Some eb =>
      if negb ok || le_fatal e then (-1, e) else
      let eb := eb_with_mb eb (Mb_finish (eb_mb eb)) in
      if (Mb_data_position (eb_mb eb) =? 0) &&
         (Re_member_position (eb_renc eb) =? Lh_size) then
        let eb := eb_with_mb eb (Mb_adjust_dictionary_size (eb_mb eb)) in
        let renc := eb_renc eb in
        let renc :=
          re_with_header renc
            (snd (Lh_set_dictionary_size (re_header renc)
                    (u32 (mb_dictionary_size (eb_mb eb))))) in
        let cb := re_cb renc in
        let renc :=
          re_with_cb renc
            (cb_with_buffer cb (aset (cb_buffer cb) 5 (re_header renc 5))) in
        (0, le_with_eb e (eb_with_renc eb renc))
      else (0, le_with_eb e eb)
  end.

Definition LZ_compress_sync_flush (e : LZ_Encoder) : Z * LZ_Encoder :=
  let '(ok, e) := verify_encoder e in
  match le_eb e with
  | None => (-1, e)
  | Some eb =>
      if negb ok || le_fatal e then (-1, e) else
      if negb (mb_at_stream_end (eb_mb eb))
      then (0, le_with_eb e (eb_with_mb eb
                               (mb_with_sync_flush_pending (eb_mb eb) true)))
      else (0, e)
  end.

Definition LZ_compress_write (e : LZ_Encoder) (buffer : list Z) (size : Z)
    : Z * LZ_Encoder :=
  let '(ok, e) := verify_encoder e in
  match le_eb e with
  | None => (-1, e)
  | Some eb =>
      if negb ok || le_fatal e then (-1, e) else
      let '(n, mb) := Mb_write_data (eb_mb eb) buffer size in
      (n, le_with_eb e (eb_with_mb eb mb))
  end.

Definition LZ_compress_errno (e : LZ_Encoder) : LZ_Errno := le_lz_errno e.

Definition LZ_compress_data_position (e : LZ_Encoder) : Z :=
  let '(ok, e) := verify_encoder e in
  match le_eb e with
  | Some eb => if ok then Mb_data_position (eb_mb eb) else 0
  | None => 0
  end.

Definition LZ_compress_member_position (e : LZ_Encoder) : Z :=
  let '(ok, e) := verify_encoder e in
  match le_eb e with
  | Some eb => if ok then Re_member_position (eb_renc eb) else 0
  | None => 0
  end.

(** * Definitions used to state the properties *)

(** The dictionary size coded by a byte [b], as the format description gives
    it: [(1<<(b&0x1F)) - (b>>5)*(1<<(b&0x1F))/16]. *)
Definition spec_coded_ds (b : Z) : Z :=
  Z.shiftl 1 (Z.land b 0x1F) - Z.shiftr b 5 * Z.shiftl 1 (Z.land b 0x1F) / 16.

(** The adaptive update of a probability [p] on an observed bit [b], as the
    data model gives it: [p += (2048 - p) >> 5] for 0, [p -= p >> 5] for 1. *)
Definition spec_Bm_update (p b : Z) : Z :=
  if b =? 0 then p + Z.shiftr (2048 - p) 5 else p - Z.shiftr p 5.

(** The threshold both coders compute from a range and a probability:
    [( range >> bit_model_total_bits ) * probability] in [uint32_t]. *)
Definition Rc_bound (range : Z) (probability : Bit_model) : Z :=
  u32 (Z.shiftr range bit_model_total_bits * probability).

(** The values a bit model can hold: [Bm_init] stores the first one, and the
    only other stores are those of [Rd_decode_bit] and [Re_encode_bit]. *)
Inductive Bm_reachable : Bit_model -> Prop :=
  | Bm_reach_init : Bm_reachable Bm_init
  | Bm_reach_decode : forall p rdec,
      Bm_reachable p -> Bm_reachable (snd (Rd_decode_bit rdec p))
  | Bm_reach_encode : forall p renc bit,
      Bm_reachable p -> Bm_reachable (snd (Re_encode_bit renc p bit)).

(** The states of a range decoder: [Rd_init] makes the first one, and every
    function that takes a [struct Range_decoder *] leads from one to the
    next, as do the stores [LZ_decompress_read] and [LZd_decode_member] make
    into the struct.  The bit models handed to [Rd_decode_bit] hold reachable
    values. *)
Inductive Rd_reachable : Range_decoder -> Prop :=
  | Rd_reach_init : forall block rdec,
      Rd_init block = Some rdec -> Rd_reachable rdec
  | Rd_reach_finish : forall rdec,
      Rd_reachable rdec -> Rd_reachable (Rd_finish rdec)
  | Rd_reach_purge : forall rdec,
      Rd_reachable rdec -> Rd_reachable (snd (Rd_purge rdec))
  | Rd_reach_reset : forall rdec,
      Rd_reachable rdec -> Rd_reachable (Rd_reset rdec)
  | Rd_reach_find_header : forall rdec,
      Rd_reachable rdec -> Rd_reachable (snd (Rd_find_header rdec))
  | Rd_reach_write_data : forall rdec inbuf size,
      Rd_reachable rdec -> Rd_reachable (snd (Rd_write_data rdec inbuf size))
  | Rd_reach_get_byte : forall rdec,
      Rd_reachable rdec -> Rd_reachable (snd (Rd_get_byte rdec))
  | Rd_reach_read_data : forall rdec size,
      Rd_reachable rdec -> Rd_reachable (snd (Rd_read_data rdec size))
  | Rd_reach_unread_data : forall rdec size,
      Rd_reachable rdec -> Rd_reachable (snd (Rd_unread_data rdec size))
  | Rd_reach_member_position : forall rdec pos,
      Rd_reachable rdec -> Rd_reachable (rd_with_member_position rdec pos)
  | Rd_reach_cb_reset : forall rdec,
      Rd_reachable rdec -> Rd_reachable (rd_with_cb rdec (Cb_reset (rd_cb rdec)))
  | Rd_reach_reload_pending : forall rdec,
      Rd_reachable rdec -> Rd_reachable (rd_with_reload_pending rdec true)
  | Rd_reach_try_reload : forall rdec,
      Rd_reachable rdec -> Rd_reachable (snd (Rd_try_reload rdec))
  | Rd_reach_normalize : forall rdec,
      Rd_reachable rdec -> Rd_reachable (Rd_normalize rdec)
  | Rd_reach_decode : forall rdec num_bits,
      Rd_reachable rdec -> Rd_reachable (snd (Rd_decode rdec num_bits))
  | Rd_reach_decode_bit : forall rdec p,
      Rd_reachable rdec -> Bm_reachable p ->
      Rd_reachable (snd (fst (Rd_decode_bit rdec p))).

(** The states of a range encoder, in the same way; the stores from outside
    are those of [LZeb_try_full_flush] (the trailer) and of
    [LZ_compress_finish] (the header and its copy in the buffer). *)
Inductive Re_reachable : Range_encoder -> Prop :=
  | Re_reach_init : forall block dictionary_size min_free_bytes renc,
      Re_init block dictionary_size min_free_bytes = Some renc ->
      Re_reachable renc
  | Re_reach_reset : forall renc dictionary_size,
      Re_reachable renc -> Re_reachable (Re_reset renc dictionary_size)
  | Re_reach_shift_low : forall renc,
      Re_reachable renc -> Re_reachable (Re_shift_low renc)
  | Re_reach_read_data : forall renc out_size,
      Re_reachable renc -> Re_reachable (snd (Re_read_data renc out_size))
  | Re_reach_put_byte : forall renc b,
      Re_reachable renc ->
      Re_reachable (re_with_cb renc (Cb_put_byte (re_cb renc) b))
  | Re_reach_header : forall renc header,
      Re_reachable renc ->
      Re_reachable
        (re_with_cb (re_with_header renc header)
           (cb_with_buffer (re_cb renc)
              (aset (cb_buffer (re_cb renc)) 5 (header 5))))
  | Re_reach_flush : forall renc,
      Re_reachable renc -> Re_reachable (Re_flush renc)
  | Re_reach_encode : forall renc symbol num_bits,
      Re_reachable renc -> Re_reachable (Re_encode renc symbol num_bits)
  | Re_reach_encode_bit : forall renc p bit,
      Re_reachable renc -> Bm_reachable p ->
      Re_reachable (fst (Re_encode_bit renc p bit)).

(** The entry [n] of the CRC table of the reflected polynomial [0xEDB88320]:
    eight times, shift right by one bit and, when the bit shifted out is 1,
    xor the polynomial in. *)
Definition spec_crc32_entry (n : Z) : Z :=
  let step (c : Z) :=
    if Z.testbit c 0 then Z.lxor 0xEDB88320 (Z.shiftr c 1) else Z.shiftr c 1 in
  step (step (step (step (step (step (step (step n))))))).

(** What holds of a circular buffer between two calls: both indices are
    inside the block, whose size is an [unsigned] above 1 ([Cb_init]). *)
Definition Cb_wf (cb : Circular_buffer) : Prop :=
  1 < cb_buffer_size cb <= 0xFFFFFFFF /\
  0 <= cb_get cb < cb_buffer_size cb /\
  0 <= cb_put cb < cb_buffer_size cb.

(** The bytes at the [n] places from [put] on, around the end of the block. *)
Definition Cb_ring (buffer : array) (buffer_size put : Z) (n : nat) : list Z :=
  map (fun k => buffer ((put + Z.of_nat k) mod buffer_size)) (seq 0 n).

(** Between two operations the range of the decoder is at least [1 << 16]:
    a normalization then brings it above [0x00FFFFFF]. *)
Definition Rd_inv (rdec : Range_decoder) : Prop :=
  65536 <= rd_range rdec <= 0xFFFFFFFF.

(** The range of the encoder is normalized between two operations. *)
Definition Re_inv (renc : Range_encoder) : Prop :=
  0x00FFFFFF < re_range renc <= 0xFFFFFFFF.

(** The three comparisons of [LZd_try_verify_trailer], of a trailer against
    a decoder and the position of its range decoder. *)
Definition Lt_matches (trailer : Lzip_trailer) (d : LZ_decoder)
    (member_position : Z) : Prop :=
  Lt_get_data_crc trailer = LZd_crc d /\
  Lt_get_data_size trailer = LZd_data_position d /\
  Lt_get_member_size trailer = member_position.

(** Whether a round of the loop of [LZd_decode_member] gets past the two
    tests at its head (input available, room for a match). *)
Definition LZd_round_ready (rdec : Range_decoder) (d : LZ_decoder) : bool :=
  (Rd_enough_available_bytes rdec ||
   (rd_at_stream_end rdec && negb (Cb_empty (rd_cb rdec)))) &&
  LZd_enough_free_bytes d.

(** What a round decodes when its first two bits select a normal match
    ([bm_match] gives 1, [bm_rep] gives 0); [None] on the other branches. *)
Definition LZd_round_normal_match (rdec : Range_decoder) (d : LZ_decoder)
    : option (LZd_match * Range_decoder * LZ_decoder) :=
  let pos_state := Z.land (LZd_data_position d) pos_state_mask in
  let state := lzd_state d in
  let '(bit, rdec, a) :=
    Rd_decode_bit_at rdec (lzd_bm_match d) (state * pos_states + pos_state) in
  let d := lzd_with_bm_match d a in
  if bit =? 0 then None else
  let '(bit, rdec, a) := Rd_decode_bit_at rdec (lzd_bm_rep d) state in
  let d := lzd_with_bm_rep d a in
  if negb (bit =? 0) then None else Some (LZd_decode_match rdec d pos_state).

(** *** A stream that ends after a sync flush

    The 26 bytes an encoder opened with a 64 KiB dictionary has in its buffer
    after [LZeb_try_sync_flush] on no data: the header and two markers. *)
Definition sync_flushed_stream : list Z :=
  [76; 90; 73; 80; 1; 16; 0; 135; 255; 251; 255; 255; 192; 0; 0; 0; 0;
   133; 84; 158; 31; 255; 151; 69; 185; 64].

Definition fresh_block : array := fun _ => 0.

(** A decoder that has been given the whole stream and told it is the end. *)
Definition sync_flushed_decoder : option LZ_Decoder :=
  match LZ_decompress_open true true (Some fresh_block) with
  | None => None
  | Some d =>
      let '(_, d) := LZ_decompress_write d sync_flushed_stream 26 in
      Some (snd (LZ_decompress_finish d))
  end.

(** The states in which the first call of [LZ_decompress_read] enters the
    loop of [LZd_decode_member], and the second round of that loop. *)
Definition sync_flushed_round1 : option (Range_decoder * LZ_decoder) :=
  match sync_flushed_decoder with
  | None => None
  | Some d =>
      match ld_rdec d with
      | None => None
      | Some rdec =>
          match LZ_decompress_read_header true (Some fresh_block) d rdec with
          | inl _ => None
          | inr (_, rdec, lzd) => Some (snd (Rd_try_reload rdec), lzd)
          end
      end
  end.

Definition sync_flushed_round2 : option (Range_decoder * LZ_decoder) :=
  match sync_flushed_round1 with
  | None => None
  | Some (rdec, lzd) =>
      match LZd_decode_round rdec lzd with
      | (LZd_continue, rdec, lzd) => Some (rdec, lzd)
      | _ => None
      end
  end.

(** The arguments [LZ_compress_open] refuses, and those for which it takes
    the fast encoder. *)
Definition bad_open_arguments (dictionary_size match_len_limit member_size : Z)
    : Prop :=
  dictionary_size < 4096 \/ 2 ^ 29 < dictionary_size \/
  match_len_limit < 5 \/ 273 < match_len_limit \/ member_size < 4096.

Definition fast_open_arguments (dictionary_size match_len_limit : Z) : Prop :=
  dictionary_size = 65535 /\ match_len_limit = 16.

(** *** An encoder that is finished before it has encoded anything

    An encoder opened for a 64 KiB dictionary is given 5000 bytes and then
    finished, with no read in between. *)
Definition unread_encoder : option LZ_Encoder :=
  match LZ_compress_open true true (Some fresh_block) (Some fresh_block)
                         (Some fresh_block) 65536 36 (2 ^ 63) with
  | None => None
  | Some e => Some (snd (LZ_compress_write e (repeat 0x41 5000) 5000))
  end.

(** *** Two encoders as [LZ_compress_open] returns them

    [opened_encoder] is the handle, and [opened_encoder_base] the encoder
    base its pointer leads to; the values after [None] stand for handles
    that were not obtained. *)
Definition opened_encoder (dictionary_size match_len_limit : Z) : LZ_Encoder :=
  match LZ_compress_open true true (Some fresh_block) (Some fresh_block)
                         (Some fresh_block) dictionary_size match_len_limit
                         (2 ^ 63) with
  | Some e => e
  | None => LZ_Encoder_init
  end.

Definition unwritten_encoder_base : LZ_encoder_base :=
  let lm := mkLen_model 0 0 fresh_block fresh_block fresh_block in
  mkEb (mkMb 0 fresh_block fresh_block 0 0 0 0 0 0 0 0 0 0 0 0 0 0 false false)
       0 0 fresh_block fresh_block fresh_block fresh_block fresh_block
       fresh_block fresh_block fresh_block fresh_block fresh_block lm lm
       (mkRe (mkCb fresh_block 0 0 0) 0 0 0 0 0 0 fresh_block)
       fresh_block 0 false.

Definition opened_encoder_base (e : LZ_Encoder) : LZ_encoder_base :=
  match le_eb e with
  | Some eb => eb
  | None => unwritten_encoder_base
  end.

(** *** An encoder whose header has been read

    [LZ_compress_read] asked for the 6 bytes of the header of a fresh
    encoder hands out what its first [Re_read_data] gives and returns: no
    pass of the encoder runs.  This is the handle after that call. *)
Definition header_read_encoder : LZ_Encoder :=
  let e := opened_encoder 65536 36 in
  let eb := opened_encoder_base e in
  le_with_eb e (eb_with_renc eb (snd (Re_read_data (eb_renc eb) 6))).

(** *** Little-endian fields

    The value of the [n] bytes at [data[lo ..]], the byte at [lo] the least
    significant. *)
Fixpoint le_value (data : array) (lo : Z) (n : nat) : Z :=
  match n with
  | O => 0
  | S n' => data lo + 256 * le_value data (lo + 1) n'
  end.

(** *** The bytes held by a circular buffer

    From [get] up to [put], around the end of the block: the bytes written
    and not yet read, oldest first. *)
Definition Cb_content (cb : Circular_buffer) : list Z :=
  Cb_ring (cb_buffer cb) (cb_buffer_size cb) (cb_get cb)
          (Z.to_nat (Cb_used_bytes cb)).

(** *** Big-endian values

    The value of a list of bytes, the first the most significant. *)
Definition be_value (l : list Z) : Z := fold_left (fun acc b => acc * 256 + b) l 0.

(** Every cell of a list is a byte. *)
Definition all_bytes (l : list Z) : Prop := Forall (fun b => 0 <= b < 256) l.

(** A list of bytes starts with a member header that [Lh_verify] accepts. *)
Definition header_at (l : list Z) : bool :=
  (6 <=? Z.of_nat (length l)) && Lh_verify (awrite (fun _ => 0) 0 (firstn 6 l)).

(** *** The copy of a match, byte by byte

    What the LZ77 pair [(distance, len)] stands for: [n] times, the byte
    [distance + 1] places back is appended.  [LZd_copy_block] is compared
    with it. *)
Fixpoint LZd_copy_reference (n : nat) (d : LZ_decoder) (distance : Z) : LZ_decoder :=
  match n with
  | O => d
  | S n' => LZd_copy_reference n' (LZd_put_byte d (LZd_peek d distance)) distance
  end.

(** Every cell of the block of a buffer holds a [uint8_t]. *)
Definition Cb_bytes (cb : Circular_buffer) : Prop :=
  forall x, 0 <= cb_buffer cb x < 256.

(** Two decoders that differ at most in how the block of the dictionary is
    represented: every cell of the block and every other field agree. *)
Definition LZd_same_data (d1 d2 : LZ_decoder) : Prop :=
  (forall x, cb_buffer (lzd_cb d1) x = cb_buffer (lzd_cb d2) x) /\
  d1 = lzd_with_cb d2 (cb_with_buffer (lzd_cb d2) (cb_buffer (lzd_cb d1))).

(** A decoder in the middle of a member, with the bytes [l] at the start of
    a block of [buffer_size] cells and [put] behind them. *)
Definition small_decoder (l : list Z) (buffer_size put : Z) : LZ_decoder :=
  let lm := mkLen_model 0 0 fresh_block fresh_block fresh_block in
  mkLZd (mkCb (awrite fresh_block 0 l) buffer_size 0 put) 0 4096 0xFFFFFFFF
        false false false 0 0 0 0 0
        fresh_block fresh_block fresh_block fresh_block fresh_block fresh_block
        fresh_block fresh_block fresh_block fresh_block lm lm.

(** *** What the LZ decoder keeps between two rounds

    The indices of the dictionary are inside the block, whose cells are
    bytes; the four repeated distances are below the dictionary size, which
    leaves room in the block; the state is one of the 12. *)
Definition LZd_inv (d : LZ_decoder) : Prop :=
  Cb_wf (lzd_cb d) /\ Cb_bytes (lzd_cb d) /\
  0 < lzd_dictionary_size d <= cb_buffer_size (lzd_cb d) - 1 /\
  0 <= lzd_rep0 d < lzd_dictionary_size d /\
  0 <= lzd_rep1 d < lzd_dictionary_size d /\
  0 <= lzd_rep2 d < lzd_dictionary_size d /\
  0 <= lzd_rep3 d < lzd_dictionary_size d /\
  0 <= lzd_state d < states.

(** [d'] holds what [d] held and, after it, at most [max_match_len] new
    bytes, counted in the data position; nothing was read from it and the
    dictionary size is the same. *)
Definition LZd_extends (d d' : LZ_decoder) : Prop :=
  exists new : list Z,
    Z.of_nat (length new) <= max_match_len /\
    all_bytes new /\
    Cb_content (lzd_cb d') = Cb_content (lzd_cb d) ++ new /\
    Cb_used_bytes (lzd_cb d') = Cb_used_bytes (lzd_cb d) + Z.of_nat (length new) /\
    LZd_data_position d' = u64 (LZd_data_position d + Z.of_nat (length new)) /\
    cb_get (lzd_cb d') = cb_get (lzd_cb d) /\
    cb_buffer_size (lzd_cb d') = cb_buffer_size (lzd_cb d) /\
    lzd_dictionary_size d' = lzd_dictionary_size d.

(** The LZ decoder of a member with a 4 KiB dictionary, as [LZd_init] sets
    it up, and a range decoder with the first bytes of a member behind its
    header. *)
Definition fresh_decoder : LZ_decoder :=
  match LZd_init (Some fresh_block) 4096 with
  | Some d => d
  | None => small_decoder [] 2 0
  end.

Definition loaded_range_decoder : Range_decoder :=
  mkRd (mkCb (awrite fresh_block 0
                [0; 32; 144; 129; 0; 11; 87; 255; 251; 255; 255; 192; 0; 0; 0; 0])
             32 0 16)
       6 0 0xFFFFFFFF false true.

(** [d'] holds what [d] held and, after it, new bytes counted in the data
    position; nothing was read from it. *)
Definition LZd_grows (d d' : LZ_decoder) : Prop :=
  exists new : list Z,
    all_bytes new /\
    Cb_content (lzd_cb d') = Cb_content (lzd_cb d) ++ new /\
    LZd_data_position d' = u64 (LZd_data_position d + Z.of_nat (length new)) /\
    cb_get (lzd_cb d') = cb_get (lzd_cb d) /\
    lzd_dictionary_size d' = lzd_dictionary_size d.

(** What [LZd_decode_member] returns for them. *)
Definition decoded_start : Z * Range_decoder * LZ_decoder :=
  match LZd_decode_member 4 loaded_range_decoder fresh_decoder with
  | Some r => r
  | None => (0, loaded_range_decoder, fresh_decoder)
  end.

(** ** Further functions of the decoder handle

    As above a handle is taken to be non-null; each function returns its
    result next to the handle, whose [lz_errno] [verify_decoder] may have
    set. *)

Definition LZ_decompress_reset (d : LZ_Decoder) : Z * LZ_Decoder :=
  let '(ok, d) := verify_decoder d in
  match ld_rdec d with
  | None => (-1, d)
  | Some rdec =>
      let d := ld_with_lz_decoder d None in
      let d := ld_with_partial_in_size d 0 in
      let d := ld_with_partial_out_size d 0 in
      let d := ld_with_rdec d (Some (Rd_reset rdec)) in
      let d := ld_with_lz_errno d LZ_ok in
      let d := ld_with_fatal d false in
      let d := ld_with_first_header d true in
      (0, ld_with_seeking d false)
  end.

Definition LZ_decompress_sync_to_member (d : LZ_Decoder) : Z * LZ_Decoder :=
  let '(ok, d) := verify_decoder d in
  match ld_rdec d with
  | None => (-1, d)
  | Some rdec =>
      let d := ld_with_lz_decoder d None in
      let '(found, skipped, rdec) := Rd_find_header rdec in
      let '(d, rdec) :=
        if found then (ld_with_seeking d false, rdec)
        else if negb (rd_at_stream_end rdec) then (ld_with_seeking d true, rdec)
        else
          let d := ld_with_seeking d false in
          let '(n, rdec) := Rd_purge rdec in
          (ld_with_partial_in_size d (u64 (ld_partial_in_size d + n)), rdec) in
      let d := ld_with_partial_in_size d (u64 (ld_partial_in_size d + skipped)) in
      let d := ld_with_rdec d (Some rdec) in
      (0, ld_with_fatal (ld_with_lz_errno d LZ_ok) false)
  end.

Definition LZ_decompress_write_size (d : LZ_Decoder) : Z * LZ_Decoder :=
  let '(ok, d) := verify_decoder d in
  match ld_rdec d with
  | None => (-1, d)
  | Some rdec => if ld_fatal d then (-1, d) else (Rd_free_bytes rdec, d)
  end.

Definition LZ_decompress_finished (d : LZ_Decoder) : Z * LZ_Decoder :=
  let '(ok, d) := verify_decoder d in
  match ld_rdec d with
  | None => (-1, d)
  | Some rdec =>
      if ld_fatal d then (-1, d) else
      (b2z (Rd_finished rdec &&
            match ld_lz_decoder d with
            | None => true
            | Some lzd => LZd_member_finished lzd
            end), d)
  end.

Definition LZ_decompress_member_finished (d : LZ_Decoder) : Z * LZ_Decoder :=
  let '(ok, d) := verify_decoder d in
  match ld_rdec d with
  | None => (-1, d)
  | Some rdec =>
      if ld_fatal d then (-1, d) else
      (b2z match ld_lz_decoder d with
           | None => false
           | Some lzd => LZd_member_finished lzd
           end, d)
  end.

Definition LZ_decompress_data_position (d : LZ_Decoder) : Z * LZ_Decoder :=
  let '(ok, d) := verify_decoder d in
  match ld_lz_decoder d with
  | Some lzd => if ok then (LZd_data_position lzd, d) else (0, d)
  | None => (0, d)
  end.

Definition LZ_decompress_member_position (d : LZ_Decoder) : Z * LZ_Decoder :=
  let '(ok, d) := verify_decoder d in
  match ld_rdec d with
  | None => (0, d)
  | Some rdec => (rd_member_position rdec, d)
  end.

Definition LZ_decompress_total_in_size (d : LZ_Decoder) : Z * LZ_Decoder :=
  let '(ok, d) := verify_decoder d in
  match ld_rdec d with
  | None => (0, d)
  | Some rdec => (u64 (ld_partial_in_size d + rd_member_position rdec), d)
  end.

Definition LZ_decompress_total_out_size (d : LZ_Decoder) : Z * LZ_Decoder :=
  let '(ok, d) := verify_decoder d in
  match ld_rdec d with
  | None => (0, d)
  | Some rdec =>
      match ld_lz_decoder d with
      | Some lzd => (u64 (ld_partial_out_size d + LZd_data_position lzd), d)
      | None => (ld_partial_out_size d, d)
      end
  end.

(** The header [LZ_decompress_read] reads into [member_header]: the first 6
    bytes of the input over what the handle held. *)
Definition next_header (d : LZ_Decoder) (rdec : Range_decoder) : Lzip_header :=
  awrite (ld_member_header d) 0 (firstn 6 (Cb_content (rd_cb rdec))).

(** A handle as [LZ_decompress_open] returns it, after the bytes [input]
    have been written to it; [finished] tells whether [LZ_decompress_finish]
    has been called. *)
Definition decoder_with_input (input : list Z) (finished : bool) : LZ_Decoder :=
  ld_with_rdec LZ_Decoder_init
    (Some (mkRd (mkCb (awrite fresh_block 0 input) 65547 0
                      (Z.of_nat (length input)))
                0 0 0xFFFFFFFF finished false)).

(** ** Reading decoded data through the handle *)

(** A handle in the middle of a member: the LZ decoder of [fresh_decoder]
    over the input of [loaded_range_decoder]. *)
Definition member_handle : LZ_Decoder :=
  ld_with_lz_decoder
    (ld_with_rdec LZ_Decoder_init (Some loaded_range_decoder))
    (Some fresh_decoder).

(** What [LZ_decompress_read] gives for it when asked for one byte. *)
Definition member_handle_read : Z * list Z * LZ_Decoder :=
  match LZ_decompress_read 4 true None member_handle 1 with
  | Some r => r
  | None => (0, [], member_handle)
  end.

(** * Properties *)

(** ** Machine integers *)

Lemma u8_range (x : Z) : 0 <= u8 x < 256.
Proof. unfold u8. apply Z.mod_pos_bound. reflexivity. Qed.

Lemma u32_range (x : Z) : 0 <= u32 x <= 0xFFFFFFFF.
Proof.
  unfold u32. pose proof (Z.mod_pos_bound x (2 ^ 32) eq_refl) as H.
  change (2 ^ 32) with 4294967296 in *. lia.
Qed.

Lemma u64_range (x : Z) : 0 <= u64 x < 2 ^ 64.
Proof. unfold u64. apply Z.mod_pos_bound. reflexivity. Qed.

Lemma u8_small (x : Z) : 0 <= x < 256 -> u8 x = x.
Proof. intros H. unfold u8. apply Z.mod_small. exact H. Qed.

Lemma u32_small (x : Z) : 0 <= x <= 0xFFFFFFFF -> u32 x = x.
Proof.
  intros H. unfold u32. apply Z.mod_small.
  change (2 ^ 32) with 4294967296. lia.
Qed.

Lemma u64_small (x : Z) : 0 <= x < 2 ^ 64 -> u64 x = x.
Proof. intros H. unfold u64. apply Z.mod_small. exact H. Qed.

(** A property checked on the 256 bytes holds of every byte. *)
Lemma forall_byte (P : Z -> bool) :
  forallb P (map Z.of_nat (seq 0 256)) = true ->
  forall b, 0 <= b < 256 -> P b = true.
Proof.
  intros H b Hb. rewrite forallb_forall in H. apply H.
  apply in_map_iff. exists (Z.to_nat b). split.
  - apply Z2Nat.id. lia.
  - apply in_seq. lia.
Qed.

(** ** C2: the dictionary size coded in the header *)

Lemma Lh_get_dictionary_size_byte (data : Lzip_header) :
  Lh_get_dictionary_size data =
  Lh_get_dictionary_size (aset (fun _ => 0) 5 (data 5)).
Proof. reflexivity. Qed.

(** C2, as stated, fails: the byte [0x2C] (base [1<<12], three high bits 1)
    decodes to 4096, where the formula of the format description gives
    [4096 - 1*4096/16 = 3840]. *)
Lemma C2_reduction_skipped_at_min_size :
  Lh_get_dictionary_size (aset (fun _ => 0) 5 0x2C) = 4096 /\
  spec_coded_ds 0x2C = 3840.
Proof. split; reflexivity. Qed.

(** C2, amended: for every coded byte [b] the decoded dictionary size is the
    base [1 << (b & 0x1F)] less [(b >> 5)] sixteenths of it when the base
    exceeds [min_dictionary_size] (4 KiB), where it agrees with the formula
    of the format description, and the base itself otherwise. *)
Theorem C2_Lh_get_dictionary_size (data : Lzip_header) :
  0 <= data 5 < 256 ->
  let b := data 5 in
  let base := Z.shiftl 1 (Z.land b 0x1F) in
  (min_dictionary_size < base ->
   Lh_get_dictionary_size data = base - Z.shiftr b 5 * (base / 16) /\
   Lh_get_dictionary_size data = spec_coded_ds b) /\
  (base <= min_dictionary_size -> Lh_get_dictionary_size data = base).
Proof.
  intros Hb b base. subst base.
  rewrite Lh_get_dictionary_size_byte. fold b. fold b in Hb.
  generalize dependent b. intros b Hb.
  pose (P := fun b : Z =>
    let base := Z.shiftl 1 (Z.land b 0x1F) in
    let ds := Lh_get_dictionary_size (aset (fun _ => 0) 5 b) in
    if min_dictionary_size <? base
    then (ds =? base - Z.shiftr b 5 * (base / 16)) && (ds =? spec_coded_ds b)
    else ds =? base).
  assert (HP : P b = true).
  { apply forall_byte; [vm_compute; reflexivity | exact Hb]. }
  unfold P in HP. cbv zeta in HP.
  destruct (min_dictionary_size <? Z.shiftl 1 (Z.land b 31)) eqn:E.
  - apply Z.ltb_lt in E. apply andb_true_iff in HP. destruct HP as [H1 H2].
    apply Z.eqb_eq in H1, H2. split; [intros _; split; assumption | lia].
  - apply Z.ltb_ge in E. apply Z.eqb_eq in HP. split; [lia | intros _; exact HP].
Qed.

Lemma C2_Lh_get_dictionary_size_witness :
  let data := aset (fun _ => 0) 5 0xD3 in
  (Lh_get_dictionary_size data = 327680 /\
   Lh_get_dictionary_size data = spec_coded_ds 0xD3) /\
  Lh_get_dictionary_size (aset (fun _ => 0) 5 0x2C) = 4096.
Proof.
  split.
  - apply (C2_Lh_get_dictionary_size (aset (fun _ => 0) 5 0xD3)).
    + vm_compute. split; [discriminate | reflexivity].
    + vm_compute. reflexivity.
  - apply (C2_Lh_get_dictionary_size (aset (fun _ => 0) 5 0x2C)).
    + vm_compute. split; [discriminate | reflexivity].
    + vm_compute. discriminate.
Defined.

(** ** C3: the adaptive update of a bit model *)

Lemma Rd_decode_bit_bit (rdec : Range_decoder) (p : Bit_model) :
  fst (fst (Rd_decode_bit rdec p)) = 0 \/ fst (fst (Rd_decode_bit rdec p)) = 1.
Proof.
  unfold Rd_decode_bit.
  destruct (rd_code (Rd_normalize rdec) <? _); simpl; auto.
Qed.

Lemma Rd_decode_bit_update (rdec : Range_decoder) (p : Bit_model) :
  snd (Rd_decode_bit rdec p) =
  spec_Bm_update p (fst (fst (Rd_decode_bit rdec p))).
Proof.
  unfold Rd_decode_bit, spec_Bm_update.
  destruct (rd_code (Rd_normalize rdec) <? _); reflexivity.
Qed.

Lemma Re_encode_bit_update (renc : Range_encoder) (p : Bit_model) (bit : bool) :
  snd (Re_encode_bit renc p bit) = spec_Bm_update p (b2z bit).
Proof.
  unfold Re_encode_bit, spec_Bm_update.
  destruct bit; simpl;
    match goal with |- context [if ?c then _ else _] => destruct c end;
    reflexivity.
Qed.

(** C3: for every 11-bit probability [p], the probability [Rd_decode_bit]
    leaves in the model is [p + ((2048 - p) >> 5)] when it has decoded a 0
    and [p - (p >> 5)] when it has decoded a 1; [Re_encode_bit] leaves the
    same for the bit it is given; so encoder and decoder apply one function
    of the probability and the bit. *)
Theorem C3_bit_model_update (p : Bit_model) :
  0 <= p < bit_model_total ->
  (forall rdec,
     let bit := fst (fst (Rd_decode_bit rdec p)) in
     (bit = 0 \/ bit = 1) /\
     snd (Rd_decode_bit rdec p) = spec_Bm_update p bit) /\
  (forall renc bit,
     snd (Re_encode_bit renc p bit) = spec_Bm_update p (b2z bit)) /\
  (forall rdec renc,
     snd (Re_encode_bit renc p (to_Bool (fst (fst (Rd_decode_bit rdec p))))) =
     snd (Rd_decode_bit rdec p)).
Proof.
  intros _. split; [| split].
  - intros rdec bit. split.
    + apply Rd_decode_bit_bit.
    + apply Rd_decode_bit_update.
  - intros renc bit. apply Re_encode_bit_update.
  - intros rdec renc. rewrite Re_encode_bit_update, Rd_decode_bit_update.
    destruct (Rd_decode_bit_bit rdec p) as [H | H]; rewrite H; reflexivity.
Qed.

Lemma C3_bit_model_update_witness :
  (forall rdec,
     let bit := fst (fst (Rd_decode_bit rdec 1024)) in
     (bit = 0 \/ bit = 1) /\
     snd (Rd_decode_bit rdec 1024) = spec_Bm_update 1024 bit) /\
  (forall renc bit,
     snd (Re_encode_bit renc 1024 bit) = spec_Bm_update 1024 (b2z bit)) /\
  (forall rdec renc,
     snd (Re_encode_bit renc 1024
            (to_Bool (fst (fst (Rd_decode_bit rdec 1024))))) =
     snd (Rd_decode_bit rdec 1024)).
Proof. apply (C3_bit_model_update 1024). vm_compute. split; [discriminate | reflexivity]. Defined.

(** ** C10: the range of a bit model *)

Lemma shiftr_5 (x : Z) : Z.shiftr x 5 = x / 32.
Proof. rewrite Z.shiftr_div_pow2 by lia. reflexivity. Qed.

Lemma shiftr_11 (x : Z) : Z.shiftr x 11 = x / 2048.
Proof. rewrite Z.shiftr_div_pow2 by lia. reflexivity. Qed.

Lemma spec_Bm_update_range (p b : Z) :
  31 <= p <= 2017 -> 31 <= spec_Bm_update p b <= 2017.
Proof.
  intros Hp. unfold spec_Bm_update. rewrite !shiftr_5.
  destruct (b =? 0).
  - pose proof (Z.div_mod (2048 - p) 32 ltac:(lia)).
    pose proof (Z.mod_pos_bound (2048 - p) 32 ltac:(lia)). lia.
  - pose proof (Z.div_mod p 32 ltac:(lia)).
    pose proof (Z.mod_pos_bound p 32 ltac:(lia)). lia.
Qed.

Lemma Bm_reachable_range (p : Bit_model) :
  Bm_reachable p -> 31 <= p <= 2017.
Proof.
  induction 1 as [| p rdec _ IH | p renc bit _ IH].
  - vm_compute. split; discriminate.
  - rewrite Rd_decode_bit_update. apply spec_Bm_update_range, IH.
  - rewrite Re_encode_bit_update. apply spec_Bm_update_range, IH.
Qed.

(** The threshold splits a normalized range into two non-empty parts, each
    of at least [31 << 13]. *)
Lemma Rc_bound_range (range : Z) (p : Bit_model) :
  0x00FFFFFF < range <= 0xFFFFFFFF -> 31 <= p <= 2017 ->
  Rc_bound range p = range / 2048 * p /\
  253952 <= Rc_bound range p /\ 253952 <= range - Rc_bound range p.
Proof.
  intros Hr Hp. unfold Rc_bound.
  change bit_model_total_bits with 11. rewrite shiftr_11.
  pose proof (Z.div_mod range 2048 ltac:(lia)) as Hd.
  pose proof (Z.mod_pos_bound range 2048 ltac:(lia)) as Hm.
  assert (Hq : 8192 <= range / 2048 <= 2097151) by lia.
  rewrite u32_small by nia. split; [reflexivity | nia].
Qed.

Lemma Rd_decode_bit_bound (rdec : Range_decoder) (p : Bit_model) :
  let r := Rd_normalize rdec in
  rd_range (snd (fst (Rd_decode_bit rdec p))) =
  if rd_code r <? Rc_bound (rd_range r) p
  then Rc_bound (rd_range r) p
  else u32 (rd_range r - Rc_bound (rd_range r) p).
Proof.
  unfold Rd_decode_bit, Rc_bound. cbv zeta.
  destruct (rd_code (Rd_normalize rdec) <? _); reflexivity.
Qed.

(** C10: a bit model, set to 1024 by [Bm_init] and changed only by the updates
    of [Rd_decode_bit] and [Re_encode_bit], stays in [31, 2017]; so for a
    normalized range the threshold [(range >> 11) * probability] is neither
    0 nor the whole range. *)
Theorem C10_bit_model_range (p : Bit_model) :
  Bm_reachable p ->
  31 <= p <= 2017 /\
  (forall range, 0x00FFFFFF < range <= 0xFFFFFFFF ->
     0 < Rc_bound range p < range).
Proof.
  intros H. pose proof (Bm_reachable_range p H) as Hp. split; [exact Hp |].
  intros range Hr. destruct (Rc_bound_range range p Hr Hp) as (_ & H1 & H2). lia.
Qed.

Lemma C10_bit_model_range_witness :
  31 <= snd (Rd_decode_bit (mkRd (mkCb (fun _ => 0) 65547 0 0) 0 0 0xFFFFFFFF false false) Bm_init) <= 2017 /\
  (forall range, 0x00FFFFFF < range <= 0xFFFFFFFF ->
     0 < Rc_bound range (snd (Rd_decode_bit (mkRd (mkCb (fun _ => 0) 65547 0 0) 0 0 0xFFFFFFFF false false) Bm_init)) < range).
Proof.
  apply (C10_bit_model_range
           (snd (Rd_decode_bit (mkRd (mkCb (fun _ => 0) 65547 0 0) 0 0 0xFFFFFFFF false false) Bm_init))).
  apply Bm_reach_decode. apply Bm_reach_init.
Defined.

(** ** C9: the normalization invariant of the range coders *)

Section RangeDecoderInvariant.

Lemma Rd_get_byte_range (rdec : Range_decoder) :
  rd_range (snd (Rd_get_byte rdec)) = rd_range rdec.
Proof.
  unfold Rd_get_byte. destruct (Rd_finished rdec); [reflexivity |].
  destruct (Cb_get_byte _) as [b cb]. reflexivity.
Qed.

Lemma Rd_normalize_range (rdec : Range_decoder) :
  rd_range (Rd_normalize rdec) =
  if rd_range rdec <=? 0x00FFFFFF then u32 (Z.shiftl (rd_range rdec) 8)
  else rd_range rdec.
Proof.
  unfold Rd_normalize. destruct (rd_range rdec <=? 0x00FFFFFF); [| reflexivity].
  pose proof (Rd_get_byte_range
                (rd_with_range rdec (u32 (Z.shiftl (rd_range rdec) 8)))) as H.
  destruct (Rd_get_byte _) as [b r]. simpl in *. exact H.
Qed.

Lemma Rd_normalize_normalized (rdec : Range_decoder) :
  Rd_inv rdec -> 0x00FFFFFF < rd_range (Rd_normalize rdec) <= 0xFFFFFFFF.
Proof.
  unfold Rd_inv. intros H. rewrite Rd_normalize_range.
  destruct (rd_range rdec <=? 0x00FFFFFF) eqn:E.
  - apply Z.leb_le in E. rewrite Z.shiftl_mul_pow2 by lia.
    change (2 ^ 8) with 256. rewrite u32_small by lia. lia.
  - apply Z.leb_gt in E. lia.
Qed.

Lemma Rd_normalize_inv (rdec : Range_decoder) :
  Rd_inv rdec -> Rd_inv (Rd_normalize rdec).
Proof.
  intros H. pose proof (Rd_normalize_normalized rdec H). unfold Rd_inv. lia.
Qed.

Lemma Rd_decode_bit_inv (rdec : Range_decoder) (p : Bit_model) :
  Rd_inv rdec -> 31 <= p <= 2017 ->
  Rd_inv (snd (fst (Rd_decode_bit rdec p))).
Proof.
  intros H Hp. unfold Rd_inv. rewrite Rd_decode_bit_bound. cbv zeta.
  pose proof (Rd_normalize_normalized rdec H) as Hn.
  destruct (Rc_bound_range _ p Hn Hp) as (_ & H1 & H2).
  destruct (_ <? _).
  - lia.
  - rewrite u32_small by lia. lia.
Qed.

Lemma Rd_decode_round_range (rdec : Range_decoder) (symbol : Z) :
  rd_range (snd (Rd_decode_round rdec symbol)) =
  Z.shiftr (rd_range (Rd_normalize rdec)) 1.
Proof. reflexivity. Qed.

Lemma Rd_decode_round_inv (rdec : Range_decoder) (symbol : Z) :
  Rd_inv rdec -> Rd_inv (snd (Rd_decode_round rdec symbol)).
Proof.
  intros H. unfold Rd_inv. rewrite Rd_decode_round_range.
  pose proof (Rd_normalize_normalized rdec H) as Hn.
  rewrite Z.shiftr_div_pow2 by lia. change (2 ^ 1) with 2.
  pose proof (Z.div_mod (rd_range (Rd_normalize rdec)) 2 ltac:(lia)).
  pose proof (Z.mod_pos_bound (rd_range (Rd_normalize rdec)) 2 ltac:(lia)).
  lia.
Qed.

Lemma Rd_decode_loop_inv (n : nat) (rdec : Range_decoder) (symbol : Z) :
  Rd_inv rdec -> Rd_inv (snd (Rd_decode_loop n rdec symbol)).
Proof.
  revert rdec symbol. induction n as [| n IH]; intros rdec symbol H.
  - exact H.
  - cbn [Rd_decode_loop]. pose proof (Rd_decode_round_inv rdec symbol H) as Hr.
    destruct (Rd_decode_round rdec symbol) as [s r]. apply IH. exact Hr.
Qed.

Lemma Rd_try_reload_loop_range (n : nat) (rdec : Range_decoder) :
  rd_range (Rd_try_reload_loop n rdec) = rd_range rdec.
Proof.
  revert rdec. induction n as [| n IH]; intros rdec; [reflexivity |].
  simpl. pose proof (Rd_get_byte_range rdec) as H.
  destruct (Rd_get_byte rdec) as [b r]. rewrite IH. exact H.
Qed.

Lemma Rd_try_reload_inv (rdec : Range_decoder) :
  Rd_inv rdec -> Rd_inv (snd (Rd_try_reload rdec)).
Proof.
  intros H. unfold Rd_try_reload. cbv zeta.
  destruct (rd_reload_pending rdec && _); [| exact H].
  unfold Rd_inv. simpl. lia.
Qed.

Lemma Rd_find_header_loop_range (fuel : nat) (rdec : Range_decoder) (skipped : Z) :
  rd_range (snd (Rd_find_header_loop fuel rdec skipped)) = rd_range rdec.
Proof.
  revert rdec skipped. induction fuel as [| fuel IH]; intros rdec skipped;
    [reflexivity |].
  simpl. destruct (cb_get (rd_cb rdec) =? cb_put (rd_cb rdec)); [reflexivity |].
  destruct (if cb_buffer (rd_cb rdec) (cb_get (rd_cb rdec)) =? _ then _ else _);
    [reflexivity |].
  rewrite IH. reflexivity.
Qed.

Lemma Rd_write_data_range (rdec : Range_decoder) (inbuf : list Z) (size : Z) :
  rd_range (snd (Rd_write_data rdec inbuf size)) = rd_range rdec.
Proof.
  unfold Rd_write_data. destruct (_ || _); [reflexivity |].
  destruct (Cb_write_data _ _ _) as [n cb]. reflexivity.
Qed.

Lemma Rd_read_data_range (rdec : Range_decoder) (size : Z) :
  rd_range (snd (Rd_read_data rdec size)) = rd_range rdec.
Proof.
  unfold Rd_read_data. destruct (Cb_read_data _ _) as [[sz out] cb].
  destruct (0 <? sz); reflexivity.
Qed.

Lemma Rd_unread_data_range (rdec : Range_decoder) (size : Z) :
  rd_range (snd (Rd_unread_data rdec size)) = rd_range rdec.
Proof.
  unfold Rd_unread_data. destruct (_ <? _); [reflexivity |].
  destruct (Cb_unread_data _ _) as [ok cb]. destruct ok; reflexivity.
Qed.

Lemma Rd_reachable_inv (rdec : Range_decoder) :
  Rd_reachable rdec -> Rd_inv rdec.
Proof.
  induction 1 as [block rdec Hinit | | | | | | | | | | | | | | |].
  - unfold Rd_init in Hinit. destruct (Cb_init _ _); [| discriminate].
    injection Hinit as <-. unfold Rd_inv. simpl. lia.
  - assumption.
  - assumption.
  - assumption.
  - unfold Rd_inv, Rd_find_header. rewrite Rd_find_header_loop_range. assumption.
  - unfold Rd_inv. rewrite Rd_write_data_range. assumption.
  - unfold Rd_inv. rewrite Rd_get_byte_range. assumption.
  - unfold Rd_inv. rewrite Rd_read_data_range. assumption.
  - unfold Rd_inv. rewrite Rd_unread_data_range. assumption.
  - assumption.
  - assumption.
  - assumption.
  - apply Rd_try_reload_inv. assumption.
  - apply Rd_normalize_inv. assumption.
  - apply Rd_decode_loop_inv. assumption.
  - apply Rd_decode_bit_inv; [assumption |].
    apply Bm_reachable_range. assumption.
Qed.

(** The state that enters round [k] of a call of [Rd_decode] is the one
    the first [k] rounds leave. *)
Lemma Rd_decode_loop_split (k m : nat) (rdec : Range_decoder) (symbol : Z) :
  Rd_decode_loop (k + m) rdec symbol =
  Rd_decode_loop m (snd (Rd_decode_loop k rdec symbol))
                 (fst (Rd_decode_loop k rdec symbol)).
Proof.
  revert rdec symbol. induction k as [| k IH]; intros rdec symbol;
    [reflexivity |].
  cbn [Rd_decode_loop Nat.add].
  destruct (Rd_decode_round rdec symbol) as [s r]. apply IH.
Qed.

End RangeDecoderInvariant.

Section RangeEncoderInvariant.

Lemma Re_shift_low_range (renc : Range_encoder) :
  re_range (Re_shift_low renc) = re_range renc.
Proof. unfold Re_shift_low. destruct (negb _); reflexivity. Qed.

(** What the closing test of [Re_encode_bit] and of a round of [Re_encode]
    does to a range of at least [1 << 16]. *)
Lemma Re_renormalize (range : Z) :
  65536 <= range <= 0xFFFFFFFF ->
  0x00FFFFFF <
    (if range <=? 0x00FFFFFF then u32 (Z.shiftl range 8) else range)
    <= 0xFFFFFFFF.
Proof.
  intros H. destruct (range <=? 0x00FFFFFF) eqn:E.
  - apply Z.leb_le in E. rewrite Z.shiftl_mul_pow2 by lia.
    change (2 ^ 8) with 256. rewrite u32_small by lia. lia.
  - apply Z.leb_gt in E. lia.
Qed.

Lemma Re_encode_bit_range (renc : Range_encoder) (p : Bit_model) (bit : bool) :
  re_range (fst (Re_encode_bit renc p bit)) =
  let range :=
    if bit then u32 (re_range renc - Rc_bound (re_range renc) p)
    else Rc_bound (re_range renc) p in
  if range <=? 0x00FFFFFF then u32 (Z.shiftl range 8) else range.
Proof.
  unfold Re_encode_bit, Rc_bound.
  destruct bit;
    cbv beta iota zeta; cbn [negb re_range re_with_range re_with_low fst];
    match goal with |- context [if ?c then _ else _] => destruct c end;
    cbn [fst]; rewrite ?Re_shift_low_range; reflexivity.
Qed.

Lemma Re_encode_bit_inv (renc : Range_encoder) (p : Bit_model) (bit : bool) :
  Re_inv renc -> 31 <= p <= 2017 -> Re_inv (fst (Re_encode_bit renc p bit)).
Proof.
  unfold Re_inv. intros H Hp. rewrite Re_encode_bit_range. cbv zeta.
  destruct (Rc_bound_range _ p H Hp) as (_ & H1 & H2).
  apply Re_renormalize. destruct bit.
  - rewrite u32_small by lia. lia.
  - lia.
Qed.

Lemma Re_encode_round_inv (renc : Range_encoder) (symbol mask : Z) :
  Re_inv renc -> Re_inv (Re_encode_round renc symbol mask).
Proof.
  unfold Re_inv. intros H.
  assert (Hh : 65536 <= Z.shiftr (re_range renc) 1 <= 0xFFFFFFFF).
  { rewrite Z.shiftr_div_pow2 by lia. change (2 ^ 1) with 2.
    pose proof (Z.div_mod (re_range renc) 2 ltac:(lia)).
    pose proof (Z.mod_pos_bound (re_range renc) 2 ltac:(lia)). lia. }
  pose proof (Re_renormalize _ Hh) as Hn.
  unfold Re_encode_round.
  destruct (to_Bool (Z.land symbol mask));
    cbv beta iota zeta; cbn [re_range re_with_range re_with_low];
    destruct (Z.shiftr (re_range renc) 1 <=? 0x00FFFFFF);
    rewrite ?Re_shift_low_range; exact Hn.
Qed.

Lemma Re_encode_loop_inv (fuel : nat) (renc : Range_encoder) (symbol mask : Z) :
  Re_inv renc -> Re_inv (Re_encode_loop fuel renc symbol mask).
Proof.
  revert renc mask. induction fuel as [| fuel IH]; intros renc mask H;
    [exact H |].
  simpl. destruct (0 <? mask); [| exact H].
  apply IH. apply Re_encode_round_inv. exact H.
Qed.

Lemma Re_read_data_range (renc : Range_encoder) (out_size : Z) :
  re_range (snd (Re_read_data renc out_size)) = re_range renc.
Proof.
  unfold Re_read_data. destruct (Cb_read_data _ _) as [[sz out] cb].
  destruct (0 <? sz); reflexivity.
Qed.

Lemma Re_reset_inv (renc : Range_encoder) (dictionary_size : Z) :
  Re_inv (Re_reset renc dictionary_size).
Proof. unfold Re_inv. simpl. lia. Qed.

Lemma Re_reachable_inv (renc : Range_encoder) :
  Re_reachable renc -> Re_inv renc.
Proof.
  induction 1 as [block ds mfb renc Hinit | | | | | | | |].
  - unfold Re_init in Hinit. destruct (Cb_init _ _); [| discriminate].
    injection Hinit as <-. apply Re_reset_inv.
  - apply Re_reset_inv.
  - unfold Re_inv. rewrite Re_shift_low_range. assumption.
  - unfold Re_inv. rewrite Re_read_data_range. assumption.
  - assumption.
  - assumption.
  - unfold Re_inv. simpl. lia.
  - apply Re_encode_loop_inv. assumption.
  - apply Re_encode_bit_inv; [assumption |].
    apply Bm_reachable_range. assumption.
Qed.

End RangeEncoderInvariant.

(** C9: in every reachable state the range that enters a decision exceeds
    [0x00FFFFFF].  [Rd_decode_bit] computes its threshold from the range of
    [Rd_normalize rdec], and so does every round of [Rd_decode] halve that
    range, the state entering round [k] being the one [k] rounds leave;
    [Re_encode_bit] computes its threshold from the range it is entered
    with. *)
Theorem C9_range_normalized :
  (forall rdec, Rd_reachable rdec ->
     0x00FFFFFF < rd_range (Rd_normalize rdec) <= 0xFFFFFFFF) /\
  (forall rdec n k symbol, Rd_reachable rdec -> (k < n)%nat ->
     let entering := snd (Rd_decode_loop k rdec symbol) in
     0x00FFFFFF < rd_range (Rd_normalize entering) <= 0xFFFFFFFF /\
     Rd_decode_loop n rdec symbol =
     Rd_decode_loop (n - k) entering (fst (Rd_decode_loop k rdec symbol))) /\
  (forall renc, Re_reachable renc ->
     0x00FFFFFF < re_range renc <= 0xFFFFFFFF).
Proof.
  split; [| split].
  - intros rdec H. apply Rd_normalize_normalized, Rd_reachable_inv, H.
  - intros rdec n k symbol H Hk entering. split.
    + apply Rd_normalize_normalized. apply Rd_decode_loop_inv.
      apply Rd_reachable_inv, H.
    + replace n with (k + (n - k))%nat at 1 by lia.
      apply Rd_decode_loop_split.
  - intros renc H. apply Re_reachable_inv, H.
Qed.

(** ** C8: the CRC of the decoded data *)

Lemma crc32_table_polynomial :
  crc32 = map spec_crc32_entry (map Z.of_nat (seq 0 256)).
Proof. vm_compute. reflexivity. Qed.

Lemma land_255_u8 (c b : Z) :
  Z.land (Z.lxor c (u8 b)) 0xFF = Z.land (Z.lxor c b) 0xFF.
Proof.
  unfold u8. change 0xFF with (Z.ones 8). rewrite !Z.land_ones by lia.
  apply Z.bits_inj'. intros n Hn.
  destruct (Z_lt_dec n 8) as [Hlt | Hge].
  - rewrite !Z.mod_pow2_bits_low by lia. rewrite !Z.lxor_spec.
    rewrite Z.mod_pow2_bits_low by lia. reflexivity.
  - rewrite !Z.mod_pow2_bits_high by lia. reflexivity.
Qed.

Lemma CRC32_update_byte_u8 (c b : Z) :
  CRC32_update_byte c (u8 b) = CRC32_update_byte c b.
Proof.
  unfold CRC32_update_byte. f_equal. f_equal.
  rewrite !land_255_u8. reflexivity.
Qed.

Lemma CRC32_update_buf_loop_fold (n : nat) (c : Z) (buffer : array) (i : Z) :
  CRC32_update_buf_loop n c buffer i =
  fold_left CRC32_update_byte (aread buffer i n) c.
Proof.
  revert c i. induction n as [| n IH]; intros c i; [reflexivity |].
  cbn [CRC32_update_buf_loop]. rewrite IH.
  unfold aread. cbn [seq map fold_left]. rewrite Z.add_0_r.
  rewrite <- seq_shift, map_map.
  replace (CRC32_update_byte c (buffer i))
    with (Z.lxor (crc32_at (Z.land (Z.lxor c (buffer i)) 255)) (Z.shiftr c 8)).
  - f_equal. apply map_ext. intros k. f_equal. lia.
  - unfold CRC32_update_byte. rewrite land_255_u8. reflexivity.
Qed.

Lemma LZd_put_byte_crc (d : LZ_decoder) (b : Z) :
  lzd_crc (LZd_put_byte d b) = CRC32_update_byte (lzd_crc d) b.
Proof.
  unfold LZd_put_byte. cbv zeta.
  match goal with |- context [if ?c then _ else _] => destruct c end;
    reflexivity.
Qed.

Lemma LZd_put_byte_buffer_size (d : LZ_decoder) (b : Z) :
  cb_buffer_size (lzd_cb (LZd_put_byte d b)) = cb_buffer_size (lzd_cb d).
Proof.
  unfold LZd_put_byte. cbv zeta.
  match goal with |- context [if ?c then _ else _] => destruct c end;
    reflexivity.
Qed.

Lemma LZd_put_byte_put (d : LZ_decoder) (b : Z) :
  Cb_wf (lzd_cb d) ->
  cb_put (lzd_cb (LZd_put_byte d b)) =
  (cb_put (lzd_cb d) + 1) mod cb_buffer_size (lzd_cb d).
Proof.
  intros (Hs & Hg & Hp). unfold LZd_put_byte. cbv zeta.
  cbn [lzd_cb lzd_with_crc lzd_with_cb cb_put cb_with_put cb_with_buffer
       cb_buffer_size].
  rewrite u32_small by lia.
  destruct (cb_buffer_size (lzd_cb d) <=? cb_put (lzd_cb d) + 1) eqn:E.
  - apply Z.leb_le in E. cbn [lzd_cb lzd_with_pos_wrapped lzd_with_cb
      lzd_with_partial_data_pos cb_put cb_with_put].
    replace (cb_put (lzd_cb d) + 1) with (cb_buffer_size (lzd_cb d)) by lia.
    rewrite Z.mod_same by lia. reflexivity.
  - apply Z.leb_gt in E. cbn [lzd_cb lzd_with_cb cb_put cb_with_put].
    rewrite Z.mod_small by lia. reflexivity.
Qed.

Lemma LZd_put_byte_wf (d : LZ_decoder) (b : Z) :
  Cb_wf (lzd_cb d) -> Cb_wf (lzd_cb (LZd_put_byte d b)).
Proof.
  intros H. pose proof (LZd_put_byte_put d b H) as Hp.
  pose proof (LZd_put_byte_buffer_size d b) as Hs.
  destruct H as (H1 & H2 & H3). unfold Cb_wf. rewrite Hs, Hp.
  assert (cb_get (lzd_cb (LZd_put_byte d b)) = cb_get (lzd_cb d)) as ->.
  { unfold LZd_put_byte. cbv zeta.
    match goal with |- context [if ?c then _ else _] => destruct c end;
      reflexivity. }
  pose proof (Z.mod_pos_bound (cb_put (lzd_cb d) + 1)
                (cb_buffer_size (lzd_cb d)) ltac:(lia)).
  lia.
Qed.

Lemma LZd_put_byte_buffer (d : LZ_decoder) (b : Z) (q : Z) :
  cb_buffer (lzd_cb (LZd_put_byte d b)) q =
  if q =? cb_put (lzd_cb d) then u8 b else cb_buffer (lzd_cb d) q.
Proof.
  unfold LZd_put_byte. cbv zeta.
  match goal with |- context [if ?c then _ else _] => destruct c end;
    reflexivity.
Qed.

Lemma Cb_ring_S (buffer : array) (bs put : Z) (n : nat) :
  0 < bs -> 0 <= put < bs ->
  Cb_ring buffer bs put (S n) =
  buffer put :: Cb_ring buffer bs ((put + 1) mod bs) n.
Proof.
  intros Hbs Hp. unfold Cb_ring. cbn [seq map]. f_equal.
  - rewrite Z.add_0_r, Z.mod_small by lia. reflexivity.
  - rewrite <- seq_shift, map_map. apply map_ext. intros k. f_equal.
    rewrite Zplus_mod_idemp_l. f_equal. lia.
Qed.

(** The wrapping loop leaves alone every cell outside the [n] places it
    writes. *)
Lemma LZd_copy_wrapping_frame (n : nat) (d : LZ_decoder) (i q : Z) :
  Cb_wf (lzd_cb d) ->
  (forall k, (k < n)%nat ->
     q <> (cb_put (lzd_cb d) + Z.of_nat k) mod cb_buffer_size (lzd_cb d)) ->
  cb_buffer (lzd_cb (LZd_copy_wrapping n d i)) q = cb_buffer (lzd_cb d) q.
Proof.
  revert d i. induction n as [| n IH]; intros d i Hwf Hq; [reflexivity |].
  cbn [LZd_copy_wrapping]. cbv zeta.
  set (d1 := LZd_put_byte d (cb_buffer (lzd_cb d) i)).
  pose proof (LZd_put_byte_wf d (cb_buffer (lzd_cb d) i) Hwf) as Hwf1.
  pose proof (LZd_put_byte_put d (cb_buffer (lzd_cb d) i) Hwf) as Hp1.
  pose proof (LZd_put_byte_buffer_size d (cb_buffer (lzd_cb d) i)) as Hs1.
  fold d1 in Hwf1, Hp1, Hs1.
  rewrite IH.
  - unfold d1. rewrite LZd_put_byte_buffer.
    destruct (q =? cb_put (lzd_cb d)) eqn:E; [| reflexivity].
    apply Z.eqb_eq in E. exfalso. apply (Hq O); [lia |].
    destruct Hwf as (? & ? & ?). rewrite Z.add_0_r, Z.mod_small by lia. exact E.
  - exact Hwf1.
  - intros k Hk. rewrite Hp1, Hs1, Zplus_mod_idemp_l.
    replace (cb_put (lzd_cb d) + 1 + Z.of_nat k)
      with (cb_put (lzd_cb d) + Z.of_nat (S k)) by lia.
    apply Hq. lia.
Qed.

Lemma LZd_copy_wrapping_buffer_size (n : nat) (d : LZ_decoder) (i : Z) :
  cb_buffer_size (lzd_cb (LZd_copy_wrapping n d i)) = cb_buffer_size (lzd_cb d).
Proof.
  revert d i. induction n as [| n IH]; intros d i; [reflexivity |].
  cbn [LZd_copy_wrapping]. cbv zeta. rewrite IH.
  apply LZd_put_byte_buffer_size.
Qed.

Lemma LZd_copy_wrapping_crc (n : nat) (d : LZ_decoder) (i : Z) :
  Cb_wf (lzd_cb d) -> Z.of_nat n <= cb_buffer_size (lzd_cb d) ->
  lzd_crc (LZd_copy_wrapping n d i) =
  fold_left CRC32_update_byte
    (Cb_ring (cb_buffer (lzd_cb (LZd_copy_wrapping n d i)))
             (cb_buffer_size (lzd_cb d)) (cb_put (lzd_cb d)) n)
    (lzd_crc d).
Proof.
  revert d i. induction n as [| n IH]; intros d i Hwf Hn; [reflexivity |].
  pose proof Hwf as (Hs & Hg & Hp).
  rewrite Cb_ring_S by lia.
  cbn [LZd_copy_wrapping fold_left]. cbv zeta.
  set (b := cb_buffer (lzd_cb d) i).
  set (d1 := LZd_put_byte d b).
  set (i1 := if cb_buffer_size (lzd_cb d1) <=? u32 (i + 1) then 0 else u32 (i + 1)).
  pose proof (LZd_put_byte_wf d b Hwf) as Hwf1.
  pose proof (LZd_put_byte_put d b Hwf) as Hp1.
  pose proof (LZd_put_byte_buffer_size d b) as Hs1.
  fold d1 in Hwf1, Hp1, Hs1.
  rewrite IH by (try assumption; lia).
  rewrite Hs1, Hp1.
  assert (Hcell : cb_buffer (lzd_cb (LZd_copy_wrapping n d1 i1))
                    (cb_put (lzd_cb d)) = u8 b).
  { rewrite LZd_copy_wrapping_frame.
    - unfold d1. rewrite LZd_put_byte_buffer, Z.eqb_refl. reflexivity.
    - exact Hwf1.
    - intros k Hk. rewrite Hp1, Hs1, Zplus_mod_idemp_l.
      intros Heq.
      assert (Hm : (cb_put (lzd_cb d) + 1 + Z.of_nat k)
                   mod cb_buffer_size (lzd_cb d) <> cb_put (lzd_cb d)).
      { set (bs := cb_buffer_size (lzd_cb d)) in *.
        set (p := cb_put (lzd_cb d)) in *.
        destruct (Z_lt_dec (p + 1 + Z.of_nat k) bs) as [Hlt | Hge].
        - rewrite Z.mod_small by lia. lia.
        - replace (p + 1 + Z.of_nat k) with ((p + 1 + Z.of_nat k - bs) + 1 * bs)
            by lia.
          rewrite Z.mod_add by lia. rewrite Z.mod_small by lia. lia. }
      apply Hm. symmetry. exact Heq. }
  rewrite Hcell. f_equal.
  unfold d1. rewrite LZd_put_byte_crc. symmetry. apply CRC32_update_byte_u8.
Qed.

Lemma Cb_ring_aread (buffer : array) (bs put : Z) (n : nat) :
  0 <= put -> put + Z.of_nat n <= bs ->
  Cb_ring buffer bs put n = aread buffer put n.
Proof.
  intros Hp Hn. unfold Cb_ring, aread. apply map_ext_in.
  intros k Hk. apply in_seq in Hk. rewrite Z.mod_small by lia. reflexivity.
Qed.

(** However [LZd_copy_block] copies, the CRC advances by the byte rule over
    the [len] bytes the call has appended. *)
Lemma LZd_copy_block_crc (d : LZ_decoder) (distance len : Z) :
  Cb_wf (lzd_cb d) ->
  0 <= distance <= cb_buffer_size (lzd_cb d) - 2 ->
  0 <= len <= cb_buffer_size (lzd_cb d) ->
  lzd_crc (LZd_copy_block d distance len) =
  fold_left CRC32_update_byte
    (Cb_ring (cb_buffer (lzd_cb (LZd_copy_block d distance len)))
             (cb_buffer_size (lzd_cb d)) (cb_put (lzd_cb d)) (Z.to_nat len))
    (lzd_crc d).
Proof.
  intros Hwf Hd Hl. pose proof Hwf as (Hs & Hg & Hp).
  unfold LZd_copy_block. cbv zeta.
  set (bs := cb_buffer_size (lzd_cb d)) in *.
  set (lpos := cb_put (lzd_cb d)) in *.
  assert (Hfast : forall buffer,
    lpos + len < bs ->
    CRC32_update_buf (lzd_crc d) buffer lpos len =
    fold_left CRC32_update_byte (Cb_ring buffer bs lpos (Z.to_nat len)) (lzd_crc d)).
  { intros buffer Hlt. unfold CRC32_update_buf.
    rewrite CRC32_update_buf_loop_fold, Cb_ring_aread by lia. reflexivity. }
  destruct (distance <? lpos) eqn:E1; cbv beta iota.
  - apply Z.ltb_lt in E1.
    destruct (len <? u32 (bs - lpos)) eqn:E2.
    + apply Z.ltb_lt in E2. rewrite u32_small in E2 by lia.
      cbn [andb lzd_crc lzd_with_cb lzd_with_crc lzd_cb cb_buffer
           cb_with_buffer cb_with_put].
      apply Hfast. lia.
    + cbn [andb]. apply LZd_copy_wrapping_crc; [exact Hwf | lia].
  - apply Z.ltb_ge in E1.
    assert (Hi : u32 (u32 (lpos - distance - 1) + bs) = lpos + bs - distance - 1).
    { unfold u32. rewrite Zplus_mod_idemp_l.
      replace (lpos - distance - 1 + bs) with (lpos + bs - distance - 1) by lia.
      apply Z.mod_small. change (2 ^ 32) with 4294967296. lia. }
    rewrite Hi.
    destruct (len <? u32 (bs - (lpos + bs - distance - 1))) eqn:E2.
    + apply Z.ltb_lt in E2. rewrite u32_small in E2 by lia.
      cbn [andb lzd_crc lzd_with_cb lzd_with_crc lzd_cb cb_buffer
           cb_with_buffer cb_with_put].
      apply Hfast. lia.
    + cbn [andb]. apply LZd_copy_wrapping_crc; [exact Hwf | lia].
Qed.

Lemma LZd_init_crc (block : option array) (dict_size : Z) (d : LZ_decoder) :
  LZd_init block dict_size = Some d -> lzd_crc d = 0xFFFFFFFF.
Proof.
  unfold LZd_init. destruct (Cb_init _ _); [| discriminate].
  intros H. injection H as <-. reflexivity.
Qed.


(** ** Circular buffer: what a read delivers *)

Lemma Cb_used_bytes_wf (cb : Circular_buffer) :
  Cb_wf cb ->
  Cb_used_bytes cb =
  if cb_get cb <=? cb_put cb then cb_put cb - cb_get cb
  else cb_buffer_size cb + cb_put cb - cb_get cb.
Proof.
  intros (Hs & Hg & Hp). unfold Cb_used_bytes.
  destruct (cb_get cb <=? cb_put cb) eqn:E.
  - apply Z.leb_le in E. apply u32_small. lia.
  - apply Z.leb_gt in E. apply u32_small. lia.
Qed.

Lemma Cb_read_data_size (cb : Circular_buffer) (out_size : Z) :
  Cb_wf cb -> 0 <= out_size <= 0xFFFFFFFF ->
  fst (fst (Cb_read_data cb out_size)) = Z.min (Cb_used_bytes cb) out_size.
Proof.
  intros Hwf Ho. rewrite Cb_used_bytes_wf by exact Hwf.
  destruct Hwf as (Hs & Hg & Hp). unfold Cb_read_data.
  destruct (out_size =? 0) eqn:E0.
  { apply Z.eqb_eq in E0. cbn [fst]. destruct (cb_get cb <=? cb_put cb) eqn:E.
    - apply Z.leb_le in E. lia.
    - apply Z.leb_gt in E. lia. }
  apply Z.eqb_neq in E0.
  destruct (cb_put cb <? cb_get cb) eqn:E1.
  - apply Z.ltb_lt in E1.
    assert (Hle : (cb_get cb <=? cb_put cb) = false) by (apply Z.leb_gt; lia).
    rewrite Hle, (u32_small (cb_buffer_size cb - cb_get cb)) by lia.
    set (size := Z.min (cb_buffer_size cb - cb_get cb) out_size).
    assert (Hsz : 0 < size) by (unfold size; lia).
    assert (Hpos : (0 <? size) = true) by (apply Z.ltb_lt; exact Hsz).
    rewrite Hpos. rewrite (u32_small (cb_get cb + size)) by (unfold size; lia).
    cbv beta iota. cbn [cb_get cb_put cb_with_get cb_buffer_size cb_buffer].
    destruct (cb_buffer_size cb <=? cb_get cb + size) eqn:E2.
    + apply Z.leb_le in E2.
      destruct (0 <? cb_put cb) eqn:E3.
      * apply Z.ltb_lt in E3.
        rewrite (u32_small (cb_put cb - 0)), (u32_small (out_size - size))
          by (unfold size; lia).
        destruct (0 <? Z.min (cb_put cb - 0) (out_size - size)) eqn:E4.
        -- apply Z.ltb_lt in E4. cbn [fst].
           rewrite u32_small by (unfold size in *; lia). unfold size in *. lia.
        -- apply Z.ltb_ge in E4. cbn [fst]. unfold size in *. lia.
      * apply Z.ltb_ge in E3. cbn [fst]. unfold size in *. lia.
    + apply Z.leb_gt in E2.
      assert (Hn : (cb_get cb + size <? cb_put cb) = false)
        by (apply Z.ltb_ge; lia).
      rewrite Hn. cbn [fst]. unfold size in *. lia.
  - apply Z.ltb_ge in E1. cbv beta iota.
    assert (Hle : (cb_get cb <=? cb_put cb) = true) by (apply Z.leb_le; lia).
    rewrite Hle.
    destruct (cb_get cb <? cb_put cb) eqn:E2.
    + apply Z.ltb_lt in E2.
      rewrite (u32_small (cb_put cb - cb_get cb)), (u32_small (out_size - 0))
        by lia.
      assert (Hpos : (0 <? Z.min (cb_put cb - cb_get cb) (out_size - 0)) = true)
        by (apply Z.ltb_lt; lia).
      rewrite Hpos. cbn [fst]. rewrite u32_small by lia. lia.
    + apply Z.ltb_ge in E2. cbn [fst]. lia.
Qed.

Lemma Rd_read_data_size (rdec : Range_decoder) (size : Z) :
  Cb_wf (rd_cb rdec) -> 0 <= size <= 0xFFFFFFFF ->
  fst (fst (Rd_read_data rdec size)) = Z.min (Rd_available_bytes rdec) size.
Proof.
  intros Hwf Hs. unfold Rd_read_data, Rd_available_bytes.
  rewrite u32_small by exact Hs.
  pose proof (Cb_read_data_size (rd_cb rdec) size Hwf Hs) as H.
  destruct (Cb_read_data (rd_cb rdec) size) as [[sz out] cb].
  cbn [fst] in H. destruct (0 <? sz); cbn [fst]; exact H.
Qed.

(** ** C5: the verification of the trailer *)

Lemma Rd_read_data_member_position (rdec : Range_decoder) (size : Z) :
  rd_member_position (snd (Rd_read_data rdec size)) =
  let n := fst (fst (Rd_read_data rdec size)) in
  if 0 <? n then u64 (rd_member_position rdec + n) else rd_member_position rdec.
Proof.
  unfold Rd_read_data. destruct (Cb_read_data _ _) as [[sz out] cb].
  destruct (0 <? sz) eqn:E; cbn [fst snd]; rewrite E; reflexivity.
Qed.

Lemma LZd_try_verify_trailer_code (rdec : Range_decoder) (d : LZ_decoder) :
  Cb_wf (rd_cb rdec) -> Lt_size <= Rd_available_bytes rdec ->
  let r := LZd_try_verify_trailer rdec d in
  let trailer : Lzip_trailer :=
    awrite (fun _ => 0) 0 (snd (fst (Rd_read_data rdec Lt_size))) in
  snd (fst r) = snd (Rd_read_data rdec Lt_size) /\
  rd_member_position (snd (fst r)) = u64 (rd_member_position rdec + Lt_size) /\
  lzd_member_finished (snd r) = true /\
  (Lt_matches trailer d (rd_member_position (snd (fst r))) -> fst (fst r) = 0) /\
  (~ Lt_matches trailer d (rd_member_position (snd (fst r))) -> fst (fst r) = 3).
Proof.
  intros Hwf Hav r trailer. subst r trailer.
  unfold LZd_try_verify_trailer.
  assert (E : (Rd_available_bytes rdec <? Lt_size) = false)
    by (apply Z.ltb_ge; exact Hav).
  rewrite E.
  pose proof (Rd_read_data_size rdec Lt_size Hwf ltac:(vm_compute; split; discriminate)) as Hn.
  pose proof (Rd_read_data_member_position rdec Lt_size) as Hpos.
  cbv zeta in Hpos. rewrite Hn in Hpos.
  rewrite Z.min_r in Hn, Hpos by exact Hav.
  change (0 <? Lt_size) with true in Hpos. cbv iota in Hpos.
  destruct (Rd_read_data rdec Lt_size) as [[n out] rdec'].
  cbn [fst snd] in *. subst n. rewrite Z.eqb_refl. cbn [andb].
  change (LZd_crc (lzd_with_member_finished
                     (lzd_with_verify_trailer_pending d false) true))
    with (LZd_crc d).
  change (LZd_data_position (lzd_with_member_finished
                     (lzd_with_verify_trailer_pending d false) true))
    with (LZd_data_position d).
  unfold Lt_matches.
  destruct (Lt_get_data_crc _ =? LZd_crc d) eqn:E1;
  destruct (Lt_get_data_size _ =? LZd_data_position d) eqn:E2;
  destruct (Lt_get_member_size _ =? rd_member_position rdec') eqn:E3;
  cbn [andb fst snd];
  rewrite ?Z.eqb_eq, ?Z.eqb_neq in *;
  (split; [reflexivity | split; [exact Hpos | split; [reflexivity | split]]]);
  try tauto; intros; try reflexivity; exfalso; tauto.
Qed.

Lemma LZ_decompress_read_member_errno (fuel : nat) (d : LZ_Decoder)
    (rdec : Range_decoder) (lzd : LZ_decoder) (size code : Z)
    (rdec' : Range_decoder) (lzd' : LZ_decoder) :
  LZd_decode_member fuel rdec lzd = Some (code, rdec', lzd') ->
  code <> 0 ->
  exists ret out d',
    LZ_decompress_read_member fuel d rdec lzd size = Some (ret, out, d') /\
    ld_fatal d' = true /\
    ld_lz_errno d' =
      (if code =? 2 then LZ_unexpected_eof
       else if code =? 5 then LZ_library_error else LZ_data_error).
Proof.
  intros H Hc. unfold LZ_decompress_read_member. rewrite H.
  assert (E : (code =? 0) = false) by (apply Z.eqb_neq; exact Hc).
  rewrite E. cbn [negb].
  destruct (code =? 2); [| destruct (code =? 5)]; cbv beta iota zeta;
    (destruct (Cb_empty (lzd_cb lzd'));
     [ eexists _, _, _; split; [reflexivity | split; reflexivity]
     | unfold LZ_decompress_get_data;
       destruct (Cb_read_data _ _) as [[n out] cb];
       eexists _, _, _; split; [reflexivity | split; reflexivity] ]).
Qed.

Lemma LZd_decode_loop_return (fuel : nat) (rdec : Range_decoder) (d : LZ_decoder)
    (code : Z) (rdec' : Range_decoder) (d' : LZ_decoder) :
  Rd_finished rdec = false ->
  LZd_decode_round rdec d = (LZd_return code, rdec', d') ->
  LZd_decode_loop (S fuel) rdec d = Some (code, rdec', d').
Proof. intros Hf Hr. cbn [LZd_decode_loop]. rewrite Hf, Hr. reflexivity. Qed.

Lemma LZd_decode_loop_break (fuel : nat) (rdec : Range_decoder) (d : LZ_decoder)
    (rdec' : Range_decoder) (d' : LZ_decoder) :
  Rd_finished rdec = false ->
  LZd_decode_round rdec d = (LZd_break, rdec', d') ->
  LZd_decode_loop (S fuel) rdec d = Some (2, rdec', d').
Proof. intros Hf Hr. cbn [LZd_decode_loop]. rewrite Hf, Hr. reflexivity. Qed.


(** ** C4: the marker *)

Lemma Rd_decode_bit_at_bit (rdec : Range_decoder) (bm : array) (i : Z) :
  fst (fst (Rd_decode_bit_at rdec bm i)) = 0 \/
  fst (fst (Rd_decode_bit_at rdec bm i)) = 1.
Proof.
  unfold Rd_decode_bit_at. pose proof (Rd_decode_bit_bit rdec (bm i)) as H.
  destruct (Rd_decode_bit rdec (bm i)) as [[bit r] p]. exact H.
Qed.

Lemma land_mask_range (x : Z) (n : Z) :
  0 <= n -> 0 <= Z.land x (Z.ones n) < 2 ^ n.
Proof.
  intros Hn. rewrite Z.land_ones by exact Hn. apply Z.mod_pos_bound.
  apply Z.pow_pos_nonneg; lia.
Qed.

Lemma Rd_decode_tree6_range (rdec : Range_decoder) (bm : array) (off : Z) :
  0 <= fst (fst (Rd_decode_tree6 rdec bm off)) < 64.
Proof.
  unfold Rd_decode_tree6.
  repeat (match goal with
          | |- context [Rd_decode_bit_at ?r ?a ?i] =>
              destruct (Rd_decode_bit_at r a i) as [[? ?] ?]
          end).
  cbn [fst]. apply (land_mask_range _ 6). lia.
Qed.

Lemma lor_lt_pow2 (a b n : Z) :
  0 <= n -> 0 <= a < 2 ^ n -> 0 <= b < 2 ^ n -> 0 <= Z.lor a b < 2 ^ n.
Proof.
  intros Hn Ha Hb. split.
  - apply Z.lor_nonneg. lia.
  - destruct (Z.eq_dec (Z.lor a b) 0) as [E | E].
    + rewrite E. apply Z.pow_pos_nonneg; lia.
    + apply Z.log2_lt_pow2.
      * assert (0 <= Z.lor a b) by (apply Z.lor_nonneg; lia). lia.
      * rewrite Z.log2_lor by lia.
        destruct (Z.eq_dec a 0) as [Ea | Ea];
        destruct (Z.eq_dec b 0) as [Eb | Eb]; subst;
          try (exfalso; apply E; reflexivity).
        -- rewrite Z.max_r by (apply Z.log2_nonneg).
           apply Z.log2_lt_pow2; lia.
        -- rewrite Z.max_l by (apply Z.log2_nonneg).
           apply Z.log2_lt_pow2; lia.
        -- apply Z.max_lub_lt; apply Z.log2_lt_pow2; lia.
Qed.

Lemma Rd_decode_tree_reversed_loop_range (n : nat) (rdec : Range_decoder)
    (bm : array) (off model symbol i : Z) :
  0 <= i -> i + Z.of_nat n <= 31 -> 0 <= symbol < 2 ^ i ->
  0 <= fst (fst (Rd_decode_tree_reversed_loop n rdec bm off model symbol i))
    < 2 ^ (i + Z.of_nat n).
Proof.
  revert rdec bm model symbol i.
  induction n as [| n IH]; intros rdec bm model symbol i Hi Hn Hs.
  - cbn [Rd_decode_tree_reversed_loop fst]. rewrite Z.add_0_r. exact Hs.
  - cbn [Rd_decode_tree_reversed_loop].
    pose proof (Rd_decode_bit_at_bit rdec bm (off + model)) as Hb.
    destruct (Rd_decode_bit_at rdec bm (off + model)) as [[bit r] a].
    cbn [fst] in Hb. cbv zeta.
    replace (i + Z.of_nat (S n)) with ((i + 1) + Z.of_nat n) by lia.
    apply IH; [lia | lia |].
    assert (Hpow : 2 ^ (i + 1) = 2 * 2 ^ i).
    { rewrite Z.pow_add_r by lia. lia. }
    assert (Hpos : 0 < 2 ^ i) by (apply Z.pow_pos_nonneg; lia).
    assert (Hle : 2 ^ i <= 2 ^ 31) by (apply Z.pow_le_mono_r; lia).
    change (2 ^ 31) with 2147483648 in Hle.
    apply lor_lt_pow2; [lia | lia |].
    rewrite Z.shiftl_mul_pow2 by lia.
    destruct Hb as [-> | ->].
    + rewrite Z.mul_0_l. unfold u32. rewrite Z.mod_0_l by discriminate. lia.
    + rewrite Z.mul_1_l, u32_small by lia. lia.
Qed.

Lemma Rd_decode_tree_reversed_range (rdec : Range_decoder) (bm : array)
    (off num_bits : Z) :
  0 <= num_bits <= 31 ->
  0 <= fst (fst (Rd_decode_tree_reversed rdec bm off num_bits)) < 2 ^ num_bits.
Proof.
  intros Hn. unfold Rd_decode_tree_reversed.
  pose proof (Rd_decode_tree_reversed_loop_range (Z.to_nat num_bits) rdec bm off
                1 0 0 ltac:(lia) ltac:(lia) ltac:(simpl; lia)) as H.
  rewrite Z2Nat.id, Z.add_0_l in H by lia. exact H.
Qed.

(** A normal match that reaches the distance check of the decoder has not
    decoded the distance [0xFFFFFFFF]. *)
Lemma LZd_decode_match_pair (rdec : Range_decoder) (d : LZ_decoder)
    (pos_state len distance : Z) (rdec' : Range_decoder) (d' : LZ_decoder) :
  LZd_decode_match rdec d pos_state = (LZd_pair len distance, rdec', d') ->
  distance <> 0xFFFFFFFF.
Proof.
  unfold LZd_decode_match.
  destruct (Rd_decode_len rdec (lzd_match_len_model d) pos_state) as [[s r1] lm].
  cbv zeta.
  match goal with
  | |- context [Rd_decode_tree6 ?r ?a ?o] =>
      pose proof (Rd_decode_tree6_range r a o) as Hslot;
      destruct (Rd_decode_tree6 r a o) as [[slot r2] a2]
  end.
  cbn [fst] in Hslot.
  destruct (start_dis_model <=? slot) eqn:E1.
  - apply Z.leb_le in E1. change start_dis_model with 4 in E1.
    destruct (slot <? end_dis_model) eqn:E2.
    + apply Z.ltb_lt in E2. change end_dis_model with 14 in E2.
      match goal with
      | |- context [Rd_decode_tree_reversed ?r ?a ?o ?n] =>
          pose proof (Rd_decode_tree_reversed_range r a o n) as Hrev;
          destruct (Rd_decode_tree_reversed r a o n) as [[s3 r3] a3]
      end.
      cbn [fst] in Hrev. intros H. injection H as _ <- _ _.
      assert (Hcases : slot = 4 \/ slot = 5 \/ slot = 6 \/ slot = 7 \/ slot = 8 \/
                       slot = 9 \/ slot = 10 \/ slot = 11 \/ slot = 12 \/
                       slot = 13) by lia.
      destruct Hcases as [-> | [-> | [-> | [-> | [-> | [-> | [-> | [-> | [-> | ->]]]]]]]]];
        (specialize (Hrev ltac:(vm_compute; split; discriminate));
         match type of Hrev with
         | _ <= _ < 2 ^ ?e =>
             let v := eval vm_compute in (2 ^ e) in change (2 ^ e) with v in Hrev
         end;
         match goal with
         | |- u32 (u32 ?b + _) <> _ =>
             let v := eval vm_compute in (u32 b) in change (u32 b) with v
         end;
         rewrite u32_small by lia; lia).
    + destruct (Rd_decode _ _) as [s3 r3]. cbv zeta.
      destruct (Rd_decode_tree_reversed4 _ _ _) as [[s4 r4] a4]. cbv zeta.
      destruct (_ =? 0xFFFFFFFF) eqn:E3; [discriminate |].
      apply Z.eqb_neq in E3. intros H. injection H as _ <- _ _. exact E3.
  - apply Z.leb_gt in E1. change start_dis_model with 4 in E1.
    intros H. injection H as _ <- _ _. lia.
Qed.

Lemma Rd_get_byte_reload_pending (rdec : Range_decoder) :
  rd_reload_pending (snd (Rd_get_byte rdec)) = rd_reload_pending rdec.
Proof.
  unfold Rd_get_byte. destruct (Rd_finished rdec); [reflexivity |].
  destruct (Cb_get_byte _) as [b cb]. reflexivity.
Qed.

Lemma Rd_try_reload_loop_reload_pending (n : nat) (rdec : Range_decoder) :
  rd_reload_pending (Rd_try_reload_loop n rdec) = rd_reload_pending rdec.
Proof.
  revert rdec. induction n as [| n IH]; intros rdec; [reflexivity |].
  cbn [Rd_try_reload_loop]. pose proof (Rd_get_byte_reload_pending rdec) as H.
  destruct (Rd_get_byte rdec) as [b r]. rewrite IH. exact H.
Qed.

(** An armed reload is done when 5 bytes are there and left pending when
    they are not. *)
Lemma Rd_try_reload_armed (rdec : Range_decoder) :
  rd_reload_pending rdec = true ->
  (5 <= Rd_available_bytes rdec ->
   fst (Rd_try_reload rdec) = true /\
   rd_reload_pending (snd (Rd_try_reload rdec)) = false) /\
  (Rd_available_bytes rdec < 5 -> Rd_try_reload rdec = (false, rdec)).
Proof.
  intros Hp. unfold Rd_try_reload. rewrite Hp. cbn [andb]. split.
  - intros H. assert (E : (5 <=? Rd_available_bytes rdec) = true)
      by (apply Z.leb_le; exact H).
    rewrite E. cbv zeta.
    cbn [rd_reload_pending rd_with_code rd_with_range fst snd].
    rewrite Rd_try_reload_loop_reload_pending. split; reflexivity.
  - intros H. assert (E : (5 <=? Rd_available_bytes rdec) = false)
      by (apply Z.leb_gt; exact H).
    rewrite E. cbv zeta. rewrite Hp. reflexivity.
Qed.

Lemma LZd_decode_round_normal_match (rdec : Range_decoder) (d : LZ_decoder)
    (m : LZd_match) (rdec' : Range_decoder) (d' : LZ_decoder) :
  LZd_round_ready rdec d = true ->
  LZd_round_normal_match rdec d = Some (m, rdec', d') ->
  match m with
  | LZd_marker len => LZd_decode_round rdec d = LZd_decode_marker rdec' d' len
  | LZd_pair len distance => distance <> 0xFFFFFFFF
  end.
Proof.
  unfold LZd_round_ready, LZd_round_normal_match, LZd_decode_round.
  intros Hready. apply andb_true_iff in Hready. destruct Hready as [Hin Hfree].
  cbv zeta.
  assert (H1 : (negb (Rd_enough_available_bytes rdec) &&
                negb (rd_at_stream_end rdec)) = false).
  { destruct (Rd_enough_available_bytes rdec); [reflexivity |].
    destruct (rd_at_stream_end rdec); [reflexivity | discriminate]. }
  assert (H2 : (negb (Rd_enough_available_bytes rdec) &&
                Cb_empty (rd_cb rdec)) = false).
  { destruct (Rd_enough_available_bytes rdec); [reflexivity |].
    destruct (rd_at_stream_end rdec); [| discriminate].
    destruct (Cb_empty (rd_cb rdec)); [discriminate | reflexivity]. }
  rewrite H1, H2, Hfree. cbn [negb].
  destruct (Rd_decode_bit_at rdec _ _) as [[bit1 r1] a1].
  destruct (bit1 =? 0); [discriminate |].
  destruct (Rd_decode_bit_at r1 _ _) as [[bit2 r2] a2].
  destruct (negb (bit2 =? 0)); [discriminate |].
  intros H. injection H as H.
  destruct m as [len distance | len].
  - exact (LZd_decode_match_pair _ _ _ _ _ _ _ H).
  - rewrite H. reflexivity.
Qed.



(** ** C6: opening an encoder *)

Lemma real_bits_loop_range (fuel : nat) (value bits : Z) :
  bits <= real_bits_loop fuel value bits <= bits + Z.of_nat fuel.
Proof.
  revert value bits. induction fuel as [| fuel IH]; intros value bits.
  - cbn [real_bits_loop]. lia.
  - cbn [real_bits_loop]. destruct (0 <? value).
    + specialize (IH (Z.shiftr value 1) (bits + 1)). lia.
    + lia.
Qed.

Lemma real_bits_range (value : Z) : 0 <= real_bits value <= 32.
Proof. unfold real_bits. pose proof (real_bits_loop_range 32 value 0). lia. Qed.

Lemma Lh_set_dictionary_size_ok (data : Lzip_header) (sz : Z) :
  fst (Lh_set_dictionary_size data sz) = isvalid_ds sz.
Proof.
  unfold Lh_set_dictionary_size. destruct (isvalid_ds sz); cbn [negb];
    [| reflexivity].
  destruct (min_dictionary_size <? sz); reflexivity.
Qed.

Lemma isvalid_ds_int (dictionary_size : Z) :
  - 2 ^ 31 <= dictionary_size < 2 ^ 31 ->
  isvalid_ds (u32 dictionary_size) = true <->
  4096 <= dictionary_size <= 2 ^ 29.
Proof.
  intros Hint. unfold isvalid_ds.
  change min_dictionary_size with 4096. change max_dictionary_size with 536870912.
  change (2 ^ 31) with 2147483648 in Hint. change (2 ^ 29) with 536870912.
  rewrite andb_true_iff, !Z.leb_le.
  destruct (Z_lt_dec dictionary_size 0) as [Hneg | Hpos].
  - assert (u32 dictionary_size = dictionary_size + 4294967296) as ->.
    { unfold u32. change (2 ^ 32) with 4294967296.
      replace dictionary_size with (dictionary_size + 4294967296 + (-1) * 4294967296)
        at 1 by lia.
      rewrite Z.mod_add by lia. apply Z.mod_small. lia. }
    lia.
  - rewrite u32_small by lia. lia.
Qed.

Lemma Mb_key4_size_range (dictionary_size : Z) :
  0 < Mb_key4_size dictionary_size <= 2 ^ 30.
Proof.
  unfold Mb_key4_size. cbv zeta.
  pose proof (real_bits_range (u32 (dictionary_size - 1))) as Hr.
  set (e := Z.max 16 (real_bits (u32 (dictionary_size - 1)) - 2)).
  assert (He : 16 <= e <= 30) by (unfold e; lia).
  rewrite !Z.shiftl_1_l.
  assert (H16 : 2 ^ 16 <= 2 ^ e) by (apply Z.pow_le_mono_r; lia).
  assert (H30 : 2 ^ e <= 2 ^ 30) by (apply Z.pow_le_mono_r; lia).
  change (2 ^ 16) with 65536 in H16. change (2 ^ 30) with 1073741824 in *.
  generalize dependent (2 ^ e). intros x H16 H30.
  destruct (_ <? dictionary_size).
  - rewrite Z.shiftr_div_pow2 by lia. change (2 ^ 1) with 2.
    pose proof (Z.div_mod x 2 ltac:(lia)).
    pose proof (Z.mod_pos_bound x 2 ltac:(lia)). lia.
  - lia.
Qed.

(** With its blocks allocated, [Mb_init] succeeds for the sizes the two
    encoders ask for. *)
Lemma Mb_init_some (buffer prev : array)
    (before_size dict_size after_size dict_factor npp23 paf : Z) :
  0 <= npp23 <= 2 ^ 17 -> 0 <= paf <= 2 -> 0 <= dict_size <= 2 ^ 29 ->
  exists mb,
    Mb_init (Some buffer) (Some prev) before_size dict_size after_size
            dict_factor npp23 paf = Some mb /\
    mb_dictionary_size mb = dict_size /\
    mb_saved_dictionary_size mb = dict_size /\
    mb_pos mb = 0 /\ mb_stream_pos mb = 0 /\ mb_partial_data_pos mb = 0 /\
    mb_at_stream_end mb = false /\ mb_sync_flush_pending mb = false /\
    mb_buffer_size mb =
      Z.max 65536 (dict_factor * dict_size + before_size + after_size).
Proof.
  intros Hn Hp Hd. unfold Mb_init. cbv zeta.
  pose proof (Mb_key4_size_range dict_size) as Hk.
  change (2 ^ 30) with 1073741824 in Hk. change (2 ^ 17) with 131072 in Hn.
  change (2 ^ 29) with 536870912 in Hd.
  rewrite (u32_small (Mb_key4_size dict_size)) by lia.
  rewrite (u32_small (Mb_key4_size dict_size + npp23)) by lia.
  assert (Hpa : 0 <= paf * (dict_size + 1) <= 1073741826) by nia.
  rewrite (u32_small (Mb_key4_size dict_size + npp23 + paf * (dict_size + 1)))
    by lia.
  set (size := Mb_key4_size dict_size + npp23 + paf * (dict_size + 1)).
  assert (Hs : 0 < size <= 2147614722) by (unfold size; lia).
  assert (E : (u64 (size * 4) <=? size) = false).
  { apply Z.leb_gt. rewrite u64_small; [lia |].
    change (2 ^ 64) with 18446744073709551616. lia. }
  rewrite E. eexists. split; [reflexivity |].
  cbn. repeat split; reflexivity.
Qed.

(** ** The dictionary size a header codes *)

Lemma real_bits_loop_spec (fuel : nat) (value bits : Z) :
  0 <= value < 2 ^ Z.of_nat fuel ->
  (value = 0 -> real_bits_loop fuel value bits = bits) /\
  (0 < value ->
   2 ^ (real_bits_loop fuel value bits - bits - 1) <= value
     < 2 ^ (real_bits_loop fuel value bits - bits)).
Proof.
  revert value bits. induction fuel as [| fuel IH]; intros value bits Hv.
  - change (2 ^ Z.of_nat 0) with 1 in Hv. split; [reflexivity | lia].
  - cbn [real_bits_loop].
    destruct (0 <? value) eqn:E.
    + apply Z.ltb_lt in E. split; [lia | intros _].
      rewrite Nat2Z.inj_succ, Z.pow_succ_r in Hv by lia.
      rewrite Z.shiftr_div_pow2 by lia. change (2 ^ 1) with 2.
      pose proof (Z.div_mod value 2 ltac:(lia)) as Hd.
      pose proof (Z.mod_pos_bound value 2 ltac:(lia)) as Hm.
      destruct (IH (value / 2) (bits + 1) ltac:(lia)) as [H0 H1].
      destruct (Z.eq_dec (value / 2) 0) as [Ez | Enz].
      * rewrite (H0 Ez). replace (bits + 1 - bits - 1) with 0 by lia.
        replace (bits + 1 - bits) with 1 by lia.
        change (2 ^ 0) with 1. change (2 ^ 1) with 2. lia.
      * specialize (H1 ltac:(lia)).
        pose proof (real_bits_loop_range fuel (value / 2) (bits + 1)) as Hr.
        set (r := real_bits_loop fuel (value / 2) (bits + 1)) in *.
        replace (r - bits - 1) with (r - (bits + 1)) by lia.
        replace (r - bits) with (Z.succ (r - (bits + 1))) by lia.
        destruct (Z.eq_dec r (bits + 1)) as [Er | Er].
        -- exfalso. rewrite Er in H1.
           replace (bits + 1 - (bits + 1)) with 0 in H1 by lia.
           change (2 ^ 0) with 1 in H1. lia.
        -- assert (Hpe : 2 ^ (r - (bits + 1)) = 2 * 2 ^ (r - (bits + 1) - 1)).
           { rewrite <- Z.pow_succ_r by lia. f_equal. lia. }
           rewrite Z.pow_succ_r by lia. lia.
    + apply Z.ltb_ge in E. split; [reflexivity | lia].
Qed.

(** [real_bits] counts the bits of a positive [unsigned]. *)
Lemma real_bits_spec (value : Z) :
  0 < value < 2 ^ 32 ->
  2 ^ (real_bits value - 1) <= value < 2 ^ real_bits value.
Proof.
  intros Hv. unfold real_bits.
  destruct (real_bits_loop_spec 32 value 0 ltac:(simpl; lia)) as [_ H].
  specialize (H ltac:(lia)). rewrite !Z.sub_0_r in H. exact H.
Qed.

Lemma real_bits_zero : real_bits 0 = 0.
Proof. reflexivity. Qed.

(** The value a coded byte stands for, by its two fields. *)
Lemma Lh_get_dictionary_size_fields (data : Lzip_header) :
  0 <= data 5 < 256 ->
  exists m j,
    0 <= m <= 31 /\ 0 <= j <= 7 /\
    Lh_get_dictionary_size data =
      if 4096 <? 2 ^ m then 2 ^ m - 2 ^ m / 16 * j else 2 ^ m.
Proof.
  intros Hb. exists (Z.land (data 5) 0x1F), (Z.land (Z.shiftr (data 5) 5) 7).
  pose proof (land_mask_range (data 5) 5 ltac:(lia)) as Hm.
  pose proof (land_mask_range (Z.shiftr (data 5) 5) 3 ltac:(lia)) as Hj.
  change (Z.ones 5) with 31 in Hm. change (Z.ones 3) with 7 in Hj.
  change (2 ^ 5) with 32 in Hm. change (2 ^ 3) with 8 in Hj.
  split; [lia | split; [lia |]].
  unfold Lh_get_dictionary_size. cbv zeta.
  set (m := Z.land (data 5) 31) in *. set (j := Z.land (Z.shiftr (data 5) 5) 7) in *.
  rewrite Z.shiftl_1_l.
  assert (Hp : 0 < 2 ^ m <= 2 ^ 31).
  { split; [apply Z.pow_pos_nonneg; lia | apply Z.pow_le_mono_r; lia]. }
  change (2 ^ 31) with 2147483648 in Hp.
  rewrite (u32_small (2 ^ m)) by lia.
  change min_dictionary_size with 4096.
  destruct (4096 <? 2 ^ m); [| reflexivity].
  apply u32_small.
  pose proof (Z.div_mod (2 ^ m) 16 ltac:(lia)).
  pose proof (Z.mod_pos_bound (2 ^ m) 16 ltac:(lia)).
  nia.
Qed.

Ltac eval_u32 :=
  repeat match goal with
         | |- context [u32 ?x] =>
             let v := eval vm_compute in (u32 x) in
             progress change (u32 x) with v
         end.

(** The size a header advertises after [Lh_set_dictionary_size] is the
    least size the format can code that is not below the size asked for. *)
Lemma Lh_set_dictionary_size_get (data : Lzip_header) (sz : Z) :
  isvalid_ds sz = true ->
  let data' := snd (Lh_set_dictionary_size data sz) in
  (forall i, i <> 5 -> data' i = data i) /\
  0 <= data' 5 < 256 /\
  sz <= Lh_get_dictionary_size data' <= 2 ^ 29 /\
  (forall data2, 0 <= data2 5 < 256 -> sz <= Lh_get_dictionary_size data2 ->
     Lh_get_dictionary_size data' <= Lh_get_dictionary_size data2).
Proof.
  intros Hv data'. subst data'. unfold Lh_set_dictionary_size. rewrite Hv.
  cbn [negb]. unfold isvalid_ds in Hv. apply andb_true_iff in Hv.
  destruct Hv as [Hlo Hhi]. apply Z.leb_le in Hlo, Hhi.
  change min_dictionary_size with 4096 in *.
  change max_dictionary_size with 536870912 in Hhi.
  change (2 ^ 29) with 536870912.
  rewrite (u32_small (sz - 1)) by lia.
  pose proof (real_bits_spec (sz - 1) ltac:(change (2 ^ 32) with 4294967296; lia))
    as Hrb.
  pose proof (real_bits_range (sz - 1)) as Hrr.
  set (n := real_bits (sz - 1)) in *.
  assert (Hn : 12 <= n <= 29).
  { split.
    - destruct (Z_lt_dec n 12) as [Hlt | Hge]; [| lia].
      assert (2 ^ n <= 2 ^ 11) by (apply Z.pow_le_mono_r; lia).
      change (2 ^ 11) with 2048 in *. lia.
    - destruct (Z_lt_dec 29 n) as [Hlt | Hge]; [| lia].
      assert (2 ^ 29 <= 2 ^ (n - 1)) by (apply Z.pow_le_mono_r; lia).
      change (2 ^ 29) with 536870912 in *. lia. }
  assert (Hcases : n = 12 \/ n = 13 \/ n = 14 \/ n = 15 \/ n = 16 \/ n = 17 \/
                   n = 18 \/ n = 19 \/ n = 20 \/ n = 21 \/ n = 22 \/ n = 23 \/
                   n = 24 \/ n = 25 \/ n = 26 \/ n = 27 \/ n = 28 \/ n = 29)
    by lia.
  clear Hn Hrr.
  assert (Hmin : forall v,
    sz <= v -> forall data2, 0 <= data2 5 < 256 ->
    (forall m j, 0 <= m <= 31 -> 0 <= j <= 7 ->
       sz <= (if 4096 <? 2 ^ m then 2 ^ m - 2 ^ m / 16 * j else 2 ^ m) ->
       v <= (if 4096 <? 2 ^ m then 2 ^ m - 2 ^ m / 16 * j else 2 ^ m)) ->
    sz <= Lh_get_dictionary_size data2 -> v <= Lh_get_dictionary_size data2).
  { intros v _ data2 Hb2 Hall Hsz.
    destruct (Lh_get_dictionary_size_fields data2 Hb2) as (m & j & Hm & Hj & Heq).
    rewrite Heq in *. apply Hall; assumption. }
  destruct (4096 <? sz) eqn:Ebig.
  2:{ apply Z.ltb_ge in Ebig. assert (sz = 4096) by lia. subst sz.
      change n with 12. cbn [snd].
      split; [intros i Hi; unfold aset; apply Z.eqb_neq in Hi; rewrite Hi;
              reflexivity |].
      split; [vm_compute; split; [discriminate | reflexivity] |].
      split; [vm_compute; split; discriminate |].
      intros data2 Hb2 Hsz.
      replace (Lh_get_dictionary_size (aset data 5 (u8 12))) with 4096
        by reflexivity.
      exact Hsz. }
  apply Z.ltb_lt in Ebig. cbn [snd].
  assert (Hpow : forall m, 0 <= m <= 31 ->
    (m <= n - 1 -> 2 ^ m <= 2 ^ (n - 1)) /\ (n + 1 <= m -> 2 ^ (n + 1) <= 2 ^ m) /\
    0 < 2 ^ m /\ 0 <= 2 ^ m / 16 /\ 16 * (2 ^ m / 16) <= 2 ^ m).
  { intros m Hm.
    assert (H0 : 0 < 2 ^ m) by (apply Z.pow_pos_nonneg; lia).
    pose proof (Z.div_mod (2 ^ m) 16 ltac:(lia)).
    pose proof (Z.mod_pos_bound (2 ^ m) 16 ltac:(lia)).
    split; [| split; [| split; [| split]]].
    - intros Hle. apply Z.pow_le_mono_r; lia.
    - intros Hle. apply Z.pow_le_mono_r; lia.
    - exact H0.
    - lia.
    - lia. }
  destruct Hcases as [E | Hcases].
  { exfalso. rewrite E in Hrb. change (2 ^ 12) with 4096 in Hrb. lia. }
  repeat (destruct Hcases as [E | Hcases]);
    try rename Hcases into E;
    rewrite E in *; clear E;
    cbv zeta; cbn [Lh_set_dictionary_size_loop];
    repeat match goal with
           | |- context [aset ?d 5 ?v 5] =>
               change (aset d 5 v 5) with v
           end;
    eval_u32;
    match type of Hrb with
    | 2 ^ ?a <= _ < 2 ^ ?b =>
        let va := eval vm_compute in (2 ^ a) in
        let vb := eval vm_compute in (2 ^ b) in
        change (2 ^ a) with va in Hrb; change (2 ^ b) with vb in Hrb
    end;
    repeat match goal with
           | |- context [if sz <=? ?c then _ else _] =>
               destruct (sz <=? c) eqn:?
           end;
    rewrite ?Z.leb_le, ?Z.leb_gt in *;
    (split; [intros i Hi; unfold aset; apply Z.eqb_neq in Hi; rewrite ?Hi;
             reflexivity |]);
    match goal with
    | |- context [Lh_get_dictionary_size ?d] =>
        let v := eval vm_compute in (Lh_get_dictionary_size d) in
        change (Lh_get_dictionary_size d) with v
    end;
    (split; [vm_compute; split; [discriminate | reflexivity] |]);
    (split; [lia |]);
    (intros data2 Hb2; apply Hmin; [lia | exact Hb2 |]);
    intros m j Hm Hj;
    destruct (Hpow m Hm) as (Hp1 & Hp2 & Hp3 & Hp5 & Hp4);
    match type of Hp1 with
    | _ -> _ <= 2 ^ ?a =>
        let va := eval vm_compute in (2 ^ a) in change (2 ^ a) with va in Hp1
    end;
    match type of Hp2 with
    | _ -> 2 ^ ?a <= _ =>
        let va := eval vm_compute in (2 ^ a) in change (2 ^ a) with va in Hp2
    end;
    match type of Hp1 with
    | m <= ?a -> _ =>
        let va := eval vm_compute in a in
        let vs := eval vm_compute in (a + 1) in
        assert (Hreg : m <= va \/ m = vs \/ vs + 1 <= m) by lia
    end;
    (destruct Hreg as [Hreg | [Hreg | Hreg]];
     [ specialize (Hp1 ltac:(lia)); destruct (4096 <? 2 ^ m); nia
     | rewrite Hreg;
       match goal with
       | |- context [2 ^ ?a] =>
           let va := eval vm_compute in (2 ^ a) in change (2 ^ a) with va
       end;
       match goal with
       | |- context [?a / 16] =>
           let va := eval vm_compute in (a / 16) in change (a / 16) with va
       end;
       match goal with
       | |- context [4096 <? ?a] =>
           let va := eval vm_compute in (4096 <? a) in change (4096 <? a) with va
       end;
       cbv iota; lia
     | specialize (Hp2 ltac:(lia)); destruct (4096 <? 2 ^ m); nia ]).
Qed.

Lemma Re_init_some (block : array) (dictionary_size min_free_bytes : Z) :
  0 <= min_free_bytes <= 2 ^ 20 ->
  exists renc, Re_init (Some block) dictionary_size min_free_bytes = Some renc.
Proof.
  intros H. change (2 ^ 20) with 1048576 in H. unfold Re_init, Cb_init.
  rewrite u32_small by lia.
  assert (E : (1 <? 65536 + min_free_bytes + 1) = true) by (apply Z.ltb_lt; lia).
  rewrite E. eexists. reflexivity.
Qed.

Lemma LZeb_init_some (buffer prev cb : array)
    (before_size dict_size after_size dict_factor npp23 paf min_free_bytes
     member_size : Z) :
  0 <= npp23 <= 2 ^ 17 -> 0 <= paf <= 2 -> 0 <= dict_size <= 2 ^ 29 ->
  0 <= min_free_bytes <= 2 ^ 20 ->
  exists eb,
    LZeb_init (Some buffer) (Some prev) (Some cb) before_size dict_size
              after_size dict_factor npp23 paf min_free_bytes member_size =
    Some eb.
Proof.
  intros Hn Hp Hd Hm. unfold LZeb_init.
  destruct (Mb_init_some buffer prev before_size dict_size after_size
              dict_factor npp23 paf Hn Hp Hd) as (mb & -> & _).
  destruct (Re_init_some cb (u32 (mb_dictionary_size mb)) min_free_bytes Hm)
    as (renc & ->).
  eexists. reflexivity.
Qed.

(** What [Lh_get_dictionary_size] returns for a header written by
    [Lh_set_dictionary_size] is again a valid size. *)
Lemma Lh_get_dictionary_size_range (data : Lzip_header) :
  0 <= Lh_get_dictionary_size data <= 0xFFFFFFFF.
Proof.
  unfold Lh_get_dictionary_size. cbv zeta.
  destruct (_ <? _); apply u32_range.
Qed.

Section CompressOpen.

Variables (struct_ok : bool) (buffer_block prev_block cb_block : option array).
Variables (dictionary_size match_len_limit member_size : Z).

Hypothesis dictionary_size_int : - 2 ^ 31 <= dictionary_size < 2 ^ 31.

Lemma LZ_compress_open_test :
  (negb (fst (Lh_set_dictionary_size (fun _ => 0) (u32 dictionary_size))) ||
   (match_len_limit <? min_match_len_limit) ||
   (max_match_len <? match_len_limit) ||
   (member_size <? min_dictionary_size)) = true <-> bad_open_arguments dictionary_size match_len_limit member_size.
Proof.
  rewrite Lh_set_dictionary_size_ok. unfold bad_open_arguments.
  pose proof (isvalid_ds_int dictionary_size dictionary_size_int) as Hv.
  rewrite !orb_true_iff, negb_true_iff, !Z.ltb_lt.
  change min_match_len_limit with 5. change max_match_len with 273.
  change min_dictionary_size with 4096.
  destruct (isvalid_ds (u32 dictionary_size)).
  - assert (4096 <= dictionary_size <= 2 ^ 29) by (apply Hv; reflexivity).
    split; [intros [[[H0 | H1] | H2] | H3]; [discriminate | lia | lia | lia]
           | intros H0; lia].
  - assert (~ 4096 <= dictionary_size <= 2 ^ 29)
      by (intros H0; apply Hv in H0; discriminate).
    split; [intros _; lia | intros _; left; left; left; reflexivity].
Qed.

Lemma LZ_compress_open_spec (e : LZ_Encoder) :
  LZ_compress_open true struct_ok buffer_block prev_block cb_block
                   dictionary_size match_len_limit member_size = Some e ->
  (LZ_compress_errno e = LZ_bad_argument <-> bad_open_arguments dictionary_size match_len_limit member_size) /\
  (bad_open_arguments dictionary_size match_len_limit member_size -> le_fatal e = true /\ le_eb e = None) /\
  (~ bad_open_arguments dictionary_size match_len_limit member_size ->
   (LZ_compress_errno e = LZ_ok /\ le_fatal e = false \/
    LZ_compress_errno e = LZ_mem_error /\ le_fatal e = true /\ le_eb e = None) /\
   (LZ_compress_errno e = LZ_ok ->
    (fast_open_arguments dictionary_size match_len_limit ->
     le_lz_encoder_base e = Some in_flz_encoder /\
     le_lz_encoder e = None /\ le_flz_encoder e <> None) /\
    (~ fast_open_arguments dictionary_size match_len_limit ->
     le_lz_encoder_base e = Some in_lz_encoder /\
     le_flz_encoder e = None /\ le_lz_encoder e <> None)) /\
   (struct_ok = true -> buffer_block <> None -> prev_block <> None ->
    cb_block <> None -> LZ_compress_errno e = LZ_ok)).
Proof.
  unfold LZ_compress_open. cbn [negb]. cbv zeta.
  pose proof LZ_compress_open_test as Htest.
  destruct (Lh_set_dictionary_size (fun _ => 0) (u32 dictionary_size))
    as [ok header] eqn:Eh.
  cbn [fst] in Htest.
  destruct (negb ok || _ || _ || _) eqn:Et.
  - assert (Hbad : bad_open_arguments dictionary_size match_len_limit member_size) by (apply Htest; reflexivity).
    intros H. injection H as <-.
    split; [split; [intros _; exact Hbad | reflexivity] |].
    split; [intros _; split; reflexivity |].
    intros Hn. exfalso. exact (Hn Hbad).
  - assert (Hgood : ~ bad_open_arguments dictionary_size match_len_limit member_size)
      by (intros Hb; apply Htest in Hb; discriminate).
    assert (Hok : ok = true) by (destruct ok; [reflexivity | discriminate]).
    unfold fast_open_arguments.
    destruct ((dictionary_size =? 65535) && (match_len_limit =? 16)) eqn:Ef.
    + apply andb_true_iff in Ef. destruct Ef as [E1 E2].
      apply Z.eqb_eq in E1, E2.
      destruct (if struct_ok then FLZe_init _ _ _ _ else None) as [fe |] eqn:Ei;
        intros H; injection H as <-.
      * split; [split; [discriminate | intros Hb; exfalso; exact (Hgood Hb)] |].
        split; [intros Hb; exfalso; exact (Hgood Hb) |].
        intros _. split; [left; split; reflexivity |].
        split; [| intros; reflexivity].
        intros _. split.
        -- intros _. split; [reflexivity | split; [reflexivity | discriminate]].
        -- intros Hnf. exfalso. apply Hnf. split; assumption.
      * split; [split; [discriminate | intros Hb; exfalso; exact (Hgood Hb)] |].
        split; [intros Hb; exfalso; exact (Hgood Hb) |].
        intros _. split; [right; repeat split; reflexivity |].
        split; [discriminate |].
        intros -> Hb1 Hb2 Hb3. exfalso.
        destruct buffer_block as [b1 |]; [| apply Hb1; reflexivity].
        destruct prev_block as [b2 |]; [| apply Hb2; reflexivity].
        destruct cb_block as [b3 |]; [| apply Hb3; reflexivity].
        unfold FLZe_init in Ei. cbv zeta in Ei.
        destruct (LZeb_init_some b1 b2 b3 0 65536 max_match_len 16 0 1
                    max_marker_size member_size)
          as (eb & Heb);
          [ vm_compute; split; discriminate | vm_compute; split; discriminate
          | vm_compute; split; discriminate | vm_compute; split; discriminate |].
        rewrite Heb in Ei. discriminate.
    + assert (Hnf : ~ (dictionary_size = 65535 /\ match_len_limit = 16)).
      { intros [E1 E2]. subst. discriminate. }
      destruct (if struct_ok then LZe_init _ _ _ _ _ _ else None) as [le |] eqn:Ei;
        intros H; injection H as <-.
      * split; [split; [discriminate | intros Hb; exfalso; exact (Hgood Hb)] |].
        split; [intros Hb; exfalso; exact (Hgood Hb) |].
        intros _. split; [left; split; reflexivity |].
        split; [| intros; reflexivity].
        intros _. split.
        -- intros Hf. exfalso. exact (Hnf Hf).
        -- intros _. split; [reflexivity | split; [reflexivity | discriminate]].
      * split; [split; [discriminate | intros Hb; exfalso; exact (Hgood Hb)] |].
        split; [intros Hb; exfalso; exact (Hgood Hb) |].
        intros _. split; [right; repeat split; reflexivity |].
        split; [discriminate |].
        intros -> Hb1 Hb2 Hb3. exfalso.
        destruct buffer_block as [b1 |]; [| apply Hb1; reflexivity].
        destruct prev_block as [b2 |]; [| apply Hb2; reflexivity].
        destruct cb_block as [b3 |]; [| apply Hb3; reflexivity].
        unfold LZe_init in Ei. cbv zeta in Ei.
        assert (Hvalid : isvalid_ds (u32 dictionary_size) = true).
        { rewrite <- Lh_set_dictionary_size_ok with (data := fun _ => 0).
          rewrite Eh. exact Hok. }
        pose proof (Lh_set_dictionary_size_get (fun _ => 0) _ Hvalid) as Hget.
        cbv zeta in Hget. rewrite Eh in Hget. cbn [snd] in Hget.
        destruct Hget as (_ & _ & Hrange & _).
        pose proof (u32_range dictionary_size) as Hu.
        destruct (LZeb_init_some b1 b2 b3 max_num_trials
                    (Lh_get_dictionary_size header)
                    (max_num_trials + 2 * max_match_len + 1) 2
                    (num_prev_positions2 + num_prev_positions3) 2
                    (2 * max_num_trials) member_size)
          as (eb & Heb);
          [ vm_compute; split; discriminate | vm_compute; split; discriminate
          | lia | vm_compute; split; discriminate |].
        rewrite Heb in Ei. discriminate.
Qed.

End CompressOpen.

(** C6: [LZ_compress_open], when it returns a handle, sets
    [LZ_bad_argument] exactly when [dictionary_size] is outside
    [4096, 1 << 29], [match_len_limit] outside [5, 273], or [member_size]
    below 4096.  For other arguments it sets up the fast encoder when
    [dictionary_size == 65535] and [match_len_limit == 16] and the optimal
    encoder otherwise, and never the other one; it reports [LZ_ok] when the
    allocations succeed and [LZ_mem_error] when one fails. *)
Theorem C6_compress_open (struct_ok : bool)
    (buffer_block prev_block cb_block : option array)
    (dictionary_size match_len_limit member_size : Z) (e : LZ_Encoder) :
  - 2 ^ 31 <= dictionary_size < 2 ^ 31 ->
  LZ_compress_open true struct_ok buffer_block prev_block cb_block
                   dictionary_size match_len_limit member_size = Some e ->
  let bad := bad_open_arguments dictionary_size match_len_limit member_size in
  let fast := fast_open_arguments dictionary_size match_len_limit in
  (LZ_compress_errno e = LZ_bad_argument <-> bad) /\
  (bad -> le_fatal e = true /\ le_eb e = None) /\
  (~ bad ->
   (LZ_compress_errno e = LZ_ok /\ le_fatal e = false \/
    LZ_compress_errno e = LZ_mem_error /\ le_fatal e = true /\ le_eb e = None) /\
   (LZ_compress_errno e = LZ_ok ->
    (fast ->
     le_lz_encoder_base e = Some in_flz_encoder /\
     le_lz_encoder e = None /\ le_flz_encoder e <> None) /\
    (~ fast ->
     le_lz_encoder_base e = Some in_lz_encoder /\
     le_flz_encoder e = None /\ le_lz_encoder e <> None)) /\
   (struct_ok = true -> buffer_block <> None -> prev_block <> None ->
    cb_block <> None -> LZ_compress_errno e = LZ_ok)).
Proof.
  intros Hint Hopen bad fast.
  exact (LZ_compress_open_spec struct_ok buffer_block prev_block cb_block
           dictionary_size match_len_limit member_size Hint e Hopen).
Qed.

(** ** C7: finishing before any data has been encoded *)

Lemma le_eb_with_eb (e : LZ_Encoder) (eb eb' : LZ_encoder_base) :
  le_eb e = Some eb -> le_eb (le_with_eb e eb') = Some eb'.
Proof.
  unfold le_eb, le_with_eb.
  destruct (le_lz_encoder_base e) as [[|] |]; [| | discriminate].
  - destruct (le_lz_encoder e); [| discriminate]. reflexivity.
  - destruct (le_flz_encoder e); [| discriminate]. reflexivity.
Qed.

Lemma verify_encoder_ok (e : LZ_Encoder) :
  fst (verify_encoder e) = true -> verify_encoder e = (true, e).
Proof.
  unfold verify_encoder. destruct (_ || _ || _); [discriminate | reflexivity].
Qed.

Lemma LZ_compress_finish_shrinks (e : LZ_Encoder) (eb : LZ_encoder_base) :
  fst (verify_encoder e) = true -> le_fatal e = false -> le_eb e = Some eb ->
  Mb_data_position (eb_mb eb) = 0 ->
  Re_member_position (eb_renc eb) = Lh_size ->
  4096 <= mb_dictionary_size (eb_mb eb) <= 2 ^ 29 ->
  let written := mb_stream_pos (eb_mb eb) in
  let size :=
    if written <? mb_dictionary_size (eb_mb eb) then Z.max 4096 written
    else mb_dictionary_size (eb_mb eb) in
  fst (LZ_compress_finish e) = 0 /\
  exists eb',
    le_eb (snd (LZ_compress_finish e)) = Some eb' /\
    mb_at_stream_end (eb_mb eb') = true /\
    mb_dictionary_size (eb_mb eb') = size /\
    cb_buffer (re_cb (eb_renc eb')) 5 = re_header (eb_renc eb') 5 /\
    (forall i, i <> 5 -> re_header (eb_renc eb') i = re_header (eb_renc eb) i) /\
    size <= Lh_get_dictionary_size (re_header (eb_renc eb')) <= 2 ^ 29 /\
    (forall data2, 0 <= data2 5 < 256 -> size <= Lh_get_dictionary_size data2 ->
       Lh_get_dictionary_size (re_header (eb_renc eb')) <=
       Lh_get_dictionary_size data2) /\
    (written = 0 -> Lh_get_dictionary_size (re_header (eb_renc eb')) = 4096).
Proof.
  intros Hv Hf Heb Hdp Hmp Hds written size.
  unfold LZ_compress_finish. rewrite (verify_encoder_ok e Hv), Heb, Hf.
  cbn [negb orb].
  change (Mb_data_position (eb_mb (eb_with_mb eb (Mb_finish (eb_mb eb)))))
    with (Mb_data_position (eb_mb eb)).
  change (eb_renc (eb_with_mb eb (Mb_finish (eb_mb eb)))) with (eb_renc eb).
  rewrite Hdp, Hmp. cbn [Z.eqb andb Lh_size Pos.eqb]. cbv zeta.
  cbn [fst snd]. split; [reflexivity |].
  eexists. split; [apply (le_eb_with_eb e eb _ Heb) |].
  change (2 ^ 29) with 536870912 in *.
  assert (Hsize : mb_dictionary_size
                    (Mb_adjust_dictionary_size (Mb_finish (eb_mb eb))) = size).
  { unfold Mb_adjust_dictionary_size, size, written.
    change (mb_stream_pos (Mb_finish (eb_mb eb))) with (mb_stream_pos (eb_mb eb)).
    change (mb_dictionary_size (Mb_finish (eb_mb eb)))
      with (mb_dictionary_size (eb_mb eb)).
    destruct (mb_stream_pos (eb_mb eb) <? mb_dictionary_size (eb_mb eb));
      reflexivity. }
  assert (Hend : mb_at_stream_end
                   (Mb_adjust_dictionary_size (Mb_finish (eb_mb eb))) = true).
  { unfold Mb_adjust_dictionary_size.
    destruct (_ <? _); reflexivity. }
  assert (Hrange : 4096 <= size <= 536870912).
  { unfold size. destruct (written <? mb_dictionary_size (eb_mb eb)) eqn:E.
    - apply Z.ltb_lt in E. lia.
    - lia. }
  assert (Hvalid : isvalid_ds size = true).
  { unfold isvalid_ds.
    apply andb_true_iff. split; apply Z.leb_le.
    - change min_dictionary_size with 4096. lia.
    - change max_dictionary_size with 536870912. lia. }
  cbn [eb_mb eb_renc eb_with_mb eb_with_renc re_cb re_header re_with_cb
       re_with_header cb_buffer cb_with_buffer].
  rewrite Hsize. rewrite (u32_small size) by lia.
  pose proof (Lh_set_dictionary_size_get (re_header (eb_renc eb)) size Hvalid)
    as Hget.
  cbv zeta in Hget. destruct Hget as (Hother & _ & Hge & Hmin).
  split; [exact Hend |].
  split; [reflexivity |].
  split; [unfold aset; rewrite Z.eqb_refl; reflexivity |].
  split; [exact Hother |].
  split; [exact Hge |].
  split; [exact Hmin |].
  intros Hw. unfold size in *. rewrite Hw in *.
  assert (E : (0 <? mb_dictionary_size (eb_mb eb)) = true) by (apply Z.ltb_lt; lia).
  rewrite E in *. change (Z.max 4096 0) with 4096 in *.
  apply Z.le_antisymm; [| lia].
  apply (Hmin (aset (fun _ => 0) 5 12));
    [vm_compute; split; [discriminate | reflexivity] | vm_compute; discriminate].
Qed.


Lemma C6_compress_open_witness :
  LZ_compress_errno (opened_encoder 65535 16) = LZ_ok /\
  le_lz_encoder_base (opened_encoder 65535 16) = Some in_flz_encoder /\
  le_lz_encoder (opened_encoder 65535 16) = None /\
  le_flz_encoder (opened_encoder 65535 16) <> None.
Proof.
  assert (Hopen : LZ_compress_open true true (Some fresh_block) (Some fresh_block)
                    (Some fresh_block) 65535 16 (2 ^ 63) =
                  Some (opened_encoder 65535 16)).
  { unfold opened_encoder.
    destruct (LZ_compress_open true true (Some fresh_block) (Some fresh_block)
                (Some fresh_block) 65535 16 (2 ^ 63)) eqn:E;
      [reflexivity | discriminate E]. }
  pose proof (C6_compress_open true (Some fresh_block) (Some fresh_block)
                (Some fresh_block) 65535 16 (2 ^ 63) (opened_encoder 65535 16)
                ltac:(vm_compute; split; [discriminate | reflexivity])
                Hopen) as H.
  destruct H as (_ & _ & H).
  assert (Hgood : ~ bad_open_arguments 65535 16 (2 ^ 63)).
  { unfold bad_open_arguments. change (2 ^ 29) with 536870912.
    change (2 ^ 63) with 9223372036854775808. lia. }
  destruct (H Hgood) as (_ & Hsel & Hok).
  assert (Herr := Hok eq_refl ltac:(discriminate) ltac:(discriminate)
                      ltac:(discriminate)).
  split; [exact Herr |].
  destruct (Hsel Herr) as [Hfast _].
  apply Hfast. split; reflexivity.
Defined.

(** ** Lists read from arrays and rings *)

Lemma mod_wrap (x bs : Z) :
  0 < bs -> 0 <= x < 2 * bs -> x mod bs = if x <? bs then x else x - bs.
Proof.
  intros Hbs Hx. destruct (x <? bs) eqn:E.
  - apply Z.ltb_lt in E. apply Z.mod_small. lia.
  - apply Z.ltb_ge in E. replace x with (x - bs + 1 * bs) at 1 by lia.
    rewrite Z.mod_add by lia. apply Z.mod_small. lia.
Qed.

Lemma list_eq_nth (l1 l2 : list Z) :
  length l1 = length l2 ->
  (forall j, 0 <= j < Z.of_nat (length l1) ->
     nth (Z.to_nat j) l1 0 = nth (Z.to_nat j) l2 0) ->
  l1 = l2.
Proof.
  intros Hl H. apply (nth_ext l1 l2 0 0 Hl). intros n Hn.
  specialize (H (Z.of_nat n) ltac:(lia)). rewrite Nat2Z.id in H. exact H.
Qed.

Lemma Cb_ring_length (buffer : array) (bs s : Z) (n : nat) :
  length (Cb_ring buffer bs s n) = n.
Proof. unfold Cb_ring. rewrite length_map, length_seq. reflexivity. Qed.

Lemma Cb_ring_nth (buffer : array) (bs s : Z) (n : nat) (j : Z) :
  0 <= j < Z.of_nat n ->
  nth (Z.to_nat j) (Cb_ring buffer bs s n) 0 = buffer ((s + j) mod bs).
Proof.
  intros Hj. unfold Cb_ring.
  rewrite (nth_indep _ 0 ((fun k => buffer ((s + Z.of_nat k) mod bs)) O))
    by (rewrite length_map, length_seq; lia).
  rewrite (map_nth (fun k => buffer ((s + Z.of_nat k) mod bs)) (seq 0 n) O).
  rewrite seq_nth by lia. cbn [Nat.add]. rewrite Z2Nat.id by lia.
  reflexivity.
Qed.

Lemma aread_length (a : array) (off : Z) (n : nat) : length (aread a off n) = n.
Proof. unfold aread. rewrite length_map, length_seq. reflexivity. Qed.

Lemma aread_nth (a : array) (off : Z) (n : nat) (j : Z) :
  0 <= j < Z.of_nat n -> nth (Z.to_nat j) (aread a off n) 0 = a (off + j).
Proof.
  intros Hj. unfold aread.
  rewrite (nth_indep _ 0 ((fun k => a (off + Z.of_nat k)) O))
    by (rewrite length_map, length_seq; lia).
  rewrite (map_nth (fun k => a (off + Z.of_nat k)) (seq 0 n) O).
  rewrite seq_nth by lia. cbn [Nat.add]. rewrite Z2Nat.id by lia.
  reflexivity.
Qed.

Lemma app_nth_Z (l1 l2 : list Z) (j : Z) :
  0 <= j ->
  nth (Z.to_nat j) (l1 ++ l2) 0 =
  if j <? Z.of_nat (length l1) then nth (Z.to_nat j) l1 0
  else nth (Z.to_nat (j - Z.of_nat (length l1))) l2 0.
Proof.
  intros Hj. destruct (j <? Z.of_nat (length l1)) eqn:E.
  - apply Z.ltb_lt in E. apply app_nth1. lia.
  - apply Z.ltb_ge in E. rewrite app_nth2 by lia. f_equal. lia.
Qed.

Lemma firstn_nth_Z (l : list Z) (n : nat) (j : Z) :
  0 <= j < Z.of_nat n -> nth (Z.to_nat j) (firstn n l) 0 = nth (Z.to_nat j) l 0.
Proof.
  intros Hj. revert j Hj l. induction n as [| n IH]; intros j Hj l; [lia |].
  destruct l as [| x l]; [reflexivity |]. cbn [firstn].
  destruct (Z.eq_dec j 0) as [-> | Hne]; [reflexivity |].
  replace (Z.to_nat j) with (S (Z.to_nat (j - 1))) by lia. cbn [nth].
  apply IH. lia.
Qed.

Lemma skipn_nth_Z (l : list Z) (n : nat) (j : Z) :
  0 <= j -> nth (Z.to_nat j) (skipn n l) 0 = nth (Z.to_nat (Z.of_nat n + j)) l 0.
Proof.
  intros Hj. revert l. induction n as [| n IH]; intros l.
  - cbn [skipn]. f_equal.
  - destruct l as [| x l].
    + cbn [skipn]. destruct (Z.to_nat j), (Z.to_nat (Z.of_nat (S n) + j)); reflexivity.
    + cbn [skipn]. rewrite IH.
      replace (Z.to_nat (Z.of_nat (S n) + j)) with (S (Z.to_nat (Z.of_nat n + j)))
        by lia.
      reflexivity.
Qed.

(** ** C7: the header in the output buffer when the encoder is finished *)

Lemma aread_aset_inside (a : array) (lo : Z) (n : nat) (i v : Z) :
  lo <= i < lo + Z.of_nat n ->
  aread (aset a i v) lo n =
  firstn (Z.to_nat (i - lo)) (aread a lo n)
    ++ v :: skipn (Z.to_nat (i + 1 - lo)) (aread a lo n).
Proof.
  intros Hi. apply list_eq_nth.
  - rewrite length_app, firstn_length_le by (rewrite aread_length; lia).
    cbn [length]. rewrite length_skipn, !aread_length. lia.
  - intros j Hj. rewrite aread_length in Hj.
    rewrite aread_nth by lia. rewrite app_nth_Z by lia.
    rewrite firstn_length_le by (rewrite aread_length; lia).
    rewrite Z2Nat.id by lia. unfold aset.
    destruct (Z.ltb_spec j (i - lo)) as [Hlt | Hge].
    + rewrite firstn_nth_Z by lia. rewrite aread_nth by lia.
      destruct (Z.eqb_spec (lo + j) i); [lia | reflexivity].
    + destruct (Z.eq_dec j (i - lo)) as [-> | Hne].
      * rewrite Z.sub_diag. cbn [Z.to_nat nth].
        destruct (Z.eqb_spec (lo + (i - lo)) i); [reflexivity | lia].
      * replace (Z.to_nat (j - (i - lo))) with (S (Z.to_nat (j - (i - lo) - 1)))
          by lia.
        cbn [nth]. rewrite skipn_nth_Z by lia. rewrite Z2Nat.id by lia.
        replace (i + 1 - lo + (j - (i - lo) - 1)) with j by lia.
        rewrite aread_nth by lia.
        destruct (Z.eqb_spec (lo + j) i); [lia | reflexivity].
Qed.

Lemma aread_aset_outside (a : array) (lo : Z) (n : nat) (i v : Z) :
  i < lo \/ lo + Z.of_nat n <= i ->
  aread (aset a i v) lo n = aread a lo n.
Proof.
  intros Hi. unfold aread. apply map_ext_in. intros k Hk. apply in_seq in Hk.
  unfold aset. destruct (Z.eqb_spec (lo + Z.of_nat k) i); [lia | reflexivity].
Qed.

Lemma Cb_content_aread (cb : Circular_buffer) :
  Cb_wf cb -> cb_get cb <= cb_put cb ->
  Cb_content cb = aread (cb_buffer cb) (cb_get cb) (Z.to_nat (cb_put cb - cb_get cb)).
Proof.
  intros Hwf Hle. pose proof Hwf as (Hs & Hg & Hp). unfold Cb_content.
  rewrite (Cb_used_bytes_wf cb Hwf).
  destruct (Z.leb_spec (cb_get cb) (cb_put cb)); [| lia].
  apply Cb_ring_aread; lia.
Qed.

(** A store into cell [i] of the block changes the bytes still to be read
    exactly when the cell lies between [get] and [put]. *)
Lemma Cb_content_store (cb : Circular_buffer) (i v : Z) :
  Cb_wf cb -> cb_get cb <= cb_put cb ->
  let cb' := cb_with_buffer cb (aset (cb_buffer cb) i v) in
  (cb_get cb <= i < cb_put cb ->
   Cb_content cb' =
   firstn (Z.to_nat (i - cb_get cb)) (Cb_content cb)
     ++ v :: skipn (Z.to_nat (i + 1 - cb_get cb)) (Cb_content cb)) /\
  (i < cb_get cb \/ cb_put cb <= i -> Cb_content cb' = Cb_content cb).
Proof.
  intros Hwf Hle cb'. pose proof Hwf as (Hs & Hg & Hp).
  assert (Hwf' : Cb_wf cb') by exact Hwf.
  rewrite (Cb_content_aread cb Hwf Hle).
  rewrite (Cb_content_aread cb' Hwf' Hle).
  change (cb_get cb') with (cb_get cb). change (cb_put cb') with (cb_put cb).
  change (cb_buffer cb') with (aset (cb_buffer cb) i v).
  split; intros Hi.
  - apply aread_aset_inside. lia.
  - apply aread_aset_outside. lia.
Qed.

Lemma LZ_compress_finish_output (e : LZ_Encoder) (eb : LZ_encoder_base) :
  fst (verify_encoder e) = true -> le_fatal e = false -> le_eb e = Some eb ->
  Mb_data_position (eb_mb eb) = 0 ->
  Re_member_position (eb_renc eb) = Lh_size ->
  Cb_wf (re_cb (eb_renc eb)) ->
  let cb := re_cb (eb_renc eb) in
  exists eb',
    le_eb (snd (LZ_compress_finish e)) = Some eb' /\
    cb_get (re_cb (eb_renc eb')) = cb_get cb /\
    cb_put (re_cb (eb_renc eb')) = cb_put cb /\
    (cb_get cb <= 5 < cb_put cb ->
     Cb_content (re_cb (eb_renc eb')) =
     firstn (Z.to_nat (5 - cb_get cb)) (Cb_content cb)
       ++ re_header (eb_renc eb') 5
          :: skipn (Z.to_nat (6 - cb_get cb)) (Cb_content cb)) /\
    (5 < cb_get cb <= cb_put cb ->
     Cb_content (re_cb (eb_renc eb')) = Cb_content cb).
Proof.
  intros Hv Hf Heb Hdp Hmp Hwf cb.
  unfold LZ_compress_finish. rewrite (verify_encoder_ok e Hv), Heb, Hf.
  cbn [negb orb].
  change (Mb_data_position (eb_mb (eb_with_mb eb (Mb_finish (eb_mb eb)))))
    with (Mb_data_position (eb_mb eb)).
  change (eb_renc (eb_with_mb eb (Mb_finish (eb_mb eb)))) with (eb_renc eb).
  rewrite Hdp, Hmp. cbn [Z.eqb andb Lh_size Pos.eqb]. cbv zeta.
  cbn [fst snd].
  eexists. split; [apply (le_eb_with_eb e eb _ Heb) |].
  cbn [eb_mb eb_renc eb_with_mb eb_with_renc re_cb re_header re_with_cb
       re_with_header cb_buffer cb_get cb_put cb_with_buffer].
  fold cb.
  split; [reflexivity |]. split; [reflexivity |].
  split.
  - intros Hin.
    destruct (Cb_content_store cb 5
                (snd (Lh_set_dictionary_size (re_header (eb_renc eb))
                        (u32 (mb_dictionary_size
                                (Mb_adjust_dictionary_size (Mb_finish (eb_mb eb))))))
                     5)
                Hwf ltac:(lia)) as [Hs _].
    exact (Hs Hin).
  - intros Hout.
    destruct (Cb_content_store cb 5
                (snd (Lh_set_dictionary_size (re_header (eb_renc eb))
                        (u32 (mb_dictionary_size
                                (Mb_adjust_dictionary_size (Mb_finish (eb_mb eb))))))
                     5)
                Hwf ltac:(lia)) as [_ Hs].
    apply Hs. lia.
Qed.

Lemma LZ_compress_finish_header (e : LZ_Encoder) (eb : LZ_encoder_base) :
  fst (verify_encoder e) = true -> le_fatal e = false -> le_eb e = Some eb ->
  Mb_data_position (eb_mb eb) = 0 ->
  Re_member_position (eb_renc eb) = Lh_size ->
  4096 <= mb_dictionary_size (eb_mb eb) <= 2 ^ 29 ->
  Cb_wf (re_cb (eb_renc eb)) ->
  let written := mb_stream_pos (eb_mb eb) in
  let size :=
    if written <? mb_dictionary_size (eb_mb eb) then Z.max 4096 written
    else mb_dictionary_size (eb_mb eb) in
  let cb := re_cb (eb_renc eb) in
  fst (LZ_compress_finish e) = 0 /\
  exists eb',
    le_eb (snd (LZ_compress_finish e)) = Some eb' /\
    mb_at_stream_end (eb_mb eb') = true /\
    mb_dictionary_size (eb_mb eb') = size /\
    cb_buffer (re_cb (eb_renc eb')) 5 = re_header (eb_renc eb') 5 /\
    (forall i, i <> 5 -> re_header (eb_renc eb') i = re_header (eb_renc eb) i) /\
    size <= Lh_get_dictionary_size (re_header (eb_renc eb')) <= 2 ^ 29 /\
    (forall data2, 0 <= data2 5 < 256 -> size <= Lh_get_dictionary_size data2 ->
       Lh_get_dictionary_size (re_header (eb_renc eb')) <=
       Lh_get_dictionary_size data2) /\
    (written = 0 -> Lh_get_dictionary_size (re_header (eb_renc eb')) = 4096) /\
    cb_get (re_cb (eb_renc eb')) = cb_get cb /\
    cb_put (re_cb (eb_renc eb')) = cb_put cb /\
    (cb_get cb <= 5 < cb_put cb ->
     Cb_content (re_cb (eb_renc eb')) =
     firstn (Z.to_nat (5 - cb_get cb)) (Cb_content cb)
       ++ re_header (eb_renc eb') 5
          :: skipn (Z.to_nat (6 - cb_get cb)) (Cb_content cb)) /\
    (cb_get cb = 0 -> cb_put cb = 6 ->
     Cb_content (re_cb (eb_renc eb')) =
       firstn 5 (Cb_content cb) ++ [re_header (eb_renc eb') 5] /\
     Lh_get_dictionary_size (awrite (fun _ => 0) 0 (Cb_content (re_cb (eb_renc eb'))))
       = Lh_get_dictionary_size (re_header (eb_renc eb'))) /\
    (5 < cb_get cb <= cb_put cb ->
     Cb_content (re_cb (eb_renc eb')) = Cb_content cb).
Proof.
  intros Hv Hf Heb Hdp Hmp Hds Hwf written size cb.
  destruct (LZ_compress_finish_shrinks e eb Hv Hf Heb Hdp Hmp Hds)
    as (H0 & eb' & H1 & H2 & H3 & H4 & H5 & H6 & H7 & H8).
  destruct (LZ_compress_finish_output e eb Hv Hf Heb Hdp Hmp Hwf)
    as (eb2 & G1 & G2 & G3 & G4 & G5).
  rewrite H1 in G1. injection G1 as <-.
  fold cb in G2, G3, G4, G5.
  split; [exact H0 |]. exists eb'.
  split; [exact H1 |]. split; [exact H2 |]. split; [exact H3 |].
  split; [exact H4 |]. split; [exact H5 |]. split; [exact H6 |].
  split; [exact H7 |]. split; [exact H8 |]. split; [exact G2 |].
  split; [exact G3 |]. split; [exact G4 |]. split; [| exact G5].
  intros Hget Hput.
  assert (Hlen : length (Cb_content cb) = 6%nat).
  { unfold Cb_content. rewrite Cb_ring_length.
    rewrite (Cb_used_bytes_wf cb Hwf), Hget, Hput. reflexivity. }
  assert (Hc : Cb_content (re_cb (eb_renc eb')) =
               firstn 5 (Cb_content cb) ++ [re_header (eb_renc eb') 5]).
  { rewrite G4 by lia. rewrite Hget.
    change (Z.to_nat (5 - 0)) with 5%nat. change (Z.to_nat (6 - 0)) with 6%nat.
    rewrite (skipn_all2 (Cb_content cb)) by lia. reflexivity. }
  split; [exact Hc |].
  unfold Lh_get_dictionary_size.
  assert (Hcell : awrite (fun _ => 0) 0 (Cb_content (re_cb (eb_renc eb'))) 5
                  = re_header (eb_renc eb') 5).
  { unfold awrite. rewrite Hc, length_app, firstn_length_le by lia.
    cbn [length Nat.add]. change (0 <=? 5) with true.
    change (5 <? 0 + Z.of_nat (5 + 1)) with true. cbn [andb].
    change (Z.to_nat (5 - 0)) with 5%nat.
    rewrite app_nth2 by (rewrite firstn_length_le; lia).
    rewrite firstn_length_le by lia. reflexivity. }
  rewrite Hcell. reflexivity.
Qed.


Lemma opened_encoder_le_eb :
  le_eb (opened_encoder 65536 36) =
  Some (opened_encoder_base (opened_encoder 65536 36)).
Proof.
  unfold opened_encoder_base.
  destruct (le_eb (opened_encoder 65536 36)) eqn:E;
    [reflexivity | vm_compute in E; discriminate E].
Qed.

(** The header handed out before the encoder is finished advertises the
    64 KiB the encoder was opened with. *)
Lemma header_read_encoder_header :
  let r := Re_read_data (eb_renc (opened_encoder_base (opened_encoder 65536 36))) 6 in
  fst (fst r) = 6 /\ snd (fst r) = [76; 90; 73; 80; 1; 16] /\
  Lh_get_dictionary_size (awrite (fun _ => 0) 0 (snd (fst r))) = 65536.
Proof. vm_compute. repeat split; reflexivity. Qed.


(** * Further properties of the code *)

(** ** The member header and trailer *)

(** X1: [real_bits] returns the bit length of an [unsigned]: 0 for 0, and for
    a positive value the [n] in [1, 32] with [2^(n-1) <= value < 2^n]. *)
Theorem real_bits_bit_length (value : Z) :
  0 <= value < 2 ^ 32 ->
  (value = 0 -> real_bits value = 0) /\
  (0 < value ->
   1 <= real_bits value <= 32 /\
   2 ^ (real_bits value - 1) <= value < 2 ^ real_bits value).
Proof.
  intros Hv. split.
  - intros ->. reflexivity.
  - intros Hpos. pose proof (real_bits_spec value ltac:(lia)) as H.
    pose proof (real_bits_range value) as Hr.
    split; [| exact H].
    split; [| lia].
    destruct (Z_lt_dec (real_bits value) 1) as [Hlt | Hge]; [| lia].
    exfalso. destruct H as [_ H].
    assert (2 ^ real_bits value <= 2 ^ 0) by (apply Z.pow_le_mono_r; lia).
    change (2 ^ 0) with 1 in *. lia.
Qed.

Lemma real_bits_bit_length_witness :
  1 <= real_bits 4095 <= 32 /\
  2 ^ (real_bits 4095 - 1) <= 4095 < 2 ^ real_bits 4095.
Proof.
  apply (real_bits_bit_length 4095); [vm_compute; split; [discriminate | reflexivity] |].
  reflexivity.
Defined.

(** X2: [Lh_set_dictionary_size] refuses a size outside [4 KiB, 512 MiB]
    and leaves the header as it is; a size in the interval it accepts, and
    the header then decodes to a valid size.  A size that some header byte
    decodes to is coded exactly: setting it and reading it back returns it. *)
Theorem Lh_dictionary_size_round_trip (data : Lzip_header) (sz : Z) :
  (isvalid_ds sz = false -> Lh_set_dictionary_size data sz = (false, data)) /\
  (isvalid_ds sz = true ->
   fst (Lh_set_dictionary_size data sz) = true /\
   isvalid_ds (Lh_get_dictionary_size (snd (Lh_set_dictionary_size data sz))) = true /\
   (forall coded : Lzip_header,
      0 <= coded 5 < 256 -> Lh_get_dictionary_size coded = sz ->
      Lh_get_dictionary_size (snd (Lh_set_dictionary_size data sz)) = sz)).
Proof.
  split.
  - intros H. unfold Lh_set_dictionary_size. rewrite H. reflexivity.
  - intros H. pose proof (Lh_set_dictionary_size_get data sz H) as Hget.
    cbv zeta in Hget. destruct Hget as (_ & _ & Hge & Hmin).
    split; [rewrite Lh_set_dictionary_size_ok; exact H |].
    split.
    + unfold isvalid_ds in *. apply andb_true_iff in H. destruct H as [H1 H2].
      apply Z.leb_le in H1, H2. apply andb_true_iff.
      change max_dictionary_size with (2 ^ 29) in *.
      split; apply Z.leb_le; lia.
    + intros coded Hb Hc. specialize (Hmin coded Hb ltac:(lia)). lia.
Qed.

Lemma Lh_dictionary_size_round_trip_witness :
  Lh_set_dictionary_size (fun _ => 0) 100 = (false, fun _ => 0) /\
  Lh_get_dictionary_size (snd (Lh_set_dictionary_size (fun _ => 0) 327680)) = 327680.
Proof.
  split.
  - apply (Lh_dictionary_size_round_trip (fun _ => 0) 100). reflexivity.
  - destruct (Lh_dictionary_size_round_trip (fun _ => 0) 327680) as [_ H].
    destruct (H eq_refl) as (_ & _ & Hfix).
    apply (Hfix (aset (fun _ => 0) 5 0xD3)).
    + vm_compute. split; [discriminate | reflexivity].
    + reflexivity.
Defined.

(** The value of a field read by the loops of the [Lt_get] functions. *)
Lemma le_value_snoc (data : array) (lo : Z) (n : nat) :
  le_value data lo (S n) =
  le_value data lo n + data (lo + Z.of_nat n) * 256 ^ Z.of_nat n.
Proof.
  revert lo. induction n as [| n IH]; intros lo.
  - cbn [le_value]. change (Z.of_nat 0) with 0. rewrite !Z.add_0_r.
    change (256 ^ 0) with 1. lia.
  - change (le_value data lo (S (S n))) with
      (data lo + 256 * le_value data (lo + 1) (S n)).
    rewrite IH. cbn [le_value].
    replace (lo + 1 + Z.of_nat n) with (lo + Z.of_nat (S n)) by lia.
    rewrite (Nat2Z.inj_succ n), Z.pow_succ_r by lia. lia.
Qed.

Lemma le_value_range (data : array) (lo : Z) (n : nat) :
  (forall i, lo <= i < lo + Z.of_nat n -> 0 <= data i < 256) ->
  0 <= le_value data lo n < 256 ^ Z.of_nat n.
Proof.
  revert lo. induction n as [| n IH]; intros lo H.
  - cbn [le_value]. change (256 ^ Z.of_nat 0) with 1. lia.
  - cbn [le_value]. rewrite Nat2Z.inj_succ, Z.pow_succ_r by lia.
    pose proof (H lo ltac:(lia)).
    pose proof (IH (lo + 1) ltac:(intros i Hi; apply H; lia)). lia.
Qed.

Lemma le_value_ext (data data' : array) (lo : Z) (n : nat) :
  (forall i, lo <= i < lo + Z.of_nat n -> data' i = data i) ->
  le_value data' lo n = le_value data lo n.
Proof.
  revert lo. induction n as [| n IH]; intros lo H; [reflexivity |].
  cbn [le_value]. rewrite (H lo) by lia. rewrite (IH (lo + 1)); [reflexivity |].
  intros i Hi. apply H. lia.
Qed.

Lemma Lt_get_loop_le_value (w : Z) (n : nat) (data : Lzip_trailer) (lo tmp : Z) :
  0 < w ->
  Lt_get_loop (fun x => x mod 2 ^ w) n data (lo + Z.of_nat n - 1) tmp =
  (tmp * 256 ^ Z.of_nat n + le_value data lo n) mod 2 ^ w \/ n = O.
Proof.
  intros Hw. destruct n as [| n]; [right; reflexivity | left].
  revert tmp. induction n as [| n IH]; intros tmp.
  - cbn [Lt_get_loop le_value]. rewrite Z.shiftl_mul_pow2 by lia.
    change (2 ^ 8) with 256. change (256 ^ Z.of_nat 1) with 256.
    replace (lo + Z.of_nat 1 - 1) with lo by lia.
    rewrite Zplus_mod_idemp_l. f_equal. lia.
  - rewrite le_value_snoc.
    change (Lt_get_loop (fun x => x mod 2 ^ w) (S (S n)) data
              (lo + Z.of_nat (S (S n)) - 1) tmp)
      with (Lt_get_loop (fun x => x mod 2 ^ w) (S n) data
              (lo + Z.of_nat (S (S n)) - 1 - 1)
              (((Z.shiftl tmp 8) mod 2 ^ w
                + data (lo + Z.of_nat (S (S n)) - 1)) mod 2 ^ w)).
    replace (lo + Z.of_nat (S (S n)) - 1 - 1) with (lo + Z.of_nat (S n) - 1) by lia.
    replace (lo + Z.of_nat (S (S n)) - 1) with (lo + Z.of_nat (S n)) by lia.
    rewrite IH. rewrite Z.shiftl_mul_pow2 by lia. change (2 ^ 8) with 256.
    rewrite Zplus_mod_idemp_l.
    rewrite (Nat2Z.inj_succ (S n)), Z.pow_succ_r by lia.
    set (P := 256 ^ Z.of_nat (S n)). set (d := data (lo + Z.of_nat (S n))).
    set (v := le_value data lo (S n)). set (M := 2 ^ w).
    rewrite <- (Zplus_mod_idemp_l (((tmp * 256 + d) mod M) * P)).
    rewrite Zmult_mod_idemp_l, Zplus_mod_idemp_l.
    f_equal. lia.
Qed.

Lemma Lt_set_loop_frame (n : nat) (data : Lzip_trailer) (lo v i : Z) :
  i < lo \/ lo + Z.of_nat n <= i -> Lt_set_loop n data lo v i = data i.
Proof.
  revert data lo v. induction n as [| n IH]; intros data lo v H; [reflexivity |].
  cbn [Lt_set_loop]. rewrite IH by lia. unfold aset.
  destruct (i =? lo) eqn:E; [apply Z.eqb_eq in E; lia | reflexivity].
Qed.

Lemma Lt_set_loop_byte (n : nat) (data : Lzip_trailer) (lo v i : Z) :
  lo <= i < lo + Z.of_nat n -> 0 <= Lt_set_loop n data lo v i < 256.
Proof.
  revert data lo v. induction n as [| n IH]; intros data lo v H; [lia |].
  cbn [Lt_set_loop]. destruct (Z.eq_dec i lo) as [-> | Hne].
  - rewrite Lt_set_loop_frame by lia. unfold aset. rewrite Z.eqb_refl.
    apply u8_range.
  - apply IH. lia.
Qed.

Lemma Lt_set_loop_le_value (n : nat) (data : Lzip_trailer) (lo v : Z) :
  le_value (Lt_set_loop n data lo v) lo n = v mod 256 ^ Z.of_nat n.
Proof.
  revert data lo v. induction n as [| n IH]; intros data lo v.
  - cbn [le_value]. change (256 ^ Z.of_nat 0) with 1. rewrite Z.mod_1_r. reflexivity.
  - cbn [le_value Lt_set_loop]. rewrite IH.
    rewrite Lt_set_loop_frame by lia. unfold aset. rewrite Z.eqb_refl.
    rewrite Z.shiftr_div_pow2 by lia. unfold u8. change (2 ^ 8) with 256.
    rewrite Nat2Z.inj_succ, Z.pow_succ_r by lia.
    assert (HP : 0 < 256 ^ Z.of_nat n) by (apply Z.pow_pos_nonneg; lia).
    rewrite (Z.rem_mul_r v 256 (256 ^ Z.of_nat n)) by lia. reflexivity.
Qed.

(** X3: the three fields of a trailer are stored and read back unchanged: a
    CRC below [2^32] and two sizes below [2^64], set in any trailer, are
    what the [Lt_get] functions return; the 20 bytes written are bytes, and
    nothing outside them is touched. *)
Theorem Lt_set_get_round_trip (data : Lzip_trailer) (crc data_size member_size : Z) :
  0 <= crc < 2 ^ 32 -> 0 <= data_size < 2 ^ 64 -> 0 <= member_size < 2 ^ 64 ->
  let trailer :=
    Lt_set_member_size (Lt_set_data_size (Lt_set_data_crc data crc) data_size)
                       member_size in
  Lt_get_data_crc trailer = crc /\
  Lt_get_data_size trailer = data_size /\
  Lt_get_member_size trailer = member_size /\
  (forall i, 0 <= i < Lt_size -> 0 <= trailer i < 256) /\
  (forall i, i < 0 \/ Lt_size <= i -> trailer i = data i).
Proof.
  intros Hc Hd Hm trailer.
  assert (Hget32 : forall t, Lt_get_data_crc t = le_value t 0 4 mod 2 ^ 32).
  { intros t. unfold Lt_get_data_crc.
    destruct (Lt_get_loop_le_value 32 4 t 0 0 ltac:(lia)) as [H | H];
      [| discriminate].
    exact H. }
  assert (Hget64a : forall t, Lt_get_data_size t = le_value t 4 8 mod 2 ^ 64).
  { intros t. unfold Lt_get_data_size.
    destruct (Lt_get_loop_le_value 64 8 t 4 0 ltac:(lia)) as [H | H];
      [| discriminate].
    exact H. }
  assert (Hget64b : forall t, Lt_get_member_size t = le_value t 12 8 mod 2 ^ 64).
  { intros t. unfold Lt_get_member_size.
    destruct (Lt_get_loop_le_value 64 8 t 12 0 ltac:(lia)) as [H | H];
      [| discriminate].
    exact H. }
  subst trailer. unfold Lt_set_member_size, Lt_set_data_size, Lt_set_data_crc.
  split; [| split; [| split; [| split]]].
  - rewrite Hget32.
    rewrite (le_value_ext (Lt_set_loop 4 data 0 crc)).
    + rewrite Lt_set_loop_le_value. change (256 ^ Z.of_nat 4) with (2 ^ 32).
      rewrite Z.mod_mod by lia. apply Z.mod_small. exact Hc.
    + intros i Hi. rewrite !Lt_set_loop_frame by (cbn; lia). reflexivity.
  - rewrite Hget64a.
    rewrite (le_value_ext (Lt_set_loop 8 (Lt_set_loop 4 data 0 crc) 4 data_size)).
    + rewrite Lt_set_loop_le_value. change (256 ^ Z.of_nat 8) with (2 ^ 64).
      rewrite Z.mod_mod by lia. apply Z.mod_small. exact Hd.
    + intros i Hi. rewrite Lt_set_loop_frame by (cbn; lia). reflexivity.
  - rewrite Hget64b. rewrite Lt_set_loop_le_value.
    change (256 ^ Z.of_nat 8) with (2 ^ 64).
    rewrite Z.mod_mod by lia. apply Z.mod_small. exact Hm.
  - intros i Hi. change Lt_size with 20 in Hi.
    destruct (Z_lt_dec i 12) as [H12 | H12].
    + rewrite Lt_set_loop_frame by lia.
      destruct (Z_lt_dec i 4) as [H4 | H4].
      * rewrite Lt_set_loop_frame by lia. apply Lt_set_loop_byte. cbn. lia.
      * apply Lt_set_loop_byte. cbn. lia.
    + apply Lt_set_loop_byte. cbn. lia.
  - intros i Hi. change Lt_size with 20 in Hi.
    rewrite !Lt_set_loop_frame by (cbn; lia). reflexivity.
Qed.

Lemma Lt_set_get_round_trip_witness :
  let trailer :=
    Lt_set_member_size
      (Lt_set_data_size (Lt_set_data_crc (fun _ => 0) 0xD3D99E8B) 1) 37 in
  Lt_get_data_crc trailer = 0xD3D99E8B /\
  Lt_get_data_size trailer = 1 /\
  Lt_get_member_size trailer = 37.
Proof.
  pose proof (Lt_set_get_round_trip (fun _ => 0) 0xD3D99E8B 1 37
                ltac:(vm_compute; split; [discriminate | reflexivity])
                ltac:(vm_compute; split; [discriminate | reflexivity])
                ltac:(vm_compute; split; [discriminate | reflexivity])) as H.
  cbv zeta in H. destruct H as (H1 & H2 & H3 & _).
  cbv zeta. split; [exact H1 | split; [exact H2 | exact H3]].
Defined.

(** ** The circular buffer *)

Lemma awrite_in (a : array) (off : Z) (l : list Z) (x : Z) :
  off <= x < off + Z.of_nat (length l) ->
  awrite a off l x = nth (Z.to_nat (x - off)) l 0.
Proof.
  intros Hx. unfold awrite.
  destruct (off <=? x) eqn:E1; [| apply Z.leb_gt in E1; lia].
  destruct (x <? off + Z.of_nat (length l)) eqn:E2; [| apply Z.ltb_ge in E2; lia].
  reflexivity.
Qed.

Lemma awrite_out (a : array) (off : Z) (l : list Z) (x : Z) :
  x < off \/ off + Z.of_nat (length l) <= x -> awrite a off l x = a x.
Proof.
  intros Hx. unfold awrite.
  destruct (off <=? x) eqn:E1; [| reflexivity].
  destruct (x <? off + Z.of_nat (length l)) eqn:E2; [| reflexivity].
  apply Z.leb_le in E1. apply Z.ltb_lt in E2. lia.
Qed.

Lemma Cb_free_bytes_wf (cb : Circular_buffer) :
  Cb_wf cb ->
  Cb_free_bytes cb =
  if cb_get cb <=? cb_put cb then cb_buffer_size cb - cb_put cb + cb_get cb - 1
  else cb_get cb - cb_put cb - 1.
Proof.
  intros (Hs & Hg & Hp). unfold Cb_free_bytes.
  destruct (cb_get cb <=? cb_put cb) eqn:E.
  - apply Z.leb_le in E. apply u32_small. lia.
  - apply Z.leb_gt in E. rewrite u32_small by lia. lia.
Qed.

(** What [Cb_read_data] returns and leaves: the count, the bytes, and the
    buffer with [get] moved on. *)
Lemma Cb_read_data_spec (cb : Circular_buffer) (out_size : Z) :
  Cb_wf cb -> 0 <= out_size <= 0xFFFFFFFF ->
  let k := Z.min (Cb_used_bytes cb) out_size in
  Cb_read_data cb out_size =
  (k,
   Cb_ring (cb_buffer cb) (cb_buffer_size cb) (cb_get cb) (Z.to_nat k),
   cb_with_get cb ((cb_get cb + k) mod cb_buffer_size cb)).
Proof.
  intros Hwf Ho k. subst k. rewrite Cb_used_bytes_wf by exact Hwf.
  destruct cb as [buffer bs get put]. destruct Hwf as (Hs & Hg & Hp).
  cbn [cb_buffer cb_buffer_size cb_get cb_put] in *.
  unfold Cb_read_data, cb_with_get.
  cbn [cb_buffer cb_buffer_size cb_get cb_put].
  destruct (out_size =? 0) eqn:E0.
  { apply Z.eqb_eq in E0. subst out_size.
    destruct (get <=? put) eqn:E; [apply Z.leb_le in E | apply Z.leb_gt in E];
      rewrite Z.min_r by lia; rewrite Z.add_0_r, Z.mod_small by lia; reflexivity. }
  apply Z.eqb_neq in E0.
  destruct (put <? get) eqn:E1.
  - apply Z.ltb_lt in E1.
    destruct (get <=? put) eqn:E; [apply Z.leb_le in E; lia | clear E].
    rewrite (u32_small (bs - get)) by lia.
    set (size := Z.min (bs - get) out_size).
    assert (Hsize : 0 < size <= bs - get /\ size <= out_size) by (unfold size; lia).
    destruct (0 <? size) eqn:E2; [| apply Z.ltb_ge in E2; lia].
    rewrite (u32_small (get + size)) by lia.
    destruct (bs <=? get + size) eqn:E3.
    + apply Z.leb_le in E3. assert (Hsz : size = bs - get) by lia.
      cbn [cb_buffer cb_buffer_size cb_get cb_put].
      destruct (0 <? put) eqn:E4.
      * apply Z.ltb_lt in E4. rewrite Z.sub_0_r.
        rewrite (u32_small put), (u32_small (out_size - size)) by lia.
        set (size2 := Z.min put (out_size - size)).
        destruct (0 <? size2) eqn:E5.
        -- apply Z.ltb_lt in E5.
           assert (Hk : Z.min (bs + put - get) out_size = size + size2)
             by (unfold size2; lia).
           rewrite Hk. rewrite !(u32_small) by (unfold size2 in *; lia).
           f_equal; [f_equal |].
           ++ apply list_eq_nth.
              { rewrite length_app, !aread_length, Cb_ring_length. lia. }
              intros j Hj. rewrite length_app, !aread_length in Hj.
              rewrite app_nth_Z, aread_length by lia.
              rewrite Cb_ring_nth by lia.
              rewrite mod_wrap by lia.
              rewrite Z2Nat.id by lia.
              destruct (j <? size) eqn:E6.
              ** apply Z.ltb_lt in E6. rewrite aread_nth by lia.
                 destruct (get + j <? bs) eqn:E7; [reflexivity |].
                 apply Z.ltb_ge in E7. lia.
              ** apply Z.ltb_ge in E6. rewrite aread_nth by lia.
                 destruct (get + j <? bs) eqn:E7; [apply Z.ltb_lt in E7; lia |].
                 f_equal. lia.
           ++ f_equal. rewrite mod_wrap by (unfold size2 in *; lia).
              destruct (_ <? bs) eqn:E7; [apply Z.ltb_lt in E7; lia | lia].
        -- apply Z.ltb_ge in E5.
           assert (Hk : Z.min (bs + put - get) out_size = size)
             by (unfold size2 in *; lia).
           rewrite Hk. f_equal; [f_equal |].
           ++ symmetry. apply Cb_ring_aread; lia.
           ++ f_equal. rewrite Hsz. replace (get + (bs - get)) with bs by lia.
              rewrite Z.mod_same by lia. reflexivity.
      * apply Z.ltb_ge in E4. assert (put = 0) by lia. subst put.
        assert (Hk : Z.min (bs + 0 - get) out_size = size) by (unfold size; lia).
        rewrite Hk. f_equal; [f_equal |].
        -- symmetry. apply Cb_ring_aread; lia.
        -- f_equal. rewrite Hsz. replace (get + (bs - get)) with bs by lia.
           rewrite Z.mod_same by lia. reflexivity.
    + apply Z.leb_gt in E3. cbn [cb_buffer cb_buffer_size cb_get cb_put].
      destruct (get + size <? put) eqn:E4; [apply Z.ltb_lt in E4; lia |].
      assert (Hk : Z.min (bs + put - get) out_size = size) by (unfold size; lia).
      rewrite Hk. f_equal; [f_equal |].
      * symmetry. apply Cb_ring_aread; lia.
      * f_equal. rewrite Z.mod_small by lia. reflexivity.
  - apply Z.ltb_ge in E1.
    destruct (get <=? put) eqn:E; [clear E | apply Z.leb_gt in E; lia].
    cbn [cb_buffer cb_buffer_size cb_get cb_put].
    destruct (get <? put) eqn:E4.
    + apply Z.ltb_lt in E4. rewrite Z.sub_0_r.
      rewrite (u32_small (put - get)), (u32_small out_size) by lia.
      set (size2 := Z.min (put - get) out_size).
      destruct (0 <? size2) eqn:E5; [| apply Z.ltb_ge in E5; unfold size2 in E5; lia].
      apply Z.ltb_lt in E5. rewrite Z.add_0_l.
      rewrite !u32_small by (unfold size2 in *; lia).
      f_equal; [f_equal |].
      * cbn [app]. symmetry. apply Cb_ring_aread; unfold size2 in *; lia.
      * f_equal. rewrite Z.mod_small by (unfold size2 in *; lia). reflexivity.
    + apply Z.ltb_ge in E4. assert (put = get) by lia. subst put.
      rewrite Z.sub_diag. rewrite Z.min_l by lia.
      rewrite Z.add_0_r, Z.mod_small by lia. reflexivity.
Qed.

Lemma firstn_length_Z (l : list Z) (n : Z) :
  0 <= n <= Z.of_nat (length l) ->
  Z.of_nat (length (firstn (Z.to_nat n) l)) = n.
Proof. intros H. rewrite firstn_length_le by lia. lia. Qed.

Lemma firstn_skipn_length_Z (l : list Z) (m n : Z) :
  0 <= m -> 0 <= n -> m + n <= Z.of_nat (length l) ->
  Z.of_nat (length (firstn (Z.to_nat n) (skipn (Z.to_nat m) l))) = n.
Proof.
  intros Hm Hn H. rewrite firstn_length_le by (rewrite length_skipn; lia). lia.
Qed.

(** What [Cb_write_data] returns and leaves: the count, [put] moved on, and
    the bytes stored at the places from the old [put] on. *)
Lemma Cb_write_data_spec (cb : Circular_buffer) (l : list Z) (in_size : Z) :
  Cb_wf cb -> 0 <= in_size <= 0xFFFFFFFF -> in_size <= Z.of_nat (length l) ->
  let k := Z.min (Cb_free_bytes cb) in_size in
  let r := Cb_write_data cb l in_size in
  fst r = k /\
  cb_buffer_size (snd r) = cb_buffer_size cb /\
  cb_get (snd r) = cb_get cb /\
  cb_put (snd r) = (cb_put cb + k) mod cb_buffer_size cb /\
  (forall j, 0 <= j < k ->
     cb_buffer (snd r) ((cb_put cb + j) mod cb_buffer_size cb) =
     nth (Z.to_nat j) l 0) /\
  (forall x, (forall j, 0 <= j < k -> x <> (cb_put cb + j) mod cb_buffer_size cb) ->
     cb_buffer (snd r) x = cb_buffer cb x).
Proof.
  intros Hwf Ho Hl k r. subst k r. rewrite Cb_free_bytes_wf by exact Hwf.
  destruct cb as [buffer bs get put]. destruct Hwf as (Hs & Hg & Hp).
  cbn [cb_buffer cb_buffer_size cb_get cb_put] in *.
  unfold Cb_write_data, cb_with_put, cb_with_buffer.
  cbn [cb_buffer cb_buffer_size cb_get cb_put].
  destruct (in_size =? 0) eqn:E0.
  { apply Z.eqb_eq in E0. subst in_size. cbn [fst snd cb_buffer cb_buffer_size cb_get cb_put].
    assert (Hk : Z.min (if get <=? put then bs - put + get - 1 else get - put - 1) 0 = 0).
    { destruct (get <=? put) eqn:E; [apply Z.leb_le in E | apply Z.leb_gt in E]; lia. }
    rewrite Hk. rewrite Z.add_0_r, Z.mod_small by lia.
    repeat split; try reflexivity. intros j Hj. lia. }
  apply Z.eqb_neq in E0.
  destruct (get <=? put) eqn:E1.
  - apply Z.leb_le in E1.
    assert (Hb : 0 <= b2z (get =? 0) <= 1 /\ (b2z (get =? 0) = 1 <-> get = 0)).
    { destruct (get =? 0) eqn:E; [apply Z.eqb_eq in E | apply Z.eqb_neq in E];
        cbn [b2z]; lia. }
    set (z := b2z (get =? 0)) in *.
    rewrite (u32_small (bs - put - z)) by lia.
    set (size := Z.min (bs - put - z) in_size).
    destruct (0 <? size) eqn:E2.
    + apply Z.ltb_lt in E2.
      assert (Hsize : 0 < size <= bs - put - z /\ size <= in_size) by (unfold size; lia).
      rewrite (u32_small (put + size)) by lia.
      pose proof (firstn_length_Z l size ltac:(lia)) as Hlen1.
      destruct (bs <=? put + size) eqn:E3.
      * apply Z.leb_le in E3.
        assert (Hz : z = 0 /\ size = bs - put /\ 0 < get) by lia.
        destruct Hz as (Hz & Hsz & Hgpos).
        cbn [cb_buffer cb_buffer_size cb_get cb_put].
        destruct (0 <? get) eqn:E4; [clear E4 | apply Z.ltb_ge in E4; lia].
        rewrite Z.sub_0_r.
        rewrite (u32_small (get - 1)), (u32_small (in_size - size)) by lia.
        set (size2 := Z.min (get - 1) (in_size - size)).
        destruct (0 <? size2) eqn:E5.
        -- apply Z.ltb_lt in E5.
           assert (Hsize2 : 0 < size2 <= get - 1 /\ size2 <= in_size - size)
             by (unfold size2; lia).
           pose proof (firstn_skipn_length_Z l size size2 ltac:(lia) ltac:(lia)
                         ltac:(lia)) as Hlen2.
           assert (Hk : Z.min (bs - put + get - 1) in_size = size + size2)
             by (unfold size2; lia).
           rewrite Hk. cbn [fst snd cb_buffer cb_buffer_size cb_get cb_put].
           rewrite !u32_small by lia.
           split; [reflexivity |]. split; [reflexivity |]. split; [reflexivity |].
           split; [| split].
           ++ rewrite mod_wrap by lia.
              destruct (_ <? bs) eqn:E6; [apply Z.ltb_lt in E6; lia | lia].
           ++ intros j Hj. rewrite mod_wrap by lia.
              destruct (put + j <? bs) eqn:E6.
              ** apply Z.ltb_lt in E6.
                 rewrite awrite_out by lia.
                 rewrite awrite_in by lia.
                 rewrite firstn_nth_Z by lia. f_equal. lia.
              ** apply Z.ltb_ge in E6.
                 rewrite awrite_in by lia.
                 rewrite firstn_nth_Z by lia.
                 rewrite skipn_nth_Z by lia. f_equal. lia.
           ++ intros x Hx.
              assert (Hx1 : x < put \/ bs <= x).
              { destruct (Z_lt_dec x put) as [? | Hge]; [lia |].
                destruct (Z_le_dec bs x) as [? | Hlt]; [lia |].
                exfalso. apply (Hx (x - put)); [lia |].
                rewrite Z.mod_small by lia. lia. }
              assert (Hx2 : x < 0 \/ size2 <= x).
              { destruct (Z_lt_dec x 0) as [? | Hge]; [lia |].
                destruct (Z_le_dec size2 x) as [? | Hlt]; [lia |].
                exfalso. apply (Hx (x + size)); [lia |].
                rewrite mod_wrap by lia.
                destruct (_ <? bs) eqn:E6; [apply Z.ltb_lt in E6; lia | lia]. }
              rewrite awrite_out by lia. rewrite awrite_out by lia. reflexivity.
        -- apply Z.ltb_ge in E5.
           assert (Hk : Z.min (bs - put + get - 1) in_size = size)
             by (unfold size2 in *; lia).
           rewrite Hk. cbn [fst snd cb_buffer cb_buffer_size cb_get cb_put].
           split; [reflexivity |]. split; [reflexivity |]. split; [reflexivity |].
           split; [| split].
           ++ rewrite Hsz. replace (put + (bs - put)) with bs by lia.
              rewrite Z.mod_same by lia. reflexivity.
           ++ intros j Hj. rewrite Z.mod_small by lia.
              rewrite awrite_in by lia.
              rewrite firstn_nth_Z by lia. f_equal. lia.
           ++ intros x Hx.
              assert (Hx1 : x < put \/ bs <= x).
              { destruct (Z_lt_dec x put) as [? | Hge]; [lia |].
                destruct (Z_le_dec bs x) as [? | Hlt]; [lia |].
                exfalso. apply (Hx (x - put)); [lia |].
                rewrite Z.mod_small by lia. lia. }
              rewrite awrite_out by lia. reflexivity.
      * apply Z.leb_gt in E3.
        cbn [cb_buffer cb_buffer_size cb_get cb_put].
        destruct (put + size <? get) eqn:E4; [apply Z.ltb_lt in E4; lia | clear E4].
        assert (Hk : Z.min (bs - put + get - 1) in_size = size) by (unfold size; lia).
        rewrite Hk. cbn [fst snd cb_buffer cb_buffer_size cb_get cb_put].
        split; [reflexivity |]. split; [reflexivity |]. split; [reflexivity |].
        split; [| split].
        -- rewrite Z.mod_small by lia. reflexivity.
        -- intros j Hj. rewrite Z.mod_small by lia.
           rewrite awrite_in by lia.
           rewrite firstn_nth_Z by lia. f_equal. lia.
        -- intros x Hx.
           assert (Hx1 : x < put \/ put + size <= x).
           { destruct (Z_lt_dec x put) as [? | Hge]; [lia |].
             destruct (Z_le_dec (put + size) x) as [? | Hlt]; [lia |].
             exfalso. apply (Hx (x - put)); [lia |].
             rewrite Z.mod_small by lia. lia. }
           rewrite awrite_out by lia. reflexivity.
    + apply Z.ltb_ge in E2.
      assert (Hfull : put = bs - 1 /\ get = 0 /\ size = 0) by (unfold size in *; lia).
      destruct Hfull as (Hput & Hget & Hsz0).
      cbn [cb_buffer cb_buffer_size cb_get cb_put].
      destruct (put <? get) eqn:E4; [apply Z.ltb_lt in E4; lia | clear E4].
      assert (Hk : Z.min (bs - put + get - 1) in_size = 0) by lia.
      rewrite Hk, Hsz0. cbn [fst snd cb_buffer cb_buffer_size cb_get cb_put].
      rewrite Z.add_0_r, Z.mod_small by lia.
      repeat split; try reflexivity. intros j Hj. lia.
  - apply Z.leb_gt in E1.
    cbn [cb_buffer cb_buffer_size cb_get cb_put].
    destruct (put <? get) eqn:E4; [clear E4 | apply Z.ltb_ge in E4; lia].
    rewrite Z.sub_0_r.
    rewrite (u32_small (get - put - 1)), (u32_small in_size) by lia.
    set (size2 := Z.min (get - put - 1) in_size).
    destruct (0 <? size2) eqn:E5.
    + apply Z.ltb_lt in E5.
      assert (Hsize2 : 0 < size2 <= get - put - 1 /\ size2 <= in_size)
        by (unfold size2; lia).
      cbn [skipn Z.to_nat].
      pose proof (firstn_length_Z l size2 ltac:(lia)) as Hlen2.
      cbn [fst snd cb_buffer cb_buffer_size cb_get cb_put].
      rewrite Z.add_0_l. rewrite !u32_small by lia.
      split; [reflexivity |]. split; [reflexivity |]. split; [reflexivity |].
      split; [| split].
      * rewrite Z.mod_small by lia. reflexivity.
      * intros j Hj. fold size2 in Hj. rewrite Z.mod_small by lia.
        rewrite awrite_in by lia.
        rewrite firstn_nth_Z by lia. f_equal. lia.
      * intros x Hx. fold size2 in Hx.
        assert (Hx1 : x < put \/ put + size2 <= x).
        { destruct (Z_lt_dec x put) as [? | Hge]; [lia |].
          destruct (Z_le_dec (put + size2) x) as [? | Hlt]; [lia |].
          exfalso. apply (Hx (x - put)); [lia |].
          rewrite Z.mod_small by lia. lia. }
        rewrite awrite_out by lia. reflexivity.
    + apply Z.ltb_ge in E5.
      assert (Hsz0 : size2 = 0) by (unfold size2 in *; lia).
      cbn [fst snd cb_buffer cb_buffer_size cb_get cb_put].
      fold size2. rewrite Hsz0. rewrite Z.add_0_r, Z.mod_small by lia.
      repeat split; try reflexivity. intros j Hj. lia.
Qed.

Lemma Cb_ring_firstn (buffer : array) (bs s : Z) (n k : nat) :
  (k <= n)%nat -> firstn k (Cb_ring buffer bs s n) = Cb_ring buffer bs s k.
Proof.
  intros H. apply list_eq_nth.
  - rewrite firstn_length_le, Cb_ring_length by (rewrite Cb_ring_length; lia).
    reflexivity.
  - intros j Hj.
    rewrite firstn_length_le in Hj by (rewrite Cb_ring_length; lia).
    rewrite firstn_nth_Z by lia. rewrite !Cb_ring_nth by lia. reflexivity.
Qed.

Lemma Cb_ring_skipn (buffer : array) (bs s : Z) (n k : nat) :
  (k <= n)%nat ->
  skipn k (Cb_ring buffer bs s n) =
  Cb_ring buffer bs ((s + Z.of_nat k) mod bs) (n - k).
Proof.
  intros H. apply list_eq_nth.
  - rewrite length_skipn, !Cb_ring_length. reflexivity.
  - intros j Hj. rewrite length_skipn, Cb_ring_length in Hj.
    rewrite skipn_nth_Z by lia. rewrite !Cb_ring_nth by lia.
    rewrite Zplus_mod_idemp_l. f_equal. f_equal. lia.
Qed.

Lemma Cb_used_bytes_range (cb : Circular_buffer) :
  Cb_wf cb -> 0 <= Cb_used_bytes cb <= cb_buffer_size cb - 1.
Proof.
  intros Hwf. rewrite Cb_used_bytes_wf by exact Hwf.
  destruct Hwf as (Hs & Hg & Hp).
  destruct (cb_get cb <=? cb_put cb) eqn:E;
    [apply Z.leb_le in E | apply Z.leb_gt in E]; lia.
Qed.

Lemma Cb_used_free (cb : Circular_buffer) :
  Cb_wf cb -> Cb_used_bytes cb + Cb_free_bytes cb = cb_buffer_size cb - 1.
Proof.
  intros Hwf. rewrite Cb_used_bytes_wf, Cb_free_bytes_wf by exact Hwf.
  destruct (cb_get cb <=? cb_put cb); lia.
Qed.

Lemma Cb_put_index (cb : Circular_buffer) :
  Cb_wf cb ->
  cb_put cb = (cb_get cb + Cb_used_bytes cb) mod cb_buffer_size cb.
Proof.
  intros Hwf. rewrite Cb_used_bytes_wf by exact Hwf.
  destruct Hwf as (Hs & Hg & Hp).
  destruct (cb_get cb <=? cb_put cb) eqn:E;
    [apply Z.leb_le in E | apply Z.leb_gt in E];
    rewrite mod_wrap by lia;
    destruct (_ <? cb_buffer_size cb) eqn:E1;
    [apply Z.ltb_lt in E1 | apply Z.ltb_ge in E1 | apply Z.ltb_lt in E1
     | apply Z.ltb_ge in E1]; lia.
Qed.

Lemma Cb_read_data_content (cb : Circular_buffer) (out_size : Z) :
  Cb_wf cb -> 0 <= out_size <= 0xFFFFFFFF ->
  let k := Z.min (Cb_used_bytes cb) out_size in
  let r := Cb_read_data cb out_size in
  fst (fst r) = k /\
  snd (fst r) = firstn (Z.to_nat k) (Cb_content cb) /\
  Cb_wf (snd r) /\
  Cb_used_bytes (snd r) = Cb_used_bytes cb - k /\
  Cb_content (snd r) = skipn (Z.to_nat k) (Cb_content cb) /\
  cb_buffer (snd r) = cb_buffer cb /\ cb_put (snd r) = cb_put cb /\
  cb_buffer_size (snd r) = cb_buffer_size cb.
Proof.
  intros Hwf Ho k r. subst r.
  pose proof (Cb_read_data_spec cb out_size Hwf Ho) as Hspec.
  cbv zeta in Hspec. fold k in Hspec. rewrite Hspec. cbn [fst snd].
  pose proof (Cb_used_bytes_range cb Hwf) as Hu.
  pose proof (Cb_used_bytes_wf cb Hwf) as Hused.
  pose proof Hwf as (Hs & Hg & Hp).
  assert (Hk : 0 <= k <= Cb_used_bytes cb) by (unfold k; lia).
  pose proof (Z.mod_pos_bound (cb_get cb + k) (cb_buffer_size cb) ltac:(lia)) as Hm.
  assert (Hwf' : Cb_wf (cb_with_get cb ((cb_get cb + k) mod cb_buffer_size cb))).
  { unfold Cb_wf, cb_with_get. cbn [cb_buffer_size cb_get cb_put]. lia. }
  assert (Hused' :
    Cb_used_bytes (cb_with_get cb ((cb_get cb + k) mod cb_buffer_size cb)) =
    Cb_used_bytes cb - k).
  { rewrite (Cb_used_bytes_wf _ Hwf'). unfold cb_with_get.
    cbn [cb_buffer_size cb_get cb_put]. rewrite Hused in *.
    rewrite mod_wrap in * by lia.
    destruct (cb_get cb <=? cb_put cb) eqn:E;
      [apply Z.leb_le in E | apply Z.leb_gt in E];
      destruct (cb_get cb + k <? cb_buffer_size cb) eqn:E1;
      try apply Z.ltb_lt in E1; try apply Z.ltb_ge in E1;
      match goal with |- context [?a <=? ?b] => destruct (a <=? b) eqn:E2 end;
      try apply Z.leb_le in E2; try apply Z.leb_gt in E2; lia. }
  split; [reflexivity |]. split.
  { unfold Cb_content. rewrite Cb_ring_firstn by lia. reflexivity. }
  split; [exact Hwf' |]. split; [exact Hused' |]. split.
  { unfold Cb_content. rewrite Hused'. unfold cb_with_get.
    cbn [cb_buffer cb_buffer_size cb_get cb_put].
    rewrite Cb_ring_skipn by lia. rewrite Z2Nat.id by lia.
    f_equal. lia. }
  repeat split; reflexivity.
Qed.

(** A buffer whose [put] has moved on by [k <= free] places, with [new]
    stored at those places and nothing else changed, holds [new] after what
    it held. *)
Lemma Cb_appended (cb cb' : Circular_buffer) (new : list Z) :
  Cb_wf cb -> Z.of_nat (length new) <= Cb_free_bytes cb ->
  cb_buffer_size cb' = cb_buffer_size cb ->
  cb_get cb' = cb_get cb ->
  cb_put cb' = (cb_put cb + Z.of_nat (length new)) mod cb_buffer_size cb ->
  (forall j, 0 <= j < Z.of_nat (length new) ->
     cb_buffer cb' ((cb_put cb + j) mod cb_buffer_size cb) =
     nth (Z.to_nat j) new 0) ->
  (forall x, (forall j, 0 <= j < Z.of_nat (length new) ->
                x <> (cb_put cb + j) mod cb_buffer_size cb) ->
     cb_buffer cb' x = cb_buffer cb x) ->
  Cb_wf cb' /\
  Cb_used_bytes cb' = Cb_used_bytes cb + Z.of_nat (length new) /\
  Cb_content cb' = Cb_content cb ++ new.
Proof.
  intros Hwf Hk Hbs Hget Hput Hin Hout.
  set (k := Z.of_nat (length new)) in *.
  pose proof (Cb_used_bytes_range cb Hwf) as Hu.
  pose proof (Cb_used_free cb Hwf) as Huf.
  pose proof (Cb_put_index cb Hwf) as Hpi.
  pose proof (Cb_used_bytes_wf cb Hwf) as Hused.
  pose proof Hwf as (Hs & Hg & Hp).
  assert (Hk0 : 0 <= k) by (unfold k; lia).
  pose proof (Z.mod_pos_bound (cb_put cb + k) (cb_buffer_size cb) ltac:(lia)) as Hm.
  assert (Hwf' : Cb_wf cb').
  { unfold Cb_wf. rewrite Hbs, Hget, Hput. lia. }
  assert (Hused' : Cb_used_bytes cb' = Cb_used_bytes cb + k).
  { rewrite (Cb_used_bytes_wf _ Hwf'). rewrite Hbs, Hget, Hput.
    rewrite Hused in *. rewrite mod_wrap in * by lia.
    destruct (cb_get cb <=? cb_put cb) eqn:E;
      [apply Z.leb_le in E | apply Z.leb_gt in E];
      destruct (cb_put cb + k <? cb_buffer_size cb) eqn:E1;
      try apply Z.ltb_lt in E1; try apply Z.ltb_ge in E1;
      match goal with |- context [?a <=? ?b] => destruct (a <=? b) eqn:E2 end;
      try apply Z.leb_le in E2; try apply Z.leb_gt in E2; lia. }
  split; [exact Hwf' |]. split; [exact Hused' |].
  unfold Cb_content. rewrite Hused', Hbs, Hget.
  set (bs := cb_buffer_size cb) in *. set (used := Cb_used_bytes cb) in *.
  apply list_eq_nth.
  - rewrite length_app, !Cb_ring_length. fold k. lia.
  - intros j Hj. rewrite Cb_ring_length in Hj.
    rewrite app_nth_Z, Cb_ring_length by lia.
    rewrite Cb_ring_nth by lia.
    destruct (j <? Z.of_nat (Z.to_nat used)) eqn:E.
    + apply Z.ltb_lt in E. rewrite Cb_ring_nth by lia.
      apply Hout. intros j' Hj' Heq. fold bs in Heq.
      rewrite Hpi in Heq. fold bs used in Heq.
      rewrite Zplus_mod_idemp_l in Heq.
      rewrite (mod_wrap (cb_get cb + j)), (mod_wrap (cb_get cb + used + j')) in Heq
        by lia.
      destruct (cb_get cb + j <? bs) eqn:E1;
        [apply Z.ltb_lt in E1 | apply Z.ltb_ge in E1];
        destruct (cb_get cb + used + j' <? bs) eqn:E2;
        try apply Z.ltb_lt in E2; try apply Z.ltb_ge in E2; lia.
    + apply Z.ltb_ge in E.
      rewrite <- (Hin (j - Z.of_nat (Z.to_nat used))) by lia. fold bs.
      f_equal. rewrite Hpi. fold bs used.
      rewrite Zplus_mod_idemp_l. f_equal. lia.
Qed.

Lemma Cb_write_data_content (cb : Circular_buffer) (l : list Z) (in_size : Z) :
  Cb_wf cb -> 0 <= in_size <= 0xFFFFFFFF -> in_size <= Z.of_nat (length l) ->
  let k := Z.min (Cb_free_bytes cb) in_size in
  let r := Cb_write_data cb l in_size in
  fst r = k /\
  Cb_wf (snd r) /\
  Cb_used_bytes (snd r) = Cb_used_bytes cb + k /\
  Cb_content (snd r) = Cb_content cb ++ firstn (Z.to_nat k) l /\
  cb_get (snd r) = cb_get cb /\ cb_buffer_size (snd r) = cb_buffer_size cb.
Proof.
  intros Hwf Ho Hl k r.
  pose proof (Cb_write_data_spec cb l in_size Hwf Ho Hl) as Hspec.
  cbv zeta in Hspec. fold k r in Hspec.
  destruct Hspec as (Hcount & Hbs & Hget & Hput & Hin & Hout).
  pose proof (Cb_used_free cb Hwf) as Huf.
  pose proof (Cb_used_bytes_range cb Hwf) as Hu.
  assert (Hk : 0 <= k <= Cb_free_bytes cb /\ k <= in_size) by (unfold k; lia).
  assert (Hlen : Z.of_nat (length (firstn (Z.to_nat k) l)) = k)
    by (apply firstn_length_Z; lia).
  destruct (Cb_appended cb (snd r) (firstn (Z.to_nat k) l) Hwf) as (H1 & H2 & H3).
  - rewrite Hlen. lia.
  - exact Hbs.
  - exact Hget.
  - rewrite Hlen. exact Hput.
  - intros j Hj. rewrite Hlen in Hj. rewrite Hin by lia.
    rewrite firstn_nth_Z by lia. reflexivity.
  - intros x Hx. apply Hout. intros j Hj. apply Hx. rewrite Hlen. lia.
  - rewrite Hlen in H2.
    split; [exact Hcount |]. split; [exact H1 |]. split; [exact H2 |].
    split; [exact H3 |]. split; assumption.
Qed.

(** X4: [Cb_write_data] stores as many of the bytes offered as fit,
    [min(free bytes, in_size)], after the bytes the buffer holds, and
    overwrites none of them. *)
Theorem Cb_write_data_appends (cb : Circular_buffer) (l : list Z) (in_size : Z) :
  Cb_wf cb -> 0 <= in_size <= 0xFFFFFFFF -> in_size <= Z.of_nat (length l) ->
  let k := Z.min (Cb_free_bytes cb) in_size in
  fst (Cb_write_data cb l in_size) = k /\
  Cb_wf (snd (Cb_write_data cb l in_size)) /\
  Cb_used_bytes (snd (Cb_write_data cb l in_size)) = Cb_used_bytes cb + k /\
  Cb_content (snd (Cb_write_data cb l in_size)) =
    Cb_content cb ++ firstn (Z.to_nat k) l.
Proof.
  intros Hwf Ho Hl k.
  destruct (Cb_write_data_content cb l in_size Hwf Ho Hl) as (H1 & H2 & H3 & H4 & _).
  split; [exact H1 |]. split; [exact H2 |]. split; [exact H3 | exact H4].
Qed.

(** X5: [Cb_read_data] hands out the oldest [min(used bytes, out_size)]
    bytes of the buffer in the order they were written and keeps the rest;
    the block and [put] are not touched. *)
Theorem Cb_read_data_takes_oldest (cb : Circular_buffer) (out_size : Z) :
  Cb_wf cb -> 0 <= out_size <= 0xFFFFFFFF ->
  let k := Z.min (Cb_used_bytes cb) out_size in
  fst (fst (Cb_read_data cb out_size)) = k /\
  snd (fst (Cb_read_data cb out_size)) = firstn (Z.to_nat k) (Cb_content cb) /\
  Cb_wf (snd (Cb_read_data cb out_size)) /\
  Cb_content (snd (Cb_read_data cb out_size)) = skipn (Z.to_nat k) (Cb_content cb) /\
  cb_buffer (snd (Cb_read_data cb out_size)) = cb_buffer cb /\
  cb_put (snd (Cb_read_data cb out_size)) = cb_put cb.
Proof.
  intros Hwf Ho k.
  destruct (Cb_read_data_content cb out_size Hwf Ho)
    as (H1 & H2 & H3 & _ & H5 & H6 & H7 & _).
  split; [exact H1 |]. split; [exact H2 |]. split; [exact H3 |].
  split; [exact H5 |]. split; [exact H6 | exact H7].
Qed.

Lemma Cb_write_data_appends_witness :
  let cb := mkCb (fun _ => 0) 8 6 6 in
  let k := Z.min (Cb_free_bytes cb) 5 in
  fst (Cb_write_data cb [1; 2; 3; 4; 5] 5) = k /\
  Cb_wf (snd (Cb_write_data cb [1; 2; 3; 4; 5] 5)) /\
  Cb_used_bytes (snd (Cb_write_data cb [1; 2; 3; 4; 5] 5)) = Cb_used_bytes cb + k /\
  Cb_content (snd (Cb_write_data cb [1; 2; 3; 4; 5] 5)) =
    Cb_content cb ++ firstn (Z.to_nat k) [1; 2; 3; 4; 5].
Proof.
  apply (Cb_write_data_appends (mkCb (fun _ => 0) 8 6 6) [1; 2; 3; 4; 5] 5).
  - unfold Cb_wf. cbn [cb_buffer_size cb_get cb_put]. lia.
  - lia.
  - cbn [length]. lia.
Defined.

Lemma Cb_read_data_takes_oldest_witness :
  let cb := mkCb (awrite (fun _ => 0) 0 [3; 4; 5; 0; 0; 0; 1; 2]) 8 6 3 in
  let k := Z.min (Cb_used_bytes cb) 4 in
  fst (fst (Cb_read_data cb 4)) = k /\
  snd (fst (Cb_read_data cb 4)) = firstn (Z.to_nat k) (Cb_content cb) /\
  Cb_wf (snd (Cb_read_data cb 4)) /\
  Cb_content (snd (Cb_read_data cb 4)) = skipn (Z.to_nat k) (Cb_content cb) /\
  cb_buffer (snd (Cb_read_data cb 4)) = cb_buffer cb /\
  cb_put (snd (Cb_read_data cb 4)) = cb_put cb.
Proof.
  apply (Cb_read_data_takes_oldest
           (mkCb (awrite (fun _ => 0) 0 [3; 4; 5; 0; 0; 0; 1; 2]) 8 6 3) 4).
  - unfold Cb_wf. cbn [cb_buffer_size cb_get cb_put]. lia.
  - lia.
Defined.

Lemma Cb_unread_after_read (cb : Circular_buffer) (out_size : Z) :
  Cb_wf cb -> 0 <= out_size <= 0xFFFFFFFF ->
  Cb_unread_data (snd (Cb_read_data cb out_size))
                 (fst (fst (Cb_read_data cb out_size))) = (true, cb).
Proof.
  intros Hwf Ho.
  destruct (Cb_read_data_content cb out_size Hwf Ho)
    as (_ & _ & Hwf' & Hused' & _).
  pose proof (Cb_used_free _ Hwf') as Huf'.
  pose proof (Cb_used_bytes_range cb Hwf) as Hu.
  rewrite (Cb_read_data_spec cb out_size Hwf Ho) in *. cbn [fst snd] in *.
  set (k := Z.min (Cb_used_bytes cb) out_size) in *.
  assert (Hk : 0 <= k <= Cb_used_bytes cb) by (unfold k; lia).
  unfold Cb_unread_data.
  destruct (Cb_free_bytes _ <? k) eqn:E.
  { apply Z.ltb_lt in E.
    change (cb_buffer_size (cb_with_get cb ((cb_get cb + k) mod cb_buffer_size cb)))
      with (cb_buffer_size cb) in Huf'.
    lia. }
  clear E Huf' Hused' Hwf'.
  destruct cb as [buffer bs get put]. destruct Hwf as (Hs & Hg & Hp).
  unfold cb_with_get. cbn [cb_buffer cb_buffer_size cb_get cb_put] in *.
  rewrite mod_wrap by lia.
  destruct (get + k <? bs) eqn:E1;
    [apply Z.ltb_lt in E1 | apply Z.ltb_ge in E1].
  - destruct (k <=? get + k) eqn:E2; [| apply Z.leb_gt in E2; lia].
    rewrite u32_small by lia. do 2 f_equal. lia.
  - destruct (k <=? get + k - bs) eqn:E2; [apply Z.leb_le in E2; lia |].
    rewrite u32_small by lia. do 2 f_equal. lia.
Qed.

(** X6: [Cb_unread_data] takes back what [Cb_read_data] has just handed
    out: called with the count that was read, it succeeds and the buffer is
    again as it was before the read. *)
Theorem Cb_unread_data_undoes_read (cb : Circular_buffer) (out_size : Z) :
  Cb_wf cb -> 0 <= out_size <= 0xFFFFFFFF ->
  Cb_unread_data (snd (Cb_read_data cb out_size))
                 (fst (fst (Cb_read_data cb out_size))) = (true, cb).
Proof. exact (Cb_unread_after_read cb out_size). Qed.

Lemma Cb_unread_data_undoes_read_witness :
  let cb := mkCb (awrite (fun _ => 0) 0 [3; 4; 5; 0; 0; 0; 1; 2]) 8 6 3 in
  Cb_unread_data (snd (Cb_read_data cb 4)) (fst (fst (Cb_read_data cb 4))) =
  (true, cb).
Proof.
  apply (Cb_unread_data_undoes_read
           (mkCb (awrite (fun _ => 0) 0 [3; 4; 5; 0; 0; 0; 1; 2]) 8 6 3) 4).
  - unfold Cb_wf. cbn [cb_buffer_size cb_get cb_put]. lia.
  - lia.
Defined.

(** X7: [Cb_init] succeeds exactly when [malloc] does and [buf_size + 1],
    as an [unsigned], exceeds 1: sizes 0 and [0xFFFFFFFF] are refused.  The
    buffer it sets up is empty and has room for [buf_size] bytes. *)
Theorem Cb_init_capacity (block : option array) (buf_size : Z) :
  0 <= buf_size <= 0xFFFFFFFF ->
  (Cb_init block buf_size = None <->
   block = None \/ buf_size = 0 \/ buf_size = 0xFFFFFFFF) /\
  (forall cb, Cb_init block buf_size = Some cb ->
     Cb_wf cb /\ Cb_empty cb = true /\ Cb_content cb = [] /\
     Cb_free_bytes cb = buf_size).
Proof.
  intros Hb. unfold Cb_init. cbv zeta.
  assert (Hu : u32 (buf_size + 1) =
               if buf_size =? 0xFFFFFFFF then 0 else buf_size + 1).
  { destruct (buf_size =? 0xFFFFFFFF) eqn:E.
    - apply Z.eqb_eq in E. subst buf_size. reflexivity.
    - apply Z.eqb_neq in E. apply u32_small. lia. }
  rewrite Hu.
  destruct (buf_size =? 0xFFFFFFFF) eqn:E;
    [apply Z.eqb_eq in E | apply Z.eqb_neq in E].
  - change (1 <? 0) with false. cbv iota. split; [| discriminate].
    split; [intros _; right; right; exact E | reflexivity].
  - destruct (1 <? buf_size + 1) eqn:E1;
      [apply Z.ltb_lt in E1 | apply Z.ltb_ge in E1].
    + destruct block as [buffer |].
      * split.
        { split; [discriminate | intros [H | [H | H]]; [discriminate | lia | lia]]. }
        intros cb H. injection H as <-.
        assert (Hwf : Cb_wf (mkCb buffer (buf_size + 1) 0 0)).
        { unfold Cb_wf. cbn [cb_buffer_size cb_get cb_put]. lia. }
        split; [exact Hwf |]. split; [reflexivity |]. split; [reflexivity |].
        rewrite (Cb_free_bytes_wf _ Hwf). cbn [cb_buffer_size cb_get cb_put].
        change (0 <=? 0) with true. cbv iota. lia.
      * split; [| discriminate]. split; [intros _; left; reflexivity | reflexivity].
    + split; [| discriminate].
      split; [intros _; right; left; lia | reflexivity].
Qed.

Lemma Cb_init_capacity_witness :
  (Cb_init (Some fresh_block) 0xFFFFFFFF = None <->
   Some fresh_block = None \/ 0xFFFFFFFF = 0 \/ 0xFFFFFFFF = 0xFFFFFFFF) /\
  (forall cb, Cb_init (Some fresh_block) 0xFFFFFFFF = Some cb ->
     Cb_wf cb /\ Cb_empty cb = true /\ Cb_content cb = [] /\
     Cb_free_bytes cb = 0xFFFFFFFF).
Proof. apply (Cb_init_capacity (Some fresh_block) 0xFFFFFFFF). lia. Defined.

(** ** The range decoder and its input buffer *)

Lemma Cb_get_byte_content (cb : Circular_buffer) :
  Cb_wf cb -> 0 < Cb_used_bytes cb ->
  fst (Cb_get_byte cb) = nth 0 (Cb_content cb) 0 /\
  Cb_wf (snd (Cb_get_byte cb)) /\
  Cb_used_bytes (snd (Cb_get_byte cb)) = Cb_used_bytes cb - 1 /\
  Cb_content (snd (Cb_get_byte cb)) = skipn 1 (Cb_content cb) /\
  cb_buffer (snd (Cb_get_byte cb)) = cb_buffer cb /\
  cb_put (snd (Cb_get_byte cb)) = cb_put cb /\
  cb_buffer_size (snd (Cb_get_byte cb)) = cb_buffer_size cb.
Proof.
  intros Hwf Hu.
  pose proof (Cb_used_bytes_range cb Hwf) as Hur.
  assert (Hrd : snd (Cb_get_byte cb) = snd (Cb_read_data cb 1)).
  { rewrite (Cb_read_data_spec cb 1 Hwf ltac:(lia)). cbn [snd].
    rewrite Z.min_r by lia. unfold Cb_get_byte. cbv zeta. cbn [snd].
    destruct Hwf as (Hs & Hg & Hp). rewrite u32_small by lia.
    f_equal. rewrite mod_wrap by lia.
    destruct (cb_buffer_size cb <=? cb_get cb + 1) eqn:E1;
      destruct (cb_get cb + 1 <? cb_buffer_size cb) eqn:E2;
      try apply Z.leb_le in E1; try apply Z.leb_gt in E1;
      try apply Z.ltb_lt in E2; try apply Z.ltb_ge in E2; lia. }
  destruct (Cb_read_data_content cb 1 Hwf ltac:(lia))
    as (_ & _ & H3 & H4 & H5 & H6 & H7 & H8).
  rewrite Z.min_r in * by lia. rewrite Hrd.
  split.
  { unfold Cb_get_byte. cbv zeta. cbn [fst]. unfold Cb_content.
    replace (Z.to_nat 0) with O by reflexivity.
    change O with (Z.to_nat 0). rewrite Cb_ring_nth by lia.
    destruct Hwf as (Hs & Hg & Hp).
    rewrite Z.add_0_r, Z.mod_small by lia. reflexivity. }
  repeat (split; [assumption |]). assumption.
Qed.

Lemma Cb_put_byte_content (cb : Circular_buffer) (b : Z) :
  Cb_wf cb -> 0 < Cb_free_bytes cb ->
  Cb_wf (Cb_put_byte cb b) /\
  Cb_used_bytes (Cb_put_byte cb b) = Cb_used_bytes cb + 1 /\
  Cb_content (Cb_put_byte cb b) = Cb_content cb ++ [u8 b] /\
  cb_get (Cb_put_byte cb b) = cb_get cb /\
  cb_buffer_size (Cb_put_byte cb b) = cb_buffer_size cb.
Proof.
  intros Hwf Hf. pose proof Hwf as (Hs & Hg & Hp).
  assert (Hput : cb_put (Cb_put_byte cb b) = (cb_put cb + 1) mod cb_buffer_size cb).
  { unfold Cb_put_byte. cbv zeta. unfold cb_with_put, cb_with_buffer.
    cbn [cb_buffer cb_buffer_size cb_get cb_put].
    rewrite u32_small by lia. rewrite mod_wrap by lia.
    destruct (cb_buffer_size cb <=? cb_put cb + 1) eqn:E1;
      destruct (cb_put cb + 1 <? cb_buffer_size cb) eqn:E2;
      try apply Z.leb_le in E1; try apply Z.leb_gt in E1;
      try apply Z.ltb_lt in E2; try apply Z.ltb_ge in E2; lia. }
  assert (Hbuf : cb_buffer (Cb_put_byte cb b) =
                 aset (cb_buffer cb) (cb_put cb) (u8 b)) by reflexivity.
  destruct (Cb_appended cb (Cb_put_byte cb b) [u8 b] Hwf) as (H1 & H2 & H3).
  - cbn [length]. lia.
  - reflexivity.
  - reflexivity.
  - exact Hput.
  - intros j Hj. cbn [length] in Hj. assert (j = 0) by lia. subst j.
    rewrite Z.add_0_r, Z.mod_small by lia. rewrite Hbuf. unfold aset.
    rewrite Z.eqb_refl. reflexivity.
  - intros x Hx. rewrite Hbuf. unfold aset.
    destruct (x =? cb_put cb) eqn:E; [| reflexivity].
    apply Z.eqb_eq in E. exfalso. apply (Hx 0); [cbn [length]; lia |].
    rewrite Z.add_0_r, Z.mod_small by lia. exact E.
  - cbn [length] in H2. split; [exact H1 |]. split; [exact H2 |].
    split; [exact H3 |]. split; reflexivity.
Qed.

Lemma Cb_empty_used (cb : Circular_buffer) :
  Cb_wf cb -> (Cb_empty cb = true <-> Cb_used_bytes cb = 0).
Proof.
  intros Hwf. rewrite Cb_used_bytes_wf by exact Hwf.
  destruct Hwf as (Hs & Hg & Hp). unfold Cb_empty. rewrite Z.eqb_eq.
  destruct (cb_get cb <=? cb_put cb) eqn:E;
    [apply Z.leb_le in E | apply Z.leb_gt in E]; lia.
Qed.

Lemma Rd_get_byte_content (rdec : Range_decoder) :
  Cb_wf (rd_cb rdec) -> 0 < Rd_available_bytes rdec ->
  fst (Rd_get_byte rdec) = nth 0 (Cb_content (rd_cb rdec)) 0 /\
  snd (Rd_get_byte rdec) =
    rd_with_cb (rd_with_member_position rdec (u64 (rd_member_position rdec + 1)))
               (snd (Cb_get_byte (rd_cb rdec))).
Proof.
  intros Hwf Hu. unfold Rd_available_bytes in Hu. unfold Rd_get_byte, Rd_finished.
  assert (E : Cb_empty (rd_cb rdec) = false).
  { destruct (Cb_empty (rd_cb rdec)) eqn:E; [| reflexivity].
    apply (Cb_empty_used _ Hwf) in E. lia. }
  rewrite E, andb_false_r.
  destruct (Cb_get_byte_content (rd_cb rdec) Hwf Hu) as (H1 & _).
  cbn [rd_cb rd_with_member_position].
  destruct (Cb_get_byte (rd_cb rdec)) as [b cb]. cbn [fst snd] in *.
  split; [exact H1 | reflexivity].
Qed.



Lemma lor_byte (c b : Z) :
  0 <= b < 256 -> Z.lor (u32 (Z.shiftl c 8)) b = u32 (c * 256 + b).
Proof.
  intros Hb. unfold u32. rewrite Z.shiftl_mul_pow2 by lia. change (2 ^ 8) with 256.
  change (2 ^ 32) with (16777216 * 256).
  rewrite Z.mul_mod_distr_r by lia.
  set (q := c mod 16777216).
  assert (Hq : 0 <= q < 16777216) by (apply Z.mod_pos_bound; lia).
  assert (Hland : Z.land (q * 256) b = 0).
  { apply Z.bits_inj'. intros n Hn. rewrite Z.land_spec, Z.bits_0.
    destruct (Z_lt_dec n 8) as [Hlt | Hge].
    - change 256 with (2 ^ 8). rewrite Z.mul_pow2_bits_low by lia. reflexivity.
    - rewrite (Z.bits_above_log2 b n); [apply andb_false_r | lia |].
      destruct (Z.eq_dec b 0) as [-> | Hnz]; [cbn; lia |].
      assert (Z.log2 b < 8) by (apply Z.log2_lt_pow2; [lia | exact (proj2 Hb)]).
      lia. }
  rewrite <- Z.lxor_lor by exact Hland.
  rewrite <- Z.add_nocarry_lxor by exact Hland.
  symmetry.
  replace (c * 256 + b) with (b + c * 256) by lia.
  rewrite <- Z.add_mod_idemp_r by lia.
  change (16777216 * 256) with (16777216 * 256).
  rewrite (Z.mul_mod_distr_r c 16777216 256) by lia. fold q.
  rewrite Z.mod_small by lia. lia.
Qed.

Lemma fold_code_u32 (l : list Z) (x y : Z) :
  u32 x = u32 y ->
  u32 (fold_left (fun acc b => acc * 256 + b) l x) =
  u32 (fold_left (fun acc b => acc * 256 + b) l y).
Proof.
  revert x y. induction l as [| b l IH]; intros x y H; [exact H |].
  cbn [fold_left]. apply IH. unfold u32 in *.
  rewrite <- (Z.add_mod_idemp_l (x * 256)), <- (Z.add_mod_idemp_l (y * 256)) by lia.
  rewrite <- (Z.mul_mod_idemp_l x), <- (Z.mul_mod_idemp_l y) by lia.
  rewrite H. reflexivity.
Qed.

Lemma u32_u32 (x : Z) : u32 (u32 x) = u32 x.
Proof. unfold u32. apply Z.mod_mod. lia. Qed.

Lemma u64_add_u64 (x n m : Z) : u64 (u64 (x + n) + m) = u64 (x + (n + m)).
Proof.
  unfold u64. rewrite Z.add_mod_idemp_l by lia. f_equal. lia.
Qed.

Lemma all_bytes_skipn (l : list Z) (n : nat) : all_bytes l -> all_bytes (skipn n l).
Proof.
  unfold all_bytes. revert l. induction n as [| n IH]; intros l H; [exact H |].
  destruct l as [| x l]; [exact H |]. cbn [skipn]. apply IH.
  inversion H. assumption.
Qed.

Lemma all_bytes_nth (l : list Z) (n : nat) : all_bytes l -> 0 <= nth n l 0 < 256.
Proof.
  unfold all_bytes. intros H. destruct (Nat.lt_ge_cases n (length l)) as [Hlt | Hge].
  - rewrite Forall_forall in H. apply H. apply nth_In. exact Hlt.
  - rewrite nth_overflow by exact Hge. lia.
Qed.

Lemma Cb_content_length (cb : Circular_buffer) :
  Z.of_nat (length (Cb_content cb)) = Z.of_nat (Z.to_nat (Cb_used_bytes cb)).
Proof. unfold Cb_content. rewrite Cb_ring_length. reflexivity. Qed.

Lemma skipn_skipn_1 (l : list Z) (n : nat) : skipn n (skipn 1 l) = skipn (S n) l.
Proof. destruct l as [| x l]; [destruct n; reflexivity | reflexivity]. Qed.

Lemma Rd_try_reload_loop_content (n : nat) (rdec : Range_decoder) :
  Cb_wf (rd_cb rdec) -> Z.of_nat n <= Rd_available_bytes rdec ->
  all_bytes (Cb_content (rd_cb rdec)) ->
  let r := Rd_try_reload_loop n rdec in
  rd_code r =
    (if (0 <? Z.of_nat n) then
       u32 (fold_left (fun acc b => acc * 256 + b)
                      (firstn n (Cb_content (rd_cb rdec))) (rd_code rdec))
     else rd_code rdec) /\
  Cb_wf (rd_cb r) /\
  Cb_content (rd_cb r) = skipn n (Cb_content (rd_cb rdec)) /\
  Rd_available_bytes r = Rd_available_bytes rdec - Z.of_nat n /\
  rd_member_position r =
    (if (0 <? Z.of_nat n) then u64 (rd_member_position rdec + Z.of_nat n)
     else rd_member_position rdec) /\
  rd_range r = rd_range rdec /\ rd_at_stream_end r = rd_at_stream_end rdec /\
  rd_reload_pending r = rd_reload_pending rdec.
Proof.
  revert rdec. induction n as [| n IH]; intros rdec Hwf Hn Hbytes r.
  - subst r. cbn [Rd_try_reload_loop skipn]. change (0 <? Z.of_nat 0) with false.
    cbv iota. rewrite Z.sub_0_r. repeat split; try reflexivity; apply Hwf.
  - subst r. cbn [Rd_try_reload_loop].
    assert (Hu : 0 < Rd_available_bytes rdec) by lia.
    destruct (Rd_get_byte_content rdec Hwf Hu) as (Hb & Hr).
    destruct (Cb_get_byte_content (rd_cb rdec) Hwf Hu)
      as (_ & G2 & G3 & G4 & _).
    destruct (Rd_get_byte rdec) as [b r1]. cbn [fst snd] in Hb, Hr.
    set (r2 := rd_with_code r1 (Z.lor (u32 (Z.shiftl (rd_code r1) 8)) b)).
    assert (Hcb2 : rd_cb r2 = snd (Cb_get_byte (rd_cb rdec))).
    { unfold r2. rewrite Hr. reflexivity. }
    assert (Hb256 : 0 <= b < 256).
    { rewrite Hb. apply all_bytes_nth. exact Hbytes. }
    assert (Hcode2 : rd_code r2 = u32 (rd_code rdec * 256 + b)).
    { unfold r2. cbn [rd_code rd_with_code]. rewrite Hr.
      cbn [rd_code rd_with_cb rd_with_member_position].
      apply lor_byte. exact Hb256. }
    specialize (IH r2).
    rewrite Hcb2 in IH. unfold Rd_available_bytes in IH, Hn |- *.
    rewrite Hcb2 in IH.
    specialize (IH G2 ltac:(lia)
                  ltac:(rewrite G4; apply all_bytes_skipn; exact Hbytes)).
    cbv zeta in IH.
    destruct IH as (I1 & I2 & I3 & I4 & I5 & I6 & I7 & I8).
    assert (Hpos : (0 <? Z.of_nat (S n)) = true) by (apply Z.ltb_lt; lia).
    rewrite Hpos.
    assert (Hlen : (0 < length (Cb_content (rd_cb rdec)))%nat).
    { pose proof (Cb_content_length (rd_cb rdec)). lia. }
    split.
    { rewrite I1. rewrite G4.
      destruct (Cb_content (rd_cb rdec)) as [| b0 rest] eqn:Ec;
        [cbn [length] in Hlen; lia |].
      cbn [nth] in Hb. subst b0. cbn [skipn firstn fold_left].
      destruct (0 <? Z.of_nat n) eqn:E0.
      - apply fold_code_u32. rewrite Hcode2. apply u32_u32.
      - apply Z.ltb_ge in E0. assert (n = O) by lia. subst n.
        cbn [firstn fold_left]. exact Hcode2. }
    split; [exact I2 |].
    split; [rewrite I3, G4; apply skipn_skipn_1 |].
    split; [rewrite I4, G3; lia |].
    assert (Hpos2 : rd_member_position r2 = u64 (rd_member_position rdec + 1))
      by (unfold r2; rewrite Hr; reflexivity).
    assert (Hrange2 : rd_range r2 = rd_range rdec)
      by (unfold r2; rewrite Hr; reflexivity).
    assert (Hend2 : rd_at_stream_end r2 = rd_at_stream_end rdec)
      by (unfold r2; rewrite Hr; reflexivity).
    assert (Hpend2 : rd_reload_pending r2 = rd_reload_pending rdec)
      by (unfold r2; rewrite Hr; reflexivity).
    split.
    { rewrite I5, Hpos2.
      destruct (0 <? Z.of_nat n) eqn:E0.
      - rewrite u64_add_u64. f_equal. lia.
      - apply Z.ltb_ge in E0. f_equal. lia. }
    rewrite Hrange2 in I6. rewrite Hend2 in I7. rewrite Hpend2 in I8.
    split; [exact I6 |]. split; [exact I7 | exact I8].
Qed.

Lemma be_value_range (l : list Z) :
  all_bytes l -> 0 <= be_value l < 256 ^ Z.of_nat (length l).
Proof.
  unfold be_value, all_bytes. intros H.
  assert (G : forall acc n, 0 <= acc < 256 ^ Z.of_nat n ->
            0 <= fold_left (fun acc b => acc * 256 + b) l acc
              < 256 ^ Z.of_nat (n + length l)).
  { induction H as [| b l Hb Hl IH]; intros acc n Hacc.
    - cbn [fold_left length]. rewrite Nat.add_0_r. exact Hacc.
    - cbn [fold_left length].
      replace (n + S (length l))%nat with (S n + length l)%nat by lia.
      apply IH. rewrite Nat2Z.inj_succ, Z.pow_succ_r by lia. lia. }
  apply (G 0 O). change (256 ^ Z.of_nat 0) with 1. lia.
Qed.

Lemma fold_code_shift (l : list Z) (acc : Z) :
  fold_left (fun acc b => acc * 256 + b) l acc =
  acc * 256 ^ Z.of_nat (length l) + be_value l.
Proof.
  unfold be_value. revert acc. induction l as [| b l IH]; intros acc.
  - cbn [fold_left length]. change (256 ^ Z.of_nat 0) with 1. lia.
  - cbn [fold_left length]. rewrite IH, (IH (0 * 256 + b)).
    rewrite Nat2Z.inj_succ, Z.pow_succ_r by lia. lia.
Qed.

(** X9: [Rd_try_reload] with no reload pending does nothing and succeeds;
    with one pending and fewer than 5 bytes in the buffer it does nothing
    and fails.  With 5 bytes it consumes them: the first is dropped, the
    next four become the code, most significant first, and the range is
    [0xFFFFFFFF]. *)
Theorem Rd_try_reload_loads_code (rdec : Range_decoder) :
  Cb_wf (rd_cb rdec) -> all_bytes (Cb_content (rd_cb rdec)) ->
  (rd_reload_pending rdec = false -> Rd_try_reload rdec = (true, rdec)) /\
  (rd_reload_pending rdec = true -> Rd_available_bytes rdec < 5 ->
   Rd_try_reload rdec = (false, rdec)) /\
  (rd_reload_pending rdec = true -> 5 <= Rd_available_bytes rdec ->
   let r := snd (Rd_try_reload rdec) in
   fst (Rd_try_reload rdec) = true /\
   rd_reload_pending r = false /\
   rd_range r = 0xFFFFFFFF /\
   rd_code r = be_value (firstn 4 (skipn 1 (Cb_content (rd_cb rdec)))) /\
   Cb_content (rd_cb r) = skipn 5 (Cb_content (rd_cb rdec)) /\
   rd_member_position r = u64 (rd_member_position rdec + 5) /\
   rd_at_stream_end r = rd_at_stream_end rdec).
Proof.
  intros Hwf Hbytes. split; [| split].
  - intros Hp. unfold Rd_try_reload. rewrite Hp. cbn [andb]. cbv zeta.
    rewrite Hp. reflexivity.
  - intros Hp Hlt. apply (Rd_try_reload_armed rdec Hp). exact Hlt.
  - intros Hp Hge r. subst r. unfold Rd_try_reload. rewrite Hp. cbn [andb].
    assert (E : (5 <=? Rd_available_bytes rdec) = true) by (apply Z.leb_le; exact Hge).
    rewrite E. cbv zeta.
    set (r0 := rd_with_code (rd_with_reload_pending rdec false) 0).
    destruct (Rd_try_reload_loop_content 5 r0 Hwf Hge Hbytes)
      as (I1 & I2 & I3 & I4 & I5 & I6 & I7 & I8).
    change (0 <? Z.of_nat 5) with true in I1, I5. cbv iota in I1, I5.
    cbn [fst snd rd_reload_pending rd_range rd_code rd_cb rd_member_position
         rd_at_stream_end rd_with_code rd_with_range].
    rewrite I8. split; [reflexivity |]. split; [reflexivity |].
    split; [reflexivity |].
    split.
    { rewrite I1. change (rd_cb r0) with (rd_cb rdec).
      change (rd_code r0) with 0.
      change 4294967295 with (Z.ones 32). rewrite Z.land_ones by lia.
      fold (u32 (u32 (fold_left (fun acc b => acc * 256 + b)
                         (firstn 5 (Cb_content (rd_cb rdec))) 0))).
      rewrite u32_u32.
      assert (Hlen : 5 <= Z.of_nat (length (Cb_content (rd_cb rdec)))).
      { pose proof (Cb_content_length (rd_cb rdec)). unfold Rd_available_bytes in Hge.
        lia. }
      destruct (Cb_content (rd_cb rdec)) as [| b0 l] eqn:Ec;
        [cbn [length] in Hlen; lia |].
      cbn [skipn]. change (firstn 5 (b0 :: l)) with (b0 :: firstn 4 l).
      cbn [fold_left]. rewrite fold_code_shift.
      assert (Hl4 : length (firstn 4 l) = 4%nat).
      { apply firstn_length_le. cbn [length] in Hlen. lia. }
      rewrite Hl4. change (256 ^ Z.of_nat 4) with (2 ^ 32).
      assert (Hb4 : all_bytes (firstn 4 l)).
      { unfold all_bytes in *. inversion Hbytes as [| ? ? _ Hl]; subst.
        rewrite Forall_forall in *. intros x Hx. apply Hl.
        rewrite <- (firstn_skipn 4 l). apply in_or_app. left. exact Hx. }
      pose proof (be_value_range _ Hb4) as Hr. rewrite Hl4 in Hr.
      change (256 ^ Z.of_nat 4) with (2 ^ 32) in Hr.
      unfold u32. rewrite Z.add_comm, Z.mod_add by lia.
      apply Z.mod_small. exact Hr. }
    split; [exact I3 |]. split; [exact I5 | exact I7].
Qed.

Lemma Rd_try_reload_loads_code_witness :
  let rdec := mkRd (mkCb (awrite (fun _ => 0) 0 [0; 1; 2; 3; 4; 5]) 8 0 6) 0 0 0
                   false true in
  let r := snd (Rd_try_reload rdec) in
  fst (Rd_try_reload rdec) = true /\
  rd_reload_pending r = false /\
  rd_range r = 0xFFFFFFFF /\
  rd_code r = be_value (firstn 4 (skipn 1 (Cb_content (rd_cb rdec)))) /\
  Cb_content (rd_cb r) = skipn 5 (Cb_content (rd_cb rdec)) /\
  rd_member_position r = u64 (rd_member_position rdec + 5) /\
  rd_at_stream_end r = rd_at_stream_end rdec.
Proof.
  apply (Rd_try_reload_loads_code
           (mkRd (mkCb (awrite (fun _ => 0) 0 [0; 1; 2; 3; 4; 5]) 8 0 6) 0 0 0
                 false true)).
  - unfold Cb_wf. cbn [rd_cb cb_buffer_size cb_get cb_put]. lia.
  - vm_compute. repeat constructor; discriminate.
  - reflexivity.
  - vm_compute. discriminate.
Defined.

Lemma Rd_read_data_content (rdec : Range_decoder) (size : Z) :
  Cb_wf (rd_cb rdec) -> 0 <= size <= 0xFFFFFFFF ->
  let k := Z.min (Rd_available_bytes rdec) size in
  let r := Rd_read_data rdec size in
  fst (fst r) = k /\
  snd (fst r) = firstn (Z.to_nat k) (Cb_content (rd_cb rdec)) /\
  rd_cb (snd r) = snd (Cb_read_data (rd_cb rdec) size) /\
  rd_member_position (snd r) =
    (if 0 <? k then u64 (rd_member_position rdec + k) else rd_member_position rdec) /\
  rd_code (snd r) = rd_code rdec /\ rd_range (snd r) = rd_range rdec /\
  rd_at_stream_end (snd r) = rd_at_stream_end rdec /\
  rd_reload_pending (snd r) = rd_reload_pending rdec.
Proof.
  intros Hwf Hs k r. subst r. unfold Rd_available_bytes in k.
  destruct (Cb_read_data_content (rd_cb rdec) size Hwf Hs) as (H1 & H2 & _).
  fold k in H1, H2. unfold Rd_read_data. rewrite u32_small by exact Hs.
  destruct (Cb_read_data (rd_cb rdec) size) as [[sz out] cb].
  cbn [fst snd] in H1, H2. subst sz out.
  destruct (0 <? k); cbn [fst snd]; repeat split; reflexivity.
Qed.

Lemma Rd_unread_after_read (rdec : Range_decoder) (size : Z) :
  Cb_wf (rd_cb rdec) -> 0 <= size <= 0xFFFFFFFF ->
  0 <= rd_member_position rdec -> rd_member_position rdec + size < 2 ^ 64 ->
  Rd_unread_data (snd (Rd_read_data rdec size)) (fst (fst (Rd_read_data rdec size))) =
  (true, rdec).
Proof.
  intros Hwf Hs Hp0 Hp.
  pose proof (Cb_unread_after_read (rd_cb rdec) size Hwf Hs) as Hun.
  pose proof (Cb_read_data_size (rd_cb rdec) size Hwf Hs) as Hsz.
  pose proof (Cb_used_bytes_range _ Hwf) as Hu.
  unfold Rd_read_data. rewrite u32_small by exact Hs.
  destruct (Cb_read_data (rd_cb rdec) size) as [[sz out] cb].
  cbn [fst snd] in Hun, Hsz.
  assert (Hk : 0 <= sz <= size) by lia. clear Hsz.
  destruct rdec as [cb0 pos code range ends pend].
  cbn [rd_cb rd_member_position] in *.
  destruct (0 <? sz) eqn:E; cbn [fst snd]; unfold Rd_unread_data;
    cbn [rd_member_position rd_with_member_position rd_with_cb rd_cb rd_code
         rd_range rd_at_stream_end rd_reload_pending].
  - rewrite (u64_small (pos + sz)) by lia.
    destruct (pos + sz <? sz) eqn:E1; [apply Z.ltb_lt in E1; lia |].
    rewrite Hun. cbn [negb].
    replace (pos + sz - sz) with pos by lia.
    rewrite (u64_small pos) by lia. reflexivity.
  - apply Z.ltb_ge in E. assert (sz = 0) by lia. subst sz.
    destruct (pos <? 0) eqn:E1; [apply Z.ltb_lt in E1; lia |].
    rewrite Hun. cbn [negb]. rewrite Z.sub_0_r.
    rewrite (u64_small pos) by lia. reflexivity.
Qed.

(** X10: [Rd_read_data] hands out the oldest bytes of the input buffer and
    counts them in the member position; [Rd_unread_data], called with that
    count, puts them back: the range decoder is again as it was.  (The
    member position must not pass [2^64].) *)
Theorem Rd_unread_data_undoes_read (rdec : Range_decoder) (size : Z) :
  Cb_wf (rd_cb rdec) -> 0 <= size <= 0x7FFFFFFF ->
  0 <= rd_member_position rdec -> rd_member_position rdec + size < 2 ^ 64 ->
  let k := Z.min (Rd_available_bytes rdec) size in
  fst (fst (Rd_read_data rdec size)) = k /\
  snd (fst (Rd_read_data rdec size)) = firstn (Z.to_nat k) (Cb_content (rd_cb rdec)) /\
  rd_member_position (snd (Rd_read_data rdec size)) = rd_member_position rdec + k /\
  Rd_unread_data (snd (Rd_read_data rdec size)) k = (true, rdec).
Proof.
  intros Hwf Hs' Hp0 Hp k. assert (Hs : 0 <= size <= 0xFFFFFFFF) by lia.
  destruct (Rd_read_data_content rdec size Hwf Hs) as (H1 & H2 & _ & H4 & _).
  fold k in H1, H2, H4.
  pose proof (Cb_used_bytes_range _ Hwf) as Hu. unfold Rd_available_bytes in k.
  assert (Hk : 0 <= k <= size) by (unfold k; lia).
  split; [exact H1 |]. split; [exact H2 |]. split.
  - rewrite H4. destruct (0 <? k) eqn:E.
    + apply u64_small. lia.
    + apply Z.ltb_ge in E. lia.
  - rewrite <- H1. apply Rd_unread_after_read; assumption.
Qed.

Lemma Rd_unread_data_undoes_read_witness :
  let rdec := mkRd (mkCb (awrite (fun _ => 0) 0 [3; 4; 5; 0; 0; 0; 1; 2]) 8 6 3)
                   100 0 0xFFFFFFFF false false in
  let k := Z.min (Rd_available_bytes rdec) 4 in
  fst (fst (Rd_read_data rdec 4)) = k /\
  snd (fst (Rd_read_data rdec 4)) = firstn (Z.to_nat k) (Cb_content (rd_cb rdec)) /\
  rd_member_position (snd (Rd_read_data rdec 4)) = rd_member_position rdec + k /\
  Rd_unread_data (snd (Rd_read_data rdec 4)) k = (true, rdec).
Proof.
  apply (Rd_unread_data_undoes_read
           (mkRd (mkCb (awrite (fun _ => 0) 0 [3; 4; 5; 0; 0; 0; 1; 2]) 8 6 3)
                 100 0 0xFFFFFFFF false false) 4).
  - unfold Cb_wf. cbn [rd_cb cb_buffer_size cb_get cb_put]. lia.
  - lia.
  - cbn [rd_member_position]. lia.
  - cbn [rd_member_position]. lia.
Defined.

(** *** Searching a member header *)

Lemma Rd_find_header_peek_get (n : nat) (cb : Circular_buffer) (g g' i : Z)
    (header : Lzip_header) :
  Rd_find_header_peek n (cb_with_get cb g') g i header =
  Rd_find_header_peek n cb g i header.
Proof.
  revert g i header. induction n as [| n IH]; intros g i header; [reflexivity |].
  cbn [Rd_find_header_peek]. cbn [cb_put cb_buffer cb_buffer_size cb_with_get].
  destruct (g =? cb_put cb); [reflexivity |]. apply IH.
Qed.

Lemma Cb_get_byte_eq (cb : Circular_buffer) :
  Cb_get_byte cb =
  (cb_buffer cb (cb_get cb),
   cb_with_get cb (if cb_buffer_size cb <=? u32 (cb_get cb + 1) then 0
                   else u32 (cb_get cb + 1))).
Proof. reflexivity. Qed.

Lemma Cb_content_cons (cb : Circular_buffer) :
  Cb_wf cb -> 0 < Cb_used_bytes cb ->
  Cb_content cb = cb_buffer cb (cb_get cb) :: Cb_content (snd (Cb_get_byte cb)).
Proof.
  intros Hwf Hu.
  destruct (Cb_get_byte_content cb Hwf Hu) as (H1 & _ & _ & H4 & _).
  rewrite H4. rewrite Cb_get_byte_eq in H1. cbn [fst] in H1. rewrite H1.
  pose proof (Cb_content_length cb) as Hl.
  destruct (Cb_content cb) as [| x l]; [cbn [length] in Hl; lia | reflexivity].
Qed.

Lemma Rd_find_header_peek_spec (n : nat) (cb : Circular_buffer) (i : Z)
    (header : Lzip_header) :
  Cb_wf cb ->
  match Rd_find_header_peek n cb (cb_get cb) i header with
  | None => Cb_used_bytes cb < Z.of_nat n
  | Some h =>
      Z.of_nat n <= Cb_used_bytes cb /\
      forall x, h x = if (i <=? x) && (x <? i + Z.of_nat n)
                      then nth (Z.to_nat (x - i)) (Cb_content cb) 0
                      else header x
  end.
Proof.
  revert cb i header. induction n as [| n IH]; intros cb i header Hwf.
  - cbn [Rd_find_header_peek]. pose proof (Cb_used_bytes_range cb Hwf).
    split; [lia |]. intros x.
    destruct (i <=? x) eqn:E1; destruct (x <? i + Z.of_nat 0) eqn:E2;
      try reflexivity.
    apply Z.leb_le in E1. apply Z.ltb_lt in E2. lia.
  - cbn [Rd_find_header_peek].
    destruct (cb_get cb =? cb_put cb) eqn:E.
    + assert (Cb_used_bytes cb = 0) by (apply Cb_empty_used; assumption). lia.
    + assert (Hu : 0 < Cb_used_bytes cb).
      { pose proof (Cb_used_bytes_range cb Hwf).
        destruct (Z.eq_dec (Cb_used_bytes cb) 0) as [H0 | H0]; [| lia].
        apply (Cb_empty_used cb Hwf) in H0. unfold Cb_empty in H0. congruence. }
      destruct (Cb_get_byte_content cb Hwf Hu) as (_ & G2 & G3 & _).
      pose proof (Cb_content_cons cb Hwf Hu) as Hc.
      rewrite Cb_get_byte_eq in G2, G3, Hc. cbn [snd] in G2, G3, Hc.
      set (g1 := if cb_buffer_size cb <=? u32 (cb_get cb + 1) then 0
                 else u32 (cb_get cb + 1)) in *.
      rewrite <- (Rd_find_header_peek_get n cb g1 g1).
      specialize (IH (cb_with_get cb g1) (i + 1)
                     (aset header i (cb_buffer cb (cb_get cb))) G2).
      change (cb_get (cb_with_get cb g1)) with g1 in IH.
      destruct (Rd_find_header_peek n (cb_with_get cb g1) g1 (i + 1) _) as [h |].
      * destruct IH as (I1 & I2). split; [lia |]. intros x. rewrite I2, Hc.
        unfold aset.
        destruct (Z.leb_spec (i + 1) x); destruct (Z.ltb_spec x (i + 1 + Z.of_nat n));
          destruct (Z.leb_spec i x); destruct (Z.ltb_spec x (i + Z.of_nat (S n)));
          destruct (Z.eqb_spec x i);
          cbn [andb]; try lia; try reflexivity;
          try (replace (Z.to_nat (x - i)) with (S (Z.to_nat (x - (i + 1)))) by lia;
               reflexivity);
          try (subst x; rewrite Z.sub_diag; reflexivity).
      * lia.
Qed.

Lemma Lh_verify_ext (h1 h2 : Lzip_header) :
  (forall x, 0 <= x < 6 -> h1 x = h2 x) -> Lh_verify h1 = Lh_verify h2.
Proof.
  intros H. unfold Lh_verify, Lh_verify_magic, Lh_verify_version,
    Lh_get_dictionary_size.
  cbn [forallb seq].
  change (Z.of_nat 0) with 0. change (Z.of_nat 1) with 1.
  change (Z.of_nat 2) with 2. change (Z.of_nat 3) with 3.
  rewrite (H 0), (H 1), (H 2), (H 3), (H 4), (H 5) by lia. reflexivity.
Qed.

Lemma header_at_first (l : list Z) :
  header_at l = true -> nth 0 l 0 = 0x4C /\ 6 <= Z.of_nat (length l).
Proof.
  unfold header_at. intros H. apply andb_true_iff in H. destruct H as [Hlen H].
  apply Z.leb_le in Hlen. split; [| exact Hlen].
  unfold Lh_verify in H. apply andb_true_iff in H. destruct H as [H _].
  apply andb_true_iff in H. destruct H as [H _].
  unfold Lh_verify_magic in H. cbn [forallb seq] in H.
  apply andb_true_iff in H. destruct H as [H _]. apply Z.eqb_eq in H.
  change (Z.of_nat 0) with 0 in H. cbn [nth lzip_magic] in H. rewrite <- H.
  rewrite awrite_in by (rewrite firstn_length_le by lia; cbn; lia).
  rewrite Z.sub_0_r. change (Z.to_nat 0) with O.
  destruct l as [| x l]; reflexivity.
Qed.

Lemma skipn_S_skipn (l : list Z) (j : nat) : skipn (S j) l = skipn j (skipn 1 l).
Proof. symmetry. apply skipn_skipn_1. Qed.

Lemma Rd_find_header_loop_spec (fuel : nat) (rdec : Range_decoder) (skipped0 : Z) :
  Cb_wf (rd_cb rdec) -> Cb_used_bytes (rd_cb rdec) < Z.of_nat fuel ->
  0 <= skipped0 -> skipped0 + Cb_used_bytes (rd_cb rdec) <= 0xFFFFFFFF ->
  let r := Rd_find_header_loop fuel rdec skipped0 in
  let c := Cb_content (rd_cb rdec) in
  exists j : nat,
    (j <= length c)%nat /\
    snd (fst r) = skipped0 + Z.of_nat j /\
    Cb_wf (rd_cb (snd r)) /\
    Cb_content (rd_cb (snd r)) = skipn j c /\
    (forall j', (j' < j)%nat -> header_at (skipn j' c) = false) /\
    (if fst (fst r) then header_at (skipn j c) = true
     else (length (skipn j c) < 6)%nat) /\
    rd_member_position (snd r) = rd_member_position rdec /\
    rd_code (snd r) = rd_code rdec /\ rd_range (snd r) = rd_range rdec /\
    rd_at_stream_end (snd r) = rd_at_stream_end rdec /\
    rd_reload_pending (snd r) = rd_reload_pending rdec /\
    cb_put (rd_cb (snd r)) = cb_put (rd_cb rdec) /\
    cb_buffer (rd_cb (snd r)) = cb_buffer (rd_cb rdec) /\
    cb_buffer_size (rd_cb (snd r)) = cb_buffer_size (rd_cb rdec).
Proof.
  revert rdec skipped0. induction fuel as [| fuel IH];
    intros rdec skipped0 Hwf Hfuel Hs0 Hs r c.
  { pose proof (Cb_used_bytes_range _ Hwf). lia. }
  subst r. cbn [Rd_find_header_loop]. cbv zeta.
  pose proof (Cb_content_length (rd_cb rdec)) as Hlen. fold c in Hlen.
  pose proof (Cb_used_bytes_range _ Hwf) as Hur.
  destruct (cb_get (rd_cb rdec) =? cb_put (rd_cb rdec)) eqn:E.
  - assert (Hu0 : Cb_used_bytes (rd_cb rdec) = 0) by (apply Cb_empty_used; assumption).
    exists O. cbn [fst snd skipn].
    split; [lia |]. split; [lia |]. split; [exact Hwf |]. split; [reflexivity |].
    split; [intros j' Hj'; lia |].
    split; [rewrite Hu0 in Hlen; cbn in Hlen; lia |].
    repeat split; reflexivity.
  - assert (Hu : 0 < Cb_used_bytes (rd_cb rdec)).
    { destruct (Z.eq_dec (Cb_used_bytes (rd_cb rdec)) 0) as [H0 | H0]; [| lia].
      apply (Cb_empty_used _ Hwf) in H0. unfold Cb_empty in H0. congruence. }
    pose proof (Cb_content_cons _ Hwf Hu) as Hc. fold c in Hc.
    destruct (Cb_get_byte_content _ Hwf Hu) as (_ & G2 & G3 & G4 & _).
    rewrite Cb_get_byte_eq in Hc, G2, G3, G4. cbn [snd] in Hc, G2, G3, G4.
    fold c in G4.
    set (g1 := if cb_buffer_size (rd_cb rdec) <=? u32 (cb_get (rd_cb rdec) + 1)
               then 0 else u32 (cb_get (rd_cb rdec) + 1)) in *.
    pose proof (Rd_find_header_peek_spec 6 (rd_cb rdec) 0 (fun _ => 0) Hwf) as Hpeek.
    (* the step taken when no header starts here *)
    assert (Hstep : header_at c = false ->
      let r := Rd_find_header_loop fuel
                 (rd_with_cb rdec (cb_with_get (rd_cb rdec) g1))
                 (u32 (skipped0 + 1)) in
      exists j : nat,
        (j <= length c)%nat /\
        snd (fst r) = skipped0 + Z.of_nat j /\
        Cb_wf (rd_cb (snd r)) /\
        Cb_content (rd_cb (snd r)) = skipn j c /\
        (forall j', (j' < j)%nat -> header_at (skipn j' c) = false) /\
        (if fst (fst r) then header_at (skipn j c) = true
         else (length (skipn j c) < 6)%nat) /\
        rd_member_position (snd r) = rd_member_position rdec /\
        rd_code (snd r) = rd_code rdec /\ rd_range (snd r) = rd_range rdec /\
        rd_at_stream_end (snd r) = rd_at_stream_end rdec /\
        rd_reload_pending (snd r) = rd_reload_pending rdec /\
        cb_put (rd_cb (snd r)) = cb_put (rd_cb rdec) /\
        cb_buffer (rd_cb (snd r)) = cb_buffer (rd_cb rdec) /\
        cb_buffer_size (rd_cb (snd r)) = cb_buffer_size (rd_cb rdec)).
    { intros Hno. rewrite (u32_small (skipped0 + 1)) by lia. intros r.
      specialize (IH (rd_with_cb rdec (cb_with_get (rd_cb rdec) g1))
                     (skipped0 + 1)).
      cbn [rd_cb rd_with_cb] in IH.
      specialize (IH G2 ltac:(lia) ltac:(lia) ltac:(lia)).
      cbv zeta in IH. fold r in IH.
      destruct IH as (j & J1 & J2 & J3 & J4 & J5 & J6 & J7).
      rewrite G4 in J1, J4, J5, J6.
      exists (S j).
      split.
      { rewrite length_skipn in J1. rewrite Hc in *. cbn [length] in *. lia. }
      split; [rewrite J2; lia |]. split; [exact J3 |].
      split; [rewrite J4; apply skipn_skipn_1 |].
      split.
      { intros j' Hj'. destruct j' as [| j']; [exact Hno |].
        rewrite skipn_S_skipn. apply J5. lia. }
      split; [rewrite skipn_S_skipn; exact J6 |].
      exact J7. }
    destruct (cb_buffer (rd_cb rdec) (cb_get (rd_cb rdec)) =? nth 0 lzip_magic 0)
      eqn:Em.
    + destruct (Rd_find_header_peek 6 (rd_cb rdec) (cb_get (rd_cb rdec)) 0
                  (fun _ => 0)) as [h |] eqn:Ep.
      * destruct Hpeek as (Hp1 & Hp2).
        assert (Hv : Lh_verify h = header_at c).
        { unfold header_at.
          assert (E6 : (6 <=? Z.of_nat (length c)) = true) by (apply Z.leb_le; lia).
          rewrite E6. cbn [andb]. apply Lh_verify_ext. intros x Hx.
          rewrite Hp2. change (Z.of_nat 6) with 6.
          destruct (Z.leb_spec 0 x); destruct (Z.ltb_spec x (0 + 6));
            cbn [andb]; try lia.
          rewrite awrite_in by (rewrite firstn_length_le by lia; cbn; lia).
          rewrite firstn_nth_Z by lia. reflexivity. }
        destruct (Lh_verify h) eqn:Ev.
        -- exists O. cbn [fst snd skipn].
           split; [lia |]. split; [lia |]. split; [exact Hwf |].
           split; [reflexivity |]. split; [intros j' Hj'; lia |].
           split; [symmetry; exact Hv |]. repeat split; reflexivity.
        -- apply Hstep. symmetry. exact Hv.
      * exists O. cbn [fst snd skipn].
        split; [lia |]. split; [lia |]. split; [exact Hwf |].
        split; [reflexivity |]. split; [intros j' Hj'; lia |].
        split; [change (Z.of_nat 6) with 6 in Hpeek; lia |].
        repeat split; reflexivity.
    + apply Hstep.
      destruct (header_at c) eqn:Eh; [| reflexivity].
      apply header_at_first in Eh. destruct Eh as [Eh _].
      rewrite Hc in Eh. cbn [nth] in Eh. apply Z.eqb_neq in Em.
      exfalso. apply Em. exact Eh.
Qed.

Lemma header_at_short (l : list Z) : (length l < 6)%nat -> header_at l = false.
Proof.
  intros H. unfold header_at.
  destruct (Z.leb_spec 6 (Z.of_nat (length l))); [lia | reflexivity].
Qed.

Lemma Rd_find_header_spec (rdec : Range_decoder) :
  Cb_wf (rd_cb rdec) ->
  let found := fst (fst (Rd_find_header rdec)) in
  let skipped := snd (fst (Rd_find_header rdec)) in
  let r := snd (Rd_find_header rdec) in
  let c := Cb_content (rd_cb rdec) in
  0 <= skipped <= Rd_available_bytes rdec /\
  Cb_wf (rd_cb r) /\
  Cb_content (rd_cb r) = skipn (Z.to_nat skipped) c /\
  (forall j, (j < Z.to_nat skipped)%nat -> header_at (skipn j c) = false) /\
  (found = true -> header_at (Cb_content (rd_cb r)) = true) /\
  (found = false -> forall j, header_at (skipn j c) = false) /\
  (found = false -> (length (Cb_content (rd_cb r)) < 6)%nat) /\
  rd_member_position r = rd_member_position rdec /\
  rd_at_stream_end r = rd_at_stream_end rdec.
Proof.
  intros Hwf found skipped r c. subst found skipped r.
  pose proof (Cb_used_bytes_range _ Hwf) as Hur.
  pose proof Hwf as (Hs & _).
  pose proof (Cb_content_length (rd_cb rdec)) as Hlen. fold c in Hlen.
  unfold Rd_find_header.
  destruct (Rd_find_header_loop_spec
              (S (Z.to_nat (cb_buffer_size (rd_cb rdec)))) rdec 0 Hwf
              ltac:(lia) ltac:(lia) ltac:(lia))
    as (j & J1 & J2 & J3 & J4 & J5 & J6 & J7 & _ & _ & J10 & _).
  fold c in J1, J4, J5, J6.
  set (res := Rd_find_header_loop _ rdec 0) in *.
  rewrite J2, Z.add_0_l, Nat2Z.id. unfold Rd_available_bytes.
  split; [lia |]. split; [exact J3 |]. split; [exact J4 |]. split; [exact J5 |].
  split; [| split; [| split; [| split; assumption]]].
  - intros Hf. rewrite Hf in J6. rewrite J4. exact J6.
  - intros Hf. rewrite Hf in J6. intros j'.
    destruct (Nat.lt_ge_cases j' j) as [Hlt | Hge]; [apply J5; exact Hlt |].
    apply header_at_short. rewrite length_skipn in *. lia.
  - intros Hf. rewrite Hf in J6. rewrite J4. exact J6.
Qed.

(** X11: [Rd_find_header] stops at the first place of the buffered input
    where a member header that [Lh_verify] accepts starts: it skips and
    counts the bytes before it, and reports no header only when no such
    place exists, leaving fewer than 6 bytes in the buffer.  The member
    position and the end-of-stream flag are not changed. *)
Theorem Rd_find_header_finds_first (rdec : Range_decoder) :
  Cb_wf (rd_cb rdec) ->
  let found := fst (fst (Rd_find_header rdec)) in
  let skipped := snd (fst (Rd_find_header rdec)) in
  let r := snd (Rd_find_header rdec) in
  let c := Cb_content (rd_cb rdec) in
  0 <= skipped <= Rd_available_bytes rdec /\
  Cb_content (rd_cb r) = skipn (Z.to_nat skipped) c /\
  (forall j, (j < Z.to_nat skipped)%nat -> header_at (skipn j c) = false) /\
  (found = true -> header_at (Cb_content (rd_cb r)) = true) /\
  (found = false ->
   (forall j, header_at (skipn j c) = false) /\
   (length (Cb_content (rd_cb r)) < 6)%nat) /\
  rd_member_position r = rd_member_position rdec /\
  rd_at_stream_end r = rd_at_stream_end rdec.
Proof.
  intros Hwf found skipped r c.
  destruct (Rd_find_header_spec rdec Hwf)
    as (H1 & _ & H3 & H4 & H5 & H6 & H7 & H8 & H9).
  split; [exact H1 |]. split; [exact H3 |]. split; [exact H4 |].
  split; [exact H5 |]. split; [| split; assumption].
  intros Hf. split; [apply H6; exact Hf | apply H7; exact Hf].
Qed.

Lemma Rd_find_header_finds_first_witness :
  let rdec :=
    mkRd (mkCb (awrite (fun _ => 0) 0
                  [0x50; 1; 12; 7; 7; 0; 0; 0; 0; 0; 0; 0; 9; 0x4C; 0x5A; 0x49])
               16 12 5) 0 0 0xFFFFFFFF false false in
  let found := fst (fst (Rd_find_header rdec)) in
  let skipped := snd (fst (Rd_find_header rdec)) in
  let r := snd (Rd_find_header rdec) in
  let c := Cb_content (rd_cb rdec) in
  (found = true /\ skipped = 1) /\
  0 <= skipped <= Rd_available_bytes rdec /\
  Cb_content (rd_cb r) = skipn (Z.to_nat skipped) c /\
  (forall j, (j < Z.to_nat skipped)%nat -> header_at (skipn j c) = false) /\
  (found = true -> header_at (Cb_content (rd_cb r)) = true) /\
  (found = false ->
   (forall j, header_at (skipn j c) = false) /\
   (length (Cb_content (rd_cb r)) < 6)%nat) /\
  rd_member_position r = rd_member_position rdec /\
  rd_at_stream_end r = rd_at_stream_end rdec.
Proof.
  split; [vm_compute; split; reflexivity |].
  apply (Rd_find_header_finds_first
           (mkRd (mkCb (awrite (fun _ => 0) 0
                          [0x50; 1; 12; 7; 7; 0; 0; 0; 0; 0; 0; 0; 9; 0x4C; 0x5A; 0x49])
                       16 12 5) 0 0 0xFFFFFFFF false false)).
  unfold Cb_wf. cbn [rd_cb cb_buffer_size cb_get cb_put]. lia.
Defined.

(** ** The dictionary of the LZ decoder *)

Lemma LZd_peek_index (d : LZ_decoder) (distance : Z) :
  Cb_wf (lzd_cb d) -> 0 <= distance <= cb_buffer_size (lzd_cb d) - 1 ->
  LZd_peek d distance =
  cb_buffer (lzd_cb d)
    ((cb_put (lzd_cb d) - distance - 1) mod cb_buffer_size (lzd_cb d)).
Proof.
  intros (Hs & Hg & Hp) Hd. unfold LZd_peek. cbv zeta. f_equal.
  destruct (Z.ltb_spec distance (cb_put (lzd_cb d))).
  - rewrite u32_small by lia. rewrite Z.mod_small by lia. lia.
  - rewrite u32_small by lia.
    replace (cb_put (lzd_cb d) - distance - 1)
      with (cb_buffer_size (lzd_cb d) + cb_put (lzd_cb d) - distance - 1
            + (-1) * cb_buffer_size (lzd_cb d)) by lia.
    rewrite Z.mod_add by lia. rewrite Z.mod_small by lia. reflexivity.
Qed.

Lemma LZd_put_byte_get (d : LZ_decoder) (b : Z) :
  cb_get (lzd_cb (LZd_put_byte d b)) = cb_get (lzd_cb d).
Proof.
  unfold LZd_put_byte. cbv zeta.
  match goal with |- context [if ?c then _ else _] => destruct c end; reflexivity.
Qed.

Lemma LZd_put_byte_data_position (d : LZ_decoder) (b : Z) :
  Cb_wf (lzd_cb d) ->
  LZd_data_position (LZd_put_byte d b) = u64 (LZd_data_position d + 1).
Proof.
  intros (Hs & Hg & Hp). unfold LZd_data_position, LZd_put_byte. cbv zeta.
  cbn [lzd_cb lzd_with_crc lzd_with_cb cb_put cb_with_put cb_with_buffer
       cb_buffer_size lzd_partial_data_pos].
  rewrite (u32_small (cb_put (lzd_cb d) + 1)) by lia.
  destruct (cb_buffer_size (lzd_cb d) <=? cb_put (lzd_cb d) + 1) eqn:E.
  - cbn [lzd_cb lzd_with_pos_wrapped lzd_with_cb lzd_with_partial_data_pos
         cb_put cb_with_put lzd_partial_data_pos].
    rewrite Z.add_0_r. unfold u64. rewrite Z.mod_mod by lia.
    rewrite Z.add_mod_idemp_l by lia. f_equal.
    change (lzd_partial_data_pos (lzd_with_crc d (CRC32_update_byte (lzd_crc d) b)))
      with (lzd_partial_data_pos d).
    lia.
  - cbn [lzd_cb lzd_with_cb cb_put cb_with_put lzd_partial_data_pos].
    unfold u64. rewrite Z.add_mod_idemp_l by lia. f_equal.
    change (lzd_partial_data_pos (lzd_with_crc d (CRC32_update_byte (lzd_crc d) b)))
      with (lzd_partial_data_pos d).
    lia.
Qed.

(** X12: [LZd_put_byte] appends a byte to the dictionary: the byte is then
    the one at distance 0 (and the previous byte), every byte that was at
    distance [k] is at distance [k + 1], the data position has grown by 1
    and the CRC has taken the byte in. *)
Theorem LZd_put_byte_appends (d : LZ_decoder) (b : Z) :
  Cb_wf (lzd_cb d) ->
  let d' := LZd_put_byte d b in
  Cb_wf (lzd_cb d') /\
  LZd_peek d' 0 = u8 b /\
  LZd_peek_prev d' = u8 b /\
  (forall k, 0 <= k <= cb_buffer_size (lzd_cb d) - 2 ->
     LZd_peek d' (k + 1) = LZd_peek d k) /\
  LZd_data_position d' = u64 (LZd_data_position d + 1) /\
  lzd_crc d' = CRC32_update_byte (lzd_crc d) b.
Proof.
  intros Hwf d'. subst d'.
  pose proof (LZd_put_byte_wf d b Hwf) as Hwf'.
  pose proof (LZd_put_byte_put d b Hwf) as Hput.
  pose proof (LZd_put_byte_buffer_size d b) as Hbs.
  pose proof Hwf as (Hs & Hg & Hp).
  set (bs := cb_buffer_size (lzd_cb d)) in *.
  set (p := cb_put (lzd_cb d)) in *.
  assert (Hidx : forall k, 0 <= k <= bs - 1 ->
            ((p + 1) mod bs - k - 1) mod bs = (p - k) mod bs).
  { intros k Hk.
    replace ((p + 1) mod bs - k - 1) with ((p + 1) mod bs - (k + 1)) by lia.
    rewrite Zminus_mod_idemp_l. f_equal. lia. }
  split; [exact Hwf' |]. split; [| split; [| split; [| split]]].
  - rewrite LZd_peek_index by (try assumption; rewrite Hbs; fold bs; lia).
    rewrite Hput, Hbs. fold bs p. rewrite Hidx by lia.
    rewrite Z.sub_0_r, Z.mod_small by lia.
    rewrite LZd_put_byte_buffer. fold p. rewrite Z.eqb_refl. reflexivity.
  - unfold LZd_peek_prev. cbv zeta. rewrite Hput, Hbs. fold bs p.
    rewrite LZd_put_byte_buffer. fold p.
    assert (E : u32 ((if 0 <? (p + 1) mod bs then (p + 1) mod bs else bs) - 1) = p).
    { rewrite mod_wrap by lia.
      destruct (Z.ltb_spec (p + 1) bs).
      - destruct (Z.ltb_spec 0 (p + 1)); [| lia]. rewrite u32_small by lia. lia.
      - destruct (Z.ltb_spec 0 (p + 1 - bs)); [lia |]. rewrite u32_small by lia. lia. }
    rewrite E, Z.eqb_refl. reflexivity.
  - intros k Hk.
    rewrite LZd_peek_index by (try assumption; rewrite Hbs; fold bs; lia).
    rewrite LZd_peek_index by (try assumption; fold bs; lia).
    rewrite Hput, Hbs. fold bs p. rewrite Hidx by lia.
    rewrite LZd_put_byte_buffer. fold p.
    replace (p - (k + 1)) with (p - k - 1) by lia.
    destruct (Z.eqb_spec ((p - k - 1) mod bs) p) as [E | E]; [| reflexivity].
    exfalso.
    destruct (Z_lt_dec k p) as [Hlt | Hge].
    + rewrite Z.mod_small in E by lia. lia.
    + replace (p - k - 1) with (bs + p - k - 1 + (-1) * bs) in E by lia.
      rewrite Z.mod_add in E by lia. rewrite Z.mod_small in E by lia. lia.
  - apply LZd_put_byte_data_position. exact Hwf.
  - apply LZd_put_byte_crc.
Qed.

Lemma LZd_put_byte_appends_witness :
  let d := small_decoder [1; 2; 3; 4; 5; 6; 7] 8 7 in
  let d' := LZd_put_byte d 0x41 in
  Cb_wf (lzd_cb d') /\
  LZd_peek d' 0 = u8 0x41 /\
  LZd_peek_prev d' = u8 0x41 /\
  (forall k, 0 <= k <= cb_buffer_size (lzd_cb d) - 2 ->
     LZd_peek d' (k + 1) = LZd_peek d k) /\
  LZd_data_position d' = u64 (LZd_data_position d + 1) /\
  lzd_crc d' = CRC32_update_byte (lzd_crc d) 0x41.
Proof.
  apply (LZd_put_byte_appends (small_decoder [1; 2; 3; 4; 5; 6; 7] 8 7) 0x41).
  unfold Cb_wf. cbn [small_decoder lzd_cb cb_buffer_size cb_get cb_put]. lia.
Defined.

(** *** [LZd_copy_block] against the copy byte by byte *)

Lemma LZd_copy_wrapping_reference (n : nat) (d : LZ_decoder) (i distance : Z) :
  Cb_wf (lzd_cb d) -> 0 <= distance <= cb_buffer_size (lzd_cb d) - 1 ->
  i = (cb_put (lzd_cb d) - distance - 1) mod cb_buffer_size (lzd_cb d) ->
  LZd_copy_wrapping n d i = LZd_copy_reference n d distance.
Proof.
  revert d i. induction n as [| n IH]; intros d i Hwf Hd Hi; [reflexivity |].
  cbn [LZd_copy_wrapping LZd_copy_reference]. cbv zeta.
  rewrite (LZd_peek_index d distance Hwf Hd). rewrite <- Hi.
  set (d1 := LZd_put_byte d (cb_buffer (lzd_cb d) i)).
  pose proof (LZd_put_byte_wf d (cb_buffer (lzd_cb d) i) Hwf) as Hwf1.
  pose proof (LZd_put_byte_put d (cb_buffer (lzd_cb d) i) Hwf) as Hp1.
  pose proof (LZd_put_byte_buffer_size d (cb_buffer (lzd_cb d) i)) as Hs1.
  fold d1 in Hwf1, Hp1, Hs1.
  pose proof Hwf as (Hs & Hg & Hp).
  apply IH; [exact Hwf1 | rewrite Hs1; exact Hd |].
  rewrite Hs1, Hp1.
  set (bs := cb_buffer_size (lzd_cb d)) in *.
  set (p := cb_put (lzd_cb d)) in *.
  assert (Hib : 0 <= i < bs) by (rewrite Hi; apply Z.mod_pos_bound; lia).
  rewrite u32_small by lia.
  replace ((p + 1) mod bs - distance - 1) with ((p + 1) mod bs - (distance + 1))
    by lia.
  rewrite Zminus_mod_idemp_l.
  replace (p + 1 - (distance + 1)) with (p - distance - 1 + 1) by lia.
  rewrite <- Zplus_mod_idemp_l, <- Hi.
  rewrite mod_wrap by lia.
  destruct (Z.leb_spec bs (i + 1)); destruct (Z.ltb_spec (i + 1) bs); lia.
Qed.

Lemma LZd_copy_bytewise_ext (n : nat) (b1 b2 : array) (lpos i : Z) :
  (forall x, b1 x = b2 x) ->
  forall x, LZd_copy_bytewise n b1 lpos i x = LZd_copy_bytewise n b2 lpos i x.
Proof.
  revert b1 b2 lpos i. induction n as [| n IH]; intros b1 b2 lpos i H x;
    [apply H |].
  cbn [LZd_copy_bytewise]. apply IH. intros y. unfold aset. rewrite (H i), (H y).
  reflexivity.
Qed.

Lemma LZd_copy_bytewise_frame (n : nat) (buffer : array) (lpos i x : Z) :
  0 <= lpos -> lpos + Z.of_nat n <= 0xFFFFFFFF ->
  x < lpos \/ lpos + Z.of_nat n <= x ->
  LZd_copy_bytewise n buffer lpos i x = buffer x.
Proof.
  revert buffer lpos i. induction n as [| n IH]; intros buffer lpos i H0 H1 Hx;
    [reflexivity |].
  cbn [LZd_copy_bytewise]. rewrite (u32_small (lpos + 1)) by lia.
  rewrite IH by lia. unfold aset.
  destruct (Z.eqb_spec x lpos); [lia | reflexivity].
Qed.

(** Without overlap the loop copies what [memcpy] copies. *)
Lemma LZd_copy_bytewise_memcpy (n : nat) (buffer : array) (lpos i : Z) :
  0 <= lpos -> lpos + Z.of_nat n <= 0xFFFFFFFF ->
  0 <= i -> i + Z.of_nat n <= 0xFFFFFFFF ->
  i + Z.of_nat n <= lpos \/ lpos + Z.of_nat n <= i ->
  forall x, LZd_copy_bytewise n buffer lpos i x =
            amemcpy buffer lpos i (Z.of_nat n) x.
Proof.
  revert buffer lpos i. induction n as [| n IH];
    intros buffer lpos i H0 H1 H2 H3 Hd x.
  - cbn [LZd_copy_bytewise]. unfold amemcpy.
    destruct (Z.leb_spec lpos x); destruct (Z.ltb_spec x (lpos + Z.of_nat 0));
      cbn [andb]; try reflexivity. lia.
  - cbn [LZd_copy_bytewise].
    rewrite (u32_small (lpos + 1)), (u32_small (i + 1)) by lia.
    rewrite IH by lia. unfold amemcpy, aset.
    destruct (Z.leb_spec (lpos + 1) x); destruct (Z.ltb_spec x (lpos + 1 + Z.of_nat n));
      destruct (Z.leb_spec lpos x); destruct (Z.ltb_spec x (lpos + Z.of_nat (S n)));
      cbn [andb]; try lia;
      repeat match goal with
             | |- context [?a =? ?b] => destruct (Z.eqb_spec a b)
             end;
      try lia; try reflexivity; try (f_equal; lia).
Qed.

(** Where the place written does not wrap, [LZd_put_byte] only stores the
    byte, moves [put] and updates the CRC. *)
Lemma LZd_put_byte_nowrap (d : LZ_decoder) (b : Z) :
  Cb_wf (lzd_cb d) -> cb_put (lzd_cb d) + 1 < cb_buffer_size (lzd_cb d) ->
  LZd_put_byte d b =
  lzd_with_cb (lzd_with_crc d (CRC32_update_byte (lzd_crc d) b))
    (cb_with_put (cb_with_buffer (lzd_cb d)
                    (aset (cb_buffer (lzd_cb d)) (cb_put (lzd_cb d)) (u8 b)))
                 (cb_put (lzd_cb d) + 1)).
Proof.
  intros (Hs & Hg & Hp) H. unfold LZd_put_byte. cbv zeta.
  cbn [lzd_cb lzd_with_crc lzd_with_cb cb_put cb_with_put cb_with_buffer
       cb_buffer_size cb_buffer].
  rewrite u32_small by lia.
  destruct (Z.leb_spec (cb_buffer_size (lzd_cb d)) (cb_put (lzd_cb d) + 1)); [lia |].
  destruct d as [cb ? ? ? ? ? ? ? ? ? ? ? ? ? ? ? ? ? ? ? ? ? ? ?].
  destruct cb. reflexivity.
Qed.

Lemma LZd_copy_wrapping_nowrap (n : nat) (d : LZ_decoder) (i : Z) :
  Cb_wf (lzd_cb d) ->
  cb_put (lzd_cb d) + Z.of_nat n < cb_buffer_size (lzd_cb d) ->
  LZd_copy_wrapping n d i =
  lzd_with_cb (lzd_with_crc d (lzd_crc (LZd_copy_wrapping n d i)))
    (cb_with_put (cb_with_buffer (lzd_cb d)
                    (cb_buffer (lzd_cb (LZd_copy_wrapping n d i))))
                 (cb_put (lzd_cb d) + Z.of_nat n)).
Proof.
  revert d i. induction n as [| n IH]; intros d i Hwf Hn.
  - cbn [LZd_copy_wrapping]. change (Z.of_nat 0) with 0. rewrite Z.add_0_r.
    destruct d as [cb ? ? ? ? ? ? ? ? ? ? ? ? ? ? ? ? ? ? ? ? ? ? ?].
    destruct cb. reflexivity.
  - cbn [LZd_copy_wrapping]. cbv zeta.
    set (b := cb_buffer (lzd_cb d) i).
    pose proof (LZd_put_byte_nowrap d b Hwf ltac:(lia)) as Hpb.
    pose proof (LZd_put_byte_wf d b Hwf) as Hwf1.
    set (d1 := LZd_put_byte d b) in *.
    set (i1 := if cb_buffer_size (lzd_cb d1) <=? u32 (i + 1) then 0 else u32 (i + 1)).
    assert (Hput1 : cb_put (lzd_cb d1) = cb_put (lzd_cb d) + 1)
      by (rewrite Hpb; reflexivity).
    assert (Hbs1 : cb_buffer_size (lzd_cb d1) = cb_buffer_size (lzd_cb d))
      by (rewrite Hpb; reflexivity).
    rewrite (IH d1 i1 Hwf1) at 1 by (rewrite Hput1, Hbs1; lia).
    generalize (lzd_crc (LZd_copy_wrapping n d1 i1)).
    generalize (cb_buffer (lzd_cb (LZd_copy_wrapping n d1 i1))).
    intros bW cW. rewrite Hput1.
    replace (cb_put (lzd_cb d) + 1 + Z.of_nat n)
      with (cb_put (lzd_cb d) + Z.of_nat (S n)) by lia.
    clearbody d1. subst d1. reflexivity.
Qed.

Lemma LZd_copy_wrapping_bytewise (n : nat) (d : LZ_decoder) (i : Z) :
  Cb_wf (lzd_cb d) -> Cb_bytes (lzd_cb d) ->
  cb_put (lzd_cb d) + Z.of_nat n < cb_buffer_size (lzd_cb d) ->
  0 <= i -> i + Z.of_nat n <= cb_buffer_size (lzd_cb d) ->
  forall x,
    cb_buffer (lzd_cb (LZd_copy_wrapping n d i)) x =
    LZd_copy_bytewise n (cb_buffer (lzd_cb d)) (cb_put (lzd_cb d)) i x.
Proof.
  revert d i. induction n as [| n IH]; intros d i Hwf Hb Hn Hi0 Hi x;
    [reflexivity |].
  cbn [LZd_copy_wrapping LZd_copy_bytewise]. cbv zeta.
  pose proof Hwf as (Hs & Hg & Hp).
  set (b := cb_buffer (lzd_cb d) i).
  pose proof (LZd_put_byte_nowrap d b Hwf ltac:(lia)) as Hpb.
  pose proof (LZd_put_byte_wf d b Hwf) as Hwf1.
  set (d1 := LZd_put_byte d b) in *.
  assert (Hput1 : cb_put (lzd_cb d1) = cb_put (lzd_cb d) + 1)
    by (rewrite Hpb; reflexivity).
  assert (Hbs1 : cb_buffer_size (lzd_cb d1) = cb_buffer_size (lzd_cb d))
    by (rewrite Hpb; reflexivity).
  assert (Hbuf1 : forall y, cb_buffer (lzd_cb d1) y =
                            aset (cb_buffer (lzd_cb d)) (cb_put (lzd_cb d)) b y).
  { intros y. rewrite Hpb. cbn [lzd_cb lzd_with_cb cb_buffer cb_with_put
      cb_with_buffer]. unfold aset.
    destruct (y =? cb_put (lzd_cb d)); [| reflexivity].
    apply u8_small. pose proof (Hb i). unfold b. lia. }
  rewrite Hbs1. rewrite (u32_small (i + 1)), (u32_small (cb_put (lzd_cb d) + 1)) by lia.
  destruct n as [| n].
  { cbn [LZd_copy_wrapping LZd_copy_bytewise]. apply Hbuf1. }
  destruct (Z.leb_spec (cb_buffer_size (lzd_cb d)) (i + 1)); [lia |].
  rewrite (IH d1 (i + 1) Hwf1).
  - rewrite Hput1. apply LZd_copy_bytewise_ext. exact Hbuf1.
  - intros y. rewrite Hbuf1. unfold aset.
    destruct (y =? cb_put (lzd_cb d)); [unfold b |]; apply Hb.
  - rewrite Hput1, Hbs1. lia.
  - lia.
  - rewrite Hbs1. lia.
Qed.

Lemma Cb_ring_ext (b1 b2 : array) (bs s : Z) (n : nat) :
  (forall x, b1 x = b2 x) -> Cb_ring b1 bs s n = Cb_ring b2 bs s n.
Proof. intros H. unfold Cb_ring. apply map_ext. intros k. apply H. Qed.

Lemma LZd_copy_fast_same (d : LZ_decoder) (len i : Z) (memcpy : bool) :
  Cb_wf (lzd_cb d) -> Cb_bytes (lzd_cb d) -> 0 <= len ->
  cb_put (lzd_cb d) + len < cb_buffer_size (lzd_cb d) ->
  0 <= i -> i + len <= cb_buffer_size (lzd_cb d) ->
  (memcpy = true ->
   i + len <= cb_put (lzd_cb d) \/ cb_put (lzd_cb d) + len <= i) ->
  let cb := lzd_cb d in
  let buffer :=
    if memcpy then amemcpy (cb_buffer cb) (cb_put cb) i len
    else LZd_copy_bytewise (Z.to_nat len) (cb_buffer cb) (cb_put cb) i in
  let d1 := lzd_with_cb d (cb_with_buffer cb buffer) in
  let d2 := lzd_with_crc d1 (CRC32_update_buf (lzd_crc d1) buffer (cb_put cb) len) in
  LZd_same_data
    (lzd_with_cb d2 (cb_with_put (lzd_cb d2) (u32 (cb_put cb + len))))
    (LZd_copy_wrapping (Z.to_nat len) d i).
Proof.
  intros Hwf Hb Hlen Hput Hi0 Hi Hm cb buffer d1 d2.
  pose proof Hwf as (Hs & Hg & Hp).
  set (n := Z.to_nat len).
  assert (Hn : Z.of_nat n = len) by (unfold n; lia).
  set (W := LZd_copy_wrapping n d i).
  assert (Hbuf : forall x, buffer x = cb_buffer (lzd_cb W) x).
  { intros x. unfold W.
    rewrite (LZd_copy_wrapping_bytewise n d i Hwf Hb) by lia.
    unfold buffer. destruct memcpy; [| reflexivity].
    specialize (Hm eq_refl).
    rewrite <- Hn. symmetry. apply LZd_copy_bytewise_memcpy; unfold cb; lia. }
  assert (Hcrc : CRC32_update_buf (lzd_crc d) buffer (cb_put cb) len = lzd_crc W).
  { unfold W. rewrite (LZd_copy_wrapping_crc n d i Hwf) by lia.
    unfold CRC32_update_buf. fold n.
    rewrite CRC32_update_buf_loop_fold.
    rewrite <- (Cb_ring_aread buffer (cb_buffer_size (lzd_cb d))) by (unfold cb; lia).
    f_equal. apply Cb_ring_ext. exact Hbuf. }
  pose proof (LZd_copy_wrapping_nowrap n d i Hwf ltac:(lia)) as Hshape.
  fold W in Hshape.
  split.
  - intros x. cbn [lzd_cb lzd_with_cb cb_buffer cb_with_put cb_with_buffer].
    apply Hbuf.
  - unfold d2, d1.
    change (lzd_crc (lzd_with_cb d (cb_with_buffer cb buffer))) with (lzd_crc d).
    rewrite Hcrc. rewrite (u32_small (cb_put cb + len)) by (unfold cb; lia).
    rewrite <- Hn.
    generalize dependent W. intros W Hbuf Hcrc Hshape.
    rewrite Hshape at 3 4. reflexivity.
Qed.

Lemma LZd_same_data_refl (d : LZ_decoder) : LZd_same_data d d.
Proof.
  split; [reflexivity |].
  destruct d as [cb ? ? ? ? ? ? ? ? ? ? ? ? ? ? ? ? ? ? ? ? ? ? ?].
  destruct cb. reflexivity.
Qed.

Lemma LZd_copy_block_reference (d : LZ_decoder) (distance len : Z) :
  Cb_wf (lzd_cb d) -> Cb_bytes (lzd_cb d) ->
  0 <= distance <= cb_buffer_size (lzd_cb d) - 2 ->
  0 <= len ->
  LZd_same_data (LZd_copy_block d distance len)
                (LZd_copy_reference (Z.to_nat len) d distance).
Proof.
  intros Hwf Hb Hd Hl. pose proof Hwf as (Hs & Hg & Hp).
  set (bs := cb_buffer_size (lzd_cb d)) in *.
  set (lpos := cb_put (lzd_cb d)) in *.
  rewrite <- (LZd_copy_wrapping_reference (Z.to_nat len) d
                ((lpos - distance - 1) mod bs) distance Hwf)
    by (try reflexivity; fold bs; lia).
  unfold LZd_copy_block. cbv zeta. fold bs lpos.
  destruct (Z.ltb_spec distance lpos) as [E1 | E1]; cbv beta iota.
  - rewrite (u32_small (lpos - distance - 1)) by lia.
    rewrite (Z.mod_small (lpos - distance - 1)) by lia.
    rewrite (u32_small (bs - lpos)) by lia.
    destruct (Z.ltb_spec len (bs - lpos)) as [E2 | E2].
    + rewrite (u32_small (lpos - (lpos - distance - 1))) by lia.
      cbn [andb].
      apply (LZd_copy_fast_same d len (lpos - distance - 1)
               (len <=? lpos - (lpos - distance - 1)) Hwf Hb Hl);
        fold bs lpos; try lia;
        try (intros H; apply Z.leb_le in H; lia).
    + cbn [andb]. apply LZd_same_data_refl.
  - assert (Hi : u32 (u32 (lpos - distance - 1) + bs) = lpos + bs - distance - 1).
    { unfold u32. rewrite Zplus_mod_idemp_l.
      replace (lpos - distance - 1 + bs) with (lpos + bs - distance - 1) by lia.
      apply Z.mod_small. change (2 ^ 32) with 4294967296. lia. }
    rewrite Hi.
    assert (Hi0 : (lpos - distance - 1) mod bs = lpos + bs - distance - 1).
    { replace (lpos - distance - 1) with (lpos + bs - distance - 1 + (-1) * bs) by lia.
      rewrite Z.mod_add by lia. apply Z.mod_small. lia. }
    rewrite Hi0.
    rewrite (u32_small (bs - (lpos + bs - distance - 1))) by lia.
    destruct (Z.ltb_spec len (bs - (lpos + bs - distance - 1))) as [E2 | E2].
    + rewrite (u32_small (lpos + bs - distance - 1 - lpos)) by lia.
      cbn [andb].
      apply (LZd_copy_fast_same d len (lpos + bs - distance - 1)
               (len <=? lpos + bs - distance - 1 - lpos) Hwf Hb Hl);
        fold bs lpos; try lia;
        try (intros H; apply Z.leb_le in H; lia).
    + cbn [andb]. apply LZd_same_data_refl.
Qed.

(** X13: however [LZd_copy_block] copies a match - with [memcpy], with the
    loop over overlapping areas, or byte by byte around the end of the
    block - the decoder it leaves is the one that results from appending
    [len] times the byte [distance + 1] places back: the same block, the
    same [put] and data position, the same CRC. *)
Theorem LZd_copy_block_is_bytewise_copy (d : LZ_decoder) (distance len : Z) :
  Cb_wf (lzd_cb d) -> Cb_bytes (lzd_cb d) ->
  0 <= distance <= cb_buffer_size (lzd_cb d) - 2 ->
  0 <= len ->
  LZd_same_data (LZd_copy_block d distance len)
                (LZd_copy_reference (Z.to_nat len) d distance).
Proof. exact (LZd_copy_block_reference d distance len). Qed.

Lemma LZd_copy_block_is_bytewise_copy_witness :
  LZd_same_data (LZd_copy_block (small_decoder [1; 2; 3] 16 3) 1 9)
                (LZd_copy_reference (Z.to_nat 9) (small_decoder [1; 2; 3] 16 3) 1).
Proof.
  apply (LZd_copy_block_is_bytewise_copy (small_decoder [1; 2; 3] 16 3) 1 9).
  - unfold Cb_wf. cbn [small_decoder lzd_cb cb_buffer_size cb_get cb_put]. lia.
  - intros x. cbn [small_decoder lzd_cb cb_buffer]. unfold awrite, fresh_block.
    destruct ((0 <=? x) && (x <? 0 + Z.of_nat (length [1; 2; 3]))); [| lia].
    destruct (Z.to_nat (x - 0)) as [| [| [| k]]]; cbn [nth]; try lia.
    destruct k; lia.
  - cbn [small_decoder lzd_cb cb_buffer_size]. lia.
  - lia.
Defined.

(** ** One round of the LZ decoder *)

Lemma Rd_decode_tree3_range (rdec : Range_decoder) (bm : array) (off : Z) :
  0 <= fst (fst (Rd_decode_tree3 rdec bm off)) < 8.
Proof.
  unfold Rd_decode_tree3.
  repeat (match goal with
          | |- context [Rd_decode_bit_at ?r ?a ?i] =>
              destruct (Rd_decode_bit_at r a i) as [[? ?] ?]
          end).
  cbn [fst]. apply (land_mask_range _ 3). lia.
Qed.

Lemma Rd_decode_tree8_range (rdec : Range_decoder) (bm : array) (off : Z) :
  0 <= fst (fst (Rd_decode_tree8 rdec bm off)) < 256.
Proof.
  unfold Rd_decode_tree8.
  destruct (Rd_decode_tree8_loop 8 rdec bm off 1) as [[s r] a].
  cbn [fst]. apply (land_mask_range _ 8). lia.
Qed.

Lemma Rd_decode_matched_loop_range (fuel : nat) (rdec : Range_decoder) (bm : array)
    (off match_byte symbol mask : Z) :
  0 <= fst (fst (Rd_decode_matched_loop fuel rdec bm off match_byte symbol mask))
    < 256.
Proof.
  revert rdec bm match_byte symbol mask.
  induction fuel as [| fuel IH]; intros rdec bm match_byte symbol mask.
  - cbn [Rd_decode_matched_loop fst]. apply (land_mask_range _ 8). lia.
  - cbn [Rd_decode_matched_loop]. cbv zeta.
    destruct (Rd_decode_bit_at _ _ _) as [[bit r] a].
    destruct (0xFF <? _).
    + cbn [fst]. apply (land_mask_range _ 8). lia.
    + apply IH.
Qed.

Lemma Rd_decode_matched_range (rdec : Range_decoder) (bm : array)
    (off match_byte : Z) :
  0 <= fst (fst (Rd_decode_matched rdec bm off match_byte)) < 256.
Proof. apply Rd_decode_matched_loop_range. Qed.

Lemma Rd_decode_len_range (rdec : Range_decoder) (lm : Len_model) (pos_state : Z) :
  0 <= fst (fst (Rd_decode_len rdec lm pos_state)) < max_len_symbols.
Proof.
  unfold Rd_decode_len. change max_len_symbols with 272.
  change len_low_symbols with 8. change len_mid_symbols with 8.
  destruct (Rd_decode_bit rdec (lm_choice1 lm)) as [[bit r] c1]. cbv zeta.
  destruct (bit =? 0).
  - match goal with
    | |- context [Rd_decode_tree3 ?r ?a ?o] =>
        pose proof (Rd_decode_tree3_range r a o) as H;
        destruct (Rd_decode_tree3 r a o) as [[s r1] a1]
    end.
    cbn [fst] in *. lia.
  - cbn [lm_choice2].
    destruct (Rd_decode_bit r (lm_choice2 lm)) as [[bit2 r2] c2].
    destruct (bit2 =? 0).
    + match goal with
      | |- context [Rd_decode_tree3 ?r ?a ?o] =>
          pose proof (Rd_decode_tree3_range r a o) as H;
          destruct (Rd_decode_tree3 r a o) as [[s r1] a1]
      end.
      cbn [fst] in *. rewrite u32_small by lia. lia.
    + match goal with
      | |- context [Rd_decode_tree8 ?r ?a ?o] =>
          pose proof (Rd_decode_tree8_range r a o) as H;
          destruct (Rd_decode_tree8 r a o) as [[s r1] a1]
      end.
      cbn [fst] in *. rewrite u32_small by lia. lia.
Qed.

Ltac lzd_simpl :=
  cbn [lzd_cb lzd_partial_data_pos lzd_dictionary_size lzd_crc
       lzd_member_finished lzd_verify_trailer_pending lzd_pos_wrapped
       lzd_rep0 lzd_rep1 lzd_rep2 lzd_rep3 lzd_state
       lzd_with_cb lzd_with_partial_data_pos lzd_with_dictionary_size
       lzd_with_crc lzd_with_member_finished lzd_with_verify_trailer_pending
       lzd_with_pos_wrapped lzd_with_rep0 lzd_with_rep1 lzd_with_rep2
       lzd_with_rep3 lzd_with_state lzd_with_bm_literal lzd_with_bm_match
       lzd_with_bm_rep lzd_with_bm_rep0 lzd_with_bm_rep1 lzd_with_bm_rep2
       lzd_with_bm_len lzd_with_bm_dis_slot lzd_with_bm_dis lzd_with_bm_align
       lzd_with_match_len_model lzd_with_rep_len_model] in *.

(** The fields of the decoder that [LZd_put_byte] leaves alone. *)
Lemma LZd_put_byte_fields (d : LZ_decoder) (b : Z) :
  lzd_dictionary_size (LZd_put_byte d b) = lzd_dictionary_size d /\
  lzd_rep0 (LZd_put_byte d b) = lzd_rep0 d /\
  lzd_rep1 (LZd_put_byte d b) = lzd_rep1 d /\
  lzd_rep2 (LZd_put_byte d b) = lzd_rep2 d /\
  lzd_rep3 (LZd_put_byte d b) = lzd_rep3 d /\
  lzd_state (LZd_put_byte d b) = lzd_state d.
Proof.
  unfold LZd_put_byte. cbv zeta.
  match goal with |- context [if ?c then _ else _] => destruct c end;
    repeat split; reflexivity.
Qed.

Lemma LZd_put_byte_bytes (d : LZ_decoder) (b : Z) :
  Cb_bytes (lzd_cb d) -> Cb_bytes (lzd_cb (LZd_put_byte d b)).
Proof.
  intros H x. rewrite LZd_put_byte_buffer.
  destruct (x =? cb_put (lzd_cb d)); [| apply H].
  pose proof (u8_range b). lia.
Qed.

Lemma LZd_put_byte_content (d : LZ_decoder) (b : Z) :
  Cb_wf (lzd_cb d) -> 0 < Cb_free_bytes (lzd_cb d) ->
  Cb_used_bytes (lzd_cb (LZd_put_byte d b)) = Cb_used_bytes (lzd_cb d) + 1 /\
  Cb_content (lzd_cb (LZd_put_byte d b)) = Cb_content (lzd_cb d) ++ [u8 b].
Proof.
  intros Hwf Hf. pose proof Hwf as (Hs & Hg & Hp).
  destruct (Cb_appended (lzd_cb d) (lzd_cb (LZd_put_byte d b)) [u8 b] Hwf)
    as (_ & H2 & H3).
  - cbn [length]. lia.
  - apply LZd_put_byte_buffer_size.
  - apply LZd_put_byte_get.
  - cbn [length]. apply LZd_put_byte_put. exact Hwf.
  - intros j Hj. cbn [length] in Hj. assert (j = 0) by lia. subst j.
    rewrite Z.add_0_r, Z.mod_small by lia. rewrite LZd_put_byte_buffer.
    rewrite Z.eqb_refl. reflexivity.
  - intros x Hx. rewrite LZd_put_byte_buffer.
    destruct (Z.eqb_spec x (cb_put (lzd_cb d))) as [E | E]; [| reflexivity].
    exfalso. apply (Hx 0); [cbn [length]; lia |].
    rewrite Z.add_0_r, Z.mod_small by lia. exact E.
  - cbn [length] in H2. split; assumption.
Qed.

Lemma LZd_copy_reference_appends (n : nat) (d : LZ_decoder) (distance : Z) :
  Cb_wf (lzd_cb d) -> Cb_bytes (lzd_cb d) ->
  Z.of_nat n <= Cb_free_bytes (lzd_cb d) ->
  let d' := LZd_copy_reference n d distance in
  Cb_wf (lzd_cb d') /\ Cb_bytes (lzd_cb d') /\
  (exists new : list Z,
     length new = n /\ all_bytes new /\
     Cb_content (lzd_cb d') = Cb_content (lzd_cb d) ++ new) /\
  Cb_used_bytes (lzd_cb d') = Cb_used_bytes (lzd_cb d) + Z.of_nat n /\
  LZd_data_position d' = u64 (LZd_data_position d + Z.of_nat n) /\
  cb_get (lzd_cb d') = cb_get (lzd_cb d) /\
  cb_buffer_size (lzd_cb d') = cb_buffer_size (lzd_cb d) /\
  lzd_dictionary_size d' = lzd_dictionary_size d /\
  lzd_rep0 d' = lzd_rep0 d /\ lzd_rep1 d' = lzd_rep1 d /\
  lzd_rep2 d' = lzd_rep2 d /\ lzd_rep3 d' = lzd_rep3 d /\
  lzd_state d' = lzd_state d.
Proof.
  revert d. induction n as [| n IH]; intros d Hwf Hb Hn d'; subst d'.
  - cbn [LZd_copy_reference]. change (Z.of_nat 0) with 0. rewrite !Z.add_0_r.
    split; [exact Hwf |]. split; [exact Hb |].
    split; [exists []; rewrite app_nil_r; repeat split; constructor |].
    split; [reflexivity |].
    split; [unfold LZd_data_position, u64; symmetry; apply Z.mod_mod; lia |].
    repeat split; reflexivity.
  - cbn [LZd_copy_reference].
    set (b := LZd_peek d distance).
    pose proof (LZd_put_byte_wf d b Hwf) as Hwf1.
    pose proof (LZd_put_byte_bytes d b Hb) as Hb1.
    destruct (LZd_put_byte_content d b Hwf ltac:(lia)) as (Hu1 & Hc1).
    pose proof (LZd_put_byte_data_position d b Hwf) as Hdp1.
    pose proof (LZd_put_byte_get d b) as Hg1.
    pose proof (LZd_put_byte_buffer_size d b) as Hs1.
    destruct (LZd_put_byte_fields d b) as (F0 & F1 & F2 & F3 & F4 & F5).
    pose proof (Cb_used_free _ Hwf) as Huf. pose proof (Cb_used_free _ Hwf1) as Huf1.
    set (d1 := LZd_put_byte d b) in *.
    destruct (IH d1 Hwf1 Hb1 ltac:(lia))
      as (I1 & I2 & (new & N1 & N2 & N3) & I4 & I5 & I6 & I7 & I8 & I9 & I10 & I11
          & I12 & I13).
    split; [exact I1 |]. split; [exact I2 |]. split.
    { exists (u8 b :: new). split; [cbn [length]; lia |]. split.
      - constructor; [pose proof (u8_range b); lia | exact N2].
      - rewrite N3, Hc1, <- app_assoc. reflexivity. }
    split; [lia |]. split.
    { rewrite I5, Hdp1, u64_add_u64. f_equal. lia. }
    repeat split; congruence.
Qed.

Lemma LZd_same_data_transfer (d1 d2 : LZ_decoder) :
  LZd_same_data d1 d2 ->
  (Cb_wf (lzd_cb d2) -> Cb_wf (lzd_cb d1)) /\
  (Cb_bytes (lzd_cb d2) -> Cb_bytes (lzd_cb d1)) /\
  Cb_content (lzd_cb d1) = Cb_content (lzd_cb d2) /\
  Cb_used_bytes (lzd_cb d1) = Cb_used_bytes (lzd_cb d2) /\
  LZd_data_position d1 = LZd_data_position d2 /\
  cb_get (lzd_cb d1) = cb_get (lzd_cb d2) /\
  cb_buffer_size (lzd_cb d1) = cb_buffer_size (lzd_cb d2) /\
  lzd_dictionary_size d1 = lzd_dictionary_size d2 /\
  lzd_rep0 d1 = lzd_rep0 d2 /\ lzd_rep1 d1 = lzd_rep1 d2 /\
  lzd_rep2 d1 = lzd_rep2 d2 /\ lzd_rep3 d1 = lzd_rep3 d2 /\
  lzd_state d1 = lzd_state d2.
Proof.
  intros (Hbuf & Heq).
  assert (Hget : cb_get (lzd_cb d1) = cb_get (lzd_cb d2)) by (rewrite Heq; reflexivity).
  assert (Hput : cb_put (lzd_cb d1) = cb_put (lzd_cb d2)) by (rewrite Heq; reflexivity).
  assert (Hbs : cb_buffer_size (lzd_cb d1) = cb_buffer_size (lzd_cb d2))
    by (rewrite Heq; reflexivity).
  assert (Hused : Cb_used_bytes (lzd_cb d1) = Cb_used_bytes (lzd_cb d2))
    by (unfold Cb_used_bytes; rewrite Hget, Hput, Hbs; reflexivity).
  split; [unfold Cb_wf; rewrite Hget, Hput, Hbs; tauto |].
  split; [intros H x; rewrite Hbuf; apply H |].
  split.
  { unfold Cb_content. rewrite Hused, Hget, Hbs. apply Cb_ring_ext. exact Hbuf. }
  split; [exact Hused |].
  split.
  { unfold LZd_data_position. rewrite Hput. f_equal. f_equal.
    rewrite Heq. reflexivity. }
  split; [exact Hget |]. split; [exact Hbs |].
  repeat split; rewrite Heq; reflexivity.
Qed.

Lemma LZd_copy_block_appends (d : LZ_decoder) (distance len : Z) :
  Cb_wf (lzd_cb d) -> Cb_bytes (lzd_cb d) ->
  0 <= distance <= cb_buffer_size (lzd_cb d) - 2 ->
  0 <= len <= Cb_free_bytes (lzd_cb d) ->
  let d' := LZd_copy_block d distance len in
  Cb_wf (lzd_cb d') /\ Cb_bytes (lzd_cb d') /\
  (exists new : list Z,
     Z.of_nat (length new) = len /\ all_bytes new /\
     Cb_content (lzd_cb d') = Cb_content (lzd_cb d) ++ new) /\
  Cb_used_bytes (lzd_cb d') = Cb_used_bytes (lzd_cb d) + len /\
  LZd_data_position d' = u64 (LZd_data_position d + len) /\
  cb_get (lzd_cb d') = cb_get (lzd_cb d) /\
  cb_buffer_size (lzd_cb d') = cb_buffer_size (lzd_cb d) /\
  lzd_dictionary_size d' = lzd_dictionary_size d /\
  lzd_rep0 d' = lzd_rep0 d /\ lzd_rep1 d' = lzd_rep1 d /\
  lzd_rep2 d' = lzd_rep2 d /\ lzd_rep3 d' = lzd_rep3 d /\
  lzd_state d' = lzd_state d.
Proof.
  intros Hwf Hb Hd Hl d'. subst d'.
  pose proof (LZd_copy_block_reference d distance len Hwf Hb Hd ltac:(lia)) as Hsame.
  destruct (LZd_same_data_transfer _ _ Hsame)
    as (T1 & T2 & T3 & T4 & T5 & T6 & T7 & T8 & T9 & T10 & T11 & T12 & T13).
  destruct (LZd_copy_reference_appends (Z.to_nat len) d distance Hwf Hb ltac:(lia))
    as (I1 & I2 & (new & N1 & N2 & N3) & I4 & I5 & I6 & I7 & I8 & I9 & I10 & I11
        & I12 & I13).
  rewrite Z2Nat.id in I4, I5 by lia.
  split; [apply T1; exact I1 |]. split; [apply T2; exact I2 |].
  split; [exists new; split; [lia | split; [exact N2 | congruence]] |].
  repeat split; congruence.
Qed.

Lemma LZd_inv_fields (d d0 : LZ_decoder) :
  LZd_inv d ->
  lzd_cb d0 = lzd_cb d ->
  lzd_dictionary_size d0 = lzd_dictionary_size d ->
  0 <= lzd_rep0 d0 < lzd_dictionary_size d ->
  0 <= lzd_rep1 d0 < lzd_dictionary_size d ->
  0 <= lzd_rep2 d0 < lzd_dictionary_size d ->
  0 <= lzd_rep3 d0 < lzd_dictionary_size d ->
  0 <= lzd_state d0 < states ->
  LZd_inv d0.
Proof.
  intros (H1 & H2 & H3 & _) Hcb Hds R0 R1 R2 R3 Hst. unfold LZd_inv.
  rewrite Hcb, Hds.
  split; [exact H1 |]. split; [exact H2 |]. split; [exact H3 |].
  split; [exact R0 |]. split; [exact R1 |]. split; [exact R2 |].
  split; [exact R3 | exact Hst].
Qed.

Lemma LZd_extends_refl (d : LZ_decoder) : LZd_extends d d.
Proof.
  exists []. cbn [length]. change (Z.of_nat 0) with 0.
  rewrite app_nil_r, !Z.add_0_r.
  split; [change max_match_len with 273; lia |]. split; [constructor |].
  split; [reflexivity |]. split; [reflexivity |].
  split; [unfold LZd_data_position, u64; symmetry; apply Z.mod_mod; lia |].
  repeat split; reflexivity.
Qed.

Lemma LZd_put_byte_step (d : LZ_decoder) (b : Z) :
  LZd_inv d -> 0 < Cb_free_bytes (lzd_cb d) ->
  LZd_inv (LZd_put_byte d b) /\ LZd_extends d (LZd_put_byte d b).
Proof.
  intros (H1 & H2 & H3 & R0 & R1 & R2 & R3 & Hst) Hf.
  destruct (LZd_put_byte_fields d b) as (F0 & F1 & F2 & F3 & F4 & F5).
  destruct (LZd_put_byte_content d b H1 Hf) as (Hu & Hc).
  pose proof (LZd_put_byte_buffer_size d b) as Hs.
  split.
  - unfold LZd_inv. rewrite F0, F1, F2, F3, F4, F5, Hs.
    split; [apply LZd_put_byte_wf; exact H1 |].
    split; [apply LZd_put_byte_bytes; exact H2 |].
    split; [exact H3 |]. split; [exact R0 |]. split; [exact R1 |].
    split; [exact R2 |]. split; [exact R3 | exact Hst].
  - exists [u8 b]. cbn [length]. change (Z.of_nat 1) with 1.
    split; [change max_match_len with 273; lia |].
    split; [constructor; [pose proof (u8_range b); lia | constructor] |].
    split; [exact Hc |]. split; [exact Hu |].
    split; [apply LZd_put_byte_data_position; exact H1 |].
    split; [apply LZd_put_byte_get |]. split; [exact Hs | exact F0].
Qed.

Lemma LZd_copy_block_step (d : LZ_decoder) (len : Z) :
  LZd_inv d -> 0 <= len <= max_match_len ->
  max_match_len <= Cb_free_bytes (lzd_cb d) ->
  LZd_inv (LZd_copy_block d (lzd_rep0 d) len) /\
  LZd_extends d (LZd_copy_block d (lzd_rep0 d) len).
Proof.
  intros (H1 & H2 & H3 & R0 & R1 & R2 & R3 & Hst) Hl Hf.
  destruct (LZd_copy_block_appends d (lzd_rep0 d) len H1 H2 ltac:(lia) ltac:(lia))
    as (I1 & I2 & (new & N1 & N2 & N3) & I4 & I5 & I6 & I7 & I8 & I9 & I10 & I11
        & I12 & I13).
  split.
  - unfold LZd_inv. rewrite I7, I8, I9, I10, I11, I12, I13.
    split; [exact I1 |]. split; [exact I2 |]. split; [exact H3 |].
    split; [exact R0 |]. split; [exact R1 |]. split; [exact R2 |].
    split; [exact R3 | exact Hst].
  - exists new. rewrite N1.
    split; [lia |]. split; [exact N2 |]. split; [exact N3 |].
    split; [exact I4 |]. split; [exact I5 |]. split; [exact I6 |].
    split; [exact I7 | exact I8].
Qed.

(** A decoder that differs from [d] in fields outside the dictionary has
    what [d] has. *)
Lemma LZd_step_from (d d0 d' : LZ_decoder) :
  lzd_cb d0 = lzd_cb d ->
  lzd_partial_data_pos d0 = lzd_partial_data_pos d ->
  lzd_dictionary_size d0 = lzd_dictionary_size d ->
  LZd_inv d' /\ LZd_extends d0 d' -> LZd_inv d' /\ LZd_extends d d'.
Proof.
  intros Hcb Hp Hds [A B]. split; [exact A |].
  unfold LZd_extends, LZd_data_position in *. rewrite Hcb, Hp, Hds in B. exact B.
Qed.

Lemma LZd_decode_literal_step (rdec : Range_decoder) (d : LZ_decoder) :
  LZd_inv d -> 0 < Cb_free_bytes (lzd_cb d) ->
  LZd_inv (snd (LZd_decode_literal rdec d)) /\
  LZd_extends d (snd (LZd_decode_literal rdec d)).
Proof.
  intros Hinv Hf. pose proof Hinv as (H1 & H2 & H3 & R0 & R1 & R2 & R3 & Hst).
  change states with 12 in Hst.
  unfold LZd_decode_literal. cbv zeta. unfold St_is_char.
  destruct (Z.ltb_spec (lzd_state d) 7).
  - destruct (Rd_decode_tree8 _ _ _) as [[s r] a]. cbn [snd].
    match goal with
    | |- LZd_inv (LZd_put_byte ?d0 _) /\ _ =>
        apply (LZd_step_from d d0); try reflexivity;
        apply LZd_put_byte_step; [| exact Hf];
        apply (LZd_inv_fields d); try assumption; try reflexivity
    end.
    lzd_simpl. change states with 12.
    destruct (Z.ltb_spec (lzd_state d) 4); lia.
  - destruct (Rd_decode_matched _ _ _ _) as [[s r] a]. cbn [snd].
    match goal with
    | |- LZd_inv (LZd_put_byte ?d0 _) /\ _ =>
        apply (LZd_step_from d d0); try reflexivity;
        apply LZd_put_byte_step; [| exact Hf];
        apply (LZd_inv_fields d); try assumption; try reflexivity
    end.
    lzd_simpl. change states with 12.
    destruct (Z.ltb_spec (lzd_state d) 10); lia.
Qed.

Lemma LZd_decode_rep_step (rdec : Range_decoder) (d : LZ_decoder) (pos_state : Z) :
  LZd_inv d -> 0 < Cb_free_bytes (lzd_cb d) ->
  match LZd_decode_rep rdec d pos_state with
  | (None, _, d') => LZd_inv d' /\ LZd_extends d d'
  | (Some len, _, d') =>
      LZd_inv d' /\ lzd_cb d' = lzd_cb d /\
      lzd_partial_data_pos d' = lzd_partial_data_pos d /\
      lzd_dictionary_size d' = lzd_dictionary_size d /\
      min_match_len <= len <= max_match_len
  end.
Proof.
  intros Hinv Hf. pose proof Hinv as (H1 & H2 & H3 & R0 & R1 & R2 & R3 & Hst).
  change states with 12 in Hst.
  assert (Hrep : 0 <= St_set_rep (lzd_state d) < states).
  { unfold St_set_rep. change states with 12.
    destruct (lzd_state d <? 7); lia. }
  assert (Hshort : 0 <= St_set_short_rep (lzd_state d) < states).
  { unfold St_set_short_rep. change states with 12.
    destruct (lzd_state d <? 7); lia. }
  assert (Hlen : forall r lm ps,
            min_match_len <= u32 (min_match_len + fst (fst (Rd_decode_len r lm ps)))
              <= max_match_len).
  { intros r lm ps. pose proof (Rd_decode_len_range r lm ps) as H.
    change max_len_symbols with 272 in H. change min_match_len with 2.
    change max_match_len with 273. rewrite u32_small by lia. lia. }
  unfold LZd_decode_rep. cbv zeta.
  destruct (Rd_decode_bit_at rdec (lzd_bm_rep0 d) (lzd_state d)) as [[bit r1] a1].
  destruct (bit =? 0).
  - destruct (Rd_decode_bit_at r1 _ _) as [[bit2 r2] a2].
    destruct (bit2 =? 0); cbv beta iota.
    + match goal with
      | |- LZd_inv (LZd_put_byte ?d0 _) /\ _ =>
          apply (LZd_step_from d d0); try reflexivity;
          apply LZd_put_byte_step; [| exact Hf];
          apply (LZd_inv_fields d); try assumption; try reflexivity
      end.
    + match goal with
      | |- context [Rd_decode_len ?r ?lm ?ps] =>
          pose proof (Hlen r lm ps) as Hl;
          destruct (Rd_decode_len r lm ps) as [[s r3] lm3]
      end.
      cbn [fst] in Hl. cbv beta iota.
      split; [| split; [reflexivity | split; [reflexivity | split;
        [reflexivity | exact Hl]]]].
      apply (LZd_inv_fields d); try assumption; try reflexivity.
  - destruct (Rd_decode_bit_at r1 _ _) as [[bit2 r2] a2].
    destruct (bit2 =? 0); cbv beta iota.
    + match goal with
      | |- context [Rd_decode_len ?r ?lm ?ps] =>
          pose proof (Hlen r lm ps) as Hl;
          destruct (Rd_decode_len r lm ps) as [[s r3] lm3]
      end.
      cbn [fst] in Hl. cbv beta iota.
      split; [| split; [reflexivity | split; [reflexivity | split;
        [reflexivity | exact Hl]]]].
      apply (LZd_inv_fields d); try assumption; try reflexivity.
    + destruct (Rd_decode_bit_at r2 _ _) as [[bit3 r3] a3].
      destruct (bit3 =? 0); cbv beta iota.
      * match goal with
        | |- context [Rd_decode_len ?r ?lm ?ps] =>
            pose proof (Hlen r lm ps) as Hl;
            destruct (Rd_decode_len r lm ps) as [[s r4] lm4]
        end.
        cbn [fst] in Hl. cbv beta iota.
        split; [| split; [reflexivity | split; [reflexivity | split;
          [reflexivity | exact Hl]]]].
        apply (LZd_inv_fields d); try assumption; try reflexivity.
      * match goal with
        | |- context [Rd_decode_len ?r ?lm ?ps] =>
            pose proof (Hlen r lm ps) as Hl;
            destruct (Rd_decode_len r lm ps) as [[s r4] lm4]
        end.
        cbn [fst] in Hl. cbv beta iota.
        split; [| split; [reflexivity | split; [reflexivity | split;
          [reflexivity | exact Hl]]]].
        apply (LZd_inv_fields d); try assumption; try reflexivity.
Qed.

Lemma LZd_decode_match_step (rdec : Range_decoder) (d : LZ_decoder) (pos_state : Z) :
  let r := LZd_decode_match rdec d pos_state in
  lzd_cb (snd r) = lzd_cb d /\
  lzd_partial_data_pos (snd r) = lzd_partial_data_pos d /\
  lzd_dictionary_size (snd r) = lzd_dictionary_size d /\
  lzd_pos_wrapped (snd r) = lzd_pos_wrapped d /\
  lzd_rep0 (snd r) = lzd_rep0 d /\ lzd_rep1 (snd r) = lzd_rep1 d /\
  lzd_rep2 (snd r) = lzd_rep2 d /\ lzd_rep3 (snd r) = lzd_rep3 d /\
  lzd_state (snd r) = lzd_state d /\
  match fst (fst r) with
  | LZd_pair len distance =>
      min_match_len <= len <= max_match_len /\ 0 <= distance <= 0xFFFFFFFF
  | LZd_marker len => min_match_len <= len <= max_match_len
  end.
Proof.
  intros r. subst r. unfold LZd_decode_match.
  pose proof (Rd_decode_len_range rdec (lzd_match_len_model d) pos_state) as Hs.
  destruct (Rd_decode_len rdec (lzd_match_len_model d) pos_state) as [[s r1] lm].
  cbn [fst] in Hs. cbv zeta.
  assert (Hl : min_match_len <= u32 (min_match_len + s) <= max_match_len).
  { change max_len_symbols with 272 in Hs. change min_match_len with 2.
    change max_match_len with 273. rewrite u32_small by lia. lia. }
  match goal with
  | |- context [Rd_decode_tree6 ?r ?a ?o] =>
      pose proof (Rd_decode_tree6_range r a o) as Hslot;
      destruct (Rd_decode_tree6 r a o) as [[slot r2] a2]
  end.
  cbn [fst] in Hslot.
  destruct (start_dis_model <=? slot).
  - destruct (slot <? end_dis_model).
    + destruct (Rd_decode_tree_reversed _ _ _ _) as [[s2 r3] a3].
      cbn [fst snd]. repeat split; try reflexivity; try apply Hl;
        apply u32_range.
    + destruct (Rd_decode _ _) as [s2 r3].
      destruct (Rd_decode_tree_reversed4 _ _ _) as [[s3 r4] a4].
      match goal with |- context [?x =? 0xFFFFFFFF] => destruct (x =? 0xFFFFFFFF) end;
        cbn [fst snd]; repeat split; try reflexivity; try apply Hl;
        apply u32_range.
  - cbn [fst snd]. repeat split; try reflexivity; try apply Hl; lia.
Qed.

Lemma LZd_decode_marker_step (rdec : Range_decoder) (d : LZ_decoder) (len : Z) :
  LZd_inv d ->
  LZd_inv (snd (LZd_decode_marker rdec d len)) /\
  LZd_extends d (snd (LZd_decode_marker rdec d len)).
Proof.
  intros Hinv. pose proof Hinv as (H1 & H2 & H3 & R0 & R1 & R2 & R3 & Hst).
  assert (Hfin : forall d0,
            lzd_cb d0 = lzd_cb d ->
            lzd_partial_data_pos d0 = lzd_partial_data_pos d ->
            lzd_dictionary_size d0 = lzd_dictionary_size d ->
            lzd_rep0 d0 = lzd_rep0 d -> lzd_rep1 d0 = lzd_rep1 d ->
            lzd_rep2 d0 = lzd_rep2 d -> lzd_rep3 d0 = lzd_rep3 d ->
            lzd_state d0 = lzd_state d ->
            LZd_inv d0 /\ LZd_extends d d0).
  { intros d0 E1 E2 E3 E4 E5 E6 E7 E8.
    assert (Hinv0 : LZd_inv d0)
      by (apply (LZd_inv_fields d); try assumption; congruence).
    split; [exact Hinv0 |].
    pose proof (LZd_extends_refl d) as B.
    unfold LZd_extends, LZd_data_position in *. rewrite E1, E2, E3. exact B. }
  unfold LZd_decode_marker. cbv zeta.
  destruct (len =? min_match_len).
  - unfold LZd_try_verify_trailer.
    destruct (Rd_available_bytes _ <? Lt_size).
    + cbn [snd]. apply Hfin; reflexivity.
    + cbv zeta. destruct (Rd_read_data _ _) as [[n out] r1].
      match goal with |- context [if ?c then _ else _] => destruct c end;
        cbn [snd]; apply Hfin; reflexivity.
  - destruct (len =? min_match_len + 1).
    + destruct (Rd_try_reload _) as [ok r1].
      destruct ok; [| destruct (negb (rd_at_stream_end r1))]; cbn [snd];
        apply Hfin; reflexivity.
    + cbn [snd]. apply Hfin; reflexivity.
Qed.

Lemma LZd_extends_from (d d0 d' : LZ_decoder) :
  lzd_cb d0 = lzd_cb d ->
  lzd_partial_data_pos d0 = lzd_partial_data_pos d ->
  lzd_dictionary_size d0 = lzd_dictionary_size d ->
  LZd_extends d0 d' -> LZd_extends d d'.
Proof.
  intros Hcb Hp Hds B.
  unfold LZd_extends, LZd_data_position in *. rewrite Hcb, Hp, Hds in B. exact B.
Qed.

Lemma LZd_decode_round_step (rdec : Range_decoder) (d : LZ_decoder) :
  LZd_inv d ->
  LZd_extends d (snd (LZd_decode_round rdec d)) /\
  (fst (fst (LZd_decode_round rdec d)) <> LZd_return 1 ->
   LZd_inv (snd (LZd_decode_round rdec d))).
Proof.
  intros Hinv. pose proof Hinv as (H1 & H2 & H3 & R0 & R1 & R2 & R3 & Hst).
  unfold LZd_decode_round. cbv zeta.
  destruct (negb (Rd_enough_available_bytes rdec) && negb (rd_at_stream_end rdec)).
  { cbn [fst snd]. split; [apply LZd_extends_refl | intros _; exact Hinv]. }
  destruct (negb (Rd_enough_available_bytes rdec) && Cb_empty (rd_cb rdec)).
  { cbn [fst snd]. split; [apply LZd_extends_refl | intros _; exact Hinv]. }
  unfold LZd_enough_free_bytes.
  destruct (Z.leb_spec lzd_min_free_bytes (Cb_free_bytes (lzd_cb d))) as [Hfree | Hfree];
    cbn [negb].
  2: { cbn [fst snd]. split; [apply LZd_extends_refl | intros _; exact Hinv]. }
  change lzd_min_free_bytes with max_match_len in Hfree.
  assert (Hf1 : 0 < Cb_free_bytes (lzd_cb d))
    by (change max_match_len with 273 in Hfree; lia).
  destruct (Rd_decode_bit_at rdec (lzd_bm_match d) _) as [[bit r1] a1].
  destruct (bit =? 0).
  - (* literal *)
    match goal with
    | |- context [LZd_decode_literal ?r ?d0] =>
        destruct (LZd_decode_literal_step r d0) as [A B];
        [apply (LZd_inv_fields d); try assumption; reflexivity | exact Hf1 |];
        destruct (LZd_decode_literal r d0) as [r2 d2]
    end.
    cbn [fst snd] in *. split; [| intros _; exact A].
    eapply LZd_extends_from; [| | | exact B]; reflexivity.
  - destruct (Rd_decode_bit_at r1 _ _) as [[bit2 r2] a2].
    destruct (negb (bit2 =? 0)).
    + (* repeated match *)
      match goal with
      | |- context [LZd_decode_rep ?r ?d0 ?ps] =>
          pose proof (LZd_decode_rep_step r d0 ps) as Hrep;
          destruct (LZd_decode_rep r d0 ps) as [[[len |] r3] d3]
      end.
      * destruct Hrep as (A & C1 & C2 & C3 & C4);
          [apply (LZd_inv_fields d); try assumption; reflexivity | exact Hf1 |].
        cbn [fst snd].
        destruct (LZd_copy_block_step d3 len A) as [A' B'].
        { change min_match_len with 2 in C4. lia. }
        { rewrite C1. exact Hfree. }
        split; [| intros _; exact A'].
        eapply LZd_extends_from; [| | | exact B']; assumption.
      * destruct Hrep as (A & B);
          [apply (LZd_inv_fields d); try assumption; reflexivity | exact Hf1 |].
        cbn [fst snd]. split; [| intros _; exact A].
        eapply LZd_extends_from; [| | | exact B]; reflexivity.
    + (* match *)
      match goal with
      | |- context [LZd_decode_match ?r ?d0 ?ps] =>
          pose proof (LZd_decode_match_step r d0 ps) as Hm;
          destruct (LZd_decode_match r d0 ps) as [[m r3] d3]
      end.
      cbv zeta in Hm. cbn [fst snd] in Hm.
      destruct Hm as (M1 & M2 & M3 & M4 & M5 & M6 & M7 & M8 & M9 & Hm).
      lzd_simpl.
      assert (Hinv3 : LZd_inv d3)
        by (apply (LZd_inv_fields d); try assumption; congruence).
      destruct m as [len distance | len].
      * destruct Hm as [Hlen Hdis].
        destruct (Z.leb_spec (lzd_dictionary_size d3) distance) as [Hbad | Hok];
          cbn [orb].
        { cbn [fst snd]. split; [| intros H; exfalso; apply H; reflexivity].
          pose proof (LZd_extends_refl d) as B.
          unfold LZd_extends, LZd_data_position in *. lzd_simpl.
          rewrite M1, M2, M3. exact B. }
        match goal with |- context [if ?c then _ else _] => destruct c end.
        { cbn [fst snd]. split; [| intros H; exfalso; apply H; reflexivity].
          pose proof (LZd_extends_refl d) as B.
          unfold LZd_extends, LZd_data_position in *. lzd_simpl.
          rewrite M1, M2, M3. exact B. }
        cbn [fst snd].
        match goal with
        | |- context [LZd_copy_block ?d4 _ len] =>
            assert (Hinv4 : LZd_inv d4);
            [apply (LZd_inv_fields d); lzd_simpl; try assumption; try congruence;
             try lia;
             try (unfold St_set_match; change states with 12;
                  destruct (lzd_state d <? 7); lia)
            | destruct (LZd_copy_block_step d4 len Hinv4) as [A' B']]
        end.
        { change min_match_len with 2 in Hlen. lia. }
        { lzd_simpl. rewrite M1. exact Hfree. }
        lzd_simpl.
        split; [| intros _; exact A'].
        eapply LZd_extends_from; [| | | exact B']; lzd_simpl; assumption.
      * destruct (LZd_decode_marker_step r3 d3 len Hinv3) as [A B].
        destruct (LZd_decode_marker r3 d3 len) as [[flow r4] d4].
        cbn [fst snd] in *. split; [| intros _; exact A].
        eapply LZd_extends_from; [| | | exact B]; assumption.
Qed.

Lemma LZd_init_inv (block : array) (dict_size : Z) (d : LZ_decoder) :
  isvalid_ds dict_size = true -> (forall x, 0 <= block x < 256) ->
  LZd_init (Some block) dict_size = Some d ->
  LZd_inv d /\ Cb_content (lzd_cb d) = [] /\ LZd_data_position d = 0 /\
  lzd_dictionary_size d = dict_size.
Proof.
  intros Hv Hb. unfold isvalid_ds in Hv. apply andb_true_iff in Hv.
  destruct Hv as [Hlo Hhi]. apply Z.leb_le in Hlo, Hhi.
  change min_dictionary_size with 4096 in Hlo.
  change max_dictionary_size with 536870912 in Hhi.
  unfold LZd_init, Cb_init. cbv zeta. change lzd_min_free_bytes with 273.
  rewrite (u32_small (Z.max 65536 dict_size + 273 + 1)) by lia.
  destruct (Z.ltb_spec 1 (Z.max 65536 dict_size + 273 + 1)); [| lia].
  intros Hd. injection Hd as <-.
  unfold LZd_inv, Cb_wf, Cb_bytes, Cb_content, Cb_used_bytes, LZd_data_position.
  lzd_simpl. cbn [cb_buffer cb_buffer_size cb_get cb_put cb_with_buffer].
  change (0 <=? 0) with true. cbv iota. change states with 12.
  split; [| split; [reflexivity | split; [reflexivity | reflexivity]]].
  split; [lia |]. split.
  { intros x. unfold aset. destruct (x =? _); [lia | apply Hb]. }
  repeat split; lia.
Qed.

(** X14: [LZd_init] sets up a sound decoder state, and a round of
    [LZd_decode_member] only appends to the decoded data: whatever the
    input, the bytes held for the caller are kept, at most [max_match_len]
    (273) bytes are added and counted in the data position, and [get] is
    not moved.  Unless the round reports a distance beyond the dictionary
    (result 1), the state stays sound: indices inside the block, cells that
    are bytes, repeated distances below the dictionary size, state below
    12. *)
Theorem LZd_decode_round_appends :
  (forall block dict_size d,
     isvalid_ds dict_size = true -> (forall x, 0 <= block x < 256) ->
     LZd_init (Some block) dict_size = Some d ->
     LZd_inv d /\ Cb_content (lzd_cb d) = [] /\ LZd_data_position d = 0) /\
  (forall rdec d,
     LZd_inv d ->
     LZd_extends d (snd (LZd_decode_round rdec d)) /\
     (fst (fst (LZd_decode_round rdec d)) <> LZd_return 1 ->
      LZd_inv (snd (LZd_decode_round rdec d)))).
Proof.
  split.
  - intros block dict_size d Hv Hb Hi.
    destruct (LZd_init_inv block dict_size d Hv Hb Hi) as (H1 & H2 & H3 & _).
    split; [exact H1 | split; [exact H2 | exact H3]].
  - exact LZd_decode_round_step.
Qed.

Lemma LZd_decode_round_appends_witness :
  LZd_inv fresh_decoder /\
  LZd_extends fresh_decoder
    (snd (LZd_decode_round loaded_range_decoder fresh_decoder)) /\
  (fst (fst (LZd_decode_round loaded_range_decoder fresh_decoder)) <> LZd_return 1 ->
   LZd_inv (snd (LZd_decode_round loaded_range_decoder fresh_decoder))).
Proof.
  destruct LZd_decode_round_appends as [Hinit Hround].
  destruct (Hinit fresh_block 4096 fresh_decoder) as (Hinv & _).
  - reflexivity.
  - intros x. unfold fresh_block. lia.
  - reflexivity.
  - split; [exact Hinv |]. apply Hround. exact Hinv.
Defined.

Lemma LZd_grows_refl (d : LZ_decoder) : LZd_grows d d.
Proof.
  exists []. cbn [length]. change (Z.of_nat 0) with 0.
  rewrite app_nil_r, Z.add_0_r.
  split; [constructor |]. split; [reflexivity |].
  split; [unfold LZd_data_position, u64; symmetry; apply Z.mod_mod; lia |].
  split; reflexivity.
Qed.

Lemma LZd_grows_step (d d1 d2 : LZ_decoder) :
  LZd_extends d d1 -> LZd_grows d1 d2 -> LZd_grows d d2.
Proof.
  intros (n1 & _ & A2 & A3 & _ & A5 & A6 & _ & A8) (n2 & B1 & B2 & B3 & B4 & B5).
  exists (n1 ++ n2).
  split; [unfold all_bytes in *; apply Forall_app; split; assumption |].
  split; [rewrite B2, A3, app_assoc; reflexivity |].
  split.
  { rewrite B3, A5, u64_add_u64, length_app, Nat2Z.inj_add. reflexivity. }
  split; congruence.
Qed.

Lemma LZd_decode_loop_grows (fuel : nat) (rdec : Range_decoder) (d : LZ_decoder)
    (code : Z) (rdec' : Range_decoder) (d' : LZ_decoder) :
  LZd_inv d ->
  LZd_decode_loop fuel rdec d = Some (code, rdec', d') ->
  LZd_grows d d' /\ (code <> 1 -> LZd_inv d').
Proof.
  revert rdec d. induction fuel as [| fuel IH]; intros rdec d Hinv H;
    [discriminate |].
  cbn [LZd_decode_loop] in H.
  destruct (Rd_finished rdec).
  { injection H as <- <- <-. split; [apply LZd_grows_refl | intros _; exact Hinv]. }
  destruct (LZd_decode_round_step rdec d Hinv) as [A B].
  destruct (LZd_decode_round rdec d) as [[flow r1] d1]. cbn [fst snd] in A, B.
  destruct flow as [| | c].
  - destruct (IH r1 d1 (B ltac:(discriminate)) H) as [G I].
    split; [exact (LZd_grows_step d d1 d' A G) | exact I].
  - injection H as <- <- <-.
    split; [exact (LZd_grows_step d d1 d1 A (LZd_grows_refl d1)) |].
    intros _. apply B. discriminate.
  - injection H as <- <- <-.
    split; [exact (LZd_grows_step d d1 d1 A (LZd_grows_refl d1)) |].
    intros Hc. apply B. intros E. injection E as E. exact (Hc E).
Qed.

Lemma LZd_decode_member_grows (fuel : nat) (rdec : Range_decoder) (d : LZ_decoder)
    (code : Z) (rdec' : Range_decoder) (d' : LZ_decoder) :
  LZd_inv d ->
  LZd_decode_member fuel rdec d = Some (code, rdec', d') ->
  LZd_grows d d' /\ (code <> 1 -> LZd_inv d').
Proof.
  intros Hinv. unfold LZd_decode_member.
  destruct (lzd_member_finished d).
  { intros H. injection H as <- <- <-.
    split; [apply LZd_grows_refl | intros _; exact Hinv]. }
  destruct (Rd_try_reload rdec) as [ok r1].
  destruct (negb ok).
  { intros H. injection H as <- <- <-.
    split; [apply LZd_grows_refl | intros _; exact Hinv]. }
  destruct (lzd_verify_trailer_pending d).
  - unfold LZd_try_verify_trailer.
    destruct (Rd_available_bytes r1 <? Lt_size).
    + intros H. injection H as <- <- <-.
      split; [apply LZd_grows_refl | intros _; exact Hinv].
    + cbv zeta. destruct (Rd_read_data r1 Lt_size) as [[n out] r2].
      pose proof Hinv as (H1 & H2 & H3 & R0 & R1 & R2 & R3 & Hst).
      match goal with |- context [if ?c then _ else _] => destruct c end;
        intros H; injection H as <- <- <-;
        (split;
         [pose proof (LZd_grows_refl d) as G;
          unfold LZd_grows, LZd_data_position in *; lzd_simpl; exact G
         | intros _; apply (LZd_inv_fields d); try assumption; reflexivity]).
  - apply LZd_decode_loop_grows. exact Hinv.
Qed.

(** X15: a call of [LZd_decode_member] never loses decoded data: when it
    returns, the buffer holds the bytes it held before, followed by the
    bytes decoded in the call, which are counted in the data position; and
    unless it returns 1 (distance beyond the dictionary) the state of the
    decoder is sound for the next call. *)
Theorem LZd_decode_member_appends (fuel : nat) (rdec : Range_decoder)
    (d : LZ_decoder) (code : Z) (rdec' : Range_decoder) (d' : LZ_decoder) :
  LZd_inv d ->
  LZd_decode_member fuel rdec d = Some (code, rdec', d') ->
  LZd_grows d d' /\ (code <> 1 -> LZd_inv d').
Proof. exact (LZd_decode_member_grows fuel rdec d code rdec' d'). Qed.

Lemma LZd_decode_member_appends_witness :
  LZd_grows fresh_decoder (snd decoded_start) /\
  (fst (fst decoded_start) <> 1 -> LZd_inv (snd decoded_start)).
Proof.
  apply (LZd_decode_member_appends 4 loaded_range_decoder fresh_decoder
           (fst (fst decoded_start)) (snd (fst decoded_start)) (snd decoded_start)).
  - apply (LZd_init_inv fresh_block 4096 fresh_decoder).
    + reflexivity.
    + intros x. unfold fresh_block. lia.
    + reflexivity.
  - unfold decoded_start.
    destruct (LZd_decode_member 4 loaded_range_decoder fresh_decoder)
      as [[[c r] d] |] eqn:E; [reflexivity |].
    exfalso. vm_compute in E. discriminate E.
Defined.

(** ** The decoder handle *)

Lemma Cb_unread_part (cb : Circular_buffer) (n k : Z) :
  Cb_wf cb -> 0 <= k <= n -> n <= Cb_used_bytes cb ->
  Cb_unread_data (snd (Cb_read_data cb n)) k = (true, snd (Cb_read_data cb (n - k))).
Proof.
  intros Hwf Hk Hn.
  pose proof (Cb_used_bytes_range cb Hwf) as Hu.
  pose proof Hwf as (Hs & Hg & Hp).
  rewrite (Cb_read_data_spec cb n Hwf) by lia.
  rewrite (Cb_read_data_spec cb (n - k) Hwf) by lia.
  cbn [snd]. rewrite !Z.min_r by lia.
  set (g' := (cb_get cb + n) mod cb_buffer_size cb).
  assert (Hwf' : Cb_wf (cb_with_get cb g')).
  { pose proof (Z.mod_pos_bound (cb_get cb + n) (cb_buffer_size cb) ltac:(lia)).
    unfold Cb_wf, cb_with_get. cbn [cb_buffer_size cb_get cb_put]. fold g'. lia. }
  assert (Hused' : Cb_used_bytes (cb_with_get cb g') = Cb_used_bytes cb - n).
  { destruct (Cb_read_data_content cb n Hwf ltac:(lia)) as (_ & _ & _ & H4 & _).
    rewrite (Cb_read_data_spec cb n Hwf) in H4 by lia. cbn [snd] in H4.
    rewrite Z.min_r in H4 by lia. exact H4. }
  pose proof (Cb_used_free _ Hwf') as Huf'.
  change (cb_buffer_size (cb_with_get cb g')) with (cb_buffer_size cb) in Huf'.
  unfold Cb_unread_data.
  destruct (Z.ltb_spec (Cb_free_bytes (cb_with_get cb g')) k); [lia |].
  unfold cb_with_get. cbn [cb_buffer cb_buffer_size cb_get cb_put].
  unfold g'. rewrite (mod_wrap (cb_get cb + n)), (mod_wrap (cb_get cb + (n - k))) by lia.
  destruct (Z.ltb_spec (cb_get cb + n) (cb_buffer_size cb));
    destruct (Z.ltb_spec (cb_get cb + (n - k)) (cb_buffer_size cb));
    match goal with |- context [?a <=? ?b] => destruct (Z.leb_spec a b) end;
    try lia; rewrite u32_small by lia; do 2 f_equal; lia.
Qed.

Ltac ld_simpl :=
  cbn [ld_partial_in_size ld_partial_out_size ld_rdec ld_lz_decoder ld_lz_errno
       ld_member_header ld_fatal ld_first_header ld_seeking
       ld_with_partial_in_size ld_with_partial_out_size ld_with_rdec
       ld_with_lz_decoder ld_with_lz_errno ld_with_member_header ld_with_fatal
       ld_with_first_header ld_with_seeking] in *.

Lemma LZ_decompress_read_header_spec (struct_ok : bool) (block : option array)
    (d : LZ_Decoder) (rdec : Range_decoder) :
  Cb_wf (rd_cb rdec) -> Lh_size + 5 <= Rd_available_bytes rdec ->
  let header := next_header d rdec in
  match LZ_decompress_read_header struct_ok block d rdec with
  | inl (ret, d') =>
      ret = -1 /\ ld_fatal d' = true /\
      ld_lz_errno d' =
        (if negb (Lh_verify_magic header) then
           if ld_first_header d || negb (Lh_verify_corrupt header)
           then LZ_header_error else LZ_data_error
         else if negb (Lh_verify header) then LZ_data_error
         else LZ_mem_error) /\
      (Lh_verify header = true ->
       struct_ok = false \/
       LZd_init block (Lh_get_dictionary_size header) = None) /\
      (Lh_verify_magic header = false ->
       exists r', ld_rdec d' = Some r' /\
                  Cb_content (rd_cb r') = Cb_content (rd_cb rdec) /\
                  rd_member_position r' = 0)
  | inr (d', rdec', lzd) =>
      Lh_verify header = true /\ struct_ok = true /\
      LZd_init block (Lh_get_dictionary_size header) = Some lzd /\
      ld_member_header d' = header /\ ld_first_header d' = false /\
      ld_fatal d' = ld_fatal d /\ ld_lz_errno d' = ld_lz_errno d /\
      rd_reload_pending rdec' = true /\ rd_member_position rdec' = Lh_size /\
      Cb_content (rd_cb rdec') = skipn 6 (Cb_content (rd_cb rdec))
  end.
Proof.
  intros Hwf Hav header. change Lh_size with 6 in *.
  unfold Rd_available_bytes in Hav.
  pose proof (Cb_used_bytes_range _ Hwf) as Hur.
  set (rdec1 := rd_with_member_position rdec 0).
  assert (Hwf1 : Cb_wf (rd_cb rdec1)) by exact Hwf.
  destruct (Rd_read_data_content rdec1 6 Hwf1 ltac:(lia))
    as (K1 & K2 & K3 & K4 & _ & _ & K7 & _).
  pose proof (Rd_unread_after_read rdec1 6 Hwf1 ltac:(lia)
                ltac:(cbn; lia) ltac:(cbn; lia)) as Hunread.
  destruct (Cb_read_data_content (rd_cb rdec) 6 Hwf ltac:(lia))
    as (_ & _ & C3 & C4 & C5 & _).
  unfold Rd_available_bytes in K1, K2, K4.
  change (rd_cb rdec1) with (rd_cb rdec) in K1, K2, K3, K4.
  change (rd_member_position rdec1) with 0 in K4.
  rewrite Z.min_r in * by lia.
  change (0 <? 6) with true in K4. cbv iota in K4.
  rewrite (u64_small (0 + 6)) in K4 by (cbn; lia).
  unfold LZ_decompress_read_header. cbv zeta. fold rdec1.
  change (Rd_available_bytes rdec1) with (Cb_used_bytes (rd_cb rdec)).
  change Lh_size with 6.
  destruct (Z.ltb_spec (Cb_used_bytes (rd_cb rdec)) (6 + 5)) as [? | _]; [lia |].
  cbn [andb].
  assert (Hne : Cb_empty (rd_cb rdec) = false).
  { destruct (Cb_empty (rd_cb rdec)) eqn:E; [| reflexivity].
    apply (Cb_empty_used _ Hwf) in E. lia. }
  unfold Rd_finished at 1. change (rd_cb rdec1) with (rd_cb rdec).
  rewrite Hne, andb_false_r. cbn [andb].
  destruct (Rd_read_data rdec1 6) as [[rd out] rdec2] eqn:Erd.
  cbn [fst snd] in K1, K2, K3, K4, K7, Hunread. subst rd out.
  assert (Hne2 : Cb_empty (rd_cb rdec2) = false).
  { rewrite K3.
    destruct (Cb_empty (snd (Cb_read_data (rd_cb rdec) 6))) eqn:E; [| reflexivity].
    apply (Cb_empty_used _ C3) in E. lia. }
  change (0 + 6) with 6 in K4.
  change (6 <? 6) with false. unfold Rd_finished at 1.
  rewrite Hne2, andb_false_r. cbn [orb].
  ld_simpl.
  change (awrite (ld_member_header d) 0 (firstn (Z.to_nat 6) (Cb_content (rd_cb rdec))))
    with header.
  destruct (Lh_verify_magic header) eqn:Emagic; cbn [negb].
  2: { rewrite Hunread. ld_simpl.
       split; [reflexivity |]. split; [reflexivity |].
       split.
       { destruct (ld_first_header d || negb (Lh_verify_corrupt header)); reflexivity. }
       split; [unfold Lh_verify; rewrite Emagic; discriminate |].
       intros _. exists rdec1.
       split; [destruct (ld_first_header d || negb (Lh_verify_corrupt header));
               reflexivity |].
       split; reflexivity. }
  assert (Hver : Lh_verify header =
                 Lh_verify_version header &&
                 isvalid_ds (Lh_get_dictionary_size header)).
  { unfold Lh_verify. rewrite Emagic. reflexivity. }
  destruct (Lh_verify_version header) eqn:Ev;
    destruct (isvalid_ds (Lh_get_dictionary_size header)) eqn:Eds;
    cbn [negb orb andb b2z] in *.
  - (* a header that verifies *)
    assert (Hav2 : (Rd_available_bytes rdec2 <? 5) = false).
    { unfold Rd_available_bytes. rewrite K3. apply Z.ltb_ge. lia. }
    rewrite Hav2.
    destruct struct_ok.
    + destruct (LZd_init block (Lh_get_dictionary_size header)) as [lzd |] eqn:Ei.
      * ld_simpl. rewrite Hver.
        repeat (split; [reflexivity |]).
        split; [exact K4 |]. cbn [rd_cb rd_with_reload_pending].
        rewrite K3. exact C5.
      * ld_simpl. rewrite Hver. cbn [negb].
        split; [reflexivity |]. split; [reflexivity |]. split; [reflexivity |].
        split; [intros _; right; reflexivity | discriminate].
    + ld_simpl. rewrite Hver. cbn [negb].
      split; [reflexivity |]. split; [reflexivity |]. split; [reflexivity |].
      split; [intros _; left; reflexivity | discriminate].
  - (* a dictionary size that is not valid *)
    unfold Rd_unread_data. rewrite K4. change (6 <? 1 + 0) with false. cbv iota.
    rewrite K3. rewrite (Cb_unread_part (rd_cb rdec) 6 (1 + 0) Hwf) by lia.
    cbn [negb]. ld_simpl. rewrite Hver. cbn [negb].
    split; [reflexivity |]. split; [reflexivity |]. split; [reflexivity |].
    split; discriminate.
  - unfold Rd_unread_data. rewrite K4. change (6 <? 1 + 1) with false. cbv iota.
    rewrite K3. rewrite (Cb_unread_part (rd_cb rdec) 6 (1 + 1) Hwf) by lia.
    cbn [negb]. ld_simpl. rewrite Hver. cbn [negb].
    split; [reflexivity |]. split; [reflexivity |]. split; [reflexivity |].
    split; discriminate.
  - unfold Rd_unread_data. rewrite K4. change (6 <? 1 + 1) with false. cbv iota.
    rewrite K3. rewrite (Cb_unread_part (rd_cb rdec) 6 (1 + 1) Hwf) by lia.
    cbn [negb]. ld_simpl. rewrite Hver. cbn [negb].
    split; [reflexivity |]. split; [reflexivity |]. split; [reflexivity |].
    split; discriminate.
Qed.

Lemma LZ_decompress_read_fresh (fuel : nat) (struct_ok : bool)
    (block : option array) (d : LZ_Decoder) (rdec : Range_decoder) (size : Z) :
  ld_rdec d = Some rdec -> ld_lz_decoder d = None ->
  ld_fatal d = false -> ld_seeking d = false -> 0 <= size ->
  LZ_decompress_read fuel struct_ok block d size =
  match LZ_decompress_read_header struct_ok block d rdec with
  | inl (ret, d) => Some (ret, [], d)
  | inr (d, rdec, lzd) => LZ_decompress_read_member fuel d rdec lzd size
  end.
Proof.
  intros Hr Hl Hf Hs Hsz. unfold LZ_decompress_read, verify_decoder.
  rewrite Hr. cbv beta iota zeta. rewrite Hr. cbn [negb].
  destruct (Z.ltb_spec size 0); [lia |].
  rewrite Hf, Hs, Hl. rewrite Hl. reflexivity.
Qed.

(** X16: what [LZ_decompress_read] reports for a header that does not
    verify, when a whole header and 5 more bytes are in the buffer.  A wrong
    magic gives [LZ_header_error] at the first header, or when fewer than 2
    of its bytes match; at a later member with 2 or 3 matching bytes it
    gives [LZ_data_error]; the 6 bytes are put back.  A right magic followed
    by a wrong version or an invalid dictionary size gives [LZ_data_error].
    In each case the call returns -1 and the handle becomes fatal. *)
Theorem LZ_decompress_read_header_errors (fuel : nat) (struct_ok : bool)
    (block : option array) (d : LZ_Decoder) (rdec : Range_decoder) (size : Z) :
  ld_rdec d = Some rdec -> ld_lz_decoder d = None ->
  ld_fatal d = false -> ld_seeking d = false -> 0 <= size ->
  Cb_wf (rd_cb rdec) -> Lh_size + 5 <= Rd_available_bytes rdec ->
  Lh_verify (next_header d rdec) = false ->
  exists d',
    LZ_decompress_read fuel struct_ok block d size = Some (-1, [], d') /\
    ld_fatal d' = true /\
    LZ_decompress_errno d' =
      (if Lh_verify_magic (next_header d rdec) then LZ_data_error
       else if ld_first_header d || negb (Lh_verify_corrupt (next_header d rdec))
            then LZ_header_error else LZ_data_error) /\
    (Lh_verify_magic (next_header d rdec) = false ->
     exists r', ld_rdec d' = Some r' /\
                Cb_content (rd_cb r') = Cb_content (rd_cb rdec) /\
                rd_member_position r' = 0).
Proof.
  intros Hr Hl Hf Hs Hsz Hwf Hav Hbad.
  rewrite (LZ_decompress_read_fresh fuel struct_ok block d rdec size Hr Hl Hf Hs Hsz).
  pose proof (LZ_decompress_read_header_spec struct_ok block d rdec Hwf Hav) as H.
  cbv zeta in H.
  destruct (LZ_decompress_read_header struct_ok block d rdec)
    as [[ret d'] | [[d' r'] lzd]].
  - destruct H as (H1 & H2 & H3 & _ & H5). subst ret.
    exists d'. split; [reflexivity |]. split; [exact H2 |]. split; [| exact H5].
    unfold LZ_decompress_errno. rewrite H3, Hbad. cbn [negb].
    destruct (Lh_verify_magic (next_header d rdec)); reflexivity.
  - destruct H as (H1 & _). congruence.
Qed.

Lemma LZ_decompress_read_header_errors_witness :
  exists d',
    LZ_decompress_read 1 true (Some fresh_block)
      (decoder_with_input [76; 90; 73; 80; 2; 12; 0; 0; 0; 0; 0; 0] false) 100 =
      Some (-1, [], d') /\
    ld_fatal d' = true /\
    LZ_decompress_errno d' = LZ_data_error.
Proof.
  destruct (LZ_decompress_read_header_errors 1 true (Some fresh_block)
              (decoder_with_input [76; 90; 73; 80; 2; 12; 0; 0; 0; 0; 0; 0] false)
              (mkRd (mkCb (awrite fresh_block 0
                             [76; 90; 73; 80; 2; 12; 0; 0; 0; 0; 0; 0])
                          65547 0 12) 0 0 0xFFFFFFFF false false) 100)
    as (d' & H1 & H2 & H3 & _).
  - reflexivity.
  - reflexivity.
  - reflexivity.
  - reflexivity.
  - lia.
  - unfold Cb_wf. cbn [rd_cb cb_buffer_size cb_get cb_put]. lia.
  - vm_compute. discriminate.
  - vm_compute. reflexivity.
  - exists d'. split; [exact H1 |]. split; [exact H2 |].
    rewrite H3. vm_compute. reflexivity.
Defined.

Lemma LZ_decompress_read_header_eof (struct_ok : bool) (block : option array)
    (d : LZ_Decoder) (rdec : Range_decoder) :
  Cb_wf (rd_cb rdec) -> rd_at_stream_end rdec = true ->
  Rd_available_bytes rdec <= Lh_size ->
  let n := Rd_available_bytes rdec in
  match LZ_decompress_read_header struct_ok block d rdec with
  | inl (ret, d') =>
      if (n =? 0) && negb (ld_first_header d)
      then ret = 0 /\ ld_fatal d' = ld_fatal d /\ ld_lz_errno d' = ld_lz_errno d
      else ret = -1 /\ ld_fatal d' = true /\
           ld_lz_errno d' =
             (if (n =? 0) || Lh_verify_prefix (next_header d rdec) n
              then LZ_unexpected_eof else LZ_header_error)
  | inr _ => False
  end.
Proof.
  intros Hwf Hend Hav n. subst n. change Lh_size with 6 in *.
  unfold Rd_available_bytes in *.
  pose proof (Cb_used_bytes_range _ Hwf) as Hur.
  set (rdec1 := rd_with_member_position rdec 0).
  assert (Hwf1 : Cb_wf (rd_cb rdec1)) by exact Hwf.
  destruct (Rd_read_data_content rdec1 6 Hwf1 ltac:(lia))
    as (K1 & K2 & K3 & _ & _ & _ & K7 & _).
  destruct (Cb_read_data_content (rd_cb rdec) 6 Hwf ltac:(lia))
    as (_ & _ & C3 & C4 & _).
  unfold Rd_available_bytes in K1, K2.
  change (rd_cb rdec1) with (rd_cb rdec) in K1, K2, K3.
  change (rd_at_stream_end rdec1) with (rd_at_stream_end rdec) in K7.
  rewrite Z.min_l in * by lia.
  set (n := Cb_used_bytes (rd_cb rdec)) in *.
  assert (Hhdr : firstn (Z.to_nat n) (Cb_content (rd_cb rdec)) =
                 firstn 6 (Cb_content (rd_cb rdec))).
  { pose proof (Cb_content_length (rd_cb rdec)) as Hl. fold n in Hl.
    rewrite !firstn_all2 by lia. reflexivity. }
  unfold LZ_decompress_read_header. cbv zeta. fold rdec1.
  change Lh_size with 6.
  change (Rd_available_bytes rdec1) with n.
  change (rd_at_stream_end rdec1) with (rd_at_stream_end rdec).
  rewrite Hend. cbn [negb]. rewrite andb_false_r.
  unfold Rd_finished at 1.
  change (rd_at_stream_end rdec1) with (rd_at_stream_end rdec).
  change (rd_cb rdec1) with (rd_cb rdec). rewrite Hend. cbn [andb].
  pose proof (Cb_empty_used _ Hwf) as Hemp. fold n in Hemp.
  destruct (Z.eqb_spec n 0) as [E0 | E0].
  - assert (Hempty : Cb_empty (rd_cb rdec) = true) by (apply Hemp; exact E0).
    rewrite Hempty. cbn [andb orb].
    destruct (ld_first_header d) eqn:Efirst; ld_simpl; rewrite Efirst; cbn [negb].
    + destruct (Rd_read_data rdec1 6) as [[rd out] rdec2].
      cbn [fst snd] in K1, K2, K3, K7. subst rd.
      rewrite E0. change (0 <? 6) with true. cbn [orb]. ld_simpl.
      change (0 <=? 0) with true. cbn [orb]. ld_simpl.
      repeat split; reflexivity.
    + repeat split; reflexivity.
  - assert (Hempty : Cb_empty (rd_cb rdec) = false).
    { clear Hemp. destruct (Cb_empty (rd_cb rdec)) eqn:E; [| reflexivity].
      apply (Cb_empty_used _ Hwf) in E. fold n in E. contradiction. }
    rewrite Hempty. cbn [andb orb].
    destruct (Rd_read_data rdec1 6) as [[rd out] rdec2].
    cbn [fst snd] in K1, K2, K3, K7. subst rd out.
    assert (Hfin : (n <? 6) || Rd_finished rdec2 = true).
    { destruct (Z.ltb_spec n 6); [reflexivity |].
      cbn [orb]. unfold Rd_finished. rewrite K7, Hend, K3. cbn [andb].
      apply (Cb_empty_used _ C3). lia. }
    rewrite Hfin. ld_simpl. rewrite Hhdr. fold (next_header d rdec).
    destruct (Z.leb_spec n 0); [lia |]. cbn [orb].
    destruct (Lh_verify_prefix (next_header d rdec) n); ld_simpl;
      repeat split; reflexivity.
Qed.

(** X17: what [LZ_decompress_read] does when the stream has been finished
    and at most 6 bytes are left.  With no byte left after at least one
    member it returns 0: the data has ended.  With no byte at all before any
    member, or with bytes that start the magic, it returns -1 with
    [LZ_unexpected_eof]; with other bytes, -1 with [LZ_header_error]. *)
Theorem LZ_decompress_read_truncated_header (fuel : nat) (struct_ok : bool)
    (block : option array) (d : LZ_Decoder) (rdec : Range_decoder) (size : Z) :
  ld_rdec d = Some rdec -> ld_lz_decoder d = None ->
  ld_fatal d = false -> ld_seeking d = false -> 0 <= size ->
  Cb_wf (rd_cb rdec) -> rd_at_stream_end rdec = true ->
  Rd_available_bytes rdec <= Lh_size ->
  let n := Rd_available_bytes rdec in
  exists ret d',
    LZ_decompress_read fuel struct_ok block d size = Some (ret, [], d') /\
    if (n =? 0) && negb (ld_first_header d)
    then ret = 0 /\ ld_fatal d' = false /\
         LZ_decompress_errno d' = LZ_decompress_errno d
    else ret = -1 /\ ld_fatal d' = true /\
         LZ_decompress_errno d' =
           (if (n =? 0) || Lh_verify_prefix (next_header d rdec) n
            then LZ_unexpected_eof else LZ_header_error).
Proof.
  intros Hr Hl Hf Hs Hsz Hwf Hend Hav n.
  rewrite (LZ_decompress_read_fresh fuel struct_ok block d rdec size Hr Hl Hf Hs Hsz).
  pose proof (LZ_decompress_read_header_eof struct_ok block d rdec Hwf Hend Hav) as H.
  cbv zeta in H. fold n in H.
  destruct (LZ_decompress_read_header struct_ok block d rdec)
    as [[ret d'] | [[d' r'] lzd]]; [| contradiction].
  exists ret, d'. split; [reflexivity |].
  destruct ((n =? 0) && negb (ld_first_header d)).
  - destruct H as (H1 & H2 & H3). rewrite H2, Hf.
    split; [exact H1 |]. split; [reflexivity | exact H3].
  - exact H.
Qed.

Lemma LZ_decompress_read_truncated_header_witness :
  exists ret d',
    LZ_decompress_read 1 true (Some fresh_block)
      (decoder_with_input [76; 90; 73] true) 100 = Some (ret, [], d') /\
    ret = -1 /\ ld_fatal d' = true /\ LZ_decompress_errno d' = LZ_unexpected_eof.
Proof.
  destruct (LZ_decompress_read_truncated_header 1 true (Some fresh_block)
              (decoder_with_input [76; 90; 73] true)
              (mkRd (mkCb (awrite fresh_block 0 [76; 90; 73]) 65547 0 3)
                    0 0 0xFFFFFFFF true false) 100)
    as (ret & d' & H1 & H2).
  - reflexivity.
  - reflexivity.
  - reflexivity.
  - reflexivity.
  - lia.
  - unfold Cb_wf. cbn [rd_cb cb_buffer_size cb_get cb_put]. lia.
  - reflexivity.
  - vm_compute. discriminate.
  - exists ret, d'. split; [exact H1 |]. exact H2.
Defined.

Lemma Rd_write_data_content (rdec : Range_decoder) (buffer : list Z) (size : Z) :
  Cb_wf (rd_cb rdec) -> 0 <= size <= 0x7FFFFFFF ->
  size <= Z.of_nat (length buffer) ->
  let k := Z.min (Rd_free_bytes rdec) size in
  fst (Rd_write_data rdec buffer size) = k /\
  Cb_wf (rd_cb (snd (Rd_write_data rdec buffer size))) /\
  Cb_content (rd_cb (snd (Rd_write_data rdec buffer size))) =
    Cb_content (rd_cb rdec) ++ firstn (Z.to_nat k) buffer /\
  snd (Rd_write_data rdec buffer size) =
    rd_with_cb rdec (rd_cb (snd (Rd_write_data rdec buffer size))).
Proof.
  intros Hwf Hs Hl k. subst k. unfold Rd_write_data, Rd_free_bytes.
  pose proof (Cb_used_free _ Hwf) as Huf.
  pose proof (Cb_used_bytes_range _ Hwf) as Hur.
  destruct (rd_at_stream_end rdec) eqn:Eend; cbn [orb].
  - rewrite Z.min_l by lia. cbn [fst snd firstn Z.to_nat]. rewrite app_nil_r.
    repeat split; try apply Hwf. destruct rdec; reflexivity.
  - destruct (Z.leb_spec size 0).
    + assert (size = 0) by lia. subst size. rewrite Z.min_r by lia.
      cbn [fst snd firstn Z.to_nat]. rewrite app_nil_r.
      repeat split; try apply Hwf. destruct rdec; reflexivity.
    + rewrite u32_small by lia.
      destruct (Cb_write_data_content (rd_cb rdec) buffer size Hwf ltac:(lia) Hl)
        as (W1 & W2 & _ & W4 & _).
      destruct (Cb_write_data (rd_cb rdec) buffer size) as [n cb].
      cbn [fst snd] in *.
      split; [exact W1 |]. split; [exact W2 |]. split; [exact W4 | reflexivity].
Qed.

(** X18: [LZ_decompress_write], on a valid handle that is neither fatal nor
    seeking, takes [min(LZ_decompress_write_size, size)] bytes - none once
    the stream has been finished - and appends them to the buffered input;
    nothing else in the handle changes. *)
Theorem LZ_decompress_write_appends (d : LZ_Decoder) (rdec : Range_decoder)
    (buffer : list Z) (size : Z) :
  ld_rdec d = Some rdec -> ld_fatal d = false -> ld_seeking d = false ->
  Cb_wf (rd_cb rdec) -> 0 <= size <= 0x7FFFFFFF ->
  size <= Z.of_nat (length buffer) ->
  let k := Z.min (fst (LZ_decompress_write_size d)) size in
  exists rdec',
    LZ_decompress_write d buffer size = (k, ld_with_rdec d (Some rdec')) /\
    (rd_at_stream_end rdec = true -> k = 0) /\
    (rd_at_stream_end rdec = false -> k = Z.min (Cb_free_bytes (rd_cb rdec)) size) /\
    Cb_content (rd_cb rdec') =
      Cb_content (rd_cb rdec) ++ firstn (Z.to_nat k) buffer /\
    rdec' = rd_with_cb rdec (rd_cb rdec').
Proof.
  intros Hr Hf Hs Hwf Hsz Hl k.
  assert (Hws : fst (LZ_decompress_write_size d) = Rd_free_bytes rdec).
  { unfold LZ_decompress_write_size, verify_decoder. rewrite Hr.
    cbv beta iota zeta. rewrite Hr, Hf. reflexivity. }
  subst k. rewrite Hws.
  destruct (Rd_write_data_content rdec buffer size Hwf Hsz Hl)
    as (W1 & _ & W3 & W4).
  pose proof (Cb_used_free _ Hwf) as Huf.
  pose proof (Cb_used_bytes_range _ Hwf) as Hur.
  exists (snd (Rd_write_data rdec buffer size)).
  split; [| split; [| split; [| split]]].
  - unfold LZ_decompress_write, verify_decoder. rewrite Hr.
    cbv beta iota zeta. rewrite Hr, Hf. cbn [negb orb].
    destruct (Z.ltb_spec size 0); [lia |].
    destruct (Rd_write_data rdec buffer size) as [n r1]. cbn [fst snd] in *.
    cbn [LZ_decompress_write_loop]. rewrite Hs. cbn [negb]. rewrite W1.
    reflexivity.
  - intros E. unfold Rd_free_bytes. rewrite E. lia.
  - intros E. unfold Rd_free_bytes. rewrite E. reflexivity.
  - exact W3.
  - exact W4.
Qed.

Lemma LZ_decompress_write_appends_witness :
  let d := decoder_with_input [76; 90] false in
  let k := Z.min (fst (LZ_decompress_write_size d)) 4 in
  exists rdec',
    LZ_decompress_write d [73; 80; 1; 12] 4 = (k, ld_with_rdec d (Some rdec')) /\
    Cb_content (rd_cb rdec') = [76; 90] ++ firstn (Z.to_nat k) [73; 80; 1; 12].
Proof.
  cbv zeta.
  destruct (LZ_decompress_write_appends (decoder_with_input [76; 90] false)
              (mkRd (mkCb (awrite fresh_block 0 [76; 90]) 65547 0 2)
                    0 0 0xFFFFFFFF false false) [73; 80; 1; 12] 4)
    as (rdec' & H1 & _ & _ & H4 & _).
  - reflexivity.
  - reflexivity.
  - reflexivity.
  - unfold Cb_wf. cbn [rd_cb cb_buffer_size cb_get cb_put]. lia.
  - lia.
  - cbn [length]. lia.
  - exists rdec'. split; [exact H1 |]. rewrite H4. f_equal.
Defined.

Lemma u64_u64_add (a b : Z) : u64 (u64 a + b) = u64 (a + b).
Proof. unfold u64. rewrite Z.add_mod_idemp_l by lia. reflexivity. Qed.

Lemma u64_add_u64_r (a b : Z) : u64 (a + u64 b) = u64 (a + b).
Proof. unfold u64. rewrite Z.add_mod_idemp_r by lia. reflexivity. Qed.

Lemma u64_purge_sum (p mp u s l : Z) :
  u + s = l ->
  u64 (u64 (u64 (p + u64 (mp + u)) + s) + 0) = u64 (u64 (p + mp) + l).
Proof.
  intros <-. unfold u64. rewrite Z.add_0_r, Z.mod_mod by lia.
  rewrite !Z.add_mod_idemp_l by lia.
  replace (p + (mp + u) mod 2 ^ 64 + s) with ((mp + u) mod 2 ^ 64 + (p + s)) by lia.
  rewrite Z.add_mod_idemp_l by lia.
  apply f_equal2; [lia | reflexivity].
Qed.

Lemma Cb_reset_content (cb : Circular_buffer) : Cb_content (Cb_reset cb) = [].
Proof. reflexivity. Qed.

Lemma LZ_decompress_sync_to_member_spec (d : LZ_Decoder) (rdec : Range_decoder) :
  ld_rdec d = Some rdec -> Cb_wf (rd_cb rdec) ->
  let c := Cb_content (rd_cb rdec) in
  exists d' r' k,
    LZ_decompress_sync_to_member d = (0, d') /\
    ld_rdec d' = Some r' /\
    ld_fatal d' = false /\ ld_lz_errno d' = LZ_ok /\ ld_lz_decoder d' = None /\
    (k <= length c)%nat /\
    Cb_content (rd_cb r') = skipn k c /\
    fst (LZ_decompress_total_in_size d') =
      u64 (fst (LZ_decompress_total_in_size d) + Z.of_nat k) /\
    ((exists j, header_at (skipn j c) = true) ->
       header_at (skipn k c) = true /\
       (forall j, (j < k)%nat -> header_at (skipn j c) = false) /\
       ld_seeking d' = false /\
       rd_at_stream_end r' = rd_at_stream_end rdec) /\
    ((forall j, header_at (skipn j c) = false) ->
       if rd_at_stream_end rdec
       then k = length c /\ ld_seeking d' = false /\
            rd_at_stream_end r' = true /\ rd_member_position r' = 0
       else (length c < k + 6)%nat /\ ld_seeking d' = true /\
            rd_at_stream_end r' = false).
Proof.
  intros Hr Hwf c.
  pose proof (Rd_find_header_spec rdec Hwf) as S. cbv zeta in S.
  destruct S as (S1 & S2 & S3 & S4 & S5 & S6 & S7 & S8 & S9).
  fold c in S3, S4, S6.
  pose proof (Cb_content_length (rd_cb rdec)) as Hlen. fold c in Hlen.
  pose proof (Cb_used_bytes_range _ Hwf) as Hur.
  pose proof (Cb_used_bytes_range _ S2) as Hur2.
  pose proof (Cb_content_length (rd_cb (snd (Rd_find_header rdec)))) as Hlen2.
  rewrite S3, length_skipn in Hlen2.
  unfold Rd_available_bytes in S1.
  assert (Htot : fst (LZ_decompress_total_in_size d) =
                 u64 (ld_partial_in_size d + rd_member_position rdec)).
  { unfold LZ_decompress_total_in_size, verify_decoder. rewrite Hr.
    cbv beta iota zeta. rewrite Hr. reflexivity. }
  rewrite Htot.
  unfold LZ_decompress_sync_to_member, verify_decoder. rewrite Hr.
  cbv beta iota zeta. rewrite Hr.
  destruct (Rd_find_header rdec) as [[found skipped] r] eqn:EF.
  cbn [fst snd] in *.
  destruct found.
  - exists (ld_with_fatal (ld_with_lz_errno (ld_with_rdec
              (ld_with_partial_in_size (ld_with_seeking (ld_with_lz_decoder d None) false)
                 (u64 (ld_partial_in_size d + skipped))) (Some r)) LZ_ok) false),
           r, (Z.to_nat skipped).
    split; [reflexivity |]. split; [reflexivity |]. split; [reflexivity |].
    split; [reflexivity |]. split; [reflexivity |]. split; [lia |].
    split; [exact S3 |].
    split.
    { unfold LZ_decompress_total_in_size, verify_decoder. cbn [ld_rdec
        ld_with_fatal ld_with_lz_errno ld_with_rdec ld_with_partial_in_size
        ld_with_seeking ld_with_lz_decoder ld_partial_in_size fst].
      rewrite S8, Z2Nat.id by lia. rewrite !u64_u64_add. f_equal. lia. }
    split.
    + intros _. rewrite <- S3. split; [apply S5; reflexivity |].
      split; [exact S4 |]. split; [reflexivity | exact S9].
    + intros Hno. specialize (S5 eq_refl). rewrite S3 in S5.
      rewrite Hno in S5. discriminate S5.
  - specialize (S6 eq_refl). specialize (S7 eq_refl).
    rewrite S3, length_skipn in S7.
    destruct (rd_at_stream_end r) eqn:Eend; cbn [negb].
    + exists (ld_with_fatal (ld_with_lz_errno (ld_with_rdec
              (ld_with_partial_in_size
                 (ld_with_partial_in_size
                    (ld_with_seeking (ld_with_lz_decoder d None) false)
                    (u64 (ld_partial_in_size d + fst (Rd_purge r))))
                 (u64 (u64 (ld_partial_in_size d + fst (Rd_purge r)) + skipped)))
              (Some (snd (Rd_purge r)))) LZ_ok) false),
           (snd (Rd_purge r)), (length c).
      split; [reflexivity |]. split; [reflexivity |]. split; [reflexivity |].
      split; [reflexivity |]. split; [reflexivity |]. split; [lia |].
      split; [rewrite skipn_all; reflexivity |].
      split.
      { unfold LZ_decompress_total_in_size, verify_decoder, Rd_purge. cbn [ld_rdec
          ld_with_fatal ld_with_lz_errno ld_with_rdec ld_with_partial_in_size
          ld_with_seeking ld_with_lz_decoder ld_partial_in_size fst snd
          rd_member_position rd_with_at_stream_end rd_with_member_position].
        rewrite S8.
        apply u64_purge_sum. lia. }
      split.
      * intros [j Hj]. rewrite S6 in Hj. discriminate Hj.
      * intros _. rewrite <- S9. split; [reflexivity |].
        split; [reflexivity |]. split; reflexivity.
    + exists (ld_with_fatal (ld_with_lz_errno (ld_with_rdec
              (ld_with_partial_in_size (ld_with_seeking (ld_with_lz_decoder d None) true)
                 (u64 (ld_partial_in_size d + skipped))) (Some r)) LZ_ok) false),
           r, (Z.to_nat skipped).
      split; [reflexivity |]. split; [reflexivity |]. split; [reflexivity |].
      split; [reflexivity |]. split; [reflexivity |]. split; [lia |].
      split; [exact S3 |].
      split.
      { unfold LZ_decompress_total_in_size, verify_decoder. cbn [ld_rdec
          ld_with_fatal ld_with_lz_errno ld_with_rdec ld_with_partial_in_size
          ld_with_seeking ld_with_lz_decoder ld_partial_in_size fst].
        rewrite S8, Z2Nat.id by lia. rewrite !u64_u64_add. f_equal. lia. }
      split.
      * intros [j Hj]. rewrite S6 in Hj. discriminate Hj.
      * intros _. rewrite <- S9. split; [lia |]. split; [reflexivity | exact Eend].
Qed.

(** X19: [LZ_decompress_sync_to_member] drops the member being decoded and
    clears the error state; it discards input up to the first position that
    holds a complete valid header, counting every discarded byte in the
    total input size.  Without such a position it discards everything and
    ends the stream if the input was finished, and otherwise keeps at most
    5 bytes and goes on seeking. *)
Theorem LZ_decompress_sync_to_member_skips (d : LZ_Decoder) (rdec : Range_decoder) :
  ld_rdec d = Some rdec -> Cb_wf (rd_cb rdec) ->
  let c := Cb_content (rd_cb rdec) in
  exists d' r' k,
    LZ_decompress_sync_to_member d = (0, d') /\
    ld_rdec d' = Some r' /\
    ld_fatal d' = false /\ ld_lz_errno d' = LZ_ok /\ ld_lz_decoder d' = None /\
    (k <= length c)%nat /\
    Cb_content (rd_cb r') = skipn k c /\
    fst (LZ_decompress_total_in_size d') =
      u64 (fst (LZ_decompress_total_in_size d) + Z.of_nat k) /\
    ((exists j, header_at (skipn j c) = true) ->
       header_at (skipn k c) = true /\
       (forall j, (j < k)%nat -> header_at (skipn j c) = false) /\
       ld_seeking d' = false /\
       rd_at_stream_end r' = rd_at_stream_end rdec) /\
    ((forall j, header_at (skipn j c) = false) ->
       if rd_at_stream_end rdec
       then k = length c /\ ld_seeking d' = false /\
            rd_at_stream_end r' = true /\ rd_member_position r' = 0
       else (length c < k + 6)%nat /\ ld_seeking d' = true /\
            rd_at_stream_end r' = false).
Proof. exact (LZ_decompress_sync_to_member_spec d rdec). Qed.

Lemma LZ_decompress_sync_to_member_skips_witness :
  exists d' r',
    LZ_decompress_sync_to_member
      (decoder_with_input [7; 76; 90; 76; 90; 73; 80; 1; 12; 9] false) = (0, d') /\
    ld_rdec d' = Some r' /\
    Cb_content (rd_cb r') = [76; 90; 73; 80; 1; 12; 9] /\
    fst (LZ_decompress_total_in_size d') = 3 /\
    ld_seeking d' = false.
Proof.
  destruct (LZ_decompress_sync_to_member_skips
              (decoder_with_input [7; 76; 90; 76; 90; 73; 80; 1; 12; 9] false)
              (mkRd (mkCb (awrite fresh_block 0 [7; 76; 90; 76; 90; 73; 80; 1; 12; 9])
                          65547 0 10)
                    0 0 0xFFFFFFFF false false))
    as (d' & r' & k & H1 & H2 & _ & _ & _ & H6 & H7 & H8 & H9 & _).
  - reflexivity.
  - unfold Cb_wf. cbn [rd_cb cb_buffer_size cb_get cb_put]. lia.
  - destruct H9 as (G1 & G2 & G3 & _); [exists 3%nat; reflexivity |].
    assert (Hk : k = 3%nat).
    { change (Cb_content _) with [7; 76; 90; 76; 90; 73; 80; 1; 12; 9] in G1, G2, H6.
      cbn [length] in H6.
      destruct k as [| [| [| [| k]]]];
        [discriminate G1 | discriminate G1 | discriminate G1 | reflexivity |].
      specialize (G2 3%nat ltac:(lia)). discriminate G2. }
    subst k. exists d', r'.
    split; [exact H1 |]. split; [exact H2 |]. split; [exact H7 |].
    split; [exact H8 | exact G3].
Defined.

(** ** The decoded data is delivered in order *)

Lemma LZd_decode_round_return1 (rdec : Range_decoder) (d : LZ_decoder) :
  LZd_inv d ->
  fst (fst (LZd_decode_round rdec d)) = LZd_return 1 ->
  lzd_cb (snd (LZd_decode_round rdec d)) = lzd_cb d \/
  LZd_inv (snd (LZd_decode_round rdec d)).
Proof.
  intros Hinv. pose proof Hinv as (H1 & H2 & H3 & R0 & R1 & R2 & R3 & Hst).
  unfold LZd_decode_round. cbv zeta.
  destruct (negb (Rd_enough_available_bytes rdec) && negb (rd_at_stream_end rdec)).
  { cbn [fst snd]. intros H. discriminate H. }
  destruct (negb (Rd_enough_available_bytes rdec) && Cb_empty (rd_cb rdec)).
  { cbn [fst snd]. intros H. discriminate H. }
  destruct (negb (LZd_enough_free_bytes d)).
  { cbn [fst snd]. intros H. discriminate H. }
  destruct (Rd_decode_bit_at rdec (lzd_bm_match d) _) as [[bit r1] a1].
  destruct (bit =? 0).
  - destruct (LZd_decode_literal _ _) as [r2 d2]. cbn [fst snd].
    intros H. discriminate H.
  - destruct (Rd_decode_bit_at r1 _ _) as [[bit2 r2] a2].
    destruct (negb (bit2 =? 0)).
    + destruct (LZd_decode_rep _ _ _) as [[[len |] r3] d3]; cbn [fst snd];
        intros H; discriminate H.
    + match goal with
      | |- context [LZd_decode_match ?r ?d0 ?ps] =>
          pose proof (LZd_decode_match_step r d0 ps) as Hm;
          destruct (LZd_decode_match r d0 ps) as [[m r3] d3]
      end.
      cbv zeta in Hm. cbn [fst snd] in Hm.
      destruct Hm as (M1 & M2 & M3 & M4 & M5 & M6 & M7 & M8 & M9 & Hm).
      lzd_simpl.
      destruct m as [len distance | len].
      * match goal with |- context [if ?c then _ else _] => destruct c end;
          cbn [fst snd]; intros H; [| discriminate H].
        left. lzd_simpl. exact M1.
      * intros _. right.
        apply LZd_decode_marker_step.
        apply (LZd_inv_fields d); try assumption; congruence.
Qed.

Lemma LZd_decode_loop_wf (fuel : nat) (rdec : Range_decoder) (d : LZ_decoder)
    (code : Z) (rdec' : Range_decoder) (d' : LZ_decoder) :
  LZd_inv d ->
  LZd_decode_loop fuel rdec d = Some (code, rdec', d') ->
  Cb_wf (lzd_cb d').
Proof.
  revert rdec d. induction fuel as [| fuel IH]; intros rdec d Hinv H;
    [discriminate |].
  cbn [LZd_decode_loop] in H.
  destruct (Rd_finished rdec).
  { injection H as <- <- <-. apply Hinv. }
  destruct (LZd_decode_round_step rdec d Hinv) as [A B].
  pose proof (LZd_decode_round_return1 rdec d Hinv) as C.
  destruct (LZd_decode_round rdec d) as [[flow r1] d1]. cbn [fst snd] in A, B, C.
  destruct flow as [| | c].
  - exact (IH r1 d1 (B ltac:(discriminate)) H).
  - injection H as <- <- <-. apply B. discriminate.
  - injection H as <- <- <-.
    destruct (Z.eq_dec c 1) as [-> | Hc].
    + destruct (C eq_refl) as [E | I]; [rewrite E; apply Hinv | apply I].
    + apply B. intros E. injection E as E. exact (Hc E).
Qed.

Lemma LZd_decode_member_wf (fuel : nat) (rdec : Range_decoder) (d : LZ_decoder)
    (code : Z) (rdec' : Range_decoder) (d' : LZ_decoder) :
  LZd_inv d ->
  LZd_decode_member fuel rdec d = Some (code, rdec', d') ->
  Cb_wf (lzd_cb d').
Proof.
  intros Hinv. unfold LZd_decode_member.
  destruct (lzd_member_finished d).
  { intros H. injection H as <- <- <-. apply Hinv. }
  destruct (Rd_try_reload rdec) as [ok r1].
  destruct (negb ok).
  { intros H. injection H as <- <- <-. apply Hinv. }
  destruct (lzd_verify_trailer_pending d).
  - unfold LZd_try_verify_trailer.
    destruct (Rd_available_bytes r1 <? Lt_size).
    + intros H. injection H as <- <- <-. apply Hinv.
    + cbv zeta. destruct (Rd_read_data r1 Lt_size) as [[n out] r2].
      match goal with |- context [if ?c then _ else _] => destruct c end;
        intros H; injection H as <- <- <-; lzd_simpl; apply Hinv.
  - apply LZd_decode_loop_wf. exact Hinv.
Qed.

Lemma Cb_content_used (cb : Circular_buffer) :
  Cb_wf cb -> Z.of_nat (length (Cb_content cb)) = Cb_used_bytes cb.
Proof.
  intros Hwf. pose proof (Cb_used_bytes_range cb Hwf).
  rewrite Cb_content_length. lia.
Qed.

Lemma LZ_decompress_get_data_spec (d : LZ_Decoder) (lzd : LZ_decoder) (size : Z) :
  Cb_wf (lzd_cb lzd) -> 0 <= size <= 0x7FFFFFFF ->
  let r := LZ_decompress_get_data d lzd size in
  let c := Cb_content (lzd_cb lzd) in
  let n := Z.min (Z.of_nat (length c)) size in
  fst (fst r) = n /\ snd (fst r) = firstn (Z.to_nat n) c /\
  exists lzd',
    snd r = ld_with_lz_decoder d (Some lzd') /\
    Cb_content (lzd_cb lzd') = skipn (Z.to_nat n) c /\
    LZd_data_position lzd' = LZd_data_position lzd /\
    (LZd_inv lzd -> LZd_inv lzd').
Proof.
  intros Hwf Hs r c n. subst r c n.
  rewrite (Cb_content_used _ Hwf).
  unfold LZ_decompress_get_data. rewrite u32_small by lia.
  destruct (Cb_read_data_content (lzd_cb lzd) size Hwf ltac:(lia))
    as (C1 & C2 & C3 & C4 & C5 & C6 & C7 & C8).
  destruct (Cb_read_data (lzd_cb lzd) size) as [[n out] cb]. cbn [fst snd] in *.
  split; [exact C1 |]. split; [exact C2 |].
  exists (lzd_with_cb lzd cb).
  split; [reflexivity |]. split; [exact C5 |].
  split; [unfold LZd_data_position; lzd_simpl; rewrite C7; reflexivity |].
  intros (H1 & H2 & H3 & R). unfold LZd_inv. lzd_simpl.
  split; [exact C3 |].
  split; [unfold Cb_bytes in *; rewrite C6; exact H2 |].
  split; [rewrite C8; exact H3 | exact R].
Qed.

Lemma Cb_empty_content (cb : Circular_buffer) :
  Cb_wf cb -> Cb_empty cb = true -> Cb_content cb = [].
Proof.
  intros Hwf He. apply (Cb_empty_used cb Hwf) in He.
  pose proof (Cb_content_used cb Hwf) as Hl. rewrite He in Hl.
  destruct (Cb_content cb); [reflexivity | discriminate Hl].
Qed.

Lemma LZ_decompress_read_member_spec (fuel : nat) (d : LZ_Decoder)
    (rdec : Range_decoder) (lzd : LZ_decoder) (size n : Z) (out : list Z)
    (d' : LZ_Decoder) :
  LZd_inv lzd -> 0 <= size <= 0x7FFFFFFF ->
  LZ_decompress_read_member fuel d rdec lzd size = Some (n, out, d') ->
  exists (new : list Z) (lzd' : LZ_decoder) (rdec' : Range_decoder),
    all_bytes new /\
    ld_lz_decoder d' = Some lzd' /\ ld_rdec d' = Some rdec' /\
    ld_partial_out_size d' = ld_partial_out_size d /\
    LZd_data_position lzd' =
      u64 (LZd_data_position lzd + Z.of_nat (length new)) /\
    (ld_fatal d' = false -> LZd_inv lzd') /\
    let avail := Cb_content (lzd_cb lzd) ++ new in
    (n = -1 /\ out = [] /\ avail = [] /\ ld_fatal d' = true \/
     n = Z.min (Z.of_nat (length avail)) size /\
     out = firstn (Z.to_nat n) avail /\
     Cb_content (lzd_cb lzd') = skipn (Z.to_nat n) avail).
Proof.
  intros Hinv Hs. unfold LZ_decompress_read_member.
  destruct (LZd_decode_member fuel rdec lzd) as [[[result r1] lzd1] |] eqn:ED;
    [| discriminate].
  destruct (LZd_decode_member_grows fuel rdec lzd result r1 lzd1 Hinv ED)
    as [(new & B1 & B2 & B3 & B4 & B5) Hinv1].
  pose proof (LZd_decode_member_wf fuel rdec lzd result r1 lzd1 Hinv ED) as Hwf1.
  assert (Hget : forall d0 rdec0,
            LZ_decompress_get_data d0 lzd1 size = (n, out, d') ->
            ld_lz_decoder d0 = Some lzd1 -> ld_rdec d0 = Some rdec0 ->
            ld_partial_out_size d0 = ld_partial_out_size d ->
            (ld_fatal d0 = false -> LZd_inv lzd1) ->
            exists (new : list Z) (lzd' : LZ_decoder) (rdec' : Range_decoder),
              all_bytes new /\
              ld_lz_decoder d' = Some lzd' /\ ld_rdec d' = Some rdec' /\
              ld_partial_out_size d' = ld_partial_out_size d /\
              LZd_data_position lzd' =
                u64 (LZd_data_position lzd + Z.of_nat (length new)) /\
              (ld_fatal d' = false -> LZd_inv lzd') /\
              let avail := Cb_content (lzd_cb lzd) ++ new in
              (n = -1 /\ out = [] /\ avail = [] /\ ld_fatal d' = true \/
               n = Z.min (Z.of_nat (length avail)) size /\
               out = firstn (Z.to_nat n) avail /\
               Cb_content (lzd_cb lzd') = skipn (Z.to_nat n) avail)).
  { intros d0 rdec0 EG E1 E2 E3 E4.
    destruct (LZ_decompress_get_data_spec d0 lzd1 size Hwf1 Hs)
      as (G1 & G2 & lzd' & G3 & G4 & G5 & G6).
    rewrite EG in G1, G2, G3. cbn [fst snd] in G1, G2, G3.
    exists new, lzd', rdec0. subst d'. ld_simpl.
    split; [exact B1 |]. split; [reflexivity |]. split; [exact E2 |].
    split; [exact E3 |]. split; [rewrite G5; exact B3 |].
    split; [intros Hf; apply G6, E4, Hf |].
    cbv zeta. rewrite <- B2. right.
    rewrite <- G1 in G2, G4.
    split; [exact G1 |]. split; [exact G2 | exact G4]. }
  destruct (Z.eqb_spec result 0) as [-> | Hres]; cbn [negb].
  - intros H. injection H as H.
    refine (Hget _ r1 H eq_refl eq_refl eq_refl _).
    intros _. apply Hinv1. discriminate.
  - destruct (result =? 2); [| destruct (result =? 5)];
      (destruct (Cb_empty (lzd_cb lzd1)) eqn:Eemp;
       [ intros H; injection H as <- <- <-;
         exists new, lzd1; eexists; ld_simpl;
         split; [exact B1 |]; split; [reflexivity |]; split; [reflexivity |];
         split; [reflexivity |]; split; [exact B3 |];
         split; [intros Hf; discriminate Hf |];
         cbv zeta; rewrite <- B2; left;
         split; [reflexivity |]; split; [reflexivity |];
         split; [apply Cb_empty_content; assumption | reflexivity]
       | intros H; injection H as H;
         refine (Hget _ _ H eq_refl eq_refl eq_refl _);
         intros Hf; discriminate Hf ]).
Qed.

(** X20: while a member is being decoded, [LZ_decompress_read] hands out
    the decoded bytes in the order they were decoded: the bytes still held
    from earlier calls first, then the bytes decoded in this call; it
    returns as many of them as [size] allows and keeps the rest, and every
    byte decoded is counted in the total output size.  It reports an error
    (-1) only once no decoded byte is left to hand out. *)
Theorem LZ_decompress_read_delivers_in_order (fuel : nat) (struct_ok : bool)
    (block : option array) (d : LZ_Decoder) (rdec : Range_decoder)
    (lzd : LZ_decoder) (size n : Z) (out : list Z) (d' : LZ_Decoder) :
  ld_rdec d = Some rdec -> ld_lz_decoder d = Some lzd ->
  ld_fatal d = false -> ld_seeking d = false ->
  LZd_member_finished lzd = false -> LZd_inv lzd ->
  0 <= size <= 0x7FFFFFFF ->
  LZ_decompress_read fuel struct_ok block d size = Some (n, out, d') ->
  exists (new : list Z) (lzd' : LZ_decoder),
    all_bytes new /\
    ld_lz_decoder d' = Some lzd' /\
    (ld_fatal d' = false -> LZd_inv lzd') /\
    fst (LZ_decompress_total_out_size d') =
      u64 (fst (LZ_decompress_total_out_size d) + Z.of_nat (length new)) /\
    let avail := Cb_content (lzd_cb lzd) ++ new in
    (n = -1 /\ out = [] /\ avail = [] /\ ld_fatal d' = true \/
     n = Z.min (Z.of_nat (length avail)) size /\
     out = firstn (Z.to_nat n) avail /\
     Cb_content (lzd_cb lzd') = skipn (Z.to_nat n) avail).
Proof.
  intros Hr Hl Hf Hk Hm Hinv Hs.
  unfold LZ_decompress_read, verify_decoder. rewrite Hr.
  cbv beta iota zeta. rewrite Hr. cbn [negb].
  destruct (Z.ltb_spec size 0); [lia |].
  rewrite Hf, Hk, Hl, Hm. rewrite Hl.
  intros Hrun.
  destruct (LZ_decompress_read_member_spec fuel d rdec lzd size n out d' Hinv Hs Hrun)
    as (new & lzd' & rdec' & S1 & S2 & S3 & S4 & S5 & S6 & S7).
  exists new, lzd'.
  split; [exact S1 |]. split; [exact S2 |]. split; [exact S6 |].
  split; [| exact S7].
  unfold LZ_decompress_total_out_size, verify_decoder. rewrite Hr, S3.
  cbv beta iota zeta. rewrite Hr, S3, Hl, S2. cbn [fst].
  rewrite S4, S5, u64_add_u64_r, u64_u64_add. unfold u64.
  apply f_equal2; [lia | reflexivity].
Qed.

Lemma LZ_decompress_read_delivers_in_order_witness :
  exists (new : list Z) (lzd' : LZ_decoder),
    all_bytes new /\
    ld_lz_decoder (snd member_handle_read) = Some lzd' /\
    (ld_fatal (snd member_handle_read) = false -> LZd_inv lzd') /\
    fst (LZ_decompress_total_out_size (snd member_handle_read)) =
      u64 (fst (LZ_decompress_total_out_size member_handle) + Z.of_nat (length new)) /\
    let avail := Cb_content (lzd_cb fresh_decoder) ++ new in
    (fst (fst member_handle_read) = -1 /\ snd (fst member_handle_read) = [] /\
     avail = [] /\ ld_fatal (snd member_handle_read) = true \/
     fst (fst member_handle_read) = Z.min (Z.of_nat (length avail)) 1 /\
     snd (fst member_handle_read) =
       firstn (Z.to_nat (fst (fst member_handle_read))) avail /\
     Cb_content (lzd_cb lzd') =
       skipn (Z.to_nat (fst (fst member_handle_read))) avail).
Proof.
  apply (LZ_decompress_read_delivers_in_order 4 true None member_handle
           loaded_range_decoder fresh_decoder 1).
  - reflexivity.
  - reflexivity.
  - reflexivity.
  - reflexivity.
  - reflexivity.
  - apply (LZd_init_inv fresh_block 4096 fresh_decoder).
    + reflexivity.
    + intros x. unfold fresh_block. lia.
    + reflexivity.
  - lia.
  - unfold member_handle_read.
    destruct (LZ_decompress_read 4 true None member_handle 1)
      as [[[n out] d'] |] eqn:E; [reflexivity |].
    exfalso. vm_compute in E. discriminate E.
Defined.

Lemma member_handle_read_values :
  fst (fst member_handle_read) = 1 /\ snd (fst member_handle_read) = [65].
Proof. vm_compute. split; reflexivity. Qed.
